(** * OpenStack resource handlers: a shallow embedding of [plugins/__init__.py]

    The Python module declares the resources of an OpenStack deployment
    (hosts, networks, subnets, routers, ports, security groups, floating
    ips, keystone projects, users and roles), two dependency managers that
    add [requires] edges between declared resources, and one handler per
    resource kind with the operations [check_resource], [_diff],
    [list_changes], [do_changes] and [facts].

    The embedding keeps the source's shape:
    - Python values are a small universal type [value]; dictionaries are
      association lists in insertion order with unique keys;
    - resources are objects in a store, addressed by reference, with
      [getattr]/[setattr];
    - the nova, neutron and keystone clients are an oracle [adapter] that
      answers every call; the calls issued are recorded in a trace;
    - exceptions are results of a state-and-error monad. *)

From Stdlib Require Import List String Ascii ZArith Bool Arith Lia Permutation.
From Stdlib Require Import DecimalString Sorted.
Import ListNotations.
Open Scope list_scope.
Open Scope string_scope.

Set Implicit Arguments.

(* ================================================================== *)
(** * Python values *)
(* ================================================================== *)

#[warnings="-register-all"]
Inductive value : Type :=
| VNone
| VBool (b : bool)
| VInt (z : Z)
| VStr (s : string)
| VList (l : list value)
| VTuple (l : list value)
| VDict (d : list (string * value)).

(** A dictionary in insertion order. *)
Definition dict := list (string * value).

Section value_induction.
Variable P : value -> Prop.
Hypothesis HNone : P VNone.
Hypothesis HBool : forall b, P (VBool b).
Hypothesis HInt : forall z, P (VInt z).
Hypothesis HStr : forall s, P (VStr s).
Hypothesis HList : forall l, Forall P l -> P (VList l).
Hypothesis HTuple : forall l, Forall P l -> P (VTuple l).
Hypothesis HDict : forall d, Forall (fun kv => P (snd kv)) d -> P (VDict d).

Fixpoint value_nested_ind (v : value) : P v :=
    match v with
    | VNone => HNone
    | VBool b => HBool b
    | VInt z => HInt z
    | VStr s => HStr s
    | VList l =>
        HList ((fix go (l : list value) : Forall P l :=
                  match l with
                  | [] => Forall_nil _
                  | x :: l' => Forall_cons _ (value_nested_ind x) (go l')
                  end) l)
    | VTuple l =>
        HTuple ((fix go (l : list value) : Forall P l :=
                   match l with
                   | [] => Forall_nil _
                   | x :: l' => Forall_cons _ (value_nested_ind x) (go l')
                   end) l)
    | VDict d =>
        HDict ((fix go (d : dict) : Forall (fun kv => P (snd kv)) d :=
                  match d with
                  | [] => Forall_nil _
                  | kv :: d' =>
                      Forall_cons (P := fun kv => P (snd kv)) kv
                        (value_nested_ind (snd kv)) (go d')
                  end) d)
    end.
End value_induction.

(** ** Dictionaries *)

(** [d[k]], [None] standing for a missing key. *)
Fixpoint dict_get (d : dict) (k : string) : option value :=
  match d with
  | [] => None
  | (k', v) :: d' => if String.eqb k' k then Some v else dict_get d' k
  end.

(** [k in d] *)
Definition dict_has (d : dict) (k : string) : bool :=
  match dict_get d k with Some _ => true | None => false end.

(** [d[k] = v]: an existing key keeps its position, a new key goes last. *)
Fixpoint dict_set (d : dict) (k : string) (v : value) : dict :=
  match d with
  | [] => [(k, v)]
  | (k', v') :: d' =>
      if String.eqb k' k then (k', v) :: d' else (k', v') :: dict_set d' k v
  end.

(** [del d[k]] on a key that is present. *)
Fixpoint dict_del (d : dict) (k : string) : dict :=
  match d with
  | [] => []
  | (k', v') :: d' =>
      if String.eqb k' k then d' else (k', v') :: dict_del d' k
  end.

Definition dict_keys (d : dict) : list string := map fst d.

(** ** Sets of strings, as Python's [set] of keys or names *)

Definition mem (x : string) (l : list string) : bool :=
  existsb (String.eqb x) l.

(** [set(l)]: duplicates dropped, the first occurrence kept. *)
Fixpoint mkset (l : list string) : list string :=
  match l with
  | [] => []
  | x :: l' => x :: filter (fun y => negb (String.eqb x y)) (mkset l')
  end.

(** [a == b] on sets. *)
Definition set_eqb (a b : list string) : bool :=
  forallb (fun x => mem x b) a && forallb (fun x => mem x a) b.

(** [a - b] on sets. *)
Definition set_diff (a b : list string) : list string :=
  filter (fun x => negb (mem x b)) a.

(** ** Equality and truth of values *)

(** Python's [==].  A [bool] is an [int]; dictionaries compare without
    regard to order. *)
Fixpoint py_eq (a b : value) {struct a} : bool :=
  match a, b with
  | VNone, VNone => true
  | VBool x, VBool y => Bool.eqb x y
  | VBool x, VInt y => Z.eqb (Z.b2z x) y
  | VInt x, VBool y => Z.eqb x (Z.b2z y)
  | VInt x, VInt y => Z.eqb x y
  | VStr x, VStr y => String.eqb x y
  | VList x, VList y =>
      (fix go (x y : list value) {struct x} : bool :=
         match x, y with
         | [], [] => true
         | u :: x', w :: y' => py_eq u w && go x' y'
         | _, _ => false
         end) x y
  | VTuple x, VTuple y =>
      (fix go (x y : list value) {struct x} : bool :=
         match x, y with
         | [], [] => true
         | u :: x', w :: y' => py_eq u w && go x' y'
         | _, _ => false
         end) x y
  | VDict x, VDict y =>
      Nat.eqb (List.length x) (List.length y) &&
      (fix go (x : dict) {struct x} : bool :=
         match x with
         | [] => true
         | (k, u) :: x' =>
             match dict_get y k with
             | Some w => py_eq u w
             | None => false
             end && go x'
         end) x
  | _, _ => false
  end.

(** The two local loops of [py_eq], named. *)
Fixpoint list_eq (x y : list value) : bool :=
  match x, y with
  | [], [] => true
  | u :: x', w :: y' => py_eq u w && list_eq x' y'
  | _, _ => false
  end.

Fixpoint dict_sub (x y : dict) : bool :=
  match x with
  | [] => true
  | (k, u) :: x' =>
      match dict_get y k with
      | Some w => py_eq u w
      | None => false
      end && dict_sub x' y
  end.

(** Truth value of an object in a condition. *)
Definition truthy (v : value) : bool :=
  match v with
  | VNone => false
  | VBool b => b
  | VInt z => negb (Z.eqb z 0)
  | VStr s => negb (String.eqb s "")
  | VList l | VTuple l => match l with [] => false | _ => true end
  | VDict d => match d with [] => false | _ => true end
  end.

Definition is_none (v : value) : bool :=
  match v with VNone => true | _ => false end.

(** Representation invariant: the keys of every dictionary are distinct. *)
Fixpoint nodupb (l : list string) : bool :=
  match l with
  | [] => true
  | x :: l' => negb (mem x l') && nodupb l'
  end.

Fixpoint wf_value (v : value) : bool :=
  match v with
  | VList l | VTuple l =>
      (fix go (l : list value) : bool :=
         match l with [] => true | x :: l' => wf_value x && go l' end) l
  | VDict d =>
      nodupb (map fst d) &&
      (fix go (d : dict) : bool :=
         match d with [] => true | kv :: d' => wf_value (snd kv) && go d' end) d
  | _ => true
  end.

Definition wf_dict (d : dict) : bool := wf_value (VDict d).

(** ** Exceptions and results *)

(** The exception classes the module raises, catches or receives from the
    client libraries. *)
Inductive exn : Type :=
| AttributeError
| KeyError (key : string)
| IndexError
| TypeError
| ValueError
| UnboundLocalError (name : string)
| Exception_ (msg : string)
| SkipResource (msg : string)
| ResourcePurged
| KeystoneNotFound
| NeutronClientException
| NeutronConflict
| NeutronNotFound
| NovaConflict
| ClientError (cls : string).

Inductive result (A : Type) : Type :=
| Ok (a : A)
| Raise (e : exn).
Arguments Ok {A} a.
Arguments Raise {A} e.

(* ================================================================== *)
(** * Operations of the language on values *)
(* ================================================================== *)

(** [repr(v)] and [str(v)], as the [%s] of a message prints them (escapes in
    strings are not rendered). *)
Fixpoint py_repr (v : value) : string :=
  match v with
  | VNone => "None"
  | VBool true => "True"
  | VBool false => "False"
  | VInt z => NilZero.string_of_int (Z.to_int z)
  | VStr s => "'" ++ s ++ "'"
  | VList l =>
      "[" ++ (fix go (l : list value) : string :=
                match l with
                | [] => ""
                | x :: l' =>
                    py_repr x ++ match l' with [] => "" | _ => ", " ++ go l' end
                end) l ++ "]"
  | VTuple l =>
      "(" ++ (fix go (l : list value) : string :=
                match l with
                | [] => ""
                | x :: l' =>
                    py_repr x ++ match l' with [] => "" | _ => ", " ++ go l' end
                end) l ++ match l with [_] => "," | _ => "" end ++ ")"
  | VDict d =>
      "{" ++ (fix go (d : dict) : string :=
                match d with
                | [] => ""
                | kv :: d' =>
                    "'" ++ fst kv ++ "': " ++ py_repr (snd kv)
                    ++ match d' with [] => "" | _ => ", " ++ go d' end
                end) d ++ "}"
  end.

Definition py_str (v : value) : string :=
  match v with
  | VStr s => s
  | _ => py_repr v
  end.

Fixpoint nth_value (l : list value) (n : nat) : result value :=
  match l, n with
  | [], _ => Raise IndexError
  | x :: _, O => Ok x
  | _ :: l', S n' => nth_value l' n'
  end.

(** An index counted from the end when negative. *)
Definition index_value (l : list value) (i : Z) : result value :=
  if (0 <=? i)%Z then nth_value l (Z.to_nat i)
  else if (0 <=? i + Z.of_nat (List.length l))%Z
       then nth_value l (Z.to_nat (i + Z.of_nat (List.length l)))
       else Raise IndexError.

Definition index_string (s : string) (i : Z) : result value :=
  let n := String.length s in
  let j := if (0 <=? i)%Z then i else (i + Z.of_nat n)%Z in
  if ((0 <=? j) && (j <? Z.of_nat n))%Z
  then Ok (VStr (String.substring (Z.to_nat j) 1 s))
  else Raise IndexError.

(** [v[k]] *)
Definition subscript (v k : value) : result value :=
  match v, k with
  | VDict d, VStr s =>
      match dict_get d s with
      | Some x => Ok x
      | None => Raise (KeyError s)
      end
  | VDict _, (VList _ | VDict _) => Raise TypeError
  | VDict _, _ => Raise (KeyError (py_repr k))
  | (VList l | VTuple l), VInt i => index_value l i
  | (VList l | VTuple l), VBool b => index_value l (Z.b2z b)
  | VStr s, VInt i => index_string s i
  | VStr s, VBool b => index_string s (Z.b2z b)
  | _, _ => Raise TypeError
  end.

(** [len(v)] *)
Definition py_len (v : value) : result nat :=
  match v with
  | VList l | VTuple l => Ok (List.length l)
  | VDict d => Ok (List.length d)
  | VStr s => Ok (String.length s)
  | _ => Raise TypeError
  end.

(** [k in v] *)
Definition contains (k v : value) : result bool :=
  match v with
  | VDict d =>
      match k with
      | VStr s => Ok (dict_has d s)
      | VList _ | VDict _ => Raise TypeError
      | _ => Ok false
      end
  | VList l | VTuple l => Ok (existsb (py_eq k) l)
  | VStr s =>
      match k with
      | VStr t => Ok (match String.index 0 t s with Some _ => true | None => false end)
      | _ => Raise TypeError
      end
  | _ => Raise TypeError
  end.

Fixpoint chars (s : string) : list value :=
  match s with
  | EmptyString => []
  | String c s' => VStr (String c EmptyString) :: chars s'
  end.

(** The elements a [for] loop visits. *)
Definition iterate (v : value) : result (list value) :=
  match v with
  | VList l | VTuple l => Ok l
  | VDict d => Ok (map (fun kv => VStr (fst kv)) d)
  | VStr s => Ok (chars s)
  | _ => Raise TypeError
  end.

(** [o.name] on an object of a client library, held as the dictionary of
    its attributes; [None] and the other builtin values have none of the
    attributes the module reads. *)
Definition attr (o : value) (name : string) : result value :=
  match o with
  | VDict d =>
      match dict_get d name with
      | Some x => Ok x
      | None => Raise AttributeError
      end
  | _ => Raise AttributeError
  end.

(** [d.items()] *)
Definition items (v : value) : result (list (string * value)) :=
  match v with
  | VDict d => Ok d
  | _ => Raise AttributeError
  end.

Fixpoint hashable (v : value) : bool :=
  match v with
  | VList _ | VDict _ => false
  | VTuple l =>
      (fix go (l : list value) : bool :=
         match l with [] => true | x :: l' => hashable x && go l' end) l
  | _ => true
  end.

(** Duplicates under [==] dropped, the first occurrence kept. *)
Fixpoint dedup (l : list value) : list value :=
  match l with
  | [] => []
  | x :: l' => x :: filter (fun y => negb (py_eq x y)) (dedup l')
  end.

(** [set(v)], in order of first occurrence. *)
Definition set_of (v : value) : result (list value) :=
  match iterate v with
  | Raise e => Raise e
  | Ok l => if forallb hashable l then Ok (dedup l) else Raise TypeError
  end.

(** [a - b] on sets of values. *)
Definition vset_diff (a b : list value) : list value :=
  filter (fun x => negb (existsb (py_eq x) b)) a.

(** [a < b], defined between two numbers or two strings. *)
Definition py_lt (a b : value) : result bool :=
  match a, b with
  | VInt x, VInt y => Ok (x <? y)%Z
  | VInt x, VBool y => Ok (x <? Z.b2z y)%Z
  | VBool x, VInt y => Ok (Z.b2z x <? y)%Z
  | VBool x, VBool y => Ok (Z.b2z x <? Z.b2z y)%Z
  | VStr x, VStr y => Ok (String.ltb x y)
  | _, _ => Raise TypeError
  end.

(** [a > b] *)
Definition py_gt (a b : value) : result bool := py_lt b a.

(** [l.remove(x)]: the first element equal to [x] goes. *)
Fixpoint list_remove (l : list value) (x : value) : result (list value) :=
  match l with
  | [] => Raise ValueError
  | y :: l' =>
      if py_eq y x then Ok l'
      else match list_remove l' x with
           | Ok r => Ok (y :: r)
           | Raise e => Raise e
           end
  end.

(* ================================================================== *)
(** * Objects, adapter calls and the handler monad *)
(* ================================================================== *)

(** A resource object: its class, the class attribute [fields] and the
    instance attributes. *)
Record obj : Type := mkObj {
  obj_class : string;
  obj_fields : list string;
  obj_attrs : dict
}.

(** A reference to an object of the store. *)
Definition ref := nat.

(** A call on one of the clients: the method, as the source writes it after
    the client, and the arguments (keyword arguments as a dictionary). *)
Record call : Type := mkCall {
  meth : string;
  args : list value
}.

(** The state a handler runs in: the objects, the calls issued so far, and
    the remote side, which answers a call knowing the calls before it. *)
Record world : Type := mkWorld {
  store : list obj;
  trace : list call;
  adapter : list call -> call -> result value
}.

(** Code that runs on a state of type [S] and returns or raises. *)
Definition ST (S A : Type) : Type := S -> result A * S.

Definition ret {S A} (a : A) : ST S A := fun s => (Ok a, s).

Definition raise {S A} (e : exn) : ST S A := fun s => (Raise e, s).

Definition bind {S A B} (m : ST S A) (k : A -> ST S B) : ST S B :=
  fun s =>
    match m s with
    | (Ok a, s') => k a s'
    | (Raise e, s') => (Raise e, s')
    end.

Declare Scope handler_scope.
Delimit Scope handler_scope with handler.
Notation "x <- m ;; k" := (bind m (fun x => k))
  (at level 100, m at next level, right associativity) : handler_scope.
Notation "m ;;; k" := (bind m (fun _ => k))
  (at level 100, right associativity) : handler_scope.
Open Scope handler_scope.

(** A pure operation that may raise. *)
Definition lift {S A} (r : result A) : ST S A := fun s => (r, s).

(** [try: m except <classes>: h], the classes given as a test. *)
Definition catch {S A} (handles : exn -> bool) (m : ST S A) (h : exn -> ST S A)
  : ST S A :=
  fun s =>
    match m s with
    | (Raise e, s') => if handles e then h e s' else (Raise e, s')
    | r => r
    end.

Definition any_exception (e : exn) : bool := true.

Definition is_AttributeError (e : exn) : bool :=
  match e with AttributeError => true | _ => false end.

(** [neutronclient.common.exceptions]: [Conflict] and [NotFound] derive from
    [NeutronClientException]. *)
Definition is_NeutronClientException (e : exn) : bool :=
  match e with
  | NeutronClientException | NeutronConflict | NeutronNotFound => true
  | _ => false
  end.

Definition is_NeutronNotFound (e : exn) : bool :=
  match e with NeutronNotFound => true | _ => false end.

Definition is_NovaConflict (e : exn) : bool :=
  match e with NovaConflict => true | _ => false end.

(** A [for] loop whose body updates the loop's variables [acc]. *)
Fixpoint for_each {S X A} (l : list X) (acc : A) (body : A -> X -> ST S A) : ST S A :=
  match l with
  | [] => ret acc
  | x :: l' => acc' <- body acc x ;; for_each l' acc' body
  end.

(** A [for] loop run for its effects. *)
Definition for_ {S X} (l : list X) (body : X -> ST S unit) : ST S unit :=
  for_each l tt (fun _ x => body x).

(** The handlers run on a [world]. *)
Definition M (A : Type) : Type := ST world A.

(** ** The store *)

Definition getattr (r : ref) (name : string) : M value :=
  fun w =>
    match nth_error (store w) r with
    | Some o =>
        match dict_get (obj_attrs o) name with
        | Some v => (Ok v, w)
        | None => (Raise AttributeError, w)
        end
    | None => (Raise AttributeError, w)
    end.

Fixpoint update_nth {A} (l : list A) (n : nat) (f : A -> A) : list A :=
  match l, n with
  | [], _ => []
  | x :: l', O => f x :: l'
  | x :: l', S n' => x :: update_nth l' n' f
  end.

Definition set_obj_attr (name : string) (v : value) (o : obj) : obj :=
  mkObj (obj_class o) (obj_fields o) (dict_set (obj_attrs o) name v).

Definition setattr (r : ref) (name : string) (v : value) : M unit :=
  fun w =>
    match nth_error (store w) r with
    | Some _ =>
        (Ok tt, mkWorld (update_nth (store w) r (set_obj_attr name v))
                        (trace w) (adapter w))
    | None => (Raise AttributeError, w)
    end.

(** [r.__class__.fields] *)
Definition class_fields (r : ref) : M (list string) :=
  fun w =>
    match nth_error (store w) r with
    | Some o => (Ok (obj_fields o), w)
    | None => (Raise AttributeError, w)
    end.

(** Modelled from the spec: [Resource.clone] of the orchestrator's library,
    which the handlers call and the repository does not define.  It builds a
    new instance of the same class with the same field values ("a fresh
    clone"); the new object takes the next free reference. *)
Definition clone (r : ref) : M ref :=
  fun w =>
    match nth_error (store w) r with
    | Some o =>
        (Ok (List.length (store w)),
         mkWorld (store w ++ [o])%list (trace w) (adapter w))
    | None => (Raise AttributeError, w)
    end.

(** ** The clients *)

Definition client_call (name : string) (arguments : list value) : M value :=
  fun w =>
    let c := mkCall name arguments in
    (adapter w (trace w) c, mkWorld (store w) (trace w ++ [c])%list (adapter w)).

(** Keyword arguments. *)
Definition kw (l : list (string * value)) : value := VDict l.

(** Short forms of [v["k"]], [v[i]] and ["k" in v]. *)
Definition item (v : value) (k : string) : result value := subscript v (VStr k).
Definition at_ (v : value) (i : Z) : result value := subscript v (VInt i).
Definition has_key (k : string) (v : value) : result bool := contains (VStr k) v.

(** [changes[k][i]] *)
Definition change_of (changes : value) (k : string) (i : Z) : M value :=
  p <- lift (item changes k) ;; lift (at_ p i).

(** [d[k] = v] and [del d[k]] on a value. *)
Definition set_item (d : value) (k : string) (v : value) : result value :=
  match d with
  | VDict l => Ok (VDict (dict_set l k v))
  | _ => Raise TypeError
  end.

Definition del_item (d : value) (k : string) : result value :=
  match d with
  | VDict l => if dict_has l k then Ok (VDict (dict_del l k)) else Raise (KeyError k)
  | _ => Raise TypeError
  end.

(** A value used as a key.  The dictionaries of the embedding have string
    keys, as every dictionary the module builds has; another key is
    rejected. *)
Definition as_key (v : value) : result string :=
  match v with
  | VStr s => Ok s
  | _ => Raise TypeError
  end.

(** [sorted(l, key=...)], the keys computed beforehand: an insertion sort
    on [<] that keeps elements with equal keys in their order. *)
Fixpoint insert_by_key (x : value * value) (l : list (value * value))
  : result (list (value * value)) :=
  match l with
  | [] => Ok [x]
  | y :: l' =>
      match py_lt (fst y) (fst x) with
      | Raise e => Raise e
      | Ok false => Ok (x :: y :: l')
      | Ok true =>
          match insert_by_key x l' with
          | Ok r => Ok (y :: r)
          | Raise e => Raise e
          end
      end
  end.

Fixpoint sort_by_key (l : list (value * value)) : result (list (value * value)) :=
  match l with
  | [] => Ok []
  | x :: l' =>
      match sort_by_key l' with
      | Ok r => insert_by_key x r
      | Raise e => Raise e
      end
  end.

Definition sorted_pairs (l : list (value * value)) : result (list value) :=
  match sort_by_key l with
  | Ok r => Ok (map snd r)
  | Raise e => Raise e
  end.

(** [sorted(l)] *)
Definition sorted (l : list value) : result (list value) :=
  sorted_pairs (map (fun x => (x, x)) l).

Definition NULL_UUID : value := VStr "00000000-0000-0000-0000-000000000000".
Definition NULL_ID : value := VStr "00000000000000000000000000000000".

(** ** The methods of the clients

    The methods the module calls, by whether the call reads the remote
    state or changes it. *)
Definition lookup_methods : list string :=
  ["session.get_project_id"; "keystone.tenants.find";
   "neutron.list_networks"; "neutron.list_subnets"; "neutron.list_routers";
   "neutron.list_ports"; "neutron.show_subnet"; "neutron.list_security_groups";
   "neutron.list_floatingips";
   "nova.servers.findall"; "nova.servers.list"; "nova.servers.find";
   "nova.keypairs.list"; "nova.flavors.find"; "server.list_security_group"].

Definition mutating_methods : list string :=
  ["nova.keypairs.create"; "nova.servers.create"; "server.delete";
   "nova.servers.add_security_group"; "nova.servers.remove_security_group";
   "server.interface_attach";
   "neutron.create_router"; "neutron.delete_router"; "neutron.update_router";
   "neutron.add_interface_router"; "neutron.remove_interface_router";
   "neutron.add_gateway_router";
   "neutron.create_subnet"; "neutron.delete_subnet"; "neutron.update_subnet";
   "neutron.create_port"; "neutron.delete_port"; "neutron.update_port";
   "neutron.create_security_group"; "neutron.delete_security_group";
   "neutron.update_security_group";
   "neutron.create_security_group_rule"; "neutron.delete_security_group_rule";
   "neutron.update_floatingip"; "neutron.create_floatingip";
   "neutron.delete_floatingip"].

Definition is_lookup (c : call) : bool := mem (meth c) lookup_methods.

Definition is_mutation (c : call) : bool := mem (meth c) mutating_methods.

(** The calls issued between two worlds. *)
Definition issued (w w' : world) (l : list call) : Prop :=
  trace w' = (trace w ++ l)%list.

(* ================================================================== *)
(** * NeutronHandler *)
(* ================================================================== *)

(** The handler classes with a [check_resource] and a [do_changes]. *)
Inductive handler : Type :=
| VMHandler
| RouterHandler
| SubnetHandler
| RouterPortHandler
| HostPortHandler
| SecurityGroupHandler
| FloatingIPHandler.

(** The [@cache] decorator of the agent is not part of the module; a
    decorated method is taken as the method itself, each call running its
    body and reaching the client.  With the decorator a later call with
    the same arguments may be answered without the body being run. *)

Definition get_project_id (resource : ref) (name : value) : M value :=
  admin_tenant <- getattr resource "admin_tenant" ;;
  if py_eq admin_tenant name then client_call "session.get_project_id" []
  else
    catch any_exception
      (tenant <- client_call "keystone.tenants.find" [kw [("name", name)]] ;;
       lift (attr tenant "id"))
      (fun _ => ret VNone).

(** The shape shared by [get_network_id], [get_subnet_id], [get_router_id]:
    no match gives [None], several raise, one gives its ["id"]. *)
Definition unique_id (response : value) (key what : string) (name project_id : value)
  : M value :=
  found <- lift (item response key) ;;
  n <- lift (py_len found) ;;
  if Nat.eqb n 0 then ret VNone
  else if Nat.ltb 1 n then
    raise (Exception_ ("Found more than one " ++ what ++ " with name " ++ py_str name
                       ++ " for project " ++ py_str project_id))
  else
    first <- lift (at_ found 0) ;;
    lift (item first "id").

Definition get_network_id (project_id name : value) : M value :=
  networks <- (if negb (is_none project_id)
               then client_call "neutron.list_networks"
                      [kw [("tenant_id", project_id); ("name", name)]]
               else client_call "neutron.list_networks" [kw [("name", name)]]) ;;
  unique_id networks "networks" "network" name project_id.

Definition get_subnet_id (project_id name : value) : M value :=
  subnets <- client_call "neutron.list_subnets"
               [kw [("tenant_id", project_id); ("name", name)]] ;;
  unique_id subnets "subnets" "subnet" name project_id.

Definition get_router_id (project_id name : value) : M value :=
  routers <- client_call "neutron.list_routers" [kw [("name", name)]] ;;
  unique_id routers "routers" "router" name project_id.

Definition get_host (project_id name : value) : M value :=
  vms <- client_call "nova.servers.findall" [kw [("name", name)]] ;;
  n <- lift (py_len vms) ;;
  if Nat.eqb n 0 then ret VNone
  else if Nat.ltb 1 n then
    raise (Exception_ ("Found more than one VM with name " ++ py_str name
                       ++ " for project " ++ py_str project_id))
  else lift (at_ vms 0).

Definition get_host_id (project_id name : value) : M value :=
  vm <- get_host project_id name ;;
  lift (attr vm "id").

(** [getattr(self, "get_%s_id" % field)]: the method of that name on the
    handler, if it has one.  [get_project_id] expects a resource first and
    reads its [admin_tenant]; called as a converter it is given a project
    id, which has no such attribute (the body is run, as for every method
    under [@cache]).  [get_port_id] of the floating ip handler takes the
    name alone, and two arguments are one too many. *)
Definition converter (h : handler) (field : string)
  : option (value -> value -> M value) :=
  if String.eqb field "project" then Some (fun _ _ => raise AttributeError)
  else if String.eqb field "network" then Some get_network_id
  else if String.eqb field "subnet" then Some get_subnet_id
  else if String.eqb field "router" then Some get_router_id
  else if String.eqb field "host" then Some get_host_id
  else if String.eqb field "port" then
    match h with
    | FloatingIPHandler => Some (fun _ _ => raise TypeError)
    | _ => None
    end
  else None.

(** One round of the loop of [_diff]. *)
Definition diff_field (h : handler) (current desired : ref)
  (changes : dict) (field : string) : M dict :=
  current_value <- getattr current field ;;
  desired_value <- getattr desired field ;;
  cd <- (if negb (is_none desired_value) && is_none current_value
         then
           catch is_AttributeError
             (id <- getattr current (field ++ "_id") ;;
              match converter h field with
              | None => raise AttributeError
              | Some convert =>
                  project <- getattr desired "project" ;;
                  project_id <- get_project_id desired project ;;
                  resolved <- convert project_id desired_value ;;
                  ret (id, resolved)
              end)
             (fun _ => ret (current_value, desired_value))
         else ret (current_value, desired_value)) ;;
  if negb (py_eq (fst cd) (snd cd))
  then ret (dict_set changes field (VTuple [fst cd; snd cd]))
  else ret changes.

Definition _diff (h : handler) (current desired : ref) : M value :=
  fields <- class_fields desired ;;
  changes <- for_each fields [] (diff_field h current desired) ;;
  ret (VDict changes).

(* ================================================================== *)
(** * VMHandler *)
(* ================================================================== *)

Module VM.

Definition get_vm (name : value) : M value :=
  server <- client_call "nova.servers.list" [kw [("search_opts", VDict [("name", name)])]] ;;
  n <- lift (py_len server) ;;
  if Nat.eqb n 0 then ret VNone
  else if Nat.eqb n 1 then lift (at_ server 0)
  else raise (Exception_ ("Multiple virtual machines with name " ++ py_str name ++ " exist.")).

Definition check_resource (resource : ref) : M ref :=
  current <- clone resource ;;
  name <- getattr resource "name" ;;
  server <- get_vm name ;;
  if is_none server then
    setattr current "purged" (VBool true) ;;;
    ret current
  else
    setattr current "purged" (VBool false) ;;;
    groups <- client_call "server.list_security_group" [server] ;;
    l <- lift (iterate groups) ;;
    names <- for_each l [] (fun names sg =>
               n <- lift (attr sg "name") ;; ret (names ++ [n])%list) ;;
    setattr current "security_groups" (VList names) ;;;
    ret current.

Definition _port_id (port_name : value) : M value :=
  ports <- client_call "neutron.list_ports" [kw [("name", port_name)]] ;;
  found <- lift (item ports "ports") ;;
  n <- lift (py_len found) ;;
  if Nat.ltb 0 n then
    first <- lift (at_ found 0) ;; lift (item first "id")
  else ret VNone.

Definition _get_subnet_id (subnet_name : value) : M value :=
  subnets <- client_call "neutron.list_subnets" [kw [("name", subnet_name)]] ;;
  found <- lift (item subnets "subnets") ;;
  n <- lift (py_len found) ;;
  if Nat.ltb 0 n then
    first <- lift (at_ found 0) ;; lift (item first "network_id")
  else ret VNone.

(** [get_security_group(name=name)]; the branch on [id] is not reached
    from this handler. *)
Definition get_security_group (name id : value) : M value :=
  sgs <- (if negb (is_none name)
          then client_call "neutron.list_security_groups" [kw [("name", name)]]
          else if negb (is_none id)
          then client_call "neutron.list_security_groups" [kw [("id", id)]]
          else raise (UnboundLocalError "sgs")) ;;
  found <- lift (item sgs "security_groups") ;;
  n <- lift (py_len found) ;;
  if Nat.eqb n 0 then ret VNone
  else lift (at_ found 0).

Definition _create_nic_config (port : value) : M value :=
  port_name <- lift (item port "name") ;;
  port_id <- _port_id port_name ;;
  if is_none port_id then
    net_name <- lift (item port "network") ;;
    network <- _get_subnet_id net_name ;;
    if is_none network then ret VNone
    else
      let nic := [("net-id", network)] in
      dhcp <- lift (item port "dhcp") ;;
      fixed <- (if negb (truthy dhcp)
                then address <- lift (item port "address") ;; ret (negb (is_none address))
                else ret false) ;;
      if (fixed : bool) then
        address <- lift (item port "address") ;;
        ret (VDict (dict_set nic "v4-fixed-ip" address))
      else ret (VDict nic)
  else ret (VDict [("port-id", port_id)]).

(** [[p for p in ports if test(p["index"])]] *)
Fixpoint select_ports (ports : list value) (test : value -> result bool)
  : result (list value) :=
  match ports with
  | [] => Ok []
  | p :: rest =>
      match item p "index" with
      | Raise e => Raise e
      | Ok index =>
          match test index with
          | Raise e => Raise e
          | Ok keep =>
              match select_ports rest test with
              | Raise e => Raise e
              | Ok r => Ok (if keep then p :: r else r)
              end
          end
      end
  end.

(** Each port with its sort key [p[key]]. *)
Fixpoint with_keys (l : list value) (key : string) : result (list (value * value)) :=
  match l with
  | [] => Ok []
  | p :: rest =>
      match item p key with
      | Raise e => Raise e
      | Ok k =>
          match with_keys rest key with
          | Raise e => Raise e
          | Ok r => Ok ((k, p) :: r)
          end
      end
  end.

(** [sorted([p for p in ports if test(p["index"])], key=lambda x: x[key])] *)
Definition sorted_ports (ports : list value) (test : value -> result bool) (key : string)
  : result (list value) :=
  match select_ports ports test with
  | Raise e => Raise e
  | Ok selected =>
      match with_keys selected key with
      | Raise e => Raise e
      | Ok keyed => sorted_pairs keyed
      end
  end.

Definition _build_nic_list (ports : value) : M value :=
  l <- lift (iterate ports) ;;
  no_sort <- lift (sorted_ports l (fun i => Ok (py_eq i (VInt 0))) "network") ;;
  sort <- lift (sorted_ports l (fun i => py_gt i (VInt 0)) "index") ;;
  first <- for_each sort [] (fun nics p =>
             nic <- _create_nic_config p ;; ret (nics ++ [nic])%list) ;;
  second <- for_each no_sort [] (fun nics p =>
              nic <- _create_nic_config p ;; ret (nics ++ [nic])%list) ;;
  ret (VList (first ++ second)%list).

Definition _build_sg_list (security_groups : value) : M value :=
  l <- lift (iterate security_groups) ;;
  sg_list <- for_each l [] (fun sg_list group =>
               sg <- get_security_group group VNone ;;
               if negb (is_none sg) then
                 n <- lift (item sg "name") ;; ret (sg_list ++ [n])%list
               else ret sg_list) ;;
  ret (VList sg_list).

Definition do_changes (resource : ref) (changes : value) : M value :=
  listed <- client_call "nova.keypairs.list" [] ;;
  l <- lift (iterate listed) ;;
  keys <- for_each l [] (fun keys k =>
            n <- lift (attr k "name") ;;
            s <- lift (as_key n) ;;
            ret (dict_set keys s k)) ;;
  key_name <- getattr resource "key_name" ;;
  present <- lift (contains key_name (VDict keys)) ;;
  (if negb present then
     key_name <- getattr resource "key_name" ;;
     key_value <- getattr resource "key_value" ;;
     client_call "nova.keypairs.create" [key_name; key_value] ;;;
     ret tt
   else ret tt) ;;;
  purged <- lift (has_key "purged" changes) ;;
  (if (purged : bool) then
     was_purged <- change_of changes "purged" 0 ;;
     if truthy was_purged then
       flavor_name <- getattr resource "flavor" ;;
       flavor <- client_call "nova.flavors.find" [kw [("name", flavor_name)]] ;;
       ports <- getattr resource "ports" ;;
       nics <- _build_nic_list ports ;;
       name <- getattr resource "name" ;;
       flavor_id <- lift (attr flavor "id") ;;
       groups <- getattr resource "security_groups" ;;
       sg_list <- _build_sg_list groups ;;
       image <- getattr resource "image" ;;
       key_name <- getattr resource "key_name" ;;
       user_data <- getattr resource "user_data" ;;
       client_call "nova.servers.create"
         [name; kw [("flavor", flavor_id); ("security_groups", sg_list);
                    ("image", image); ("key_name", key_name);
                    ("userdata", user_data); ("nics", nics)]] ;;;
       ret tt
     else
       to_purge <- change_of changes "purged" 1 ;;
       if truthy to_purge then
         name <- getattr resource "name" ;;
         server <- client_call "nova.servers.find" [kw [("name", name)]] ;;
         client_call "server.delete" [server] ;;;
         ret tt
       else ret tt
   else
     groups_changed <- lift (has_key "security_groups" changes) ;;
     if (groups_changed : bool) then
       before <- change_of changes "security_groups" 0 ;;
       current <- lift (set_of before) ;;
       after <- change_of changes "security_groups" 1 ;;
       desired <- lift (set_of after) ;;
       name <- getattr resource "name" ;;
       server <- client_call "nova.servers.find" [kw [("name", name)]] ;;
       for_ (vset_diff desired current) (fun new_rule =>
         client_call "nova.servers.add_security_group" [server; new_rule] ;;; ret tt) ;;;
       for_ (vset_diff current desired) (fun remove_rule =>
         client_call "nova.servers.remove_security_group" [server; remove_rule] ;;; ret tt)
     else ret tt) ;;;
  ret (VBool true).

(** [facts]: the addresses of the server, per network.  The cache of the
    agent in front of [servers.find] is not modelled; any failure gives the
    empty mapping. *)
Definition facts (resource : ref) : M value :=
  catch any_exception
    (name <- getattr resource "name" ;;
     vm <- client_call "nova.servers.find" [kw [("name", name)]] ;;
     networks <- lift (attr vm "networks") ;;
     nets <- lift (items networks) ;;
     facts <- for_each nets [] (fun facts net =>
       let '(name, ips) := net in
       n <- lift (py_len ips) ;;
       for_each (seq 0 n) facts (fun facts i =>
         ip <- lift (at_ ips (Z.of_nat i)) ;;
         let facts := dict_set facts ("subnet_" ++ name ++ "_ip_" ++ py_str (VInt (Z.of_nat i))) ip in
         if Nat.eqb i 0 then
           ip <- lift (at_ ips (Z.of_nat i)) ;;
           ret (dict_set facts ("subnet_" ++ name ++ "_ip") ip)
         else ret facts)) ;;
     ports <- getattr resource "ports" ;;
     l <- lift (iterate ports) ;;
     facts <- for_each l facts (fun facts port =>
       index <- lift (item port "index") ;;
       if py_eq index (VInt 1) then
         network <- lift (item port "network") ;;
         known <- lift (contains network networks) ;;
         if (known : bool) then
           network <- lift (item port "network") ;;
           ips <- lift (subscript networks network) ;;
           ip <- lift (at_ ips 0) ;;
           ret (dict_set facts "ip_address" ip)
         else ret facts
       else ret facts) ;;
     ret (VDict facts))
    (fun _ => ret (VDict [])).

End VM.

(* ================================================================== *)
(** * The handlers on neutron *)
(* ================================================================== *)

(** Every [facts] is declared [facts(self, ctx, resource)], and the router,
    subnet and router port handlers call it as [self.facts(resource)], one
    argument short.  Python rejects such a call with a [TypeError].  Both
    readings are kept: with [strict] the call raises, as the interpreter
    has it; without, it runs [facts] on the resource, as the callers expect.
    The context [ctx] is used by none of the operations below and is left
    out of their parameters. *)
Definition self_facts (strict : bool) (facts : ref -> M value) (resource : ref)
  : M value :=
  if strict then raise TypeError else facts resource.

(** The shape shared by the [facts] of routers, subnets and ports: the
    objects listed under [key] with the name of the resource; one match is
    the result, none or several give the empty mapping. *)
Definition named_facts (method key : string) (resource : ref) : M value :=
  name <- getattr resource "name" ;;
  listed <- client_call method [kw [("name", name)]] ;;
  present <- lift (has_key key listed) ;;
  if negb present then ret (VDict [])
  else
    all <- lift (item listed key) ;;
    l <- lift (iterate all) ;;
    filtered_list <- for_each l [] (fun acc x =>
                       n <- lift (item x "name") ;;
                       name <- getattr resource "name" ;;
                       if py_eq n name then ret (acc ++ [x])%list else ret acc) ;;
    if Nat.eqb (List.length filtered_list) 0 then ret (VDict [])
    else if Nat.ltb 1 (List.length filtered_list) then ret (VDict [])
    else lift (at_ (VList filtered_list) 0).

Module Router.

Definition facts (resource : ref) : M value :=
  named_facts "neutron.list_routers" "routers" resource.

(** The subnets of one port of the router, added to [subnet_list]. *)
Definition port_subnets (current : ref) (external_net_id : value)
  (subnet_list : list value) (port : value) : M (list value) :=
  subnets <- lift (item port "fixed_ips") ;;
  port_name <- lift (item port "name") ;;
  unmanaged <- (if py_eq port_name (VStr "") then ret true
                else
                  port_name <- lift (item port "name") ;;
                  ports <- getattr current "ports" ;;
                  listed <- lift (contains port_name ports) ;;
                  ret (negb listed)) ;;
  if (unmanaged : bool) then
    l <- lift (iterate subnets) ;;
    for_each l subnet_list (fun subnet_list subnet =>
      if negb (py_eq subnet NULL_UUID) then
        catch is_NeutronClientException
          (subnet_id <- lift (item subnet "subnet_id") ;;
           subnet_details <- client_call "neutron.show_subnet" [subnet_id] ;;
           details <- lift (item subnet_details "subnet") ;;
           network_id <- lift (item details "network_id") ;;
           if negb (py_eq network_id external_net_id) then
             details <- lift (item subnet_details "subnet") ;;
             name <- lift (item details "name") ;;
             ret (subnet_list ++ [name])%list
           else ret subnet_list)
          (fun _ => ret subnet_list)
      else ret subnet_list)
  else ret subnet_list.

Definition check_resource (strict : bool) (resource : ref) : M ref :=
  current <- clone resource ;;
  neutron_version <- self_facts strict facts resource ;;
  n <- lift (py_len neutron_version) ;;
  (if Nat.ltb 0 n then
     id <- lift (item neutron_version "id") ;;
     setattr current "id" id
   else
     setattr current "id" NULL_UUID ;;;
     setattr current "purged" (VBool true)) ;;;
  id <- getattr current "id" ;;
  if negb (py_eq id NULL_UUID) then
    has_info <- lift (has_key "external_gateway_info" neutron_version) ;;
    with_gateway <- (if (has_info : bool) then
                       info <- lift (item neutron_version "external_gateway_info") ;;
                       ret (negb (is_none info))
                     else ret false) ;;
    gateway <- (if (with_gateway : bool) then
                  info <- lift (item neutron_version "external_gateway_info") ;;
                  external_net_id <- lift (item info "network_id") ;;
                  networks <- client_call "neutron.list_networks" [kw [("id", external_net_id)]] ;;
                  found <- lift (item networks "networks") ;;
                  n <- lift (py_len found) ;;
                  if Nat.eqb n 1 then
                    first <- lift (at_ found 0) ;;
                    ext_name <- lift (item first "name") ;;
                    ret (ext_name, external_net_id)
                  else ret (VStr "", external_net_id)
                else ret (VStr "", VStr "")) ;;
    let '(ext_name, external_net_id) := gateway in
    setattr current "gateway" ext_name ;;;
    id <- getattr current "id" ;;
    ports <- client_call "neutron.list_ports" [kw [("device_id", id)]] ;;
    listed <- lift (item ports "ports") ;;
    l <- lift (iterate listed) ;;
    subnet_list <- for_each l [] (port_subnets current external_net_id) ;;
    in_order <- lift (sorted subnet_list) ;;
    setattr current "subnets" (VList in_order) ;;;
    listed_routes <- lift (item neutron_version "routes") ;;
    l <- lift (iterate listed_routes) ;;
    routes <- for_each l [] (fun routes route =>
                nexthop <- lift (item route "nexthop") ;;
                destination <- lift (item route "destination") ;;
                key <- lift (as_key destination) ;;
                ret (dict_set routes key nexthop)) ;;
    setattr current "routes" (VDict routes) ;;;
    ret current
  else
    setattr current "gateway" (VStr "") ;;;
    setattr current "subnets" (VList []) ;;;
    setattr current "routes" (VDict []) ;;;
    ret current.

(** The id of the one subnet called [subnet]. *)
Definition subnet_id_of (subnet : value) : M value :=
  subnet_data <- client_call "neutron.list_subnets" [kw [("name", subnet)]] ;;
  present <- lift (has_key "subnets" subnet_data) ;;
  one <- (if negb present then ret false
          else
            found <- lift (item subnet_data "subnets") ;;
            n <- lift (py_len found) ;;
            ret (Nat.eqb n 1)) ;;
  if negb one then raise (Exception_ ("Unable to find id of subnet " ++ py_str subnet))
  else
    found <- lift (item subnet_data "subnets") ;;
    first <- lift (at_ found 0) ;;
    lift (item first "id").

Definition do_changes (strict : bool) (resource : ref) (changes : value) : M value :=
  project <- getattr resource "project" ;;
  project_id <- get_project_id resource project ;;
  if is_none project_id then
    raise (SkipResource "Cannot create network when project id is not yet known.")
  else
  purged <- lift (has_key "purged" changes) ;;
  flags <- (if (purged : bool) then
              to_purge <- change_of changes "purged" 1 ;;
              if negb (truthy to_purge) then
                name <- getattr resource "name" ;;
                client_call "neutron.create_router"
                  [VDict [("router", VDict [("name", name); ("tenant_id", project_id)])]] ;;;
                ret (true, false)
              else
                to_purge <- change_of changes "purged" 1 ;;
                delete <- (if truthy to_purge then
                             was_purged <- change_of changes "purged" 0 ;;
                             ret (negb (truthy was_purged))
                           else ret false) ;;
                if (delete : bool) then
                  id <- getattr resource "id" ;;
                  client_call "neutron.delete_router" [id] ;;;
                  ret (true, true)
                else ret (false, false)
            else
              renamed <- lift (has_key "name" changes) ;;
              if (renamed : bool) then
                id <- getattr resource "id" ;;
                name <- getattr resource "name" ;;
                client_call "neutron.update_router"
                  [id; VDict [("router", VDict [("name", name)])]] ;;;
                ret (true, false)
              else ret (false, false)) ;;
  let '(changed, deleted) := flags in
  if (deleted : bool) then ret (VBool changed)
  else
    router_facts <- self_facts strict facts resource ;;
    with_subnets <- lift (has_key "subnets" changes) ;;
    (if (with_subnets : bool) then
       before <- change_of changes "subnets" 0 ;;
       current <- lift (set_of before) ;;
       after <- change_of changes "subnets" 1 ;;
       to <- lift (set_of after) ;;
       for_ (vset_diff to current) (fun subnet =>
         subnet_id <- subnet_id_of subnet ;;
         router_id <- lift (item router_facts "id") ;;
         client_call "neutron.add_interface_router"
           [kw [("router", router_id); ("body", VDict [("subnet_id", subnet_id)])]] ;;;
         ret tt) ;;;
       for_ (vset_diff current to) (fun subnet =>
         subnet_id <- subnet_id_of subnet ;;
         router_id <- lift (item router_facts "id") ;;
         client_call "neutron.remove_interface_router"
           [kw [("router", router_id); ("body", VDict [("subnet_id", subnet_id)])]] ;;;
         ret tt)
     else ret tt) ;;;
    with_gateway <- lift (has_key "gateway" changes) ;;
    (if (with_gateway : bool) then
       gateway <- change_of changes "gateway" 1 ;;
       network_id <- get_network_id VNone gateway ;;
       if is_none network_id then
         raise (Exception_ "Unable to set router gateway because the gateway network that does not exist.")
       else
         router_id <- lift (item router_facts "id") ;;
         client_call "neutron.add_gateway_router"
           [router_id; VDict [("network_id", network_id)]] ;;;
         ret tt
     else ret tt) ;;;
    with_routes <- lift (has_key "routes" changes) ;;
    (if (with_routes : bool) then
       router_id <- lift (item router_facts "id") ;;
       routes <- getattr resource "routes" ;;
       table <- lift (items routes) ;;
       client_call "neutron.update_router"
         [router_id;
          VDict [("router",
                  VDict [("routes",
                          VList (map (fun dn => VDict [("nexthop", snd dn);
                                                       ("destination", VStr (fst dn))])
                                     table))])]] ;;;
       ret tt
     else ret tt) ;;;
    ret (VBool changed).

End Router.

Module Subnet.

Definition facts (resource : ref) : M value :=
  named_facts "neutron.list_subnets" "subnets" resource.

Definition check_resource (strict : bool) (resource : ref) : M ref :=
  current <- clone resource ;;
  neutron_version <- self_facts strict facts resource ;;
  n <- lift (py_len neutron_version) ;;
  if Nat.ltb 0 n then
    id <- lift (item neutron_version "id") ;;
    setattr current "id" id ;;;
    cidr <- lift (item neutron_version "cidr") ;;
    setattr current "network_address" cidr ;;;
    enable_dhcp <- lift (item neutron_version "enable_dhcp") ;;
    setattr current "dhcp" enable_dhcp ;;;
    network_id <- lift (item neutron_version "network_id") ;;
    setattr current "network_id" network_id ;;;
    pools <- lift (item neutron_version "allocation_pools") ;;
    pool <- lift (at_ pools 0) ;;
    allocation_start <- getattr resource "allocation_start" ;;
    both <- (if negb (py_eq allocation_start (VStr "")) then
               allocation_end <- getattr resource "allocation_end" ;;
               ret (negb (py_eq allocation_end (VStr "")))
             else ret false) ;;
    (if (both : bool) then
       start <- lift (item pool "start") ;;
       setattr current "allocation_start" start ;;;
       end_ <- lift (item pool "end") ;;
       setattr current "allocation_end" end_
     else ret tt) ;;;
    ret current
  else
    setattr current "id" (VInt 0) ;;;
    setattr current "purged" (VBool true) ;;;
    setattr current "network_address" (VStr "") ;;;
    setattr current "network_id" NULL_UUID ;;;
    setattr current "allocation_start" (VStr "") ;;;
    setattr current "allocation_end" (VStr "") ;;;
    ret current.

(** [len(resource.allocation_start) > 0 and len(resource.allocation_end) > 0] *)
Definition has_pool (resource : ref) : M bool :=
  allocation_start <- getattr resource "allocation_start" ;;
  n <- lift (py_len allocation_start) ;;
  if Nat.ltb 0 n then
    allocation_end <- getattr resource "allocation_end" ;;
    m <- lift (py_len allocation_end) ;;
    ret (Nat.ltb 0 m)
  else ret false.

(** [[{"start": resource.allocation_start, "end": resource.allocation_end}]] *)
Definition pool_of (resource : ref) : M value :=
  allocation_start <- getattr resource "allocation_start" ;;
  allocation_end <- getattr resource "allocation_end" ;;
  ret (VList [VDict [("start", allocation_start); ("end", allocation_end)]]).

Definition do_changes (strict : bool) (resource : ref) (changes : value) : M value :=
  project <- getattr resource "project" ;;
  project_id <- get_project_id resource project ;;
  if is_none project_id then
    raise (SkipResource "Cannot create network when project id is not yet known.")
  else
  network <- getattr resource "network" ;;
  network_id <- get_network_id project_id network ;;
  if is_none network_id then
    raise (Exception_ "Unable to create subnet because of network that does not exist.")
  else
  purged <- lift (has_key "purged" changes) ;;
  if (purged : bool) then
    to_purge <- change_of changes "purged" 1 ;;
    if negb (truthy to_purge) then
      name <- getattr resource "name" ;;
      dhcp <- getattr resource "dhcp" ;;
      network_address <- getattr resource "network_address" ;;
      let body := [("name", name); ("network_id", network_id); ("enable_dhcp", dhcp);
                   ("cidr", network_address); ("ip_version", VInt 4);
                   ("tenant_id", project_id)] in
      pooled <- has_pool resource ;;
      body <- (if (pooled : bool) then
                 pool <- pool_of resource ;;
                 ret (dict_set body "allocation_pools" pool)
               else ret body) ;;
      client_call "neutron.create_subnet" [VDict [("subnet", VDict body)]] ;;;
      ret (VBool true)
    else
      to_purge <- change_of changes "purged" 1 ;;
      delete <- (if truthy to_purge then
                   was_purged <- change_of changes "purged" 0 ;;
                   ret (negb (truthy was_purged))
                 else ret false) ;;
      if (delete : bool) then
        id <- getattr resource "id" ;;
        client_call "neutron.delete_subnet" [id] ;;;
        ret (VBool true)
      else ret (VBool false)
  else
    n <- lift (py_len changes) ;;
    if Nat.ltb 0 n then
      neutron_version <- self_facts strict facts resource ;;
      dhcp <- getattr resource "dhcp" ;;
      let body := [("subnet", VDict [("enable_dhcp", dhcp)])] in
      pooled <- has_pool resource ;;
      body <- (if (pooled : bool) then
                 pool <- pool_of resource ;;
                 ret (dict_set body "allocation_pools" pool)
               else ret body) ;;
      id <- lift (item neutron_version "id") ;;
      client_call "neutron.update_subnet" [id; VDict body] ;;;
      ret (VBool true)
    else ret (VBool false).

End Subnet.

Module RouterPort.

Definition facts (resource : ref) : M value :=
  named_facts "neutron.list_ports" "ports" resource.

Definition check_resource (strict : bool) (resource : ref) : M ref :=
  current <- clone resource ;;
  neutron_version <- self_facts strict facts resource ;;
  n <- lift (py_len neutron_version) ;;
  if Nat.ltb 0 n then
    id <- lift (item neutron_version "id") ;;
    setattr current "id" id ;;;
    device_id <- lift (item neutron_version "device_id") ;;
    (if py_eq device_id (VStr "") then setattr current "router_id" NULL_ID
     else
       device_id <- lift (item neutron_version "device_id") ;;
       setattr current "router_id" device_id) ;;;
    network_id <- lift (item neutron_version "network_id") ;;
    setattr current "network_id" network_id ;;;
    ret current
  else
    setattr current "id" (VInt 0) ;;;
    setattr current "purged" (VBool true) ;;;
    setattr current "subnet_id" NULL_UUID ;;;
    setattr current "router_id" NULL_UUID ;;;
    setattr current "network_id" NULL_UUID ;;;
    setattr current "address" (VStr "") ;;;
    ret current.

Definition do_changes (resource : ref) (changes : value) : M value :=
  project <- getattr resource "project" ;;
  project_id <- get_project_id resource project ;;
  if is_none project_id then
    raise (SkipResource "Cannot create network when project id is not yet known.")
  else
  subnet <- getattr resource "subnet" ;;
  subnet_id <- get_subnet_id project_id subnet ;;
  if is_none subnet_id then
    raise (SkipResource "Unable to create router port because the subnet does not exist.")
  else
  network <- getattr resource "network" ;;
  network_id <- get_network_id project_id network ;;
  if is_none network_id then
    raise (SkipResource "Unable to create router port because the network does not exist.")
  else
  router <- getattr resource "router" ;;
  router_id <- get_router_id project_id router ;;
  if is_none router_id then
    raise (SkipResource "Unable to create router port because the router does not exist.")
  else
  purged <- lift (has_key "purged" changes) ;;
  if (purged : bool) then
    to_purge <- change_of changes "purged" 1 ;;
    if negb (truthy to_purge) then
      name <- getattr resource "name" ;;
      let port := [("admin_state_up", VBool true); ("name", name);
                   ("network_id", network_id)] in
      address <- getattr resource "address" ;;
      port <- (if negb (py_eq address (VStr "")) then
                 address <- getattr resource "address" ;;
                 ret (dict_set port "fixed_ips"
                        (VList [VDict [("subnet_id", subnet_id); ("ip_address", address)]]))
               else ret port) ;;
      result <- client_call "neutron.create_port" [kw [("body", VDict [("port", VDict port)])]] ;;
      created <- lift (has_key "port" result) ;;
      if negb created then raise (Exception_ "Unable to create port.")
      else
        created_port <- lift (item result "port") ;;
        port_id <- lift (item created_port "id") ;;
        client_call "neutron.add_interface_router"
          [router_id; kw [("body", VDict [("port_id", port_id)])]] ;;;
        ret (VBool true)
    else
      to_purge <- change_of changes "purged" 1 ;;
      delete <- (if truthy to_purge then
                   was_purged <- change_of changes "purged" 0 ;;
                   ret (negb (truthy was_purged))
                 else ret false) ;;
      if (delete : bool) then ret (VBool true) else ret (VBool false)
  else
    n <- lift (py_len changes) ;;
    if Nat.ltb 0 n then ret (VBool true) else ret (VBool false).

End RouterPort.

Module HostPort.

Definition get_port (network_id device_id : value) : M value :=
  listed <- client_call "neutron.list_ports"
              [kw [("network_id", network_id); ("device_id", device_id)]] ;;
  ports <- lift (item listed "ports") ;;
  n <- lift (py_len ports) ;;
  if Nat.ltb 0 n then lift (at_ ports 0) else ret VNone.

Definition check_resource (resource : ref) : M ref :=
  current <- clone resource ;;
  project <- getattr resource "project" ;;
  project_id <- get_project_id resource project ;;
  network <- getattr resource "network" ;;
  network_id <- get_network_id project_id network ;;
  host <- getattr resource "host" ;;
  vm <- get_host project_id host ;;
  port <- (if negb (is_none vm) then
             vm_id <- lift (attr vm "id") ;;
             get_port network_id vm_id
           else ret VNone) ;;
  if negb (is_none port) then
    dhcp <- getattr resource "dhcp" ;;
    (if negb (truthy dhcp) then
       fixed_ips <- lift (item port "fixed_ips") ;;
       first <- lift (at_ fixed_ips 0) ;;
       address <- lift (item first "ip_address") ;;
       setattr current "address" address
     else ret tt) ;;;
    enabled <- lift (item port "port_security_enabled") ;;
    setattr current "portsecurity" enabled ;;;
    name <- lift (item port "name") ;;
    setattr current "name" name ;;;
    ret current
  else
    setattr current "id" (VInt 0) ;;;
    setattr current "purged" (VBool true) ;;;
    setattr current "address" (VStr "") ;;;
    ret current.

(** The body of the [try] of [do_changes]. *)
Definition apply_changes (resource : ref) (changes : value)
  (subnet_id network_id vm port : value) : M value :=
  purged <- lift (has_key "purged" changes) ;;
  if (purged : bool) && is_none port then
    to_purge <- change_of changes "purged" 1 ;;
    if negb (truthy to_purge) then
      name <- getattr resource "name" ;;
      let body := [("admin_state_up", VBool true); ("name", name);
                   ("network_id", network_id)] in
      address <- getattr resource "address" ;;
      fixed <- (if negb (py_eq address (VStr "")) then
                  dhcp <- getattr resource "dhcp" ;;
                  ret (negb (truthy dhcp))
                else ret false) ;;
      body <- (if (fixed : bool) then
                 address <- getattr resource "address" ;;
                 ret (dict_set body "fixed_ips"
                        (VList [VDict [("subnet_id", subnet_id); ("ip_address", address)]]))
               else ret body) ;;
      result <- client_call "neutron.create_port" [kw [("body", VDict [("port", VDict body)])]] ;;
      created <- lift (has_key "port" result) ;;
      if negb created then raise (Exception_ "Unable to create port.")
      else
        created_port <- lift (item result "port") ;;
        port_id <- lift (item created_port "id") ;;
        client_call "server.interface_attach" [vm; port_id; VNone; VNone] ;;;
        ret (VBool true)
    else
      to_purge <- change_of changes "purged" 1 ;;
      delete <- (if truthy to_purge then
                   was_purged <- change_of changes "purged" 0 ;;
                   ret (negb (truthy was_purged))
                 else ret false) ;;
      if (delete : bool) then
        id <- lift (item port "id") ;;
        client_call "neutron.delete_port" [id] ;;;
        ret (VBool true)
      else ret (VBool false)
  else
    vm_id <- lift (attr vm "id") ;;
    port <- get_port network_id vm_id ;;
    if is_none port then raise (SkipResource "Port not found")
    else
      with_security <- lift (has_key "portsecurity" changes) ;;
      disable <- (if (with_security : bool) then
                    enabled <- change_of changes "portsecurity" 1 ;;
                    ret (negb (truthy enabled))
                  else ret false) ;;
      state <- (if (disable : bool) then
                  id <- lift (item port "id") ;;
                  client_call "neutron.update_port"
                    [kw [("port", id);
                         ("body", VDict [("port", VDict [("port_security_enabled", VBool false);
                                                         ("security_groups", VNone)])])]] ;;;
                  changes <- lift (del_item changes "portsecurity") ;;
                  ret (changes, true)
                else ret (changes, false)) ;;
      let '(changes, changed) := state in
      renamed <- lift (has_key "name" changes) ;;
      changes <- (if (renamed : bool) then
                    id <- lift (item port "id") ;;
                    name <- getattr resource "name" ;;
                    client_call "neutron.update_port"
                      [kw [("port", id); ("body", VDict [("port", VDict [("name", name)])])]] ;;;
                    lift (del_item changes "name")
                  else ret changes) ;;
      n <- lift (py_len changes) ;;
      if Nat.ltb 0 n then raise (SkipResource ("not implemented, " ++ py_str changes))
      else ret (VBool changed).

(** The message of the conflict is not part of the embedding. *)
Definition do_changes (resource : ref) (changes : value) : M value :=
  project <- getattr resource "project" ;;
  project_id <- get_project_id resource project ;;
  if is_none project_id then
    raise (SkipResource "Cannot create network when project id is not yet known.")
  else
  subnet <- getattr resource "subnet" ;;
  subnet_id <- get_subnet_id project_id subnet ;;
  if is_none subnet_id then
    raise (SkipResource "Unable to create host port because the subnet does not exist.")
  else
  network <- getattr resource "network" ;;
  network_id <- get_network_id project_id network ;;
  if is_none network_id then
    raise (SkipResource "Unable to create host port because the network does not exist.")
  else
  host <- getattr resource "host" ;;
  vm <- get_host project_id host ;;
  if is_none vm then
    raise (SkipResource "Unable to create host port because the router does not exist.")
  else
  vm_id <- lift (attr vm "id") ;;
  port <- get_port network_id vm_id ;;
  catch is_NovaConflict
    (apply_changes resource changes subnet_id network_id vm port)
    (fun _ => raise (SkipResource "Host is not ready: ")).

Definition facts (resource : ref) : M value :=
  named_facts "neutron.list_ports" "ports" resource.

End HostPort.

Module SecurityGroup.

Definition get_security_group (name id : value) : M value :=
  sgs <- (if negb (is_none name)
          then client_call "neutron.list_security_groups" [kw [("name", name)]]
          else if negb (is_none id)
          then client_call "neutron.list_security_groups" [kw [("id", id)]]
          else raise (UnboundLocalError "sgs")) ;;
  found <- lift (item sgs "security_groups") ;;
  n <- lift (py_len found) ;;
  if Nat.eqb n 0 then ret VNone
  else lift (at_ found 0).

(** [current.rules.append(rule)]; the list is the one [check_resource] has
    just stored in [current.rules], and nothing else holds it. *)
Definition append_rule (current : ref) (rule : value) : M unit :=
  rules <- getattr current "rules" ;;
  match rules with
  | VList l => setattr current "rules" (VList (l ++ [rule])%list)
  | _ => raise AttributeError
  end.

(** One rule of the remote group, in the form of a declared rule. *)
Definition read_rule (rule : value) : M value :=
  id <- lift (item rule "id") ;;
  let current_rule := [("__id", id)] in
  protocol <- lift (item rule "protocol") ;;
  current_rule <- (if is_none protocol then ret (dict_set current_rule "protocol" (VStr "all"))
                   else
                     protocol <- lift (item rule "protocol") ;;
                     ret (dict_set current_rule "protocol" protocol)) ;;
  prefix <- lift (item rule "remote_ip_prefix") ;;
  current_rule <- (if negb (is_none prefix) then
                     prefix <- lift (item rule "remote_ip_prefix") ;;
                     ret (dict_set current_rule "remote_ip_prefix" prefix)
                   else
                     group_id <- lift (item rule "remote_group_id") ;;
                     if negb (is_none group_id) then
                       group_id <- lift (item rule "remote_group_id") ;;
                       rgi <- get_security_group VNone group_id ;;
                       name <- lift (item rgi "name") ;;
                       ret (dict_set current_rule "remote_group" name)
                     else ret (dict_set current_rule "remote_ip_prefix" (VStr "0.0.0.0/0"))) ;;
  direction <- lift (item rule "direction") ;;
  let current_rule := dict_set current_rule "direction" direction in
  port_range_min <- lift (item rule "port_range_min") ;;
  let current_rule := dict_set current_rule "port_range_min" port_range_min in
  port_range_max <- lift (item rule "port_range_max") ;;
  let current_rule := dict_set current_rule "port_range_max" port_range_max in
  ret (VDict current_rule).

Definition check_resource (resource : ref) : M ref :=
  current <- clone resource ;;
  name <- getattr resource "name" ;;
  sg <- get_security_group name VNone ;;
  if is_none sg then
    setattr current "purged" (VBool true) ;;;
    setattr current "rules" (VList []) ;;;
    ret current
  else
    description <- lift (item sg "description") ;;
    setattr current "description" description ;;;
    setattr current "rules" (VList []) ;;;
    rules <- lift (item sg "security_group_rules") ;;
    l <- lift (iterate rules) ;;
    for_ l (fun rule =>
      ethertype <- lift (item rule "ethertype") ;;
      if negb (py_eq ethertype (VStr "IPv4")) then ret tt
      else
        current_rule <- read_rule rule ;;
        append_rule current current_rule) ;;;
    ret current.

(** [set([x for x in d.keys() if not x.startswith("__")])] *)
Definition public_keys (d : dict) : list string :=
  mkset (filter (fun x => negb (String.prefix "__" x)) (dict_keys d)).

(** The loop [for key in old_keys: if old[key] != new[key]: return False]. *)
Fixpoint compare_keys (old new : dict) (keys : list string) : result bool :=
  match keys with
  | [] => Ok true
  | key :: rest =>
      match dict_get old key with
      | None => Raise (KeyError key)
      | Some a =>
          match dict_get new key with
          | None => Raise (KeyError key)
          | Some b =>
              if negb (py_eq a b) then Ok false else compare_keys old new rest
          end
      end
  end.

Definition _compare_rule (old new : value) : result bool :=
  match old, new with
  | VDict o, VDict n =>
      let old_keys := public_keys o in
      let new_keys := public_keys n in
      if negb (set_eqb old_keys new_keys) then Ok false
      else compare_keys o n old_keys
  | _, _ => Raise AttributeError
  end.

(** The inner loop of the matching: the first old rule that compares equal
    to [new_rule] leaves [old_rules], and [new_rule] leaves [new_rules]. *)
Fixpoint match_rule (olds : list value) (new_rule : value)
  (remaining : list value * list value) : result (list value * list value) :=
  match olds with
  | [] => Ok remaining
  | old_rule :: rest =>
      match _compare_rule old_rule new_rule with
      | Raise e => Raise e
      | Ok true =>
          match list_remove (fst remaining) old_rule with
          | Raise e => Raise e
          | Ok old_rules =>
              match list_remove (snd remaining) new_rule with
              | Raise e => Raise e
              | Ok new_rules => Ok (old_rules, new_rules)
              end
          end
      | Ok false => match_rule rest new_rule remaining
      end
  end.

(** The outer loop, over the desired rules. *)
Fixpoint match_rules (olds news : list value) (remaining : list value * list value)
  : result (list value * list value) :=
  match news with
  | [] => Ok remaining
  | new_rule :: rest =>
      match match_rule olds new_rule remaining with
      | Raise e => Raise e
      | Ok remaining' => match_rules olds rest remaining'
      end
  end.

(** The rules of the changeset without the pairs that match:
    [(old_rules, new_rules)]. *)
Definition unmatched_rules (changes : value) : M (list value * list value) :=
  before <- change_of changes "rules" 0 ;;
  old_rules <- lift (iterate before) ;;
  after <- change_of changes "rules" 1 ;;
  new_rules <- lift (iterate after) ;;
  lift (match_rules old_rules new_rules (old_rules, new_rules)).

(** The body of the loop over [new_rules].  In the source the assignments
    update the dictionary of the declared rule in place; here the rules are
    values: the updated dictionary is threaded through the body and is the
    one sent, and it is not written back to the changeset or to the
    resource. *)
Definition create_rule (group_id : value) (new_rule : value) : M unit :=
  new_rule <- lift (set_item new_rule "ethertype" (VStr "IPv4")) ;;
  with_group <- lift (has_key "remote_group" new_rule) ;;
  resolved <- (if (with_group : bool) then
                 remote_group <- lift (item new_rule "remote_group") ;;
                 if negb (is_none remote_group) then
                   remote_group <- lift (item new_rule "remote_group") ;;
                   listed <- client_call "neutron.list_security_groups"
                               [kw [("name", remote_group)]] ;;
                   groups <- lift (item listed "security_groups") ;;
                   n <- lift (py_len groups) ;;
                   if Nat.eqb n 0 then ret None
                   else
                     new_rule <- lift (del_item new_rule "remote_group") ;;
                     first <- lift (at_ groups 0) ;;
                     id <- lift (item first "id") ;;
                     new_rule <- lift (set_item new_rule "remote_group_id" id) ;;
                     ret (Some new_rule)
                 else
                   new_rule <- lift (del_item new_rule "remote_group_id") ;;
                   ret (Some new_rule)
               else ret (Some new_rule)) ;;
  match resolved with
  | None => ret tt
  | Some new_rule =>
      new_rule <- lift (set_item new_rule "security_group_id" group_id) ;;
      protocol <- lift (item new_rule "protocol") ;;
      new_rule <- (if py_eq protocol (VStr "all")
                   then lift (set_item new_rule "protocol" VNone)
                   else ret new_rule) ;;
      client_call "neutron.create_security_group_rule"
        [VDict [("security_group_rule", new_rule)]] ;;;
      ret tt
  end.

(** The body of the loop over [old_rules]. *)
Definition delete_rule (old_rule : value) : M unit :=
  catch is_NeutronNotFound
    (id <- lift (item old_rule "__id") ;;
     client_call "neutron.delete_security_group_rule" [id] ;;;
     ret tt)
    (fun _ => ret tt).

Definition _update_rules (group_id : value) (resource : ref) (changes : value) : M unit :=
  remaining <- unmatched_rules changes ;;
  let '(old_rules, new_rules) := remaining in
  for_ new_rules (create_rule group_id) ;;;
  for_ old_rules delete_rule.

Definition list_changes (resource : ref) : M value :=
  current <- check_resource resource ;;
  changes <- _diff SecurityGroupHandler current resource ;;
  with_rules <- lift (has_key "rules" changes) ;;
  if (with_rules : bool) then
    remaining <- unmatched_rules changes ;;
    let '(old_rules, new_rules) := remaining in
    if Nat.eqb (List.length old_rules) 0 && Nat.eqb (List.length new_rules) 0
    then lift (del_item changes "rules")
    else ret changes
  else ret changes.

Definition do_changes (resource : ref) (changes : value) : M value :=
  purged <- lift (has_key "purged" changes) ;;
  state <- (if (purged : bool) then
              was_purged <- change_of changes "purged" 0 ;;
              if py_eq was_purged (VBool true) then
                name <- getattr resource "name" ;;
                description <- getattr resource "description" ;;
                sg <- client_call "neutron.create_security_group"
                        [VDict [("security_group",
                                 VDict [("name", name); ("description", description)])]] ;;
                group <- lift (item sg "security_group") ;;
                sg_id <- lift (item group "id") ;;
                ret (Some true, sg_id)
              else
                name <- getattr resource "name" ;;
                sg <- get_security_group name VNone ;;
                if negb (is_none sg) then
                  id <- lift (item sg "id") ;;
                  client_call "neutron.delete_security_group" [id] ;;;
                  sg_id <- lift (item sg "id") ;;
                  ret (Some true, sg_id)
                else ret (Some true, VNone)
            else
              n <- lift (py_len changes) ;;
              if Nat.ltb 0 n then
                name <- getattr resource "name" ;;
                sg <- get_security_group name VNone ;;
                if is_none sg then
                  raise (Exception_ "Unable to modify unexisting security group")
                else
                  id <- lift (item sg "id") ;;
                  name <- getattr resource "name" ;;
                  description <- getattr resource "description" ;;
                  client_call "neutron.update_security_group"
                    [id; VDict [("security_group",
                                 VDict [("name", name); ("description", description)])]] ;;;
                  sg_id <- lift (item sg "id") ;;
                  ret (None, sg_id)
              else ret (None, VNone)) ;;
  let '(changed, sg_id) := state in
  with_rules <- lift (has_key "rules" changes) ;;
  (if (with_rules : bool) then _update_rules sg_id resource changes else ret tt) ;;;
  match changed with
  | Some b => ret (VBool b)
  | None => raise (UnboundLocalError "changed")
  end.

Definition facts (resource : ref) : M value := ret (VDict []).

End SecurityGroup.

Module FloatingIP.

Definition get_port_id (name : value) : M value :=
  listed <- client_call "neutron.list_ports" [kw [("name", name)]] ;;
  ports <- lift (item listed "ports") ;;
  n <- lift (py_len ports) ;;
  if Nat.eqb n 0 then ret VNone
  else if Nat.eqb n 1 then
    first <- lift (at_ ports 0) ;; lift (item first "id")
  else raise (Exception_ ("Multiple ports found with name " ++ py_str name)).

Definition get_floating_ip (port_id : value) : M value :=
  listed <- client_call "neutron.list_floatingips" [kw [("port_id", port_id)]] ;;
  fip <- lift (item listed "floatingips") ;;
  n <- lift (py_len fip) ;;
  if Nat.eqb n 0 then ret VNone
  else first <- lift (at_ fip 0) ;; lift (item first "id").

Definition check_resource (resource : ref) : M ref :=
  current <- clone resource ;;
  port <- getattr resource "port" ;;
  port_id <- get_port_id port ;;
  fip <- get_floating_ip port_id ;;
  if is_none fip then
    setattr current "purged" (VBool true) ;;;
    ret current
  else
    setattr current "purged" (VBool false) ;;;
    ret current.

Definition _find_available_fips (project_id network_id : value) : M (list value) :=
  listed <- client_call "neutron.list_floatingips"
              [kw [("floating_network_id", network_id); ("tenant_id", project_id)]] ;;
  floating_ips <- lift (item listed "floatingips") ;;
  l <- lift (iterate floating_ips) ;;
  for_each l [] (fun available_fips fip =>
    port_id <- lift (item fip "port_id") ;;
    if is_none port_id then ret (available_fips ++ [fip])%list
    else ret available_fips).

Definition do_changes (resource : ref) (changes : value) : M value :=
  project <- getattr resource "project" ;;
  project_id <- get_project_id resource project ;;
  external_network <- getattr resource "external_network" ;;
  network_id <- get_network_id VNone external_network ;;
  port <- getattr resource "port" ;;
  port_id <- get_port_id port ;;
  purged <- lift (has_key "purged" changes) ;;
  if (purged : bool) then
    was_purged <- change_of changes "purged" 0 ;;
    if truthy was_purged then
      available_fips <- _find_available_fips project_id network_id ;;
      (if Nat.ltb 0 (List.length available_fips) then
         first <- lift (at_ (VList available_fips) 0) ;;
         fip_id <- lift (item first "id") ;;
         name <- getattr resource "name" ;;
         client_call "neutron.update_floatingip"
           [fip_id; VDict [("floatingip",
                            VDict [("port_id", port_id); ("description", name)])]] ;;;
         ret tt
       else
         name <- getattr resource "name" ;;
         client_call "neutron.create_floatingip"
           [VDict [("floatingip",
                    VDict [("port_id", port_id); ("floating_network_id", network_id);
                           ("description", name)])]] ;;;
         ret tt) ;;;
      ret (VBool true)
    else
      fip_id <- get_floating_ip port_id ;;
      (if negb (is_none fip_id) then
         client_call "neutron.delete_floatingip" [fip_id] ;;;
         ret tt
       else ret tt) ;;;
      ret (VBool false)
  else ret (VBool false).

Definition facts (resource : ref) : M value :=
  port <- getattr resource "port" ;;
  port_id <- get_port_id port ;;
  listed <- client_call "neutron.list_floatingips" [kw [("port_id", port_id)]] ;;
  fip <- lift (item listed "floatingips") ;;
  n <- lift (py_len fip) ;;
  if Nat.eqb n 0 then ret (VDict [])
  else
    first <- lift (at_ fip 0) ;;
    address <- lift (item first "floating_ip_address") ;;
    ret (VDict [("ip_address", address)]).

End FloatingIP.

(* ================================================================== *)
(** * The dependency managers *)
(* ================================================================== *)

(** A declared resource, by entity type, with the names the dependency
    managers read: [name], [model.project.name], [model.network.name],
    [subnets], the ["network"] of each entry of [ports] of a host, and the
    fields of ports, floating ips and roles. *)
Inductive resource : Type :=
| Project (name : string)
| Network (name project : string)
| Router (name project : string) (subnets : list string)
| Subnet (name project network : string)
| Host (name project : string) (ports : list string)
| HostPort (name project network host : string)
| FloatingIP (name external_network port : string)
| User (name : string)
| Role (role_id project user : string)
| OtherResource (entity_type name : string).

(** An object of [resource_model]: the resource and its [requires], a set
    of objects of the model.  An object is identified by its position in
    the model. *)
Record entry : Type := mkEntry {
  res : resource;
  requires : list nat
}.

Definition model := list entry.

(** [requires.add(j)] *)
Definition set_add (j : nat) (l : list nat) : list nat :=
  if existsb (Nat.eqb j) l then l else (l ++ [j])%list.

Definition add_requires (i j : nat) : ST model unit :=
  fun m => (Ok tt, update_nth m i (fun e => mkEntry (res e) (set_add j (requires e)))).

(** A dictionary from names to objects of the model, in insertion order. *)
Definition table := list (string * (nat * resource)).

Fixpoint table_get (t : table) (k : string) : option (nat * resource) :=
  match t with
  | [] => None
  | (k', v) :: t' => if String.eqb k' k then Some v else table_get t' k
  end.

Fixpoint table_set (t : table) (k : string) (v : nat * resource) : table :=
  match t with
  | [] => [(k, v)]
  | (k', v') :: t' =>
      if String.eqb k' k then (k', v) :: t' else (k', v') :: table_set t' k v
  end.

(** [k in t] *)
Definition table_has (t : table) (k : string) : bool :=
  match table_get t k with Some _ => true | None => false end.

(** [t[k]] *)
Definition table_find {S} (t : table) (k : string) : ST S nat :=
  match table_get t k with
  | Some v => ret (fst v)
  | None => raise (KeyError k)
  end.

(** [t.values()] *)
Definition table_values (t : table) : list (nat * resource) := map snd t.

(** The dictionaries [openstack_dependencies] fills. *)
Record tables : Type := mkTables {
  projects : table;
  networks : table;
  routers : table;
  subnets : table;
  vms : table;
  ports : table;
  fips : table
}.

Definition no_tables : tables := mkTables [] [] [] [] [] [] [].

(** The first loop: each resource goes to the dictionary of its type. *)
Definition classify (t : tables) (o : nat * resource) : tables :=
  let '(i, r) := o in
  match r with
  | Project name =>
      mkTables (table_set (projects t) name o) (networks t) (routers t) (subnets t)
               (vms t) (ports t) (fips t)
  | Network name _ =>
      mkTables (projects t) (table_set (networks t) name o) (routers t) (subnets t)
               (vms t) (ports t) (fips t)
  | Router name _ _ =>
      mkTables (projects t) (networks t) (table_set (routers t) name o) (subnets t)
               (vms t) (ports t) (fips t)
  | Subnet name _ _ =>
      mkTables (projects t) (networks t) (routers t) (table_set (subnets t) name o)
               (vms t) (ports t) (fips t)
  | Host name _ _ =>
      mkTables (projects t) (networks t) (routers t) (subnets t)
               (table_set (vms t) name o) (ports t) (fips t)
  | HostPort name _ _ _ =>
      mkTables (projects t) (networks t) (routers t) (subnets t)
               (vms t) (table_set (ports t) name o) (fips t)
  | FloatingIP name _ _ =>
      mkTables (projects t) (networks t) (routers t) (subnets t)
               (vms t) (ports t) (table_set (fips t) name o)
  | _ => t
  end.

(** The objects of the model with their positions. *)
Definition objects (m : model) : list (nat * resource) :=
  combine (seq 0 (List.length m)) (map res m).

Definition network_requires (t : tables) (o : nat * resource) : ST model unit :=
  match o with
  | (i, Network _ project) =>
      if table_has (projects t) project then
        p <- table_find (projects t) project ;; add_requires i p
      else ret tt
  | _ => ret tt
  end.

Definition router_requires (t : tables) (o : nat * resource) : ST model unit :=
  match o with
  | (i, Router _ project router_subnets) =>
      (if table_has (projects t) project then
         p <- table_find (projects t) project ;; add_requires i p
       else ret tt) ;;;
      for_ router_subnets (fun subnet_name =>
        s <- table_find (subnets t) subnet_name ;; add_requires i s)
  | _ => ret tt
  end.

Definition subnet_requires (t : tables) (o : nat * resource) : ST model unit :=
  match o with
  | (i, Subnet _ project network) =>
      p <- table_find (projects t) project ;;
      add_requires i p ;;;
      n <- table_find (networks t) network ;;
      add_requires i n
  | _ => ret tt
  end.

Definition vm_requires (t : tables) (o : nat * resource) : ST model unit :=
  match o with
  | (i, Host _ project vm_ports) =>
      p <- table_find (projects t) project ;;
      add_requires i p ;;;
      for_ vm_ports (fun port_network =>
        s <- table_find (subnets t) port_network ;; add_requires i s)
  | _ => ret tt
  end.

Definition port_requires (t : tables) (o : nat * resource) : ST model unit :=
  match o with
  | (i, HostPort _ project network host) =>
      p <- table_find (projects t) project ;;
      add_requires i p ;;;
      s <- table_find (subnets t) network ;;
      add_requires i s ;;;
      v <- table_find (vms t) host ;;
      add_requires i v
  | _ => ret tt
  end.

Definition fip_requires (t : tables) (o : nat * resource) : ST model unit :=
  match o with
  | (i, FloatingIP _ external_network port) =>
      n <- table_find (networks t) external_network ;;
      add_requires i n ;;;
      p <- table_find (ports t) port ;;
      add_requires i p
  | _ => ret tt
  end.

Definition openstack_dependencies : ST model unit :=
  fun resource_model =>
    let t := fold_left classify (objects resource_model) no_tables in
    (for_ (table_values (networks t)) (network_requires t) ;;;
     for_ (table_values (routers t)) (router_requires t) ;;;
     for_ (table_values (subnets t)) (subnet_requires t) ;;;
     for_ (table_values (vms t)) (vm_requires t) ;;;
     for_ (table_values (ports t)) (port_requires t) ;;;
     for_ (table_values (fips t)) (fip_requires t)) resource_model.

(** The dictionaries and the list [keystone_dependencies] fills. *)
Definition keystone_classify (t : table * table * list (nat * resource))
  (o : nat * resource) : table * table * list (nat * resource) :=
  let '(projects, users, roles) := t in
  match snd o with
  | Project name => (table_set projects name o, users, roles)
  | User name => (projects, table_set users name o, roles)
  | Role _ _ _ => (projects, users, (roles ++ [o])%list)
  | _ => t
  end.

Definition project_not_defined (project role_id : string) : string :=
  "The project " ++ project ++ " of role " ++ role_id ++ " is not defined in the model.".

Definition user_not_defined (user role_id : string) : string :=
  "The user " ++ user ++ " of role " ++ role_id ++ " is not defined in the model.".

Definition role_requires (projects users : table) (o : nat * resource) : ST model unit :=
  match o with
  | (i, Role role_id project user) =>
      if negb (table_has projects project) then
        raise (Exception_ (project_not_defined project role_id))
      else if negb (table_has users user) then
        raise (Exception_ (user_not_defined user role_id))
      else
        p <- table_find projects project ;;
        add_requires i p ;;;
        u <- table_find users user ;;
        add_requires i u
  | _ => ret tt
  end.

Definition keystone_dependencies : ST model unit :=
  fun resource_model =>
    let '(projects, users, roles) :=
      fold_left keystone_classify (objects resource_model) ([], [], []) in
    for_ roles (role_requires projects users) resource_model.

(* ================================================================== *)
(** * The operations by handler *)
(* ================================================================== *)

Definition check_resource (h : handler) (strict : bool) (resource : ref) : M ref :=
  match h with
  | VMHandler => VM.check_resource resource
  | RouterHandler => Router.check_resource strict resource
  | SubnetHandler => Subnet.check_resource strict resource
  | RouterPortHandler => RouterPort.check_resource strict resource
  | HostPortHandler => HostPort.check_resource resource
  | SecurityGroupHandler => SecurityGroup.check_resource resource
  | FloatingIPHandler => FloatingIP.check_resource resource
  end.

Definition do_changes (h : handler) (strict : bool) (resource : ref) (changes : value)
  : M value :=
  match h with
  | VMHandler => VM.do_changes resource changes
  | RouterHandler => Router.do_changes strict resource changes
  | SubnetHandler => Subnet.do_changes strict resource changes
  | RouterPortHandler => RouterPort.do_changes resource changes
  | HostPortHandler => HostPort.do_changes resource changes
  | SecurityGroupHandler => SecurityGroup.do_changes resource changes
  | FloatingIPHandler => FloatingIP.do_changes resource changes
  end.

(** The calls by which a handler creates or deletes its resource.  A host
    is created with its key pair, a router port by a port attached to the
    router, a floating ip by taking a free one or a new one; the security
    group handler sends the rules of the group with the group. *)
Definition transition_calls (h : handler) : list string :=
  match h with
  | VMHandler => ["nova.keypairs.create"; "nova.servers.create"; "server.delete"]
  | RouterHandler => ["neutron.create_router"; "neutron.delete_router"]
  | SubnetHandler => ["neutron.create_subnet"; "neutron.delete_subnet"]
  | RouterPortHandler => ["neutron.create_port"; "neutron.add_interface_router"]
  | HostPortHandler => ["neutron.create_port"; "server.interface_attach"; "neutron.delete_port"]
  | SecurityGroupHandler =>
      ["neutron.create_security_group"; "neutron.delete_security_group";
       "neutron.create_security_group_rule"; "neutron.delete_security_group_rule"]
  | FloatingIPHandler =>
      ["neutron.update_floatingip"; "neutron.create_floatingip"; "neutron.delete_floatingip"]
  end.

(** Every call issued between [w] and [w'] is of a method in [ok]. *)
Definition calls_within (ok : string -> bool) (w w' : world) : Prop :=
  exists l, issued w w' l /\ Forall (fun c => ok (meth c) = true) l.

(** The methods in [lookup_methods] or in [extra]. *)
Definition lookups_and (extra : list string) (name : string) : bool :=
  mem name lookup_methods || mem name extra.

(** The read and the diff of a resource, composed as
    [SecurityGroupHandler.list_changes] composes them. *)
Definition read_and_diff (h : handler) (strict : bool) (resource : ref) : M value :=
  current <- check_resource h strict resource ;;
  _diff h current resource.

(** Modelled from the spec: the pass "read, diff, apply" of the engine, which
    the handlers are called from and the module does not define.  The
    changeset of the read and the diff is applied when it is not empty, and
    is the result of the pass. *)
Definition pass (h : handler) (strict : bool) (resource : ref) : M value :=
  changes <- read_and_diff h strict resource ;;
  n <- lift (py_len changes) ;;
  if Nat.ltb 0 n then
    do_changes h strict resource changes ;;;
    ret changes
  else ret changes.

(* ================================================================== *)
(** * The operations, by handler *)
(* ================================================================== *)

(** [facts] of a handler: what the agent calls, with the context. *)
Definition facts (h : handler) (resource : ref) : M value :=
  match h with
  | VMHandler => VM.facts resource
  | RouterHandler => Router.facts resource
  | SubnetHandler => Subnet.facts resource
  | RouterPortHandler => RouterPort.facts resource
  | HostPortHandler => HostPort.facts resource
  | SecurityGroupHandler => SecurityGroup.facts resource
  | FloatingIPHandler => FloatingIP.facts resource
  end.

(* ================================================================== *)
(** * The handlers on the context of the agent *)
(* ================================================================== *)

(** Modelled from the spec: the context [ctx] that the agent hands to the
    operations of a [CRUDHandler], an object of the orchestrator's library
    that the module does not define.  The module stores values in it under
    a name and reads them back ([set], [get]; reading a name that was not
    set is a [KeyError]), and records in it what an operation has done
    ([set_created], [set_purged], [set_updated], [fields_updated]).  The
    context is passed to an operation and returned by it. *)
Inductive change : Type :=
| change_none
| change_created
| change_purged
| change_updated.

Record context : Type := mkContext {
  ctx_values : dict;
  ctx_change : change;
  ctx_fields : list string
}.

Definition new_context : context := mkContext [] change_none [].

Definition ctx_set (ctx : context) (name : string) (v : value) : context :=
  mkContext (dict_set (ctx_values ctx) name v) (ctx_change ctx) (ctx_fields ctx).

Definition ctx_get (ctx : context) (name : string) : M value :=
  match dict_get (ctx_values ctx) name with
  | Some v => ret v
  | None => raise (KeyError name)
  end.

Definition set_change (ctx : context) (c : change) : context :=
  mkContext (ctx_values ctx) c (ctx_fields ctx).

Definition fields_updated (ctx : context) (fields : list string) : context :=
  mkContext (ctx_values ctx) (ctx_change ctx)
    (ctx_fields ctx ++ filter (fun f => negb (mem f (ctx_fields ctx))) fields)%list.

(** [keystoneclient.exceptions.NotFound], the [NotFound] of the module. *)
Definition is_KeystoneNotFound (e : exn) : bool :=
  match e with KeystoneNotFound => true | _ => false end.

(** [o.method(...)] on an object of a client library: a call to the remote
    side on that object; [None] and strings have no such method. *)
Definition method_call (o : value) (name : string) (arguments : list value) : M value :=
  match o with
  | VDict _ => client_call name (o :: arguments)
  | _ => raise AttributeError
  end.

(** [OpenStackHandler.get_project_id] reads as [NeutronHandler.get_project_id]
    does, on the session and the keystone client of the resource; it is
    [get_project_id] above. *)

(* ================================================================== *)
(** * NetworkHandler *)
(* ================================================================== *)

Module NetworkHandler.

Definition facts (resource : ref) : M value :=
  listed <- catch is_KeystoneNotFound
              (name <- getattr resource "name" ;;
               listed <- client_call "neutron.list_networks" [kw [("name", name)]] ;;
               networks <- lift (item listed "networks") ;;
               ret (Some networks))
              (fun _ => ret None) ;;
  match listed with
  | None => ret (VDict [])
  | Some networks =>
      n <- lift (py_len networks) ;;
      if Nat.eqb n 0 then ret (VDict [])
      else
        n <- lift (py_len networks) ;;
        if Nat.ltb 1 n then ret (VDict [])
        else lift (at_ networks 0)
  end.

Definition read_resource (ctx : context) (resource : ref) : M context :=
  network <- facts resource ;;
  n <- lift (py_len network) ;;
  if Nat.ltb 0 n then
    setattr resource "purged" (VBool false) ;;;
    external <- lift (item network "router:external") ;;
    setattr resource "external" external ;;;
    physical_network <- getattr resource "physical_network" ;;
    (if negb (py_eq physical_network (VStr "")) then
       v <- lift (item network "provider:physical_network") ;;
       setattr resource "physical_network" v
     else ret tt) ;;;
    network_type <- getattr resource "network_type" ;;
    (if negb (py_eq network_type (VStr "")) then
       v <- lift (item network "provider:network_type") ;;
       setattr resource "network_type" v
     else ret tt) ;;;
    segmentation_id <- getattr resource "segmentation_id" ;;
    segmented <- lift (py_gt segmentation_id (VInt 0)) ;;
    (if (segmented : bool) then
       v <- lift (item network "provider:segmentation_id") ;;
       setattr resource "segmentation_id" v
     else ret tt) ;;;
    id <- lift (item network "id") ;;
    let ctx := ctx_set ctx "network_id" id in
    tenant_id <- lift (item network "tenant_id") ;;
    let ctx := ctx_set ctx "project_id" tenant_id in
    ret ctx
  else raise ResourcePurged.

Definition _create_dict (resource : ref) (project_id : value) : M value :=
  name <- getattr resource "name" ;;
  let net := [("name", name); ("tenant_id", project_id); ("admin_state_up", VBool true)] in
  physical_network <- getattr resource "physical_network" ;;
  net <- (if negb (py_eq physical_network (VStr "")) then
            v <- getattr resource "physical_network" ;;
            ret (dict_set net "provider:physical_network" v)
          else ret net) ;;
  network_type <- getattr resource "network_type" ;;
  net <- (if negb (py_eq network_type (VStr "")) then
            v <- getattr resource "network_type" ;;
            ret (dict_set net "provider:network_type" v)
          else ret net) ;;
  segmentation_id <- getattr resource "segmentation_id" ;;
  segmented <- lift (py_gt segmentation_id (VInt 0)) ;;
  net <- (if (segmented : bool) then
            v <- getattr resource "segmentation_id" ;;
            ret (dict_set net "provider:segmentation_id" v)
          else ret net) ;;
  ret (VDict net).

Definition create_resource (ctx : context) (resource : ref) : M context :=
  project <- getattr resource "project" ;;
  project_id <- get_project_id resource project ;;
  net <- _create_dict resource project_id ;;
  client_call "neutron.create_network" [VDict [("network", net)]] ;;;
  ret (set_change ctx change_created).

Definition delete_resource (ctx : context) (resource : ref) : M context :=
  network_id <- ctx_get ctx "network_id" ;;
  client_call "neutron.delete_network" [network_id] ;;;
  ret (set_change ctx change_purged).

Definition update_resource (ctx : context) (changes : value) (resource : ref)
  : M context :=
  network_id <- ctx_get ctx "network_id" ;;
  name <- getattr resource "name" ;;
  external <- getattr resource "external" ;;
  client_call "neutron.update_network"
    [network_id; VDict [("network", VDict [("name", name);
                                           ("router:external", external)])]] ;;;
  let ctx := fields_updated ctx ["name"; "external"] in
  ret (set_change ctx change_updated).

End NetworkHandler.

(* ================================================================== *)
(** * The handlers on keystone *)
(* ================================================================== *)

Module ProjectHandler.

Definition read_resource (ctx : context) (resource : ref) : M context :=
  catch is_KeystoneNotFound
    (name <- getattr resource "name" ;;
     project <- client_call "keystone.projects.find" [kw [("name", name)]] ;;
     setattr resource "purged" (VBool false) ;;;
     enabled <- lift (attr project "enabled") ;;
     setattr resource "enabled" enabled ;;;
     description <- lift (attr project "description") ;;
     setattr resource "description" description ;;;
     ret (ctx_set ctx "project" project))
    (fun _ => raise ResourcePurged).

Definition create_resource (ctx : context) (resource : ref) : M context :=
  name <- getattr resource "name" ;;
  description <- getattr resource "description" ;;
  enabled <- getattr resource "enabled" ;;
  client_call "keystone.projects.create"
    [name; kw [("description", description); ("enabled", enabled);
               ("domain", VStr "default")]] ;;;
  ret (set_change ctx change_created).

Definition delete_resource (ctx : context) (resource : ref) : M context :=
  project <- ctx_get ctx "project" ;;
  method_call project "project.delete" [] ;;;
  ret (set_change ctx change_purged).

Definition update_resource (ctx : context) (changes : value) (resource : ref)
  : M context :=
  project <- ctx_get ctx "project" ;;
  name <- getattr resource "name" ;;
  description <- getattr resource "description" ;;
  enabled <- getattr resource "enabled" ;;
  method_call project "project.update"
    [kw [("name", name); ("description", description); ("enabled", enabled)]] ;;;
  ret (set_change ctx change_updated).

End ProjectHandler.

Module UserHandler.

(** The client made from the name and the password of the user, and its
    [authenticate]: two calls, either of which may fail. *)
Definition read_resource (ctx : context) (resource : ref) : M context :=
  catch is_KeystoneNotFound
    (name <- getattr resource "name" ;;
     user <- client_call "keystone.users.find" [kw [("name", name)]] ;;
     setattr resource "purged" (VBool false) ;;;
     enabled <- lift (attr user "enabled") ;;
     setattr resource "enabled" enabled ;;;
     email <- lift (attr user "email") ;;
     setattr resource "email" email ;;;
     let ctx := ctx_set ctx "user" user in
     password <- getattr resource "password" ;;
     (if negb (py_eq password (VStr "")) then
        catch any_exception
          (auth_url <- getattr resource "auth_url" ;;
           name <- getattr resource "name" ;;
           password <- getattr resource "password" ;;
           s <- client_call "keystone_client.Client"
                  [kw [("auth_url", auth_url); ("username", name);
                       ("password", password)]] ;;
           client_call "client.authenticate" [s] ;;;
           ret tt)
          (fun _ => setattr resource "password" (VStr "***"))
      else ret tt) ;;;
     ret ctx)
    (fun _ => raise ResourcePurged).

Definition create_resource (ctx : context) (resource : ref) : M context :=
  name <- getattr resource "name" ;;
  password <- getattr resource "password" ;;
  email <- getattr resource "email" ;;
  enabled <- getattr resource "enabled" ;;
  client_call "keystone.users.create"
    [name; kw [("password", password); ("email", email); ("enabled", enabled)]] ;;;
  ret (set_change ctx change_created).

Definition delete_resource (ctx : context) (resource : ref) : M context :=
  user <- ctx_get ctx "user" ;;
  method_call user "user.delete" [] ;;;
  ret (set_change ctx change_purged).

Definition update_resource (ctx : context) (changes : value) (resource : ref)
  : M context :=
  user <- ctx_get ctx "user" ;;
  user_id <- lift (attr user "id") ;;
  password <- getattr resource "password" ;;
  (if negb (py_eq password (VStr "")) then
     password <- getattr resource "password" ;;
     email <- getattr resource "email" ;;
     enabled <- getattr resource "enabled" ;;
     client_call "keystone.users.update"
       [user_id; kw [("password", password); ("email", email); ("enabled", enabled)]]
   else
     email <- getattr resource "email" ;;
     enabled <- getattr resource "enabled" ;;
     client_call "keystone.users.update"
       [user_id; kw [("email", email); ("enabled", enabled)]]) ;;;
  ret (set_change ctx change_updated).

End UserHandler.

Module RoleHandler.

Definition read_resource (ctx : context) (resource : ref) : M context :=
  role <- catch is_KeystoneNotFound
            (client_call "keystone.users.find" [kw [("name", VStr "bartvb")]] ;;;
             name <- getattr resource "role" ;;
             client_call "keystone.roles.find" [kw [("name", name)]])
            (fun _ => ret VNone) ;;
  found <- catch is_KeystoneNotFound
             (name <- getattr resource "user" ;;
              user <- client_call "keystone.users.find" [kw [("name", name)]] ;;
              name <- getattr resource "project" ;;
              project <- client_call "keystone.projects.find" [kw [("name", name)]] ;;
              ret (user, project))
             (fun _ => raise (SkipResource "Either the user or project does not exist.")) ;;
  let '(user, project) := found in
  catch any_exception
    (client_call "keystone.roles.check"
       [kw [("role", role); ("user", user); ("project", project)]] ;;;
     setattr resource "purged" (VBool false))
    (fun _ => setattr resource "purged" (VBool true)) ;;;
  let ctx := ctx_set ctx "role" role in
  let ctx := ctx_set ctx "user" user in
  let ctx := ctx_set ctx "project" project in
  ret ctx.

Definition create_resource (ctx : context) (resource : ref) : M context :=
  user <- ctx_get ctx "user" ;;
  project <- ctx_get ctx "project" ;;
  role <- ctx_get ctx "role" ;;
  role <- (if is_none role then
             name <- getattr resource "role" ;;
             client_call "keystone.roles.create" [name]
           else ret role) ;;
  client_call "keystone.roles.grant"
    [kw [("user", user); ("role", role); ("project", project)]] ;;;
  ret (set_change ctx change_created).

Definition delete_resource (ctx : context) (resource : ref) : M context :=
  user <- ctx_get ctx "user" ;;
  project <- ctx_get ctx "project" ;;
  role <- ctx_get ctx "role" ;;
  client_call "keystone.roles.revoke"
    [kw [("user", user); ("role", role); ("project", project)]] ;;;
  ret (set_change ctx change_purged).

End RoleHandler.

Module ServiceHandler.

Definition read_resource (ctx : context) (resource : ref) : M context :=
  service <- catch is_KeystoneNotFound
               (name <- getattr resource "name" ;;
                type <- getattr resource "type" ;;
                service <- client_call "keystone.services.find"
                             [kw [("name", name); ("type", type)]] ;;
                description <- lift (attr service "description") ;;
                setattr resource "description" description ;;;
                setattr resource "purged" (VBool false) ;;;
                ret service)
               (fun _ =>
                  setattr resource "purged" (VBool true) ;;;
                  setattr resource "description" VNone ;;;
                  setattr resource "name" VNone ;;;
                  setattr resource "type" VNone ;;;
                  ret VNone) ;;
  ret (ctx_set ctx "service" service).

Definition create_resource (ctx : context) (resource : ref) : M context :=
  name <- getattr resource "name" ;;
  type <- getattr resource "type" ;;
  description <- getattr resource "description" ;;
  client_call "keystone.services.create" [name; type; kw [("description", description)]] ;;;
  ret (set_change ctx change_created).

Definition delete_resource (ctx : context) (resource : ref) : M context :=
  service <- ctx_get ctx "service" ;;
  method_call service "service.delete" [] ;;;
  ret (set_change ctx change_purged).

Definition update_resource (ctx : context) (changes : value) (resource : ref)
  : M context :=
  service <- ctx_get ctx "service" ;;
  description <- getattr resource "description" ;;
  client_call "keystone.services.update" [service; kw [("description", description)]] ;;;
  ret (set_change ctx change_updated).

End ServiceHandler.

Module EndpointHandler.

(** The class attribute [types], in the order of the literal. *)
Definition types : list (string * string) :=
  [("admin", "admin_url"); ("internal", "internal_url"); ("public", "public_url")].

Definition read_resource (ctx : context) (resource : ref) : M context :=
  services <- client_call "keystone.services.list" [] ;;
  l <- lift (iterate services) ;;
  service <- for_each l VNone (fun service s =>
               service_id <- getattr resource "service_id" ;;
               type <- lift (attr s "type") ;;
               name <- lift (attr s "name") ;;
               if py_eq service_id (VStr (py_str type ++ "_" ++ py_str name))
               then ret s else ret service) ;;
  if is_none service then
    raise (SkipResource "Unable to find service to which endpoint belongs")
  else
    endpoints <- catch is_KeystoneNotFound
                   (region <- getattr resource "region" ;;
                    listed <- client_call "keystone.endpoints.list"
                                [kw [("region", region); ("service", service)]] ;;
                    l <- lift (iterate listed) ;;
                    endpoints <- for_each l [] (fun endpoints e =>
                                   interface <- lift (attr e "interface") ;;
                                   k <- lift (as_key interface) ;;
                                   ret (dict_set endpoints k e)) ;;
                    for_ types (fun kv =>
                      match dict_get endpoints (fst kv) with
                      | Some e => setattr resource (snd kv) e
                      | None => setattr resource (snd kv) VNone
                      end) ;;;
                    setattr resource "purged" (VBool false) ;;;
                    ret endpoints)
                   (fun _ =>
                      setattr resource "purged" (VBool true) ;;;
                      setattr resource "region" VNone ;;;
                      setattr resource "internal_url" VNone ;;;
                      setattr resource "admin_url" VNone ;;;
                      setattr resource "public_url" VNone ;;;
                      ret []) ;;
    let ctx := ctx_set ctx "service" service in
    let ctx := ctx_set ctx "endpoints" (VDict endpoints) in
    ret ctx.

Definition delete_resource (ctx : context) (resource : ref) : M context :=
  endpoints <- ctx_get ctx "endpoints" ;;
  l <- lift (iterate endpoints) ;;
  for_ l (fun endpoint => method_call endpoint "endpoint.delete" [] ;;; ret tt) ;;;
  ret (set_change ctx change_purged).

Definition update_resource (ctx : context) (changes : value) (resource : ref)
  : M context :=
  service <- ctx_get ctx "service" ;;
  endpoints <- ctx_get ctx "endpoints" ;;
  for_each types ctx (fun ctx kv =>
    let '(k, v) := kv in
    present <- lift (contains (VStr k) endpoints) ;;
    if negb present then
      url <- getattr resource v ;;
      region <- getattr resource "region" ;;
      client_call "keystone.endpoints.create"
        [service; kw [("url", url); ("region", region); ("interface", VStr k)]] ;;;
      ret (set_change ctx change_created)
    else
      changed <- lift (contains (VStr v) changes) ;;
      if (changed : bool) then
        endpoint <- lift (item endpoints k) ;;
        url <- getattr resource v ;;
        client_call "keystone.endpoints.update" [endpoint; kw [("url", url)]] ;;;
        ret (set_change ctx change_updated)
      else ret ctx).

End EndpointHandler.

(* ================================================================== *)
(** * The rules of a declared security group *)
(* ================================================================== *)

(** [SecurityGroup.get_rules], the body of its loop first.  The group and
    its rules are entities of the configuration model, held as the
    dictionaries of their attributes; reading an attribute that has no
    value raises. *)
Definition get_rule (rule : value) : M value :=
  protocol <- lift (attr rule "ip_protocol") ;;
  direction <- lift (attr rule "direction") ;;
  let json_rule := [("protocol", protocol); ("direction", direction)] in
  port <- lift (attr rule "port") ;;
  positive <- lift (py_gt port (VInt 0)) ;;
  json_rule <- (if (positive : bool) then
                  port <- lift (attr rule "port") ;;
                  let json_rule := dict_set json_rule "port_range_min" port in
                  port <- lift (attr rule "port") ;;
                  ret (dict_set json_rule "port_range_max" port)
                else
                  port <- lift (attr rule "port") ;;
                  let json_rule := dict_set json_rule "port_range_min" port in
                  port <- lift (attr rule "port") ;;
                  ret (dict_set json_rule "port_range_max" port)) ;;
  port_range_min <- lift (item (VDict json_rule) "port_range_min") ;;
  json_rule <- (if py_eq port_range_min (VInt 0)
                then ret (dict_set json_rule "port_range_min" VNone)
                else ret json_rule) ;;
  port_range_max <- lift (item (VDict json_rule) "port_range_max") ;;
  json_rule <- (if py_eq port_range_max (VInt 0)
                then ret (dict_set json_rule "port_range_max" VNone)
                else ret json_rule) ;;
  json_rule <- catch any_exception
                 (remote_prefix <- lift (attr rule "remote_prefix") ;;
                  ret (dict_set json_rule "remote_ip_prefix" remote_prefix))
                 (fun _ => ret json_rule) ;;
  json_rule <- catch any_exception
                 (remote_group <- lift (attr rule "remote_group") ;;
                  name <- lift (attr remote_group "name") ;;
                  ret (dict_set json_rule "remote_group" name))
                 (fun _ => ret json_rule) ;;
  ret (VDict json_rule).

Definition get_rules (group : value) : M value :=
  group_rules <- lift (attr group "rules") ;;
  l <- lift (iterate group_rules) ;;
  rules <- for_each l [] (fun rules rule =>
             json_rule <- get_rule rule ;;
             ret (rules ++ [json_rule])%list) ;;
  ret (VList rules).

(* ================================================================== *)
(** * Sample inputs *)
(* ================================================================== *)

(** The model of the scenario: a project, a network of the project and a
    subnet of the network and the project, each with the edges declared
    for it. *)
Definition scenario_model (p n s : string) (r0 r1 r2 : list nat) : model :=
  [mkEntry (Project p) r0; mkEntry (Network n p) r1; mkEntry (Subnet s p n) r2].

(** [j] comes before [i] in an order of execution. *)
Definition before (order : list nat) (j i : nat) : Prop :=
  exists l1 l2 l3, order = (l1 ++ j :: l2 ++ i :: l3)%list.

(** An order of execution of the whole model in which every object comes
    after the objects it requires. *)
Definition valid_order (m : model) (order : list nat) : Prop :=
  NoDup order /\
  (forall i, i < List.length m -> In i order) /\
  (forall i e j, nth_error m i = Some e -> In j (requires e) -> before order j i).

(** The edges of a model: [i] requires [j]. *)
Definition edge (m : model) (i j : nat) : Prop :=
  exists e, nth_error m i = Some e /\ In j (requires e).

(** A network whose project is not declared in the model. *)
Definition lone_network : model := [mkEntry (Network "n1" "p1") []].

(** The resources whose reference to a project [openstack_dependencies]
    guards or does not follow. *)
Definition guarded (e : entry) : Prop :=
  match res e with
  | Router _ _ _ | Subnet _ _ _ | Host _ _ _ | HostPort _ _ _ _ | FloatingIP _ _ _ => False
  | _ => True
  end.

(** A declared rule, and the same rule as read back from the remote side,
    with its id. *)
Definition ssh_rule : dict :=
  [("protocol", VStr "tcp"); ("direction", VStr "ingress");
   ("port_range_min", VInt 22); ("port_range_max", VInt 22);
   ("remote_ip_prefix", VStr "0.0.0.0/0")].

Definition ssh_rule_read : dict :=
  [("__id", VStr "rule-1"); ("protocol", VStr "tcp");
   ("remote_ip_prefix", VStr "0.0.0.0/0"); ("direction", VStr "ingress");
   ("port_range_min", VInt 22); ("port_range_max", VInt 22)].

(** A remote side that answers by method, from a table, whatever came
    before; a method not in the table answers [None]. *)
Definition answering (table : list (string * result value))
  : list call -> call -> result value :=
  fun _ c =>
    match find (fun entry => String.eqb (fst entry) (meth c)) table with
    | Some entry => snd entry
    | None => Ok VNone
    end.

(** A declared resource of project [p1]: the fields of its class, those of
    [OpenstackResource] and the purge flags, with their values. *)
Definition declared (cls : string) (fields : list string) (attrs : dict)
    (purged : bool) : obj :=
  mkObj cls
    (fields ++ ["project"; "admin_user"; "admin_password"; "admin_tenant"; "auth_url";
                "purged"; "purge_on_delete"])%list
    (attrs ++ [("project", VStr "p1"); ("admin_user", VStr "admin");
               ("admin_password", VStr "secret"); ("admin_tenant", VStr "admin");
               ("auth_url", VStr "http://keystone:5000/v2.0");
               ("purged", VBool purged); ("purge_on_delete", VBool false)])%list.

(** A host whose key pair is not known to nova. *)
Definition host_resource : obj :=
  declared "openstack::Host"
    ["name"; "flavor"; "image"; "key_name"; "user_data"; "key_value"; "ports";
     "security_groups"]
    [("name", VStr "vm1"); ("flavor", VStr "m1.small"); ("image", VStr "img-1");
     ("key_name", VStr "mykey"); ("user_data", VStr "");
     ("key_value", VStr "ssh-rsa AAAA"); ("ports", VList []);
     ("security_groups", VList [])]
    false.

Definition world_without_keys : world :=
  mkWorld [host_resource] [] (answering [("nova.keypairs.list", Ok (VList []))]).

(** A security group to create, with one rule. *)
Definition group_resource : obj :=
  declared "openstack::SecurityGroup"
    ["name"; "description"; "manage_all"; "rules"]
    [("name", VStr "web"); ("description", VStr "web servers");
     ("manage_all", VBool true); ("rules", VList [VDict ssh_rule])]
    false.

Definition world_without_group : world :=
  mkWorld [group_resource] []
    (answering
       [("neutron.list_security_groups", Ok (VDict [("security_groups", VList [])]));
        ("neutron.create_security_group",
         Ok (VDict [("security_group", VDict [("id", VStr "sg-1")])]))]).

(** The changeset of the creation of the group with its rule. *)
Definition create_group_with_rule : value :=
  VDict [("purged", VTuple [VBool true; VBool false]);
         ("rules", VTuple [VList []; VList [VDict ssh_rule]])].

(** A floating ip on a port whose name two remote ports have. *)
Definition floating_ip_resource : obj :=
  declared "openstack::FloatingIP"
    ["name"; "port"; "external_network"]
    [("name", VStr "fip1"); ("port", VStr "port-1"); ("external_network", VStr "public")]
    false.

(** A router port of that name. *)
Definition port_1_resource : obj :=
  declared "openstack::RouterPort"
    ["name"; "address"; "subnet"; "router"; "network"]
    [("name", VStr "port-1"); ("address", VStr "10.0.0.2"); ("subnet", VStr "s1");
     ("router", VStr "r1"); ("network", VStr "n1")]
    false.

Definition world_with_two_ports : world :=
  mkWorld [floating_ip_resource; port_1_resource] []
    (answering
       [("neutron.list_ports",
         Ok (VDict [("ports",
                     VList [VDict [("id", VStr "a"); ("name", VStr "port-1")];
                            VDict [("id", VStr "b"); ("name", VStr "port-1")]])]))]).

(** A router, and a remote side on which the lookup of the routers
    fails. *)
Definition router_resource : obj :=
  declared "openstack::Router"
    ["name"; "subnets"; "gateway"; "ports"; "routes"]
    [("name", VStr "r1"); ("subnets", VList [VStr "s1"]); ("gateway", VStr "");
     ("ports", VList []); ("routes", VDict [])]
    false.

Definition world_out_of_reach : world :=
  mkWorld [router_resource] []
    (answering [("neutron.list_routers", Raise NeutronClientException)]).

(** A router port declared purged, with an address, that does not exist on
    the remote side; its project, subnet, network and router do. *)
Definition router_port_resource : obj :=
  declared "openstack::RouterPort"
    ["name"; "address"; "subnet"; "router"; "network"]
    [("name", VStr "rp1"); ("address", VStr "10.0.0.1"); ("subnet", VStr "s1");
     ("router", VStr "r1"); ("network", VStr "n1")]
    true.

Definition world_without_port : world :=
  mkWorld [router_port_resource] []
    (answering
       [("neutron.list_ports", Ok (VDict [("ports", VList [])]));
        ("keystone.tenants.find", Ok (VDict [("id", VStr "proj-1")]));
        ("neutron.list_subnets",
         Ok (VDict [("subnets", VList [VDict [("id", VStr "sub-1"); ("name", VStr "s1")]])]));
        ("neutron.list_networks",
         Ok (VDict [("networks", VList [VDict [("id", VStr "net-1"); ("name", VStr "n1")]])]));
        ("neutron.list_routers",
         Ok (VDict [("routers", VList [VDict [("id", VStr "rt-1"); ("name", VStr "r1")]])]))]).

(** The changeset of that router port, pass after pass. *)
Definition address_to_set : value :=
  VDict [("address", VTuple [VStr ""; VStr "10.0.0.1"])].

(** A rule present on the remote side and not declared, and a declared
    rule that names a remote group. *)
Definition http_rule_read : dict :=
  [("__id", VStr "rule-x"); ("protocol", VStr "tcp");
   ("remote_ip_prefix", VStr "0.0.0.0/0"); ("direction", VStr "ingress");
   ("port_range_min", VInt 80); ("port_range_max", VInt 80)].

Definition db_rule : dict :=
  [("protocol", VStr "tcp"); ("direction", VStr "ingress");
   ("port_range_min", VInt 5432); ("port_range_max", VInt 5432);
   ("remote_group", VStr "db")].

Definition https_rule : dict :=
  [("protocol", VStr "tcp"); ("direction", VStr "ingress");
   ("port_range_min", VInt 443); ("port_range_max", VInt 443);
   ("remote_ip_prefix", VStr "0.0.0.0/0")].

(** The changeset of the rules from [{X, Y}] to [{Y, Z}]. *)
Definition rules_changeset (x y' y z : dict) : value :=
  VDict [("rules", VTuple [VList [VDict x; VDict y']; VList [VDict y; VDict z]])].

(** A remote side that lists no security group. *)
Definition world_without_remote_group : world :=
  mkWorld [group_resource] []
    (answering
       [("neutron.list_security_groups", Ok (VDict [("security_groups", VList [])]))]).

(** The dictionary [create_rule] sends for a rule [z] that names no remote
    group, whose protocol is [protocol]. *)
Definition sent_rule (z : dict) (group_id protocol : value) : dict :=
  let z1 := dict_set (dict_set z "ethertype" (VStr "IPv4")) "security_group_id" group_id in
  if py_eq protocol (VStr "all") then dict_set z1 "protocol" VNone else z1.

(* ================================================================== *)
(** * Properties of models and of operations *)
(* ================================================================== *)

Unset Implicit Arguments.

(** The comparison of two rules at one key, present on both sides. *)
Definition same_at (o n : dict) (k : string) : bool :=
  match dict_get o k, dict_get n k with
  | Some a, Some b => py_eq a b
  | _, _ => false
  end.

(** From [m] to [m'] the resources stay and every new edge satisfies [P]. *)
Definition grows (P : nat -> nat -> Prop) (m m' : model) : Prop :=
  map res m' = map res m /\
  forall i j, edge m' i j -> edge m i j \/ P i j.

Definition adds {A} (P : nat -> nat -> Prop) (c : ST model A) : Prop :=
  forall m, grows P m (snd (c m)).

(** Every entry of a dictionary is an object of the model, of the type
    and under the name of the dictionary. *)
Definition table_of (m : model) (kind : string -> resource -> Prop) (t : table) : Prop :=
  forall k i r, In (k, (i, r)) t -> nth_error (map res m) i = Some r /\ kind k r.

Definition is_project (k : string) (r : resource) : Prop := r = Project k.
Definition is_network (k : string) (r : resource) : Prop := exists p, r = Network k p.
Definition is_router (k : string) (r : resource) : Prop := exists p l, r = Router k p l.
Definition is_subnet (k : string) (r : resource) : Prop := exists p n, r = Subnet k p n.
Definition is_vm (k : string) (r : resource) : Prop := exists p l, r = Host k p l.
Definition is_port (k : string) (r : resource) : Prop := exists p n h, r = HostPort k p n h.
Definition is_fip (k : string) (r : resource) : Prop := exists n p, r = FloatingIP k n p.
Definition is_user (k : string) (r : resource) : Prop := r = User k.

Definition tables_of (m : model) (t : tables) : Prop :=
  table_of m is_project (projects t) /\ table_of m is_network (networks t) /\
  table_of m is_router (routers t) /\ table_of m is_subnet (subnets t) /\
  table_of m is_vm (vms t) /\ table_of m is_port (ports t) /\
  table_of m is_fip (fips t).

(** The edges [openstack_dependencies] may add to a model [m]: the target
    is an object of the model; from a network, only where its project is
    declared; from a router whose project is not declared, only to
    subnets. *)
Definition openstack_edge (m : model) (i j : nat) : Prop :=
  j < List.length m /\
  (forall name project, nth_error (map res m) i = Some (Network name project) ->
     In (Project project) (map res m)) /\
  (forall name project l, nth_error (map res m) i = Some (Router name project l) ->
     In (Project project) (map res m) \/
     exists k p n, nth_error (map res m) j = Some (Subnet k p n)).

Definition is_role (o : nat * resource) : bool :=
  match snd o with Role _ _ _ => true | _ => false end.

(** Every value the operation returns satisfies [Q]. *)
Definition yields {A} (Q : A -> Prop) (c : M A) : Prop :=
  forall w a, fst (c w) = Ok a -> Q a.

(** From a world that satisfies [Inv], the operation leads to a world in
    relation [R] with it, whether it returns or raises. *)
Definition respects (Inv : world -> Prop) (R : world -> world -> Prop)
    {A} (c : M A) : Prop :=
  forall w, Inv w -> R w (snd (c w)).

(** The objects are as they were. *)
Definition same_store (w w' : world) : Prop := store w' = store w.

(** The objects that were there are as they were, and none has gone. *)
Definition keeps (n : nat) (w w' : world) : Prop :=
  List.length (store w) <= List.length (store w') /\
  forall r, r < n -> nth_error (store w') r = nth_error (store w) r.

Definition no_calls : list string := [].

(** [l] is [l'] with some elements left out, the others in their order. *)
Inductive subseq {A : Type} : list A -> list A -> Prop :=
| subseq_nil : subseq [] []
| subseq_skip : forall x l l', subseq l l' -> subseq l (x :: l')
| subseq_keep : forall x l l', subseq l l' -> subseq (x :: l) (x :: l').

(** The keys of a rule on an address prefix, as [check_resource] reads it
    from the remote side. *)
Definition rule_keys : list string :=
  ["protocol"; "remote_ip_prefix"; "direction"; "port_range_min"; "port_range_max"].

(** The rule [https_rule] as the remote side holds it once it is created in
    the group [sg-1]: the fields sent, and those the remote side adds. *)
Definition https_rule_stored : value :=
  VDict (sent_rule https_rule (VStr "sg-1") (VStr "tcp")
         ++ [("id", VStr "rule-z"); ("tenant_id", VStr "proj-1");
             ("remote_group_id", VNone)])%list.

(** One field of a changeset, from the values on both sides. *)
Definition changed_field (oc od : obj) (changes : dict) (field : string) : dict :=
  match dict_get (obj_attrs oc) field, dict_get (obj_attrs od) field with
  | Some cv, Some dv =>
      if py_eq cv dv then changes else dict_set changes field (VTuple [cv; dv])
  | _, _ => changes
  end.

(** The group [group_resource] beside what a read has found of it: another
    description, and no rules. *)
Definition group_found : obj :=
  declared "openstack::SecurityGroup"
    ["name"; "description"; "manage_all"; "rules"]
    [("name", VStr "web"); ("description", VStr "web"); ("manage_all", VBool true);
     ("rules", VList [])]
    false.

Definition world_of_two_groups : world :=
  mkWorld [group_resource; group_found] [] (answering []).

(** From [m] to [m'] the resources stay, every object requires what it
    required, and a set of requirements without duplicates stays so. *)
Definition extends (m m' : model) : Prop :=
  map res m' = map res m /\
  forall i e e', nth_error m i = Some e -> nth_error m' i = Some e' ->
    incl (requires e) (requires e') /\ (NoDup (requires e) -> NoDup (requires e')).

Definition extending {A} (c : ST model A) : Prop :=
  forall m, extends m (snd (c m)).

(** The only exceptions of an operation on the model. *)
Definition raising {A} (P : exn -> Prop) (c : ST model A) : Prop :=
  forall m e, fst (c m) = Raise e -> P e.

Definition is_KeyError (e : exn) : Prop := exists k, e = KeyError k.

(** A subnet whose project and network are not declared. *)
Definition lone_subnet : model := [mkEntry (Subnet "s1" "p1" "n1") []].

(** A project, a user and a role of the user on the project. *)
Definition role_model : model :=
  [mkEntry (Role "p1_u1_admin" "p1" "u1") []; mkEntry (Project "p1") [];
   mkEntry (User "u1") []].

(** The calls by which a handler changes the remote state of its own kind
    of resource. *)
Definition own_calls (h : handler) : list string :=
  match h with
  | VMHandler =>
      ["nova.keypairs.create"; "nova.servers.create"; "server.delete";
       "nova.servers.add_security_group"; "nova.servers.remove_security_group"]
  | RouterHandler =>
      ["neutron.create_router"; "neutron.delete_router"; "neutron.update_router";
       "neutron.add_interface_router"; "neutron.remove_interface_router";
       "neutron.add_gateway_router"]
  | SubnetHandler =>
      ["neutron.create_subnet"; "neutron.delete_subnet"; "neutron.update_subnet"]
  | RouterPortHandler => ["neutron.create_port"; "neutron.add_interface_router"]
  | HostPortHandler =>
      ["neutron.create_port"; "server.interface_attach"; "neutron.delete_port";
       "neutron.update_port"]
  | SecurityGroupHandler =>
      ["neutron.create_security_group"; "neutron.delete_security_group";
       "neutron.update_security_group";
       "neutron.create_security_group_rule"; "neutron.delete_security_group_rule"]
  | FloatingIPHandler =>
      ["neutron.update_floatingip"; "neutron.create_floatingip";
       "neutron.delete_floatingip"]
  end.

(** From a world that satisfies [Inv] the operation leads to a world that
    satisfies it, and what it returns satisfies [Q]. *)
Definition hoare {A} (Inv : world -> Prop) (c : M A) (Q : A -> Prop) : Prop :=
  forall w, Inv w -> Inv (snd (c w)) /\ forall a, fst (c w) = Ok a -> Q a.

(** A remote side that lists, for the name [r1], the router [r1] and a
    router [r10]. *)
Definition world_with_router : world :=
  mkWorld [router_resource] []
    (answering
       [("neutron.list_routers",
         Ok (VDict [("routers",
                     VList [VDict [("id", VStr "rt-1"); ("name", VStr "r1")];
                            VDict [("id", VStr "rt-2"); ("name", VStr "r10")]])]))]).

(** A remote side whose keystone does not find the project. *)
Definition world_keystone_down : world :=
  mkWorld [router_port_resource] []
    (answering [("keystone.tenants.find", Raise KeystoneNotFound)]).

(** The index of a port of a host. *)
Definition port_index (p : value) : Z :=
  match item p "index" with
  | Ok (VInt z) => z
  | _ => (-1)%Z
  end.

(** Three ports of a host, of index 1, 0 and -1, and a remote side that
    knows none of them and has the subnet of each. *)
Definition host_port (name : string) (index : Z) : value :=
  VDict [("name", VStr name); ("address", VNone); ("network", VStr "n1");
         ("dhcp", VBool true); ("index", VInt index)].

Definition three_ports : list value :=
  [host_port "eth0" 0; host_port "eth1" 1; host_port "eth2" (-1)].

Definition world_with_subnet : world :=
  mkWorld [host_resource] []
    (answering
       [("neutron.list_ports", Ok (VDict [("ports", VList [])]));
        ("neutron.list_subnets",
         Ok (VDict [("subnets", VList [VDict [("id", VStr "sub-1");
                                              ("network_id", VStr "net-1")]])]))]).

(** A network, and remote sides that list it once and twice. *)
Definition network_resource : obj :=
  declared "openstack::Network"
    ["name"; "external"; "physical_network"; "network_type"; "segmentation_id"]
    [("name", VStr "n1"); ("external", VBool false); ("physical_network", VStr "");
     ("network_type", VStr ""); ("segmentation_id", VInt 0)]
    false.

Definition network_listed (id : string) : value :=
  VDict [("id", VStr id); ("name", VStr "n1"); ("tenant_id", VStr "proj-1");
         ("router:external", VBool false)].

Definition world_with_network : world :=
  mkWorld [network_resource] []
    (answering
       [("neutron.list_networks",
         Ok (VDict [("networks", VList [network_listed "net-1"])]))]).

Definition world_with_two_networks : world :=
  mkWorld [network_resource] []
    (answering
       [("neutron.list_networks",
         Ok (VDict [("networks", VList [network_listed "net-1";
                                        network_listed "net-2"])]))]).

(** A network on a provider network, with its segment. *)
Definition provider_network_resource : obj :=
  declared "openstack::Network"
    ["name"; "external"; "physical_network"; "network_type"; "segmentation_id"]
    [("name", VStr "n2"); ("external", VBool false); ("physical_network", VStr "physnet1");
     ("network_type", VStr ""); ("segmentation_id", VInt 100)]
    false.

Definition world_with_provider_network : world :=
  mkWorld [provider_network_resource] [] (answering []).

(** A declared resource of keystone: the fields of its class, those of
    [KeystoneResource] and the purge flags, with their values. *)
Definition declared_in_keystone (cls : string) (fields : list string) (attrs : dict)
  : obj :=
  mkObj cls
    (fields ++ ["admin_token"; "url"; "admin_user"; "admin_password"; "admin_tenant";
                "auth_url"; "purged"; "purge_on_delete"])%list
    (attrs ++ [("admin_token", VStr "token"); ("url", VStr "http://keystone:35357/v2.0/");
               ("admin_user", VStr "admin"); ("admin_password", VStr "secret");
               ("admin_tenant", VStr "admin");
               ("auth_url", VStr "http://keystone:5000/v2.0");
               ("purged", VBool false); ("purge_on_delete", VBool false)])%list.

(** A project, and a remote side that has it. *)
Definition project_resource : obj :=
  declared_in_keystone "openstack::Project"
    ["name"; "enabled"; "description"; "manage"]
    [("name", VStr "p1"); ("enabled", VBool true); ("description", VStr "project one");
     ("manage", VBool true)].

Definition project_found : value :=
  VDict [("id", VStr "proj-1"); ("name", VStr "p1"); ("enabled", VBool true);
         ("description", VStr "")].

Definition world_with_project : world :=
  mkWorld [project_resource] []
    (answering [("keystone.projects.find", Ok project_found)]).

(** A role of the user [u1] on the project [p1], and a keystone that has
    the user and the project and no user of the name [bartvb]. *)
Definition role_resource : obj :=
  declared_in_keystone "openstack::Role"
    ["role_id"; "role"; "project"; "user"; "project"]
    [("role_id", VStr "p1_u1_admin"); ("role", VStr "admin"); ("project", VStr "p1");
     ("user", VStr "u1")].

Definition user_found : value :=
  VDict [("id", VStr "user-1"); ("name", VStr "u1"); ("enabled", VBool true);
         ("email", VStr "u1@example.com")].

Definition world_without_that_user : world :=
  mkWorld [role_resource] []
    (fun t c =>
       if String.eqb (meth c) "keystone.users.find" then
         match args c with
         | [VDict [(_, name)]] =>
             if py_eq name (VStr "bartvb") then Raise KeystoneNotFound else Ok user_found
         | _ => Ok user_found
         end
       else
         answering [("keystone.projects.find", Ok project_found);
                    ("keystone.roles.find",
                     Ok (VDict [("id", VStr "role-1"); ("name", VStr "admin")]))] t c).

(** The endpoints of the service [nova], and a keystone that has the
    service and its public endpoint. *)
Definition endpoint_resource : obj :=
  declared_in_keystone "openstack::EndPoint"
    ["region"; "internal_url"; "public_url"; "admin_url"; "service_id"]
    [("region", VStr "RegionOne"); ("internal_url", VStr "http://nova:8774");
     ("public_url", VStr "http://nova.example.com:8774");
     ("admin_url", VStr "http://nova:8774"); ("service_id", VStr "compute_nova")].

Definition service_found : value :=
  VDict [("id", VStr "svc-1"); ("type", VStr "compute"); ("name", VStr "nova");
         ("description", VStr "")].

Definition public_endpoint : value :=
  VDict [("id", VStr "ep-1"); ("interface", VStr "public");
         ("url", VStr "http://nova.example.com:8774")].

Definition world_with_endpoint : world :=
  mkWorld [endpoint_resource] []
    (answering [("keystone.services.list", Ok (VList [service_found]));
                ("keystone.endpoints.list", Ok (VList [public_endpoint]))]).

(** A remote side that has the group [web] with one rule, for port 80. *)
Definition http_rule_stored : value :=
  VDict [("id", VStr "rule-x"); ("ethertype", VStr "IPv4"); ("protocol", VStr "tcp");
         ("remote_ip_prefix", VStr "0.0.0.0/0"); ("remote_group_id", VNone);
         ("direction", VStr "ingress"); ("port_range_min", VInt 80);
         ("port_range_max", VInt 80)].

Definition world_with_group : world :=
  mkWorld [group_resource] []
    (answering
       [("neutron.list_security_groups",
         Ok (VDict [("security_groups",
                     VList [VDict [("id", VStr "sg-1"); ("name", VStr "web");
                                   ("description", VStr "web servers");
                                   ("security_group_rules",
                                    VList [http_rule_stored])]])]))]).

(** The shape of a declared rule: the protocol, the direction and the two
    ends of the range of ports, neither of them 0, and possibly a prefix
    and a remote group. *)
Definition declared_rule (r : value) : Prop :=
  exists d,
    r = VDict d
    /\ (forall k, In k ["protocol"; "direction"; "port_range_min"; "port_range_max"] ->
          dict_has d k = true)
    /\ (forall k, dict_has d k = true ->
          In k ["protocol"; "direction"; "port_range_min"; "port_range_max";
                "remote_ip_prefix"; "remote_group"])
    /\ (forall z, dict_get d "port_range_min" = Some (VInt z) -> z <> 0%Z)
    /\ (forall z, dict_get d "port_range_max" = Some (VInt z) -> z <> 0%Z).

(** A group of the configuration model with two rules: one for port 22
    from a prefix, and one for every port from the group itself. *)
Definition declared_group : value :=
  VDict [("name", VStr "web");
         ("rules",
          VList [VDict [("ip_protocol", VStr "tcp"); ("direction", VStr "ingress");
                        ("port", VInt 22); ("remote_prefix", VStr "0.0.0.0/0")];
                 VDict [("ip_protocol", VStr "all"); ("direction", VStr "ingress");
                        ("port", VInt 0);
                        ("remote_group", VDict [("name", VStr "web")])]])].

(** What the operation returns satisfies [Q], with the world it leads to. *)
Definition after {A} (c : M A) (Q : A -> world -> Prop) : Prop :=
  forall w a, fst (c w) = Ok a -> Q a (snd (c w)).

(** A user with a password, and a keystone that has the user and refuses
    the password. *)
Definition user_resource : obj :=
  declared_in_keystone "openstack::User"
    ["name"; "email"; "enabled"; "password"]
    [("name", VStr "u1"); ("email", VStr "u1@example.com"); ("enabled", VBool true);
     ("password", VStr "secret")].

Definition world_refusing_password : world :=
  mkWorld [user_resource] []
    (answering [("keystone.users.find", Ok user_found);
                ("client.authenticate", Raise KeystoneNotFound)]).

(** A service, and a keystone that does not have it. *)
Definition service_resource : obj :=
  declared_in_keystone "openstack::Service"
    ["name"; "type"; "description"]
    [("name", VStr "nova"); ("type", VStr "compute"); ("description", VStr "")].

Definition world_without_service : world :=
  mkWorld [service_resource] []
    (answering [("keystone.services.find", Raise KeystoneNotFound)]).

(** The endpoints found for [nova], all three, in a context. *)
Definition context_of_three_endpoints : context :=
  ctx_set (ctx_set new_context "service" service_found) "endpoints"
    (VDict [("public", public_endpoint);
            ("admin", VDict [("id", VStr "ep-2"); ("interface", VStr "admin");
                             ("url", VStr "http://old:8774")]);
            ("internal", VDict [("id", VStr "ep-3"); ("interface", VStr "internal");
                                ("url", VStr "http://nova:8774")])]).

(** What an update of endpoints has to send, by interface, for the
    endpoints [e] of a context: a creation where the interface has no
    endpoint, an update where it has one and the changeset holds the field
    of its url, and nothing otherwise. *)
Definition endpoint_calls (e : dict) (changes : value) : list string :=
  flat_map (fun kv : string * string =>
              if dict_has e (fst kv) then
                match contains (VStr (snd kv)) changes with
                | Ok true => ["keystone.endpoints.update"]
                | _ => []
                end
              else ["keystone.endpoints.create"])
           EndpointHandler.types.

(** A remote side on which nova lists the key pair of the host. *)
Definition world_with_key : world :=
  mkWorld [host_resource] []
    (answering [("nova.keypairs.list",
                 Ok (VList [VDict [("id", VStr "key-1"); ("name", VStr "mykey")]]))]).

(** The order of [sorted(..., key=lambda x: x[key])] between neighbours:
    the key of the second is not below the key of the first. *)
Definition in_key_order (key : string) (p q : value) : Prop :=
  exists a b, item p key = Ok a /\ item q key = Ok b /\ py_lt b a = Ok false.

(** The port [p] has under [key] the value [k], or one equal to it. *)
Definition keyed_as (key : string) (k : value) (p : value) : bool :=
  match item p key with
  | Ok v => py_eq v k
  | Raise _ => false
  end.

(** The same between neighbours of a list of pairs of a key and a port. *)
Definition by_key (a b : value * value) : Prop :=
  py_lt (fst b) (fst a) = Ok false.

(** The interface [nic] is what [_create_nic_config] returns for the port
    [p] on the remote side of [w]. *)
Definition nic_of_port (w : world) (p nic : value) : Prop :=
  exists w1, adapter w1 = adapter w /\ fst (VM._create_nic_config p w1) = Ok nic.

(** The changeset of the creation of a router with a subnet, a gateway
    and routes, and a remote side on which keystone has the project. *)
Definition create_router_with_subnet : value :=
  VDict [("purged", VTuple [VBool true; VBool false]);
         ("subnets", VTuple [VList []; VList [VStr "s1"]]);
         ("gateway", VTuple [VStr ""; VStr "public"]);
         ("routes", VTuple [VDict []; VDict [("10.0.0.0/8", VStr "192.168.0.1")]])].

Definition world_with_tenant : world :=
  mkWorld [router_resource] []
    (answering [("keystone.tenants.find", Ok (VDict [("id", VStr "proj-1")]));
                ("neutron.create_router",
                 Ok (VDict [("router", VDict [("id", VStr "rt-1")])]))]).

(** The dictionary [create_rule] sends for a rule [z] that names a remote
    group, which the remote side lists under the id [remote_id]: the id of
    the group in the place of its name. *)
Definition sent_rule_of_group (z : dict) (group_id protocol remote_id : value)
  : dict :=
  let z1 := dict_set
              (dict_set (dict_del (dict_set z "ethertype" (VStr "IPv4")) "remote_group")
                 "remote_group_id" remote_id)
              "security_group_id" group_id in
  if py_eq protocol (VStr "all") then dict_set z1 "protocol" VNone else z1.

(** A remote side that lists the group [db]. *)
Definition world_with_remote_group : world :=
  mkWorld [group_resource] []
    (answering
       [("neutron.list_security_groups",
         Ok (VDict [("security_groups",
                     VList [VDict [("id", VStr "sg-db"); ("name", VStr "db")]])]))]).

(** A rule of a remote group whose ethertype is IPv4: the rules that
    [check_resource] reads. *)
Definition is_ipv4 (rule : value) : bool :=
  match item rule "ethertype" with
  | Ok ethertype => py_eq ethertype (VStr "IPv4")
  | Raise _ => false
  end.

(** The rule [r] is what [read_rule] returns for the remote rule [rule] on
    the remote side of [w]. *)
Definition read_of_rule (w : world) (rule r : value) : Prop :=
  exists w1, adapter w1 = adapter w /\ fst (SecurityGroup.read_rule rule w1) = Ok r.

(* ================================================================== *)
(** * Properties of values *)
(* ================================================================== *)


Lemma mem_In : forall x l, mem x l = true <-> In x l.
Proof.
  intros x l. unfold mem. rewrite existsb_exists. split.
  - intros [y [Hy E]]. apply String.eqb_eq in E. now subst.
  - intros H. exists x. split; [assumption | apply String.eqb_refl].
Qed.

Lemma mem_false : forall x l, mem x l = false <-> ~ In x l.
Proof.
  intros x l. rewrite <- mem_In. destruct (mem x l); split; congruence.
Qed.

Lemma nodupb_NoDup : forall l, nodupb l = true <-> NoDup l.
Proof.
  induction l as [|x l IH]; simpl.
  - split; [constructor | reflexivity].
  - rewrite andb_true_iff, negb_true_iff, mem_false, IH. split.
    + intros [H1 H2]. now constructor.
    + intros H. inversion H. now split.
Qed.

Lemma py_eq_VList : forall x y, py_eq (VList x) (VList y) = list_eq x y.
Proof.
  induction x as [|u x IH]; destruct y as [|w y]; simpl; try reflexivity;
    try (f_equal; apply IH).
Qed.

Lemma py_eq_VTuple : forall x y, py_eq (VTuple x) (VTuple y) = list_eq x y.
Proof.
  induction x as [|u x IH]; destruct y as [|w y]; simpl; try reflexivity;
    try (f_equal; apply IH).
Qed.

Lemma py_eq_VDict : forall x y,
  py_eq (VDict x) (VDict y) = Nat.eqb (List.length x) (List.length y) && dict_sub x y.
Proof.
  intros x y. simpl. f_equal.
  induction x as [|[k u] x IH]; simpl; try reflexivity; try (now rewrite IH).
Qed.

Lemma wf_value_list : forall l,
  wf_value (VList l) = forallb wf_value l.
Proof.
  induction l as [|x l IH]; simpl; try reflexivity; try (f_equal; apply IH).
Qed.

Lemma wf_value_tuple : forall l,
  wf_value (VTuple l) = forallb wf_value l.
Proof.
  induction l as [|x l IH]; simpl; try reflexivity; try (f_equal; apply IH).
Qed.

Lemma wf_value_dict : forall d,
  wf_value (VDict d) = nodupb (map fst d) && forallb (fun kv => wf_value (snd kv)) d.
Proof.
  intros d. reflexivity.
Qed.

Lemma dict_get_In : forall d k v, dict_get d k = Some v -> In (k, v) d.
Proof.
  induction d as [|[k' v'] d IH]; simpl; intros k v H; [discriminate|].
  destruct (String.eqb k' k) eqn:E.
  - apply String.eqb_eq in E. inversion H. subst. now left.
  - right. now apply IH.
Qed.

Lemma dict_get_None : forall d k, dict_get d k = None <-> ~ In k (map fst d).
Proof.
  induction d as [|[k' v'] d IH]; simpl; intros k.
  - split; auto.
  - destruct (String.eqb k' k) eqn:E.
    + apply String.eqb_eq in E. subst. split; [discriminate | intros H; exfalso; auto].
    + apply String.eqb_neq in E. rewrite IH. split; intros H.
      * intros [H1 | H1]; auto.
      * intros H1. apply H. now right.
Qed.

Lemma In_dict_get : forall d k v,
  NoDup (map fst d) -> In (k, v) d -> dict_get d k = Some v.
Proof.
  induction d as [|[k' v'] d IH]; simpl; intros k v ND H; [contradiction|].
  inversion ND as [|? ? Hn ND']; subst.
  destruct H as [H | H].
  - inversion H; subst. now rewrite String.eqb_refl.
  - destruct (String.eqb k' k) eqn:E.
    + apply String.eqb_eq in E. subst. exfalso. apply Hn.
      change k with (fst (k, v)). now apply in_map.
    + now apply IH.
Qed.

Lemma dict_sub_spec : forall x y,
  dict_sub x y = true <->
  (forall k u, In (k, u) x -> exists w, dict_get y k = Some w /\ py_eq u w = true).
Proof.
  induction x as [|[k u] x IH]; simpl; intros y.
  - split; [intros _ k u [] | reflexivity].
  - rewrite andb_true_iff, IH. split.
    + intros [H1 H2] k' u' [E | H].
      * inversion E; subst. destruct (dict_get y k') as [w|]; [|discriminate].
        now exists w.
      * now apply H2.
    + intros H. split.
      * destruct (H k u (or_introl eq_refl)) as [w [-> Hw]]. exact Hw.
      * intros k' u' Hin. apply H. now right.
Qed.

Lemma list_eq_refl : forall l,
  Forall (fun v => wf_value v = true -> py_eq v v = true) l ->
  forallb wf_value l = true -> list_eq l l = true.
Proof.
  induction l as [|x l IH]; simpl; intros HF Hwf; [reflexivity|].
  inversion HF as [|? ? Hx HF']; subst. apply andb_true_iff in Hwf as [H1 H2].
  apply andb_true_iff. split; auto.
Qed.

Lemma forallb_snd_In : forall (d : dict) k v,
  forallb (fun kv => wf_value (snd kv)) d = true -> In (k, v) d -> wf_value v = true.
Proof.
  intros d k v H Hin. rewrite forallb_forall in H. exact (H _ Hin).
Qed.

Lemma py_eq_refl : forall v, wf_value v = true -> py_eq v v = true.
Proof.
  induction v as [| b | z | s | l IH | l IH | d IH] using value_nested_ind; intros Hwf.
  - reflexivity.
  - simpl. now destruct b.
  - simpl. apply Z.eqb_refl.
  - simpl. apply String.eqb_refl.
  - rewrite py_eq_VList. rewrite wf_value_list in Hwf. now apply list_eq_refl.
  - rewrite py_eq_VTuple. rewrite wf_value_tuple in Hwf. now apply list_eq_refl.
  - rewrite py_eq_VDict, Nat.eqb_refl. simpl.
    rewrite wf_value_dict in Hwf. apply andb_true_iff in Hwf as [Hnd Hall].
    apply nodupb_NoDup in Hnd.
    apply dict_sub_spec. intros k u Hin. exists u. split.
    + now apply In_dict_get.
    + rewrite Forall_forall in IH. apply (IH (k, u) Hin).
      exact (forallb_snd_In d k u Hall Hin).
Qed.

Lemma list_eq_sym : forall x,
  Forall (fun v => wf_value v = true ->
            forall b, wf_value b = true -> py_eq v b = py_eq b v) x ->
  forallb wf_value x = true ->
  forall y, forallb wf_value y = true -> list_eq x y = list_eq y x.
Proof.
  induction x as [|u x IH]; intros HF Hx [|w y] Hy; simpl; try reflexivity.
  inversion HF as [|? ? Hsym HF']; subst. simpl in Hx, Hy.
  apply andb_true_iff in Hx as [Hu Hx]. apply andb_true_iff in Hy as [Hw Hy].
  f_equal; auto.
Qed.

(** With distinct keys on both sides and as many entries, inclusion of one
    dictionary in the other goes both ways. *)
Lemma dict_keys_incl : forall x y,
  dict_sub x y = true -> incl (map fst x) (map fst y).
Proof.
  intros x y H k Hk. apply in_map_iff in Hk as [[k' u] [E Hin]]. simpl in E. subst.
  rewrite dict_sub_spec in H. destruct (H _ _ Hin) as [w [Hw _]].
  apply dict_get_In in Hw. change k with (fst (k, w)). now apply in_map.
Qed.

Lemma dict_sub_sym : forall x y,
  NoDup (map fst x) -> NoDup (map fst y) ->
  List.length x = List.length y ->
  (forall k u w, In (k, u) x -> In (k, w) y -> py_eq u w = true -> py_eq w u = true) ->
  dict_sub x y = true -> dict_sub y x = true.
Proof.
  intros x y Hx Hy Hlen Hsym H.
  assert (Hincl : incl (map fst y) (map fst x)).
  { apply NoDup_length_incl.
    - exact Hx.
    - rewrite !length_map. lia.
    - now apply dict_keys_incl. }
  apply dict_sub_spec. intros k w Hin.
  assert (Hk : In k (map fst x)).
  { apply Hincl. change k with (fst (k, w)). now apply in_map. }
  destruct (dict_get x k) as [u|] eqn:Hu.
  - exists u. split; [reflexivity|].
    pose proof (dict_get_In _ _ _ Hu) as Hinx.
    rewrite dict_sub_spec in H. destruct (H _ _ Hinx) as [w' [Hw' He]].
    rewrite (In_dict_get _ _ _ Hy Hin) in Hw'. inversion Hw'; subst.
    eapply Hsym; eauto.
  - apply dict_get_None in Hu. contradiction.
Qed.

Lemma py_eq_sym : forall a, wf_value a = true ->
  forall b, wf_value b = true -> py_eq a b = py_eq b a.
Proof.
  induction a as [| x | x | x | l IH | l IH | d IH] using value_nested_ind;
    intros Ha b Hb.
  - now destruct b.
  - destruct b as [| y | y | | | |]; simpl; try reflexivity.
    + now destruct x, y.
    + apply Z.eqb_sym.
  - destruct b as [| y | y | | | |]; simpl; try reflexivity; apply Z.eqb_sym.
  - destruct b; simpl; try reflexivity. apply String.eqb_sym.
  - destruct b as [| | | | l' | |]; try reflexivity.
    rewrite !py_eq_VList. rewrite wf_value_list in Ha, Hb. now apply list_eq_sym.
  - destruct b as [| | | | | l' |]; try reflexivity.
    rewrite !py_eq_VTuple. rewrite wf_value_tuple in Ha, Hb. now apply list_eq_sym.
  - destruct b as [| | | | | | d']; try reflexivity.
    rewrite !py_eq_VDict. rewrite wf_value_dict in Ha, Hb.
    apply andb_true_iff in Ha as [Hnd Hall]. apply andb_true_iff in Hb as [Hnd' Hall'].
    apply nodupb_NoDup in Hnd, Hnd'.
    rewrite (Nat.eqb_sym (List.length d')).
    destruct (Nat.eqb (List.length d) (List.length d')) eqn:Hlen; [|reflexivity].
    apply Nat.eqb_eq in Hlen. simpl.
    rewrite Forall_forall in IH.
    assert (Huw : forall k u w, In (k, u) d -> In (k, w) d' -> py_eq u w = py_eq w u).
    { intros k u w Hu Hw. apply (IH (k, u) Hu).
      - exact (forallb_snd_In d k u Hall Hu).
      - exact (forallb_snd_In d' k w Hall' Hw). }
    destruct (dict_sub d d') eqn:H1; destruct (dict_sub d' d) eqn:H2; try reflexivity.
    + rewrite (dict_sub_sym d d') in H2; auto.
      intros k u w Hu Hw E. now rewrite <- (Huw k u w).
    + rewrite (dict_sub_sym d' d) in H1; auto.
      intros k w u Hw Hu E. now rewrite (Huw k u w).
Qed.

(* ================================================================== *)
(** * The matching of rules *)
(* ================================================================== *)


Lemma mkset_In : forall x l, In x (mkset l) <-> In x l.
Proof.
  intros x l. revert x. induction l as [|y l IH]; simpl; intros x; [tauto|].
  rewrite filter_In, IH, negb_true_iff. split.
  - intros [H | [H _]]; auto.
  - intros [H | H]; auto.
    destruct (String.eqb y x) eqn:E.
    + apply String.eqb_eq in E. auto.
    + auto.
Qed.

Lemma public_keys_In : forall d k,
  In k (SecurityGroup.public_keys d) <-> In k (map fst d) /\ String.prefix "__" k = false.
Proof.
  intros d k. unfold SecurityGroup.public_keys, dict_keys.
  rewrite mkset_In, filter_In, negb_true_iff. tauto.
Qed.

Lemma set_eqb_sym : forall a b, set_eqb a b = set_eqb b a.
Proof. intros a b. unfold set_eqb. apply andb_comm. Qed.

Lemma set_eqb_refl : forall a, set_eqb a a = true.
Proof.
  intros a. unfold set_eqb.
  assert (H : forallb (fun x => mem x a) a = true).
  { apply forallb_forall. intros x Hx. now apply mem_In. }
  now rewrite H.
Qed.

Lemma set_eqb_incl : forall a b, set_eqb a b = true -> incl a b /\ incl b a.
Proof.
  intros a b H. unfold set_eqb in H. apply andb_true_iff in H as [H1 H2].
  rewrite forallb_forall in H1, H2.
  split; intros x Hx; apply mem_In; auto.
Qed.


Lemma compare_keys_present : forall o n keys,
  (forall k, In k keys -> In k (map fst o) /\ In k (map fst n)) ->
  SecurityGroup.compare_keys o n keys = Ok (forallb (same_at o n) keys).
Proof.
  intros o n keys. induction keys as [|k keys IH]; simpl; intros H; [reflexivity|].
  destruct (H k (or_introl eq_refl)) as [Ho Hn].
  unfold same_at at 1.
  destruct (dict_get o k) as [a|] eqn:Ea; [|apply dict_get_None in Ea; contradiction].
  destruct (dict_get n k) as [b|] eqn:Eb; [|apply dict_get_None in Eb; contradiction].
  destruct (py_eq a b); simpl; [|reflexivity].
  apply IH. intros k' Hk'. apply H. now right.
Qed.

Lemma forallb_same_set : forall (f : string -> bool) a b,
  incl a b -> incl b a -> forallb f a = forallb f b.
Proof.
  intros f a b Hab Hba.
  destruct (forallb f a) eqn:Ea; destruct (forallb f b) eqn:Eb; try reflexivity.
  - rewrite forallb_forall in Ea.
    assert (forallb f b = true) by (apply forallb_forall; auto). congruence.
  - rewrite forallb_forall in Eb.
    assert (forallb f a = true) by (apply forallb_forall; auto). congruence.
Qed.

Lemma forallb_pointwise : forall (f g : string -> bool) l,
  (forall x, f x = g x) -> forallb f l = forallb g l.
Proof.
  intros f g l H. induction l as [|x l IH]; simpl; [reflexivity|].
  now rewrite H, IH.
Qed.

Lemma wf_dict_values : forall d k v,
  wf_dict d = true -> dict_get d k = Some v -> wf_value v = true.
Proof.
  intros d k v Hwf Hg. unfold wf_dict in Hwf. rewrite wf_value_dict in Hwf.
  apply andb_true_iff in Hwf as [_ Hall].
  apply (forallb_snd_In d k v Hall). now apply dict_get_In.
Qed.

Lemma same_at_sym : forall a b k,
  wf_dict a = true -> wf_dict b = true -> same_at a b k = same_at b a k.
Proof.
  intros a b k Ha Hb. unfold same_at.
  destruct (dict_get a k) as [u|] eqn:Eu; destruct (dict_get b k) as [w|] eqn:Ew;
    try reflexivity.
  apply py_eq_sym; eauto using wf_dict_values.
Qed.

Lemma compare_rule_sym : forall a b,
  wf_dict a = true -> wf_dict b = true ->
  SecurityGroup._compare_rule (VDict a) (VDict b) = SecurityGroup._compare_rule (VDict b) (VDict a).
Proof.
  intros a b Ha Hb. unfold SecurityGroup._compare_rule. cbv zeta.
  rewrite (set_eqb_sym (SecurityGroup.public_keys b)).
  destruct (set_eqb (SecurityGroup.public_keys a) (SecurityGroup.public_keys b)) eqn:E; simpl; [|reflexivity].
  apply set_eqb_incl in E as [Hab Hba].
  rewrite !compare_keys_present.
  - f_equal. rewrite (forallb_same_set (same_at b a) _ _ Hba Hab).
    apply forallb_pointwise. intros k. now apply same_at_sym.
  - intros k Hk. split.
    + now apply public_keys_In in Hk.
    + apply Hba in Hk. now apply public_keys_In in Hk.
  - intros k Hk. split.
    + now apply public_keys_In in Hk.
    + apply Hab in Hk. now apply public_keys_In in Hk.
Qed.

Lemma compare_rule_refl : forall a,
  wf_dict a = true -> SecurityGroup._compare_rule (VDict a) (VDict a) = Ok true.
Proof.
  intros a Ha. unfold SecurityGroup._compare_rule. cbv zeta. rewrite set_eqb_refl. simpl.
  rewrite compare_keys_present.
  - f_equal. apply forallb_forall. intros k Hk. unfold same_at.
    destruct (dict_get a k) as [u|] eqn:Eu.
    + apply py_eq_refl. eauto using wf_dict_values.
    + apply public_keys_In in Hk as [Hk _]. apply dict_get_None in Eu. contradiction.
  - intros k Hk. apply public_keys_In in Hk. tauto.
Qed.

(** Writing a key leaves the other keys as they are. *)
Lemma dict_get_set_other : forall d k v k',
  k' <> k -> dict_get (dict_set d k v) k' = dict_get d k'.
Proof.
  induction d as [|[k0 v0] d IH]; simpl; intros k v k' Hne.
  - destruct (String.eqb k k') eqn:E; [|reflexivity].
    apply String.eqb_eq in E. congruence.
  - destruct (String.eqb k0 k) eqn:E; simpl.
    + apply String.eqb_eq in E. subst.
      destruct (String.eqb k k') eqn:E'; [|reflexivity].
      apply String.eqb_eq in E'. congruence.
    + destruct (String.eqb k0 k'); [reflexivity|]. now apply IH.
Qed.

Lemma dict_get_set_same : forall d k v, dict_get (dict_set d k v) k = Some v.
Proof.
  induction d as [|[k0 v0] d IH]; simpl; intros k v.
  - now rewrite String.eqb_refl.
  - destruct (String.eqb k0 k) eqn:E; simpl; rewrite E; [reflexivity | apply IH].
Qed.

Lemma dict_set_keys_filter : forall (p : string -> bool) d k v,
  p k = false ->
  filter p (dict_keys (dict_set d k v)) = filter p (dict_keys d).
Proof.
  intros p d k v Hp. unfold dict_keys.
  induction d as [|[k0 v0] d IH]; simpl.
  - now rewrite Hp.
  - destruct (String.eqb k0 k) eqn:E; simpl; [reflexivity|].
    now rewrite IH.
Qed.

Lemma public_keys_set_private : forall d k v,
  String.prefix "__" k = true -> SecurityGroup.public_keys (dict_set d k v) = SecurityGroup.public_keys d.
Proof.
  intros d k v Hk. unfold SecurityGroup.public_keys.
  rewrite dict_set_keys_filter; [reflexivity|]. now rewrite Hk.
Qed.

Lemma compare_keys_set_left : forall o n keys k v,
  ~ In k keys -> SecurityGroup.compare_keys (dict_set o k v) n keys = SecurityGroup.compare_keys o n keys.
Proof.
  intros o n keys k v. induction keys as [|k0 keys IH]; simpl; intros Hn; [reflexivity|].
  rewrite dict_get_set_other by (intros ->; apply Hn; now left).
  destruct (dict_get o k0); [|reflexivity].
  destruct (dict_get n k0); [|reflexivity].
  destruct (py_eq v0 v1); simpl; [|reflexivity].
  apply IH. intros H. apply Hn. now right.
Qed.

Lemma compare_keys_set_right : forall o n keys k v,
  ~ In k keys -> SecurityGroup.compare_keys o (dict_set n k v) keys = SecurityGroup.compare_keys o n keys.
Proof.
  intros o n keys k v. induction keys as [|k0 keys IH]; simpl; intros Hn; [reflexivity|].
  rewrite dict_get_set_other by (intros ->; apply Hn; now left).
  destruct (dict_get o k0); [|reflexivity].
  destruct (dict_get n k0); [|reflexivity].
  destruct (py_eq v0 v1); simpl; [|reflexivity].
  apply IH. intros H. apply Hn. now right.
Qed.

Lemma private_not_public : forall d k,
  String.prefix "__" k = true -> ~ In k (SecurityGroup.public_keys d).
Proof.
  intros d k Hk H. apply public_keys_In in H as [_ H]. congruence.
Qed.

Lemma compare_rule_private_left : forall a b k v,
  String.prefix "__" k = true ->
  SecurityGroup._compare_rule (VDict (dict_set a k v)) (VDict b) = SecurityGroup._compare_rule (VDict a) (VDict b).
Proof.
  intros a b k v Hk. unfold SecurityGroup._compare_rule. cbv zeta.
  rewrite public_keys_set_private by assumption.
  destruct (set_eqb (SecurityGroup.public_keys a) (SecurityGroup.public_keys b)); simpl; [|reflexivity].
  apply compare_keys_set_left. now apply private_not_public.
Qed.

Lemma compare_rule_private_right : forall a b k v,
  String.prefix "__" k = true ->
  SecurityGroup._compare_rule (VDict a) (VDict (dict_set b k v)) = SecurityGroup._compare_rule (VDict a) (VDict b).
Proof.
  intros a b k v Hk. unfold SecurityGroup._compare_rule. cbv zeta.
  rewrite public_keys_set_private by assumption.
  destruct (set_eqb (SecurityGroup.public_keys a) (SecurityGroup.public_keys b)); simpl; [|reflexivity].
  apply compare_keys_set_right. now apply private_not_public.
Qed.

(** C9.  On rule dictionaries [SecurityGroup._compare_rule] is symmetric and reflexive,
    and its result does not depend on the keys that start with ["__"]:
    writing such a key, new or not, in either argument leaves the result
    as it is. *)
Theorem compare_rule_is_equivalence_modulo_ids : forall a b : dict,
  wf_dict a = true -> wf_dict b = true ->
  SecurityGroup._compare_rule (VDict a) (VDict b) = SecurityGroup._compare_rule (VDict b) (VDict a)
  /\ SecurityGroup._compare_rule (VDict a) (VDict a) = Ok true
  /\ (forall k v, String.prefix "__" k = true ->
        SecurityGroup._compare_rule (VDict (dict_set a k v)) (VDict b) = SecurityGroup._compare_rule (VDict a) (VDict b)
        /\ SecurityGroup._compare_rule (VDict a) (VDict (dict_set b k v)) = SecurityGroup._compare_rule (VDict a) (VDict b)).
Proof.
  intros a b Ha Hb. split; [|split].
  - now apply compare_rule_sym.
  - now apply compare_rule_refl.
  - intros k v Hk. split.
    + now apply compare_rule_private_left.
    + now apply compare_rule_private_right.
Qed.

(* ================================================================== *)
(** * The dependency managers *)
(* ================================================================== *)

Lemma set_add_In : forall j x l, In x (set_add j l) <-> x = j \/ In x l.
Proof.
  intros j x l. unfold set_add.
  destruct (existsb (Nat.eqb j) l) eqn:E.
  - apply existsb_exists in E as [y [Hy Ey]]. apply Nat.eqb_eq in Ey. subst y.
    split; [auto | intros [-> | H]; auto].
  - rewrite in_app_iff. simpl. split; intros H.
    + destruct H as [H | [H | []]]; auto.
    + destruct H as [H | H]; auto.
Qed.

(** C6.  For the model of a project, a network of the project and a subnet
    of that network and project, whatever edges are declared already, the
    dependency managers return without error and add exactly the edges
    network to project, subnet to project and subnet to network; every
    order of execution valid for the result runs the project before the
    network and both before the subnet. *)
Theorem scenario_project_network_subnet : forall p n s r0 r1 r2,
  let m := scenario_model p n s r0 r1 r2 in
  let m' := [mkEntry (Project p) r0;
             mkEntry (Network n p) (set_add 0 r1);
             mkEntry (Subnet s p n) (set_add 1 (set_add 0 r2))] in
  openstack_dependencies m = (Ok tt, m')
  /\ keystone_dependencies m' = (Ok tt, m')
  /\ (forall i j, edge m' i j <->
                  edge m i j \/ (i = 1 /\ j = 0) \/ (i = 2 /\ j = 1) \/ (i = 2 /\ j = 0))
  /\ (forall order, valid_order m' order ->
        before order 0 1 /\ before order 0 2 /\ before order 1 2).
Proof.
  intros p n s r0 r1 r2 m m'. subst m m'. unfold scenario_model.
  split; [|split; [|split]].
  - unfold openstack_dependencies, objects. cbn.
    unfold table_has, table_find, bind, for_, add_requires. cbn.
    rewrite !String.eqb_refl. cbn. reflexivity.
  - reflexivity.
  - intros i j. unfold edge. split.
    + intros [e [He Hj]].
      destruct i as [|[|[|i]]]; cbn in He; inversion He; subst; cbn in Hj.
      * left. exists (mkEntry (Project p) r0). auto.
      * apply set_add_In in Hj as [-> | Hj]; [auto|].
        left. exists (mkEntry (Network n p) r1). auto.
      * apply set_add_In in Hj as [-> | Hj]; [auto|].
        apply set_add_In in Hj as [-> | Hj]; [auto 6|].
        left. exists (mkEntry (Subnet s p n) r2). auto.
      * destruct i; discriminate.
    + intros [[e [He Hj]] | [[-> ->] | [[-> ->] | [-> ->]]]].
      * destruct i as [|[|[|i]]]; cbn in He; inversion He; subst; cbn in Hj.
        -- eexists. split; [reflexivity | exact Hj].
        -- eexists. split; [reflexivity|]. cbn. apply set_add_In. auto.
        -- eexists. split; [reflexivity|]. cbn. rewrite !set_add_In. auto.
        -- destruct i; discriminate.
      * eexists. split; [reflexivity|]. cbn. apply set_add_In. auto.
      * eexists. split; [reflexivity|]. cbn. apply set_add_In. auto.
      * eexists. split; [reflexivity|]. cbn. rewrite !set_add_In. auto.
  - intros order [_ [_ H]]. repeat split.
    + apply (H 1 (mkEntry (Network n p) (set_add 0 r1)) 0); [reflexivity|].
      cbn. apply set_add_In. auto.
    + apply (H 2 (mkEntry (Subnet s p n) (set_add 1 (set_add 0 r2))) 0); [reflexivity|].
      cbn. rewrite !set_add_In. auto.
    + apply (H 2 (mkEntry (Subnet s p n) (set_add 1 (set_add 0 r2))) 1); [reflexivity|].
      cbn. apply set_add_In. auto.
Qed.

(** ** What a dependency manager may change *)



Lemma grows_refl : forall P m, grows P m m.
Proof. intros P m. split; auto. Qed.

Lemma grows_trans : forall P m1 m2 m3,
  grows P m1 m2 -> grows P m2 m3 -> grows P m1 m3.
Proof.
  intros P m1 m2 m3 [E1 H1] [E2 H2]. split; [congruence|].
  intros i j H. destruct (H2 i j H) as [H' | H']; auto.
Qed.

Lemma adds_ret : forall A P (a : A), adds P (ret a).
Proof. intros A P a m. apply grows_refl. Qed.

Lemma adds_raise : forall A P e, adds P (@raise model A e).
Proof. intros A P e m. apply grows_refl. Qed.

Lemma adds_bind : forall A B P (c : ST model A) (k : A -> ST model B),
  adds P c -> (forall a, adds P (k a)) -> adds P (bind c k).
Proof.
  intros A B P c k Hc Hk m. unfold bind.
  specialize (Hc m). destruct (c m) as [[a | e] m1]; simpl in *.
  - eapply grows_trans; [exact Hc | apply Hk].
  - exact Hc.
Qed.

Lemma adds_for_ : forall X P (l : list X) (body : X -> ST model unit),
  (forall x, In x l -> adds P (body x)) -> adds P (for_ l body).
Proof.
  intros X P l body. unfold for_. generalize tt.
  induction l as [|x l IH]; simpl; intros u H.
  - apply adds_ret.
  - apply adds_bind; [apply H; now left|].
    intros a. apply IH. intros y Hy. apply H. now right.
Qed.

Lemma nth_error_update_nth : forall A (f : A -> A) l i k,
  nth_error (update_nth l i f) k =
  if Nat.eqb k i then option_map f (nth_error l k) else nth_error l k.
Proof.
  intros A f. induction l as [|x l IH]; intros i k; simpl.
  - destruct i, k; simpl; try reflexivity; now destruct (Nat.eqb k i).
  - destruct i as [|i], k as [|k]; simpl; try reflexivity. apply IH.
Qed.

Lemma map_res_update : forall m i (f : list nat -> list nat),
  map res (update_nth m i (fun e => mkEntry (res e) (f (requires e)))) = map res m.
Proof.
  induction m as [|e m IH]; intros i f; simpl; [now destruct i|].
  destruct i as [|i]; simpl; [reflexivity|]. now rewrite IH.
Qed.

Lemma adds_add_requires : forall (P : nat -> nat -> Prop) i j,
  P i j -> adds P (add_requires i j).
Proof.
  intros P i j HP m. unfold add_requires. simpl. split.
  - apply map_res_update.
  - intros i' j' [e' [He' Hj']]. rewrite nth_error_update_nth in He'.
    destruct (Nat.eqb i' i) eqn:E.
    + apply Nat.eqb_eq in E. subst i'.
      destruct (nth_error m i) as [e|] eqn:He; simpl in He'; [|discriminate].
      inversion He'; subst e'. simpl in Hj'.
      apply set_add_In in Hj' as [-> | Hj']; [now right|].
      left. exists e. auto.
    + left. exists e'. auto.
Qed.

Lemma adds_table_find : forall P t k, adds P (@table_find model t k).
Proof.
  intros P t k. unfold table_find.
  destruct (table_get t k); [apply adds_ret | apply adds_raise].
Qed.

(** ** The dictionaries of names *)

Lemma table_get_In : forall t k v, table_get t k = Some v -> In (k, v) t.
Proof.
  induction t as [|[k' v'] t IH]; simpl; intros k v H; [discriminate|].
  destruct (String.eqb k' k) eqn:E.
  - apply String.eqb_eq in E. inversion H. subst. now left.
  - right. now apply IH.
Qed.

Lemma table_set_In : forall t k v x,
  In x (table_set t k v) -> x = (k, v) \/ In x t.
Proof.
  induction t as [|[k' v'] t IH]; simpl; intros k v x H.
  - destruct H as [H | []]; auto.
  - destruct (String.eqb k' k) eqn:E.
    + apply String.eqb_eq in E. subst k'.
      destruct H as [H | H]; auto.
    + destruct H as [H | H]; auto.
      destruct (IH _ _ _ H); auto.
Qed.

Lemma table_get_set : forall t k v k',
  table_get (table_set t k v) k' =
  if String.eqb k k' then Some v else table_get t k'.
Proof.
  induction t as [|[k0 v0] t IH]; simpl; intros k v k'; [reflexivity|].
  destruct (String.eqb k0 k) eqn:E; simpl.
  - apply String.eqb_eq in E. subst k0. now destruct (String.eqb k k').
  - rewrite IH. destruct (String.eqb k0 k') eqn:E'; [|reflexivity].
    apply String.eqb_eq in E'. subst k0.
    now rewrite String.eqb_sym, E.
Qed.

Lemma objects_In : forall m i r,
  In (i, r) (objects m) -> nth_error (map res m) i = Some r.
Proof.
  intros m i r. unfold objects. rewrite <- (length_map res m).
  generalize (map res m) as l. intros l.
  assert (G : forall n, In (i, r) (combine (seq n (List.length l)) l) ->
                        n <= i /\ nth_error l (i - n) = Some r).
  { induction l as [|x l IH]; simpl; intros n H; [contradiction|].
    destruct H as [H | H].
    - inversion H; subst. rewrite Nat.sub_diag. auto.
    - destruct (IH _ H) as [Hle Hn]. split; [lia|].
      replace (i - n) with (S (i - S n)) by lia. exact Hn. }
  intros H. destruct (G 0 H) as [_ Hn]. now rewrite Nat.sub_0_r in Hn.
Qed.

Lemma In_objects : forall m r,
  In r (map res m) -> exists i, In (i, r) (objects m).
Proof.
  intros m r. unfold objects. rewrite <- (length_map res m).
  generalize (map res m) as l. intros l. generalize 0 as n.
  induction l as [|x l IH]; simpl; intros n H; [contradiction|].
  destruct H as [-> | H].
  - exists n. now left.
  - destruct (IH (S n) H) as [i Hi]. exists i. now right.
Qed.




Lemma table_of_set : forall m kind t k i r,
  table_of m kind t -> nth_error (map res m) i = Some r -> kind k r ->
  table_of m kind (table_set t k (i, r)).
Proof.
  intros m kind t k i r Ht Hn Hk k' i' r' Hin.
  apply table_set_In in Hin as [E | Hin]; [|now apply Ht].
  inversion E; subst. auto.
Qed.

Lemma classify_tables_of : forall m t o,
  tables_of m t -> nth_error (map res m) (fst o) = Some (snd o) ->
  tables_of m (classify t o).
Proof.
  intros m t [i r] (Hp & Hn & Hr & Hs & Hv & Hpo & Hf) Ho. simpl in Ho.
  destruct r; simpl; unfold tables_of; simpl;
    repeat (match goal with |- _ /\ _ => split end); try assumption;
    apply table_of_set; try assumption;
    unfold is_project, is_network, is_router, is_subnet, is_vm, is_port, is_fip;
    eauto.
Qed.

Lemma fold_classify_tables_of : forall m l t,
  (forall o, In o l -> nth_error (map res m) (fst o) = Some (snd o)) ->
  tables_of m t -> tables_of m (fold_left classify l t).
Proof.
  intros m l. induction l as [|o l IH]; simpl; intros t Hl Ht; [assumption|].
  apply IH; [intros o' Ho'; apply Hl; now right|].
  apply classify_tables_of; [assumption | apply Hl; now left].
Qed.

Lemma tables_of_model : forall m,
  tables_of m (fold_left classify (objects m) no_tables).
Proof.
  intros m. apply fold_classify_tables_of.
  - intros [i r] H. now apply objects_In.
  - unfold tables_of, table_of. simpl.
    repeat (match goal with |- _ /\ _ => split end); intros k i r [].
Qed.

Lemma adds_find : forall A P t k (f : nat -> ST model A),
  (forall i r, In (k, (i, r)) t -> adds P (f i)) ->
  adds P (bind (table_find t k) f).
Proof.
  intros A P t k f H m. unfold bind, table_find.
  destruct (table_get t k) as [[i r]|] eqn:E; simpl.
  - apply (H i r). now apply table_get_In.
  - apply grows_refl.
Qed.

Lemma table_values_In : forall t o,
  In o (table_values t) -> exists k, In (k, o) t.
Proof.
  intros t o H. unfold table_values in H. apply in_map_iff in H as [[k o'] [E H]].
  simpl in E. subst. now exists k.
Qed.

Lemma nth_error_lt : forall A (l : list A) i x, nth_error l i = Some x -> i < List.length l.
Proof.
  intros A l i x H. apply nth_error_Some. congruence.
Qed.


Ltac other_kind :=
  repeat split; intros;
  match goal with
  | H1 : nth_error ?l ?i = Some _, H2 : nth_error ?l ?i = Some _ |- _ =>
      rewrite H1 in H2; discriminate H2
  end.

Lemma target_in_model : forall m kind t k j r,
  table_of m kind t -> In (k, (j, r)) t -> j < List.length m.
Proof.
  intros m kind t k j r Ht Hin. destruct (Ht _ _ _ Hin) as [Hn _].
  apply nth_error_lt in Hn. now rewrite length_map in Hn.
Qed.

Lemma declared_project : forall m t k j r,
  table_of m is_project t -> In (k, (j, r)) t -> In (Project k) (map res m).
Proof.
  intros m t k j r Ht Hin. destruct (Ht _ _ _ Hin) as [Hn Hk].
  unfold is_project in Hk. subst r. eapply nth_error_In; eauto.
Qed.

Lemma adds_network_requires : forall m t o,
  tables_of m t -> In o (table_values (networks t)) ->
  adds (openstack_edge m) (network_requires t o).
Proof.
  intros m t [i r] (Hp & Hn & _) Ho.
  apply table_values_In in Ho as [k Ho]. pose proof (Hn _ _ _ Ho) as [Hi Hkind]. red in Hkind. destruct Hkind as [p ->].
  simpl. unfold table_has.
  destruct (table_get (projects t) p) eqn:E; [|apply adds_ret].
  apply adds_find. intros j r Hj. apply adds_add_requires.
  red; split; [eapply target_in_model; [|eassumption]; eassumption|]. split.
  - intros name project H. rewrite Hi in H. inversion H; subst.
    eapply declared_project; eauto.
  - intros name project l H. rewrite Hi in H. discriminate.
Qed.

Lemma adds_router_requires : forall m t o,
  tables_of m t -> In o (table_values (routers t)) ->
  adds (openstack_edge m) (router_requires t o).
Proof.
  intros m t [i r] (Hp & _ & Hr & Hs & _) Ho.
  apply table_values_In in Ho as [k Ho]. pose proof (Hr _ _ _ Ho) as [Hi Hkind]. red in Hkind. destruct Hkind as [p [l ->]].
  simpl. apply adds_bind.
  - unfold table_has.
    destruct (table_get (projects t) p) eqn:E; [|apply adds_ret].
    apply adds_find. intros j r Hj. apply adds_add_requires.
    red; split; [eapply target_in_model; [|eassumption]; eassumption|]. split.
    + intros name project H. rewrite Hi in H. discriminate.
    + intros name project l' H. rewrite Hi in H. inversion H; subst.
      left. eapply declared_project; eauto.
  - intros _. apply adds_for_. intros subnet_name _.
    apply adds_find. intros j r Hj. apply adds_add_requires.
    red; split; [eapply target_in_model; [|eassumption]; eassumption|]. split.
    + intros name project H. rewrite Hi in H. discriminate.
    + intros name project l' H. right.
      pose proof (Hs _ _ _ Hj) as [Hn Hkind]. red in Hkind. destruct Hkind as [p' [n' ->]]. eauto.
Qed.

Lemma adds_subnet_requires : forall m t o,
  tables_of m t -> In o (table_values (subnets t)) ->
  adds (openstack_edge m) (subnet_requires t o).
Proof.
  intros m t [i r] (Hp & Hn & _ & Hs & _) Ho.
  apply table_values_In in Ho as [k Ho]. pose proof (Hs _ _ _ Ho) as [Hi Hkind]. red in Hkind. destruct Hkind as [p [n ->]].
  simpl. apply adds_find. intros j r Hj. apply adds_bind.
  - apply adds_add_requires. red; split; [eapply target_in_model; [|eassumption]; eassumption|]. other_kind.
  - intros _. apply adds_find. intros j' r' Hj'. apply adds_add_requires.
    red; split; [eapply target_in_model; [|eassumption]; eassumption|]. other_kind.
Qed.

Lemma adds_vm_requires : forall m t o,
  tables_of m t -> In o (table_values (vms t)) ->
  adds (openstack_edge m) (vm_requires t o).
Proof.
  intros m t [i r] (Hp & _ & _ & Hs & Hv & _) Ho.
  apply table_values_In in Ho as [k Ho]. pose proof (Hv _ _ _ Ho) as [Hi Hkind]. red in Hkind. destruct Hkind as [p [l ->]].
  simpl. apply adds_find. intros j r Hj. apply adds_bind.
  - apply adds_add_requires. red; split; [eapply target_in_model; [|eassumption]; eassumption|]. other_kind.
  - intros _. apply adds_for_. intros port_network _.
    apply adds_find. intros j' r' Hj'. apply adds_add_requires.
    red; split; [eapply target_in_model; [|eassumption]; eassumption|]. other_kind.
Qed.

Lemma adds_port_requires : forall m t o,
  tables_of m t -> In o (table_values (ports t)) ->
  adds (openstack_edge m) (port_requires t o).
Proof.
  intros m t [i r] (Hp & _ & _ & Hs & Hv & Hpo & _) Ho.
  apply table_values_In in Ho as [k Ho].
  pose proof (Hpo _ _ _ Ho) as [Hi Hkind]. red in Hkind. destruct Hkind as [p [n [h ->]]].
  simpl. apply adds_find. intros j r Hj. apply adds_bind.
  - apply adds_add_requires. red; split; [eapply target_in_model; [|eassumption]; eassumption|]. other_kind.
  - intros _. apply adds_find. intros j' r' Hj'. apply adds_bind.
    + apply adds_add_requires. red; split; [eapply target_in_model; [|eassumption]; eassumption|]. other_kind.
    + intros _. apply adds_find. intros j'' r'' Hj''. apply adds_add_requires.
      red; split; [eapply target_in_model; [|eassumption]; eassumption|]. other_kind.
Qed.

Lemma adds_fip_requires : forall m t o,
  tables_of m t -> In o (table_values (fips t)) ->
  adds (openstack_edge m) (fip_requires t o).
Proof.
  intros m t [i r] (_ & Hn & _ & _ & _ & Hpo & Hf) Ho.
  apply table_values_In in Ho as [k Ho].
  pose proof (Hf _ _ _ Ho) as [Hi Hkind]. red in Hkind. destruct Hkind as [n [p ->]].
  simpl. apply adds_find. intros j r Hj. apply adds_bind.
  - apply adds_add_requires. red; split; [eapply target_in_model; [|eassumption]; eassumption|]. other_kind.
  - intros _. apply adds_find. intros j' r' Hj'. apply adds_add_requires.
    red; split; [eapply target_in_model; [|eassumption]; eassumption|]. other_kind.
Qed.

Lemma openstack_dependencies_grows : forall m,
  grows (openstack_edge m) m (snd (openstack_dependencies m)).
Proof.
  intros m. unfold openstack_dependencies.
  pose proof (tables_of_model m) as Ht.
  set (t := fold_left classify (objects m) no_tables) in *.
  match goal with
  | |- grows _ _ (snd (?c m)) =>
      assert (H : adds (openstack_edge m) c); [| exact (H m)]
  end.
  apply adds_bind.
  { apply adds_for_. intros o Ho. now apply adds_network_requires. }
  intros _. apply adds_bind.
  { apply adds_for_. intros o Ho. now apply adds_router_requires. }
  intros _. apply adds_bind.
  { apply adds_for_. intros o Ho. now apply adds_subnet_requires. }
  intros _. apply adds_bind.
  { apply adds_for_. intros o Ho. now apply adds_vm_requires. }
  intros _. apply adds_bind.
  { apply adds_for_. intros o Ho. now apply adds_port_requires. }
  intros _. apply adds_for_. intros o Ho. now apply adds_fip_requires.
Qed.

(** ** [keystone_dependencies] *)


Lemma table_has_set : forall t k v k',
  table_has (table_set t k v) k' = (String.eqb k k' || table_has t k')%bool.
Proof.
  intros t k v k'. unfold table_has. rewrite table_get_set.
  now destruct (String.eqb k k').
Qed.

Lemma keystone_classify_spec : forall l P U R,
  exists P' U',
    fold_left keystone_classify l (P, U, R) = (P', U', (R ++ filter is_role l)%list)
    /\ (forall name, table_has P' name = true <->
          table_has P name = true \/ exists i, In (i, Project name) l)
    /\ (forall name, table_has U' name = true <->
          table_has U name = true \/ exists i, In (i, User name) l)
    /\ (forall m, (forall o, In o l -> nth_error (map res m) (fst o) = Some (snd o)) ->
          table_of m is_project P -> table_of m is_user U ->
          table_of m is_project P' /\ table_of m is_user U').
Proof.
  induction l as [|[i r] l IH]; intros P U R.
  - exists P, U. simpl. rewrite app_nil_r. split; [reflexivity|]. split; [|split].
    + intros nm. split; [auto | intros [H | [i []]]; auto].
    + intros nm. split; [auto | intros [H | [i []]]; auto].
    + intros m _ HP HU. auto.
  - simpl fold_left.
    destruct r;
      try (destruct (IH P U R) as (P' & U' & HE & HP & HU & HT);
           exists P', U'; simpl; split; [exact HE|]; split; [|split];
           [ intros nm; rewrite HP; split;
               [ intros [H | [j H]]; eauto
               | intros [H | [j [H | H]]]; eauto; discriminate ]
           | intros nm; rewrite HU; split;
               [ intros [H | [j H]]; eauto
               | intros [H | [j [H | H]]]; eauto; discriminate ]
           | intros m Hl; apply HT; intros o Ho; apply Hl; now right ]).
    + (* Project *)
      destruct (IH (table_set P name (i, Project name)) U R) as (P' & U' & HE & HP & HU & HT).
      exists P', U'. simpl. split; [exact HE|]. split; [|split].
      * intros nm. rewrite HP, table_has_set, orb_true_iff. split.
        -- intros [[H | H] | [j H]]; eauto.
           apply String.eqb_eq in H. subst. eauto.
        -- intros [H | [j [H | H]]]; eauto.
           inversion H; subst. rewrite String.eqb_refl. auto.
      * intros nm. rewrite HU. split.
        -- intros [H | [j H]]; eauto.
        -- intros [H | [j [H | H]]]; eauto. discriminate.
      * intros m Hl HtP HtU. apply HT; auto.
        apply table_of_set; auto. apply (Hl (i, Project name)). now left. reflexivity.
    + (* User *)
      destruct (IH P (table_set U name (i, User name)) R) as (P' & U' & HE & HP & HU & HT).
      exists P', U'. simpl. split; [exact HE|]. split; [|split].
      * intros nm. rewrite HP. split.
        -- intros [H | [j H]]; eauto.
        -- intros [H | [j [H | H]]]; eauto. discriminate.
      * intros nm. rewrite HU, table_has_set, orb_true_iff. split.
        -- intros [[H | H] | [j H]]; eauto.
           apply String.eqb_eq in H. subst. eauto.
        -- intros [H | [j [H | H]]]; eauto.
           inversion H; subst. rewrite String.eqb_refl. auto.
      * intros m Hl HtP HtU. apply HT; auto.
        apply table_of_set; auto. apply (Hl (i, User name)). now left. reflexivity.
    + (* Role *)
      destruct (IH P U (R ++ [(i, Role role_id project user)])%list)
        as (P' & U' & HE & HP & HU & HT).
      exists P', U'. simpl. rewrite <- app_assoc in HE. split; [exact HE|].
      split; [|split].
      * intros nm. rewrite HP. split.
        -- intros [H | [j H]]; eauto.
        -- intros [H | [j [H | H]]]; eauto. discriminate.
      * intros nm. rewrite HU. split.
        -- intros [H | [j H]]; eauto.
        -- intros [H | [j [H | H]]]; eauto. discriminate.
      * intros m Hl. apply HT. intros o Ho. apply Hl. now right.
Qed.

(** A role whose project or user is missing stops the loop over the roles,
    with the message of the first such role. *)
Lemma roles_loop_raises : forall P U roles m,
  (exists i rid p u, In (i, Role rid p u) roles /\
     (table_has P p = false \/ table_has U u = false)) ->
  (forall o, In o roles -> is_role o = true) ->
  exists msg m', for_ roles (role_requires P U) m = (Raise (Exception_ msg), m')
    /\ exists i rid p u, In (i, Role rid p u) roles /\
         ((table_has P p = false /\ msg = project_not_defined p rid) \/
          (table_has U u = false /\ msg = user_not_defined u rid)).
Proof.
  intros P U roles. unfold for_. generalize tt.
  induction roles as [|[i r] roles IH]; intros t m Hex Hroles.
  - destruct Hex as (i & rid & p & u & [] & _).
  - assert (Hr : is_role (i, r) = true) by (apply Hroles; now left).
    destruct r; try discriminate Hr. clear Hr.
    simpl for_each. unfold bind at 1. unfold role_requires at 1.
    destruct (table_has P project) eqn:EP; simpl negb; cbv iota.
    + destruct (table_has U user) eqn:EU; simpl negb; cbv iota.
      * (* this role is fine: the loop goes on *)
        unfold table_find, bind.
        destruct (table_get P project) as [vp|] eqn:GP;
          [|unfold table_has in EP; rewrite GP in EP; discriminate].
        destruct (table_get U user) as [vu|] eqn:GU;
          [|unfold table_has in EU; rewrite GU in EU; discriminate].
        simpl.
        match goal with
        | |- context [for_each roles tt _ ?m1] =>
            destruct (IH tt m1) as (msg & m' & HE & j & rid & p & u & Hin & Hmsg)
        end.
        -- destruct Hex as (j & rid & p & u & [Hin | Hin] & Hmiss).
           ++ inversion Hin; subst. destruct Hmiss; congruence.
           ++ exists j, rid, p, u. auto.
        -- intros o Ho. apply Hroles. now right.
        -- exists msg, m'. split; [exact HE|].
           exists j, rid, p, u. split; [now right | exact Hmsg].
      * exists (user_not_defined user role_id), m. split; [reflexivity|].
        exists i, role_id, project, user. split; [now left | auto].
    + exists (project_not_defined project role_id), m. split; [reflexivity|].
      exists i, role_id, project, user. split; [now left | auto].
Qed.

Lemma keystone_dependencies_unfold : forall m,
  exists P U,
    keystone_dependencies m = for_ (filter is_role (objects m)) (role_requires P U) m
    /\ (forall name, table_has P name = true <-> exists i, In (i, Project name) (objects m))
    /\ (forall name, table_has U name = true <-> exists i, In (i, User name) (objects m))
    /\ table_of m is_project P /\ table_of m is_user U.
Proof.
  intros m. unfold keystone_dependencies.
  destruct (fold_left keystone_classify (objects m) _) as [[P U] R] eqn:E0.
  destruct (keystone_classify_spec (objects m) [] [] []) as (P' & U' & HE & HP & HU & HT).
  assert (E : (P, U, R) = (P', U', filter is_role (objects m))).
  { rewrite <- E0. exact HE. }
  inversion E; subst; clear E.
  exists P', U'. split; [reflexivity|]. split; [|split].
  - intros name. rewrite HP. split; [intros [H | H]; [discriminate | exact H] | auto].
  - intros name. rewrite HU. split; [intros [H | H]; [discriminate | exact H] | auto].
  - apply HT.
    + intros [i r] H. now apply objects_In.
    + intros k i r [].
    + intros k i r [].
Qed.

Lemma table_has_false : forall t k, table_has t k = false <-> table_has t k <> true.
Proof. intros t k. destruct (table_has t k); split; congruence. Qed.

(** A role of a model whose project or user is not declared makes
    [keystone_dependencies] raise, with the message of a role of the model
    whose project or user is not declared. *)
Lemma keystone_dependencies_raises : forall m role_id project user,
  In (Role role_id project user) (map res m) ->
  ~ In (Project project) (map res m) \/ ~ In (User user) (map res m) ->
  exists msg m', keystone_dependencies m = (Raise (Exception_ msg), m')
    /\ exists rid p u, In (Role rid p u) (map res m) /\
         ((~ In (Project p) (map res m) /\ msg = project_not_defined p rid) \/
          (~ In (User u) (map res m) /\ msg = user_not_defined u rid)).
Proof.
  intros m role_id project user Hrole Hmiss.
  destruct (keystone_dependencies_unfold m) as (P & U & HE & HP & HU & _).
  assert (HPd : forall name, table_has P name = false <-> ~ In (Project name) (map res m)).
  { intros name. rewrite table_has_false, HP. split.
    - intros H Hin. apply H. now apply In_objects.
    - intros H [i Hi].
      apply H. eapply nth_error_In. apply objects_In. exact Hi. }
  assert (HUd : forall name, table_has U name = false <-> ~ In (User name) (map res m)).
  { intros name. rewrite table_has_false, HU. split.
    - intros H Hin. apply H. now apply In_objects.
    - intros H [i Hi].
      apply H. eapply nth_error_In. apply objects_In. exact Hi. }
  destruct (roles_loop_raises P U (filter is_role (objects m)) m)
    as (msg & m' & HR & i & rid & p & u & Hin & Hmsg).
  - apply In_objects in Hrole as [i Hi].
    exists i, role_id, project, user. split.
    + apply filter_In. split; [exact Hi | reflexivity].
    + rewrite HPd, HUd. exact Hmiss.
  - intros o Ho. now apply filter_In in Ho.
  - exists msg, m'. split; [rewrite HE; exact HR|].
    exists rid, p, u. apply filter_In in Hin as [Hin _]. split.
    + eapply nth_error_In. apply objects_In. exact Hin.
    + rewrite <- HPd, <- HUd. exact Hmsg.
Qed.

Lemma adds_role_requires : forall m P U o,
  table_of m is_project P -> table_of m is_user U ->
  adds (fun _ j => j < List.length m) (role_requires P U o).
Proof.
  intros m P U [i r] HP HU. destruct r; simpl; try apply adds_ret.
  destruct (table_has P project); simpl; [|apply adds_raise].
  destruct (table_has U user); simpl; [|apply adds_raise].
  apply adds_find. intros j r Hj. apply adds_bind.
  - apply adds_add_requires. cbv beta. eapply target_in_model; [|eassumption]; eassumption.
  - intros _. apply adds_find. intros j' r' Hj'.
    apply adds_add_requires. cbv beta. eapply target_in_model; [|eassumption]; eassumption.
Qed.

Lemma keystone_dependencies_grows : forall m,
  grows (fun _ j => j < List.length m) m (snd (keystone_dependencies m)).
Proof.
  intros m.
  destruct (keystone_dependencies_unfold m) as (P & U & HE & _ & _ & HP & HU).
  rewrite HE. apply adds_for_. intros o _. now apply adds_role_requires.
Qed.

(** ** Models without routers, subnets, hosts, ports and floating ips *)

Lemma for_ok : forall S X (l : list X) (body : X -> ST S unit),
  (forall x s, In x l -> fst (body x s) = Ok tt) ->
  forall s, fst (for_ l body s) = Ok tt.
Proof.
  intros S X l body. unfold for_.
  induction l as [|x l IH]; simpl; intros H s; [reflexivity|].
  unfold bind. specialize (H x s (or_introl eq_refl)) as Hx.
  destruct (body x s) as [[[]|e] s1]; simpl in Hx; [|discriminate].
  apply IH. intros y s' Hy. apply H. now right.
Qed.

Lemma network_requires_ok : forall t o m, fst (network_requires t o m) = Ok tt.
Proof.
  intros t [i r] m. destruct r; try reflexivity. simpl.
  unfold table_has, table_find, bind.
  destruct (table_get (projects t) project); reflexivity.
Qed.

Lemma classify_guarded : forall l t,
  Forall (fun o : nat * resource => guarded (mkEntry (snd o) [])) l ->
  routers (fold_left classify l t) = routers t /\
  subnets (fold_left classify l t) = subnets t /\
  vms (fold_left classify l t) = vms t /\
  ports (fold_left classify l t) = ports t /\
  fips (fold_left classify l t) = fips t.
Proof.
  induction l as [|[i r] l IH]; intros t H; [simpl; auto 6|].
  inversion H as [|? ? Hr Hl]; subst.
  destruct (IH (classify t (i, r)) Hl) as (H1 & H2 & H3 & H4 & H5).
  cbn [fold_left]. rewrite H1, H2, H3, H4, H5.
  unfold guarded in Hr. simpl in Hr.
  destruct r; simpl; auto 6; contradiction.
Qed.

Lemma objects_guarded : forall m,
  Forall guarded m ->
  Forall (fun o : nat * resource => guarded (mkEntry (snd o) [])) (objects m).
Proof.
  intros m H. apply Forall_forall. intros [i r] Hin.
  apply objects_In in Hin. apply nth_error_In in Hin.
  apply in_map_iff in Hin as [e [E He]]. rewrite Forall_forall in H.
  specialize (H e He). unfold guarded in *. simpl. now rewrite <- E.
Qed.

Lemma openstack_dependencies_guarded : forall m,
  Forall guarded m -> fst (openstack_dependencies m) = Ok tt.
Proof.
  intros m H. unfold openstack_dependencies.
  destruct (classify_guarded (objects m) no_tables (objects_guarded m H))
    as (H1 & H2 & H3 & H4 & H5).
  set (t := fold_left classify (objects m) no_tables) in *.
  rewrite H1, H2, H3, H4, H5. simpl.
  unfold bind.
  pose proof (for_ok _ _ (table_values (networks t)) (network_requires t)
                (fun x s _ => network_requires_ok t x s) m) as Hn.
  destruct (for_ (table_values (networks t)) (network_requires t) m) as [[[]|e] m1];
    simpl in Hn; [reflexivity | discriminate].
Qed.

(** C3, as the code has it.  A role whose project or user is not declared
    makes [keystone_dependencies] raise an error that names the missing
    project or user and the role.  A network or a router whose project is
    not declared is no error: the edge is left out, a model of projects and
    networks always goes through, and the router gets edges to subnets
    only.  Neither manager changes the resources of the model, and every
    edge added points to an object of the model. *)
Theorem dangling_references : forall m : model,
  (forall role_id project user,
     In (Role role_id project user) (map res m) ->
     ~ In (Project project) (map res m) \/ ~ In (User user) (map res m) ->
     exists msg m', keystone_dependencies m = (Raise (Exception_ msg), m')
       /\ exists rid p u, In (Role rid p u) (map res m) /\
            ((~ In (Project p) (map res m) /\ msg = project_not_defined p rid) \/
             (~ In (User u) (map res m) /\ msg = user_not_defined u rid)))
  /\ (Forall guarded m -> fst (openstack_dependencies m) = Ok tt)
  /\ (forall i name project,
        nth_error (map res m) i = Some (Network name project) ->
        ~ In (Project project) (map res m) ->
        forall j, edge (snd (openstack_dependencies m)) i j -> edge m i j)
  /\ (forall i name project l,
        nth_error (map res m) i = Some (Router name project l) ->
        ~ In (Project project) (map res m) ->
        forall j, edge (snd (openstack_dependencies m)) i j ->
          edge m i j \/ exists k p n, nth_error (map res m) j = Some (Subnet k p n))
  /\ map res (snd (openstack_dependencies m)) = map res m
  /\ map res (snd (keystone_dependencies m)) = map res m
  /\ (forall i j,
        edge (snd (openstack_dependencies m)) i j \/
        edge (snd (keystone_dependencies m)) i j ->
        edge m i j \/ j < List.length m).
Proof.
  intros m.
  destruct (openstack_dependencies_grows m) as [Eo Ho].
  destruct (keystone_dependencies_grows m) as [Ek Hk].
  split; [|split; [|split; [|split; [|split; [|split]]]]].
  - intros role_id project user. apply keystone_dependencies_raises.
  - apply openstack_dependencies_guarded.
  - intros i name project Hi Hnot j Hedge.
    destruct (Ho i j Hedge) as [H | (_ & Hnet & _)]; [exact H|].
    exfalso. apply Hnot. exact (Hnet name project Hi).
  - intros i name project l Hi Hnot j Hedge.
    destruct (Ho i j Hedge) as [H | (_ & _ & Hrouter)]; [now left|].
    destruct (Hrouter name project l Hi) as [H | H]; [contradiction | now right].
  - exact Eo.
  - exact Ek.
  - intros i j [H | H].
    + destruct (Ho i j H) as [H' | (H' & _)]; auto.
    + destruct (Hk i j H) as [H' | H']; auto.
Qed.

(** The claim of C3 fails on a network whose project is not declared: both
    managers return without an error and leave the model as it is. *)
Lemma undeclared_project_is_ignored :
  ~ In (Project "p1") (map res lone_network)
  /\ openstack_dependencies lone_network = (Ok tt, lone_network)
  /\ keystone_dependencies lone_network = (Ok tt, lone_network).
Proof.
  split; [|split].
  - simpl. intros [H | []]. discriminate.
  - reflexivity.
  - reflexivity.
Qed.

Lemma compare_rule_on_ssh_rule :
  wf_dict ssh_rule_read = true /\ wf_dict ssh_rule = true /\
  (SecurityGroup._compare_rule (VDict ssh_rule_read) (VDict ssh_rule)
   = SecurityGroup._compare_rule (VDict ssh_rule) (VDict ssh_rule_read)
   /\ SecurityGroup._compare_rule (VDict ssh_rule_read) (VDict ssh_rule_read) = Ok true
   /\ (forall k v, String.prefix "__" k = true ->
         SecurityGroup._compare_rule (VDict (dict_set ssh_rule_read k v)) (VDict ssh_rule)
         = SecurityGroup._compare_rule (VDict ssh_rule_read) (VDict ssh_rule)
         /\ SecurityGroup._compare_rule (VDict ssh_rule_read) (VDict (dict_set ssh_rule k v))
            = SecurityGroup._compare_rule (VDict ssh_rule_read) (VDict ssh_rule))).
Proof.
  split; [reflexivity|]. split; [reflexivity|].
  apply (compare_rule_is_equivalence_modulo_ids ssh_rule_read ssh_rule); reflexivity.
Defined.

(* ================================================================== *)
(** * What a handler operation returns *)
(* ================================================================== *)


Lemma yields_ret : forall A (Q : A -> Prop) a, Q a -> yields Q (ret a).
Proof. intros A Q a H w a' E. inversion E. now subst. Qed.

Lemma yields_raise : forall A (Q : A -> Prop) e, yields Q (raise e).
Proof. intros A Q e w a E. discriminate. Qed.

Lemma yields_bind : forall A B (Q : B -> Prop) (c : M A) (k : A -> M B),
  (forall a, yields Q (k a)) -> yields Q (bind c k).
Proof.
  intros A B Q c k H w b. unfold bind.
  destruct (c w) as [[a | e] w1]; [apply H | discriminate].
Qed.

Ltac ystep :=
  first
    [ progress cbv beta iota
    | lazymatch goal with
      | |- yields _ (ret _) => apply yields_ret; reflexivity
      | |- yields _ (raise _) => apply yields_raise
      | |- yields _ (bind _ _) => let a := fresh "a" in apply yields_bind; intros a
      | |- yields _ (if ?b then _ else _) => destruct b
      | |- yields _ (match ?x with _ => _ end) => destruct x
      end ].

Ltac yrun := repeat ystep.

(* ================================================================== *)
(** * What a handler operation may change *)
(* ================================================================== *)

(** An operation respects a relation [R] between the world before and the
    world after when every run from a world in [Inv] ends in a world
    related to it.  The relations of interest are preorders kept by reads;
    they differ in the calls they allow and the objects they let be
    written. *)
Section Invariant.

Variable Inv : world -> Prop.
Variable R : world -> world -> Prop.
Hypothesis R_refl : forall w, R w w.
Hypothesis R_trans : forall a b c, R a b -> R b c -> R a c.
Hypothesis R_inv : forall w w', Inv w -> R w w' -> Inv w'.

Variable allowed : string -> bool.
Hypothesis R_call : forall name arguments,
  allowed name = true -> forall w, Inv w -> R w (snd (client_call name arguments w)).

Variable writable : ref -> Prop.
Hypothesis R_setattr : forall r name v,
  writable r -> forall w, Inv w -> R w (snd (setattr r name v w)).

Hypothesis R_clone : forall r w, Inv w ->
  R w (snd (clone r w)) /\ forall c, fst (clone r w) = Ok c -> writable c.

Hypothesis allowed_lookups : forall name, In name lookup_methods -> allowed name = true.


Lemma respects_ret : forall A (a : A), respects Inv R (ret a).
Proof. intros A a w _. apply R_refl. Qed.

Lemma respects_raise : forall A e, respects Inv R (@raise world A e).
Proof. intros A e w _. apply R_refl. Qed.

Lemma respects_lift : forall A (r : result A), respects Inv R (lift r).
Proof. intros A r w _. apply R_refl. Qed.

Lemma respects_bind : forall A B (c : M A) (k : A -> M B),
  respects Inv R c -> (forall a, respects Inv R (k a)) -> respects Inv R (bind c k).
Proof.
  intros A B c k Hc Hk w Hw. unfold bind.
  specialize (Hc w Hw). destruct (c w) as [[a | e] w1]; simpl in *.
  - eapply R_trans; [exact Hc | apply Hk; eauto].
  - exact Hc.
Qed.

(** After a pure step the continuation runs on its result. *)
Lemma respects_bind_lift : forall A B (r : result A) (k : A -> M B),
  (forall a, r = Ok a -> respects Inv R (k a)) -> respects Inv R (bind (lift r) k).
Proof.
  intros A B r k Hk w Hw. unfold bind, lift.
  destruct r as [a | e]; simpl.
  - now apply Hk.
  - apply R_refl.
Qed.

Lemma respects_bind_ret : forall A B (a : A) (k : A -> M B),
  respects Inv R (k a) -> respects Inv R (bind (ret a) k).
Proof. intros A B a k Hk w Hw. unfold bind, ret. now apply Hk. Qed.

Lemma respects_bind_assoc : forall A B C (c : M A) (f : A -> M B) (g : B -> M C),
  respects Inv R (bind c (fun x => bind (f x) g)) -> respects Inv R (bind (bind c f) g).
Proof.
  intros A B C c f g H w Hw. specialize (H w Hw). unfold bind in *.
  destruct (c w) as [[a | e] w1]; simpl in *; exact H.
Qed.

Lemma respects_bind_if : forall A B (b : bool) (c1 c2 : M A) (k : A -> M B),
  respects Inv R (if b then bind c1 k else bind c2 k) ->
  respects Inv R (bind (if b then c1 else c2) k).
Proof. intros A B b c1 c2 k H. now destruct b. Qed.

Lemma respects_bind_clone : forall B r (k : ref -> M B),
  (forall c, writable c -> respects Inv R (k c)) -> respects Inv R (bind (clone r) k).
Proof.
  intros B r k Hk w Hw. unfold bind.
  destruct (R_clone r w Hw) as [HR Hc].
  destruct (clone r w) as [[c | e] w1]; simpl in *.
  - eapply R_trans; [exact HR | apply Hk; eauto].
  - exact HR.
Qed.

Lemma respects_catch : forall A handles (c : M A) (h : exn -> M A),
  respects Inv R c -> (forall e, respects Inv R (h e)) -> respects Inv R (catch handles c h).
Proof.
  intros A handles c h Hc Hh w Hw. unfold catch.
  specialize (Hc w Hw). destruct (c w) as [[a | e] w1]; simpl in *.
  - exact Hc.
  - destruct (handles e); simpl; [|exact Hc].
    eapply R_trans; [exact Hc | apply Hh; eauto].
Qed.

Lemma respects_for_each : forall X A (l : list X) (body : A -> X -> M A) acc,
  (forall acc x, In x l -> respects Inv R (body acc x)) -> respects Inv R (for_each l acc body).
Proof.
  intros X A l body. induction l as [|x l IH]; simpl; intros acc H.
  - apply respects_ret.
  - apply respects_bind; [apply H; now left|].
    intros acc'. apply IH. intros a y Hy. apply H. now right.
Qed.

Lemma respects_for_ : forall X (l : list X) (body : X -> M unit),
  (forall x, In x l -> respects Inv R (body x)) -> respects Inv R (for_ l body).
Proof.
  intros X l body H. unfold for_. apply respects_for_each. intros _ x Hx. now apply H.
Qed.

Lemma respects_getattr : forall r name, respects Inv R (getattr r name).
Proof.
  intros r name w _. unfold getattr.
  destruct (nth_error (store w) r) as [o|]; [|apply R_refl].
  destruct (dict_get (obj_attrs o) name); apply R_refl.
Qed.

Lemma respects_class_fields : forall r, respects Inv R (class_fields r).
Proof.
  intros r w _. unfold class_fields.
  destruct (nth_error (store w) r); apply R_refl.
Qed.

Lemma respects_call : forall name arguments,
  allowed name = true -> respects Inv R (client_call name arguments).
Proof. intros name arguments H w Hw. now apply R_call. Qed.

Lemma respects_setattr : forall r name v,
  writable r -> respects Inv R (setattr r name v).
Proof. intros r name v H w Hw. now apply R_setattr. Qed.

Lemma respects_lookup : forall name arguments,
  In name lookup_methods -> respects Inv R (client_call name arguments).
Proof. intros name arguments H. apply respects_call. now apply allowed_lookups. Qed.

(** ** Running through the code of an operation *)

Create HintDb rsp.

Ltac in_list := solve [simpl; repeat (first [left; reflexivity | right])].

(** The result [E : r = Ok a] of a pure step: known from a hypothesis, or
    by computation. *)
Ltac use_result E :=
  first
    [ match goal with
      | H : ?r = Ok _ |- _ =>
          match type of E with r = Ok _ => rewrite H in E; injection E as <- end
      end
    | match type of E with
      | ?r = Ok _ =>
          let r' := eval cbn in r in
          lazymatch r' with
          | Ok _ => change r with r' in E; injection E as <-
          | Raise _ => change r with r' in E; discriminate E
          end
      end
    | match type of E with
      | ?r = Ok _ =>
          let r' := eval cbv in r in
          lazymatch r' with
          | Ok _ => change r with r' in E; injection E as <-
          | Raise _ => change r with r' in E; discriminate E
          end
      end
    | idtac ].

Ltac rstep :=
  first
    [ progress cbv beta iota
    | lazymatch goal with
      | |- respects Inv R (ret _) => apply respects_ret
      | |- respects Inv R (raise _) => apply respects_raise
      | |- respects Inv R (lift _) => apply respects_lift
      | |- respects Inv R (getattr _ _) => apply respects_getattr
      | |- respects Inv R (class_fields _) => apply respects_class_fields
      | |- respects Inv R (setattr _ _ _) => apply respects_setattr; assumption
      | |- respects Inv R (client_call _ _) =>
          first [ apply respects_lookup; first [assumption | in_list]
                | apply respects_call; first [assumption | reflexivity] ]
      | |- respects Inv R (bind (lift _) _) =>
          let a := fresh "a" in let E := fresh "E" in
          apply respects_bind_lift; intros a E; use_result E
      | |- respects Inv R (bind (ret _) _) => apply respects_bind_ret
      | |- respects Inv R (bind (clone _) _) =>
          let c := fresh "c" in let Hc := fresh "Hc" in
          apply respects_bind_clone; intros c Hc
      | |- respects Inv R (bind (bind _ _) _) => apply respects_bind_assoc
      | |- respects Inv R (bind (change_of _ _ _) _) => unfold change_of at 1
      | |- respects Inv R (bind _ _) =>
          let a := fresh "a" in apply respects_bind; [| intros a]
      | |- respects Inv R (catch _ _ _) =>
          let e := fresh "e" in apply respects_catch; [| intros e]
      | |- respects Inv R (for_each _ _ _) =>
          let acc := fresh "acc" in let x := fresh "x" in
          apply respects_for_each; intros acc x _
      | |- respects Inv R (for_ _ _) =>
          let x := fresh "x" in apply respects_for_; intros x _
      | |- respects Inv R (if ?b then ?x else ?y) =>
          let b' := eval cbn in b in
          lazymatch b' with
          | true => change (respects Inv R x)
          | false => change (respects Inv R y)
          | _ =>
              let b'' := eval cbv in b in
              lazymatch b'' with
              | true => change (respects Inv R x)
              | false => change (respects Inv R y)
              | _ => destruct b eqn:?
              end
          end
      | |- respects Inv R (match ?x with _ => _ end) => destruct x eqn:?
      | |- respects Inv R _ => solve [auto with rsp]
      end ].

Ltac run := repeat rstep.

(** The same, with the code after a conditional run once per branch, so
    that what a branch has computed is known to it. *)
Ltac run_branches :=
  repeat first
    [ lazymatch goal with
      | |- respects Inv R (bind (if _ then _ else _) _) => apply respects_bind_if
      end
    | rstep ].

Lemma get_project_id_respects : forall resource name,
  respects Inv R (get_project_id resource name).
Proof. intros. unfold get_project_id. run. Qed.
Local Hint Resolve get_project_id_respects : rsp.

Lemma unique_id_respects : forall response key what name project_id,
  respects Inv R (unique_id response key what name project_id).
Proof. intros. unfold unique_id. run. Qed.
Local Hint Resolve unique_id_respects : rsp.

Lemma get_network_id_respects : forall project_id name,
  respects Inv R (get_network_id project_id name).
Proof. intros. unfold get_network_id. run. Qed.
Local Hint Resolve get_network_id_respects : rsp.

Lemma get_subnet_id_respects : forall project_id name,
  respects Inv R (get_subnet_id project_id name).
Proof. intros. unfold get_subnet_id. run. Qed.
Local Hint Resolve get_subnet_id_respects : rsp.

Lemma get_router_id_respects : forall project_id name,
  respects Inv R (get_router_id project_id name).
Proof. intros. unfold get_router_id. run. Qed.
Local Hint Resolve get_router_id_respects : rsp.

Lemma get_host_respects : forall project_id name,
  respects Inv R (get_host project_id name).
Proof. intros. unfold get_host. run. Qed.
Local Hint Resolve get_host_respects : rsp.

Lemma get_host_id_respects : forall project_id name,
  respects Inv R (get_host_id project_id name).
Proof. intros. unfold get_host_id. run. Qed.
Local Hint Resolve get_host_id_respects : rsp.

Lemma converter_respects : forall h field convert a b,
  converter h field = Some convert -> respects Inv R (convert a b).
Proof.
  intros h field convert a b. unfold converter.
  repeat match goal with
         | |- context [String.eqb ?x ?y] => destruct (String.eqb x y)
         end;
    try destruct h; intros E; inversion E; subst; run.
Qed.

Lemma diff_field_respects : forall h current desired changes field,
  respects Inv R (diff_field h current desired changes field).
Proof.
  intros. unfold diff_field. run.
  eapply converter_respects; eauto.
Qed.
Local Hint Resolve diff_field_respects : rsp.

Lemma diff_respects : forall h current desired,
  respects Inv R (_diff h current desired).
Proof. intros. unfold _diff. run. Qed.
Local Hint Resolve diff_respects : rsp.

Lemma named_facts_respects : forall method key resource,
  In method lookup_methods -> respects Inv R (named_facts method key resource).
Proof.
  intros method key resource Hm. unfold named_facts. run.
Qed.

Lemma self_facts_respects : forall strict facts resource,
  respects Inv R (facts resource) -> respects Inv R (self_facts strict facts resource).
Proof. intros strict facts resource H. unfold self_facts. destruct strict; run; exact H. Qed.

Lemma Router_facts_respects : forall resource, respects Inv R (Router.facts resource).
Proof. intros. apply named_facts_respects. in_list. Qed.
Local Hint Resolve Router_facts_respects : rsp.

Lemma Subnet_facts_respects : forall resource, respects Inv R (Subnet.facts resource).
Proof. intros. apply named_facts_respects. in_list. Qed.
Local Hint Resolve Subnet_facts_respects : rsp.

Lemma RouterPort_facts_respects : forall resource, respects Inv R (RouterPort.facts resource).
Proof. intros. apply named_facts_respects. in_list. Qed.
Local Hint Resolve RouterPort_facts_respects : rsp.

Local Hint Resolve self_facts_respects : rsp.

(** *** [check_resource] *)

Lemma VM_get_vm_respects : forall name, respects Inv R (VM.get_vm name).
Proof. intros. unfold VM.get_vm. run. Qed.
Local Hint Resolve VM_get_vm_respects : rsp.

Lemma VM_check_resource_clone : forall resource,
  exists K, VM.check_resource resource = bind (clone resource) K
    /\ (forall c, writable c -> respects Inv R (K c))
    /\ (forall c, yields (eq c) (K c)).
Proof.
  intros. eexists. split; [unfold VM.check_resource; reflexivity|].
  split; [intros c Hc; run | intros c; yrun].
Qed.

Lemma Router_port_subnets_respects : forall current net acc port,
  respects Inv R (Router.port_subnets current net acc port).
Proof. intros. unfold Router.port_subnets. run. Qed.
Local Hint Resolve Router_port_subnets_respects : rsp.

Lemma Router_check_resource_clone : forall strict resource,
  exists K, Router.check_resource strict resource = bind (clone resource) K
    /\ (forall c, writable c -> respects Inv R (K c))
    /\ (forall c, yields (eq c) (K c)).
Proof.
  intros. eexists. split; [unfold Router.check_resource; reflexivity|].
  split; [intros c Hc; run | intros c; yrun].
Qed.

Lemma Subnet_check_resource_clone : forall strict resource,
  exists K, Subnet.check_resource strict resource = bind (clone resource) K
    /\ (forall c, writable c -> respects Inv R (K c))
    /\ (forall c, yields (eq c) (K c)).
Proof.
  intros. eexists. split; [unfold Subnet.check_resource; reflexivity|].
  split; [intros c Hc; run | intros c; yrun].
Qed.

Lemma RouterPort_check_resource_clone : forall strict resource,
  exists K, RouterPort.check_resource strict resource = bind (clone resource) K
    /\ (forall c, writable c -> respects Inv R (K c))
    /\ (forall c, yields (eq c) (K c)).
Proof.
  intros. eexists. split; [unfold RouterPort.check_resource; reflexivity|].
  split; [intros c Hc; run | intros c; yrun].
Qed.

Lemma HostPort_get_port_respects : forall network_id device_id,
  respects Inv R (HostPort.get_port network_id device_id).
Proof. intros. unfold HostPort.get_port. run. Qed.
Local Hint Resolve HostPort_get_port_respects : rsp.

Lemma HostPort_check_resource_clone : forall resource,
  exists K, HostPort.check_resource resource = bind (clone resource) K
    /\ (forall c, writable c -> respects Inv R (K c))
    /\ (forall c, yields (eq c) (K c)).
Proof.
  intros. eexists. split; [unfold HostPort.check_resource; reflexivity|].
  split; [intros c Hc; run | intros c; yrun].
Qed.

Lemma SG_get_security_group_respects : forall name id,
  respects Inv R (SecurityGroup.get_security_group name id).
Proof. intros. unfold SecurityGroup.get_security_group. run. Qed.
Local Hint Resolve SG_get_security_group_respects : rsp.

Lemma SG_read_rule_respects : forall rule, respects Inv R (SecurityGroup.read_rule rule).
Proof. intros. unfold SecurityGroup.read_rule. run. Qed.
Local Hint Resolve SG_read_rule_respects : rsp.

Lemma SG_append_rule_respects : forall current rule,
  writable current -> respects Inv R (SecurityGroup.append_rule current rule).
Proof. intros. unfold SecurityGroup.append_rule. run. Qed.
Local Hint Resolve SG_append_rule_respects : rsp.

Lemma SG_check_resource_clone : forall resource,
  exists K, SecurityGroup.check_resource resource = bind (clone resource) K
    /\ (forall c, writable c -> respects Inv R (K c))
    /\ (forall c, yields (eq c) (K c)).
Proof.
  intros. eexists. split; [unfold SecurityGroup.check_resource; reflexivity|].
  split; [intros c Hc; run | intros c; yrun].
Qed.

Lemma FIP_get_port_id_respects : forall name, respects Inv R (FloatingIP.get_port_id name).
Proof. intros. unfold FloatingIP.get_port_id. run. Qed.
Local Hint Resolve FIP_get_port_id_respects : rsp.

Lemma FIP_get_floating_ip_respects : forall port_id,
  respects Inv R (FloatingIP.get_floating_ip port_id).
Proof. intros. unfold FloatingIP.get_floating_ip. run. Qed.
Local Hint Resolve FIP_get_floating_ip_respects : rsp.

Lemma FIP_check_resource_clone : forall resource,
  exists K, FloatingIP.check_resource resource = bind (clone resource) K
    /\ (forall c, writable c -> respects Inv R (K c))
    /\ (forall c, yields (eq c) (K c)).
Proof.
  intros. eexists. split; [unfold FloatingIP.check_resource; reflexivity|].
  split; [intros c Hc; run | intros c; yrun].
Qed.

(** *** [do_changes] on an empty changeset *)

Lemma Router_subnet_id_of_respects : forall subnet, respects Inv R (Router.subnet_id_of subnet).
Proof. intros. unfold Router.subnet_id_of. run. Qed.
Local Hint Resolve Router_subnet_id_of_respects : rsp.

Lemma Router_do_changes_empty : forall strict resource,
  respects Inv R (Router.do_changes strict resource (VDict [])).
Proof. intros. unfold Router.do_changes. run. Qed.

Lemma Subnet_has_pool_respects : forall resource, respects Inv R (Subnet.has_pool resource).
Proof. intros. unfold Subnet.has_pool. run. Qed.
Local Hint Resolve Subnet_has_pool_respects : rsp.

Lemma Subnet_pool_of_respects : forall resource, respects Inv R (Subnet.pool_of resource).
Proof. intros. unfold Subnet.pool_of. run. Qed.
Local Hint Resolve Subnet_pool_of_respects : rsp.

Lemma Subnet_do_changes_empty : forall strict resource,
  respects Inv R (Subnet.do_changes strict resource (VDict [])).
Proof. intros. unfold Subnet.do_changes. run. Qed.

Lemma RouterPort_do_changes_empty : forall resource,
  respects Inv R (RouterPort.do_changes resource (VDict [])).
Proof. intros. unfold RouterPort.do_changes. run. Qed.

Lemma HostPort_do_changes_empty : forall resource,
  respects Inv R (HostPort.do_changes resource (VDict [])).
Proof. intros. unfold HostPort.do_changes, HostPort.apply_changes. run. Qed.

Lemma SG_do_changes_empty : forall resource,
  respects Inv R (SecurityGroup.do_changes resource (VDict [])).
Proof. intros. unfold SecurityGroup.do_changes. run. Qed.

Lemma FIP_do_changes_empty : forall resource,
  respects Inv R (FloatingIP.do_changes resource (VDict [])).
Proof. intros. unfold FloatingIP.do_changes. run. Qed.

Lemma VM_do_changes_empty : forall resource,
  allowed "nova.keypairs.create" = true ->
  respects Inv R (VM.do_changes resource (VDict [])).
Proof. intros. unfold VM.do_changes. run. Qed.

(** *** [do_changes] on a changeset with the key ["purged"] *)

Lemma Subnet_do_changes_purged : forall strict resource changes,
  has_key "purged" changes = Ok true ->
  allowed "neutron.create_subnet" = true ->
  allowed "neutron.delete_subnet" = true ->
  respects Inv R (Subnet.do_changes strict resource changes).
Proof. intros. unfold Subnet.do_changes. run. Qed.

Lemma RouterPort_do_changes_purged : forall resource changes,
  has_key "purged" changes = Ok true ->
  allowed "neutron.create_port" = true ->
  allowed "neutron.add_interface_router" = true ->
  respects Inv R (RouterPort.do_changes resource changes).
Proof. intros. unfold RouterPort.do_changes. run. Qed.

Lemma FIP_find_available_fips_respects : forall project_id network_id,
  respects Inv R (FloatingIP._find_available_fips project_id network_id).
Proof. intros. unfold FloatingIP._find_available_fips. run. Qed.
Local Hint Resolve FIP_find_available_fips_respects : rsp.

Lemma FIP_do_changes_purged : forall resource changes,
  has_key "purged" changes = Ok true ->
  allowed "neutron.update_floatingip" = true ->
  allowed "neutron.create_floatingip" = true ->
  allowed "neutron.delete_floatingip" = true ->
  respects Inv R (FloatingIP.do_changes resource changes).
Proof. intros. unfold FloatingIP.do_changes. run. Qed.

Lemma VM_port_id_respects : forall port_name, respects Inv R (VM._port_id port_name).
Proof. intros. unfold VM._port_id. run. Qed.
Local Hint Resolve VM_port_id_respects : rsp.

Lemma VM_get_subnet_id_respects : forall subnet_name,
  respects Inv R (VM._get_subnet_id subnet_name).
Proof. intros. unfold VM._get_subnet_id. run. Qed.
Local Hint Resolve VM_get_subnet_id_respects : rsp.

Lemma VM_get_security_group_respects : forall name id,
  respects Inv R (VM.get_security_group name id).
Proof. intros. unfold VM.get_security_group. run. Qed.
Local Hint Resolve VM_get_security_group_respects : rsp.

Lemma VM_create_nic_config_respects : forall port, respects Inv R (VM._create_nic_config port).
Proof. intros. unfold VM._create_nic_config. run. Qed.
Local Hint Resolve VM_create_nic_config_respects : rsp.

Lemma VM_build_nic_list_respects : forall ports, respects Inv R (VM._build_nic_list ports).
Proof. intros. unfold VM._build_nic_list. run. Qed.
Local Hint Resolve VM_build_nic_list_respects : rsp.

Lemma VM_build_sg_list_respects : forall groups, respects Inv R (VM._build_sg_list groups).
Proof. intros. unfold VM._build_sg_list. run. Qed.
Local Hint Resolve VM_build_sg_list_respects : rsp.

Lemma VM_do_changes_purged : forall resource changes,
  has_key "purged" changes = Ok true ->
  allowed "nova.keypairs.create" = true ->
  allowed "nova.servers.create" = true ->
  allowed "server.delete" = true ->
  respects Inv R (VM.do_changes resource changes).
Proof. intros. unfold VM.do_changes. run. Qed.

Lemma SG_unmatched_rules_respects : forall changes,
  respects Inv R (SecurityGroup.unmatched_rules changes).
Proof. intros. unfold SecurityGroup.unmatched_rules. run. Qed.
Local Hint Resolve SG_unmatched_rules_respects : rsp.

Lemma SG_create_rule_respects : forall group_id new_rule,
  allowed "neutron.create_security_group_rule" = true ->
  respects Inv R (SecurityGroup.create_rule group_id new_rule).
Proof. intros. unfold SecurityGroup.create_rule. run. Qed.

Lemma SG_delete_rule_respects : forall old_rule,
  allowed "neutron.delete_security_group_rule" = true ->
  respects Inv R (SecurityGroup.delete_rule old_rule).
Proof. intros. unfold SecurityGroup.delete_rule. run. Qed.

Lemma SG_update_rules_respects : forall group_id resource changes,
  allowed "neutron.create_security_group_rule" = true ->
  allowed "neutron.delete_security_group_rule" = true ->
  respects Inv R (SecurityGroup._update_rules group_id resource changes).
Proof.
  intros. unfold SecurityGroup._update_rules. run.
  - now apply SG_create_rule_respects.
  - now apply SG_delete_rule_respects.
Qed.

Lemma SG_do_changes_purged : forall resource changes,
  has_key "purged" changes = Ok true ->
  allowed "neutron.create_security_group" = true ->
  allowed "neutron.delete_security_group" = true ->
  allowed "neutron.create_security_group_rule" = true ->
  allowed "neutron.delete_security_group_rule" = true ->
  respects Inv R (SecurityGroup.do_changes resource changes).
Proof.
  intros. unfold SecurityGroup.do_changes. run; now apply SG_update_rules_respects.
Qed.

Lemma Router_do_changes_delete : forall strict resource changes,
  has_key "purged" changes = Ok true ->
  item changes "purged" = Ok (VTuple [VBool false; VBool true]) ->
  allowed "neutron.delete_router" = true ->
  respects Inv R (Router.do_changes strict resource changes).
Proof. intros. unfold Router.do_changes. run_branches. Qed.

(** ** The operations that read *)

Lemma check_resource_respects : forall h strict resource,
  respects Inv R (check_resource h strict resource).
Proof.
  intros h strict resource. destruct h; unfold check_resource.
  - destruct (VM_check_resource_clone resource) as (K & -> & HK & _).
    now apply respects_bind_clone.
  - destruct (Router_check_resource_clone strict resource) as (K & -> & HK & _).
    now apply respects_bind_clone.
  - destruct (Subnet_check_resource_clone strict resource) as (K & -> & HK & _).
    now apply respects_bind_clone.
  - destruct (RouterPort_check_resource_clone strict resource) as (K & -> & HK & _).
    now apply respects_bind_clone.
  - destruct (HostPort_check_resource_clone resource) as (K & -> & HK & _).
    now apply respects_bind_clone.
  - destruct (SG_check_resource_clone resource) as (K & -> & HK & _).
    now apply respects_bind_clone.
  - destruct (FIP_check_resource_clone resource) as (K & -> & HK & _).
    now apply respects_bind_clone.
Qed.

Lemma SG_list_changes_respects : forall resource,
  respects Inv R (SecurityGroup.list_changes resource).
Proof.
  intros resource. unfold SecurityGroup.list_changes.
  apply respects_bind; [exact (check_resource_respects SecurityGroupHandler true resource)|].
  intros current. run.
Qed.

Lemma VM_facts_respects : forall resource, respects Inv R (VM.facts resource).
Proof. intros. unfold VM.facts. run. Qed.

Lemma facts_respects : forall h resource, respects Inv R (facts h resource).
Proof.
  intros h resource. destruct h; unfold facts.
  - apply VM_facts_respects.
  - auto with rsp.
  - auto with rsp.
  - auto with rsp.
  - unfold HostPort.facts. apply named_facts_respects. in_list.
  - unfold SecurityGroup.facts. apply respects_ret.
  - unfold FloatingIP.facts. run.
Qed.

(** ** [do_changes] on any changeset *)

Ltac own H name :=
  let X := fresh "Hown" in
  assert (X : allowed name = true) by (apply H; simpl; tauto).

Lemma do_changes_respects : forall h strict resource changes,
  (forall name, In name (own_calls h) -> allowed name = true) ->
  respects Inv R (do_changes h strict resource changes).
Proof.
  intros h strict resource changes H. destruct h; unfold do_changes.
  - own H "nova.keypairs.create". own H "nova.servers.create". own H "server.delete".
    own H "nova.servers.add_security_group". own H "nova.servers.remove_security_group".
    unfold VM.do_changes. run.
  - own H "neutron.create_router". own H "neutron.delete_router".
    own H "neutron.update_router". own H "neutron.add_interface_router".
    own H "neutron.remove_interface_router". own H "neutron.add_gateway_router".
    unfold Router.do_changes. run.
  - own H "neutron.create_subnet". own H "neutron.delete_subnet".
    own H "neutron.update_subnet".
    unfold Subnet.do_changes. run.
  - own H "neutron.create_port". own H "neutron.add_interface_router".
    unfold RouterPort.do_changes. run.
  - own H "neutron.create_port". own H "server.interface_attach".
    own H "neutron.delete_port". own H "neutron.update_port".
    unfold HostPort.do_changes, HostPort.apply_changes. run.
  - own H "neutron.create_security_group". own H "neutron.delete_security_group".
    own H "neutron.update_security_group". own H "neutron.create_security_group_rule".
    own H "neutron.delete_security_group_rule".
    unfold SecurityGroup.do_changes. run. now apply SG_update_rules_respects.
  - own H "neutron.update_floatingip". own H "neutron.create_floatingip".
    own H "neutron.delete_floatingip".
    unfold FloatingIP.do_changes. run.
Qed.


(** ** [do_changes] on a changeset with the key ["purged"], as shipped *)

Lemma respects_bind_raise : forall A B e (k : A -> M B),
  respects Inv R (bind (raise e) k).
Proof. intros A B e k w _. apply R_refl. Qed.

(** The code after the call [self.facts(resource)], which raises, is not
    run. *)
Ltac run_strict :=
  repeat first
    [ lazymatch goal with
      | |- respects Inv R (bind (raise _) _) => apply respects_bind_raise
      end
    | rstep ].

Lemma Router_do_changes_purged : forall resource changes,
  has_key "purged" changes = Ok true ->
  allowed "neutron.create_router" = true ->
  allowed "neutron.delete_router" = true ->
  respects Inv R (Router.do_changes true resource changes).
Proof. intros. unfold Router.do_changes, self_facts. run_strict. Qed.

(** The [try] of [HostPortHandler.do_changes] where the host has no port
    on the network: a port is created and attached. *)
Lemma HostPort_create_respects : forall resource changes subnet_id network_id vm,
  has_key "purged" changes = Ok true ->
  allowed "neutron.create_port" = true ->
  allowed "server.interface_attach" = true ->
  respects Inv R
    (catch is_NovaConflict
       (HostPort.apply_changes resource changes subnet_id network_id vm VNone)
       (fun _ => raise (SkipResource "Host is not ready: "))).
Proof. intros. unfold HostPort.apply_changes. run. Qed.

(** The same where the host has one: the changeset is taken as an edit of
    the port. *)
Lemma HostPort_edit_respects : forall resource changes subnet_id network_id vm port,
  is_none port = false ->
  allowed "neutron.update_port" = true ->
  respects Inv R
    (catch is_NovaConflict
       (HostPort.apply_changes resource changes subnet_id network_id vm port)
       (fun _ => raise (SkipResource "Host is not ready: "))).
Proof.
  intros resource changes subnet_id network_id vm port Hp Hu.
  unfold HostPort.apply_changes. apply respects_catch; [|intros e; run].
  apply respects_bind_lift. intros purged _. rewrite Hp, andb_false_r. run.
Qed.
End Invariant.

(** ** The relations *)

(** The calls issued are within a set of methods. *)
Lemma calls_within_refl : forall ok w, calls_within ok w w.
Proof.
  intros ok w. exists []. split; [|constructor].
  unfold issued. now rewrite app_nil_r.
Qed.

Lemma calls_within_trans : forall ok a b c,
  calls_within ok a b -> calls_within ok b c -> calls_within ok a c.
Proof.
  intros ok a b c [l1 [E1 F1]] [l2 [E2 F2]]. exists (l1 ++ l2)%list. split.
  - unfold issued in *. now rewrite E2, E1, app_assoc.
  - apply Forall_app. now split.
Qed.

Lemma calls_within_call : forall ok name arguments,
  ok name = true -> forall w, True -> calls_within ok w (snd (client_call name arguments w)).
Proof.
  intros ok name arguments H w _. exists [mkCall name arguments]. split.
  - reflexivity.
  - constructor; [exact H | constructor].
Qed.

Lemma calls_within_setattr : forall ok r name v,
  True -> forall w, True -> calls_within ok w (snd (setattr r name v w)).
Proof.
  intros ok r name v _ w _. unfold setattr.
  destruct (nth_error (store w) r); simpl; exists []; split;
    try constructor; unfold issued; simpl; now rewrite app_nil_r.
Qed.

Lemma calls_within_clone : forall ok r w, True ->
  calls_within ok w (snd (clone r w)) /\ forall c, fst (clone r w) = Ok c -> True.
Proof.
  intros ok r w _. split; [|auto]. unfold clone.
  destruct (nth_error (store w) r); simpl; exists []; split;
    try constructor; unfold issued; simpl; now rewrite app_nil_r.
Qed.


Lemma same_store_call : forall name arguments,
  true = true -> forall w, True -> same_store w (snd (client_call name arguments w)).
Proof. intros. reflexivity. Qed.


Lemma keeps_refl : forall n w, keeps n w w.
Proof. intros n w. split; auto. Qed.

Lemma keeps_trans : forall n a b c, keeps n a b -> keeps n b c -> keeps n a c.
Proof.
  intros n a b c [L1 H1] [L2 H2]. split; [lia|].
  intros r Hr. now rewrite H2, H1.
Qed.

Lemma keeps_inv : forall n w w',
  n <= List.length (store w) -> keeps n w w' -> n <= List.length (store w').
Proof. intros n w w' H [L _]. lia. Qed.

Lemma keeps_call : forall n name arguments,
  true = true -> forall w, n <= List.length (store w) ->
  keeps n w (snd (client_call name arguments w)).
Proof. intros. split; simpl; auto. Qed.

Lemma length_update_nth : forall A (f : A -> A) l i,
  List.length (update_nth l i f) = List.length l.
Proof.
  intros A f. induction l as [|x l IH]; intros [|i]; simpl; auto.
Qed.

Lemma keeps_setattr : forall n r name v,
  n <= r -> forall w, n <= List.length (store w) ->
  keeps n w (snd (setattr r name v w)).
Proof.
  intros n r name v Hr w _. unfold setattr.
  destruct (nth_error (store w) r); simpl; [|apply keeps_refl].
  split; simpl.
  - now rewrite length_update_nth.
  - intros r' Hr'. rewrite nth_error_update_nth.
    destruct (Nat.eqb r' r) eqn:E; [|reflexivity].
    apply Nat.eqb_eq in E. lia.
Qed.

Lemma keeps_clone : forall n r w, n <= List.length (store w) ->
  keeps n w (snd (clone r w)) /\ forall c, fst (clone r w) = Ok c -> n <= c.
Proof.
  intros n r w Hn. unfold clone.
  destruct (nth_error (store w) r); simpl.
  - split.
    + split; simpl.
      * rewrite length_app. lia.
      * intros r' Hr'. apply nth_error_app1. lia.
    + intros c E. inversion E. lia.
  - split; [apply keeps_refl | discriminate].
Qed.

(* ================================================================== *)
(** * The frame of [_diff] and of [check_resource] *)
(* ================================================================== *)

Lemma getattr_same_store : forall r field w w',
  store w' = store w -> fst (getattr r field w') = fst (getattr r field w).
Proof.
  intros r field w w' E. unfold getattr. rewrite E.
  destruct (nth_error (store w) r) as [o|]; [|reflexivity].
  now destruct (dict_get (obj_attrs o) field).
Qed.

(** C7.  Whatever [_diff] does on two resources, returning a changeset or
    raising, the objects of the store are afterwards what they were before:
    every attribute of [current] and of [desired] reads as before. *)
Theorem diff_leaves_resources_unchanged : forall h current desired w,
  let w' := snd (_diff h current desired w) in
  store w' = store w
  /\ (forall field, fst (getattr current field w') = fst (getattr current field w))
  /\ (forall field, fst (getattr desired field w') = fst (getattr desired field w)).
Proof.
  intros h current desired w w'.
  assert (E : store w' = store w).
  { apply (diff_respects (fun _ => True) same_store
             (fun _ => eq_refl)
             (fun a b c (H1 : same_store a b) (H2 : same_store b c) =>
                eq_trans H2 H1)
             (fun _ _ _ _ => I)
             (fun _ => true) same_store_call (fun _ _ => eq_refl)
             h current desired w I). }
  split; [exact E|]. split; intros field; now apply getattr_same_store.
Qed.

(** What follows a [clone] that opens an operation. *)
Lemma after_clone : forall resource (K : ref -> M ref) w,
  (forall c, List.length (store w) <= c ->
     respects (fun w0 => List.length (store w) <= List.length (store w0))
              (keeps (List.length (store w))) (K c)) ->
  (forall c, yields (eq c) (K c)) ->
  let out := bind (clone resource) K w in
  (forall r, r < List.length (store w) ->
     nth_error (store (snd out)) r = nth_error (store w) r)
  /\ (forall field, fst (getattr resource field (snd out)) = fst (getattr resource field w))
  /\ (forall c, fst out = Ok c ->
        c = List.length (store w) /\ c < List.length (store (snd out)) /\ c <> resource).
Proof.
  intros resource K w HK HY out. subst out. unfold bind, clone.
  destruct (nth_error (store w) resource) as [o|] eqn:Eo.
  - set (n := List.length (store w)) in *.
    set (w1 := mkWorld (store w ++ [o])%list (trace w) (adapter w)).
    assert (Hw1 : n <= List.length (store w1)).
    { unfold w1. simpl. rewrite length_app. lia. }
    destruct (HK n (le_n n) w1 Hw1) as [HL HS].
    assert (Hframe : forall r, r < n -> nth_error (store (snd (K n w1))) r = nth_error (store w) r).
    { intros r Hr. rewrite (HS r Hr). unfold w1. simpl. apply nth_error_app1. exact Hr. }
    assert (Hres : resource < n) by (apply nth_error_Some; congruence).
    split; [exact Hframe|]. split.
    + intros field. unfold getattr. rewrite (Hframe resource Hres), Eo.
      now destruct (dict_get (obj_attrs o) field).
    + intros c Ec. pose proof (HY n w1 c Ec) as <-.
      split; [reflexivity|]. split; [|lia].
      clear - HL. unfold w1, n in *. simpl in HL. rewrite length_app in HL.
      simpl in HL. lia.
  - simpl. split; [auto|]. split; [auto|]. intros c E. discriminate.
Qed.

(** [check_resource] of every handler clones the resource and writes to
    the clone only: whether it returns or raises, every object that existed
    before is unchanged, so every attribute of the desired resource reads
    as before; and what it returns is the clone, a new object, not the
    resource. *)
Lemma check_resource_frame : forall h strict resource w,
  let out := check_resource h strict resource w in
  (forall r, r < List.length (store w) ->
     nth_error (store (snd out)) r = nth_error (store w) r)
  /\ (forall field, fst (getattr resource field (snd out)) = fst (getattr resource field w))
  /\ (forall c, fst out = Ok c ->
        c = List.length (store w) /\ c < List.length (store (snd out)) /\ c <> resource).
Proof.
  intros h strict resource w. destruct h; unfold check_resource.
  - destruct (VM_check_resource_clone
                (fun w0 : world => List.length (store w) <= List.length (store w0))
                (keeps (List.length (store w)))
                (keeps_refl _) (keeps_trans _) (keeps_inv _)
                (fun _ : string => true) (keeps_call _)
                (fun r : ref => List.length (store w) <= r) (keeps_setattr _)
                (fun _ _ => eq_refl) resource) as (K & -> & HK & HY).
    now apply after_clone.
  - destruct (Router_check_resource_clone
                (fun w0 : world => List.length (store w) <= List.length (store w0))
                (keeps (List.length (store w)))
                (keeps_refl _) (keeps_trans _) (keeps_inv _)
                (fun _ : string => true) (keeps_call _)
                (fun r : ref => List.length (store w) <= r) (keeps_setattr _)
                (fun _ _ => eq_refl) strict resource) as (K & -> & HK & HY).
    now apply after_clone.
  - destruct (Subnet_check_resource_clone
                (fun w0 : world => List.length (store w) <= List.length (store w0))
                (keeps (List.length (store w)))
                (keeps_refl _) (keeps_trans _) (keeps_inv _)
                (fun _ : string => true) (keeps_call _)
                (fun r : ref => List.length (store w) <= r) (keeps_setattr _)
                (fun _ _ => eq_refl) strict resource) as (K & -> & HK & HY).
    now apply after_clone.
  - destruct (RouterPort_check_resource_clone
                (fun w0 : world => List.length (store w) <= List.length (store w0))
                (keeps (List.length (store w)))
                (keeps_refl _) (keeps_trans _) (keeps_inv _)
                (fun _ : string => true) (keeps_call _)
                (fun r : ref => List.length (store w) <= r) (keeps_setattr _)
                (fun _ _ => eq_refl) strict resource) as (K & -> & HK & HY).
    now apply after_clone.
  - destruct (HostPort_check_resource_clone
                (fun w0 : world => List.length (store w) <= List.length (store w0))
                (keeps (List.length (store w)))
                (keeps_refl _) (keeps_trans _) (keeps_inv _)
                (fun _ : string => true) (keeps_call _)
                (fun r : ref => List.length (store w) <= r) (keeps_setattr _)
                (fun _ _ => eq_refl) resource) as (K & -> & HK & HY).
    now apply after_clone.
  - destruct (SG_check_resource_clone
                (fun w0 : world => List.length (store w) <= List.length (store w0))
                (keeps (List.length (store w)))
                (keeps_refl _) (keeps_trans _) (keeps_inv _)
                (fun _ : string => true) (keeps_call _)
                (fun r : ref => List.length (store w) <= r) (keeps_setattr _)
                (fun _ _ => eq_refl) resource) as (K & -> & HK & HY).
    now apply after_clone.
  - destruct (FIP_check_resource_clone
                (fun w0 : world => List.length (store w) <= List.length (store w0))
                (keeps (List.length (store w)))
                (keeps_refl _) (keeps_trans _) (keeps_inv _)
                (fun _ : string => true) (keeps_call _)
                (fun r : ref => List.length (store w) <= r) (keeps_setattr _)
                (fun _ _ => eq_refl) resource) as (K & -> & HK & HY).
    now apply after_clone.
Qed.

(** A read that returns: the group is not on the remote side, and the clone
    comes back marked purged and without rules, the declared group as it
    was. *)
Example read_of_a_missing_group :
  let out := check_resource SecurityGroupHandler true 0 world_without_group in
  fst out = Ok 1
  /\ fst (getattr 1 "purged" (snd out)) = Ok (VBool true)
  /\ fst (getattr 1 "rules" (snd out)) = Ok (VList [])
  /\ fst (getattr 1 "name" (snd out)) = Ok (VStr "web")
  /\ nth_error (store (snd out)) 0 = Some group_resource.
Proof. repeat split; reflexivity. Qed.

(* ================================================================== *)
(** * The calls of [do_changes] *)
(* ================================================================== *)

Lemma lookups_and_lookup : forall extra name,
  In name lookup_methods -> lookups_and extra name = true.
Proof.
  intros extra name H. unfold lookups_and. apply mem_In in H. now rewrite H.
Qed.

Lemma lookups_and_spec : forall extra c,
  lookups_and extra (meth c) = true <-> is_lookup c = true \/ In (meth c) extra.
Proof.
  intros extra c. unfold lookups_and, is_lookup.
  now rewrite orb_true_iff, (mem_In (meth c) extra).
Qed.

Lemma lookup_is_no_mutation : forall c, is_lookup c = true -> is_mutation c = false.
Proof.
  intros c H. unfold is_lookup in H. apply mem_In in H. unfold is_mutation.
  unfold lookup_methods in H. simpl in H.
  repeat (destruct H as [<- | H]; [reflexivity|]). contradiction.
Qed.

Lemma within_lookups_and : forall extra w w',
  calls_within (lookups_and extra) w w' ->
  exists l, issued w w' l /\
            Forall (fun c => is_lookup c = true \/ In (meth c) extra) l.
Proof.
  intros extra w w' [l [E F]]. exists l. split; [exact E|].
  eapply Forall_impl; [|exact F]. intros c Hc. now apply lookups_and_spec.
Qed.


(** The relation on calls, for the lemmas of the section above. *)
Ltac within extra lemma :=
  apply within_lookups_and;
  first
    [ apply (lemma (fun _ : world => True) (calls_within (lookups_and extra))
               (calls_within_refl _) (calls_within_trans _) (fun _ _ _ _ => I)
               (lookups_and extra) (calls_within_call _) (lookups_and_lookup extra))
    | apply (lemma (fun _ : world => True) (calls_within (lookups_and extra))
               (calls_within_refl _) (calls_within_trans _) (fun _ _ _ _ => I)) ];
  try reflexivity; try assumption; try exact I.

(** The claim of C4 fails on a host whose key pair nova does not list: on
    the empty changeset [do_changes] creates the key pair. *)
Lemma empty_changeset_creates_keypair :
  let out := VM.do_changes 0 (VDict []) world_without_keys in
  fst out = Ok (VBool true)
  /\ trace (snd out) =
       [mkCall "nova.keypairs.list" [];
        mkCall "nova.keypairs.create" [VStr "mykey"; VStr "ssh-rsa AAAA"]]
  /\ is_mutation (mkCall "nova.keypairs.create" [VStr "mykey"; VStr "ssh-rsa AAAA"]) = true.
Proof. repeat split; reflexivity. Qed.

(** The claim of C1 fails on the creation of a security group with a
    rule: the call that creates the group is followed, in the same
    [do_changes], by the call that creates the rule. *)
Lemma group_created_with_its_rules :
  let out := SecurityGroup.do_changes 0 create_group_with_rule world_without_group in
  has_key "purged" create_group_with_rule = Ok true
  /\ fst out = Ok (VBool true)
  /\ trace (snd out) =
       [mkCall "neutron.create_security_group"
          [VDict [("security_group",
                   VDict [("name", VStr "web"); ("description", VStr "web servers")])]];
        mkCall "neutron.create_security_group_rule"
          [VDict [("security_group_rule",
                   VDict (ssh_rule ++ [("ethertype", VStr "IPv4");
                                       ("security_group_id", VStr "sg-1")])%list)]]].
Proof. repeat split; reflexivity. Qed.

(* ================================================================== *)
(** * [facts] *)
(* ================================================================== *)

(** The [facts] of a host gives the empty mapping on any failure. *)
Lemma host_facts_never_raise : forall resource w,
  exists v, fst (VM.facts resource w) = Ok v.
Proof.
  intros resource w. unfold VM.facts, catch.
  match goal with |- context [match ?c w with _ => _ end] => destruct (c w) as [[v | e] w1] end.
  - now exists v.
  - simpl. now exists (VDict []).
Qed.

(** C2 at its failing input.  The [facts] of a floating ip whose port name
    two remote ports have raises, where the [facts] of a router port on the
    same remote side gives the empty mapping; and a failing lookup of the
    routers makes the [facts] of a router raise. *)
Theorem floating_ip_facts_raise :
  fst (FloatingIP.facts 0 world_with_two_ports)
    = Raise (Exception_ "Multiple ports found with name port-1")
  /\ fst (RouterPort.facts 1 world_with_two_ports) = Ok (VDict [])
  /\ fst (Router.facts 0 world_out_of_reach) = Raise NeutronClientException.
Proof. repeat split; reflexivity. Qed.

(* ================================================================== *)
(** * Two passes in a row *)
(* ================================================================== *)

(** With the interpreter's reading of [self.facts(resource)] the read of a
    router raises, whatever the router and the remote side. *)
Lemma router_read_raises : forall resource w,
  exists e, fst (Router.check_resource true resource w) = Raise e.
Proof.
  intros resource w. unfold Router.check_resource, bind, clone, self_facts, raise.
  destruct (nth_error (store w) resource); simpl; eauto.
Qed.

(** C8 at its failing inputs.  A router port declared purged with an
    address, absent from the remote side: the pass computes the changeset
    of the address, [do_changes] sends no call that changes the remote
    state and returns, and the next pass computes the same changeset, not
    an empty one.  And with the interpreter's reading of
    [self.facts(resource)], the read of a router raises on every resource,
    so that no pass on a router yields a changeset. *)
Theorem second_pass_not_empty :
  (let first := pass RouterPortHandler false 0 world_without_port in
   let second := pass RouterPortHandler false 0 (snd first) in
   fst first = Ok address_to_set
   /\ fst (do_changes RouterPortHandler false 0 address_to_set world_without_port)
      = Ok (VBool true)
   /\ filter is_mutation (trace (snd first)) = []
   /\ fst second = Ok address_to_set)
  /\ (forall resource w, exists e, fst (Router.check_resource true resource w) = Raise e).
Proof.
  split.
  - repeat split; reflexivity.
  - apply router_read_raises.
Qed.

(* ================================================================== *)
(** * The rules of a security group *)
(* ================================================================== *)

(** The claim of C5 fails on a desired rule that names a remote group the
    remote side does not list: of current [{X, Y}] and desired [{Y, Z}],
    [Y] matched, the rule [X] is deleted and no rule is created. *)
Lemma unresolved_remote_group_is_skipped :
  let changes := rules_changeset http_rule_read ssh_rule_read ssh_rule db_rule in
  let out := SecurityGroup._update_rules (VStr "sg-1") 0 changes world_without_remote_group in
  SecurityGroup._compare_rule (VDict ssh_rule_read) (VDict ssh_rule) = Ok true
  /\ SecurityGroup._compare_rule (VDict http_rule_read) (VDict ssh_rule) = Ok false
  /\ SecurityGroup._compare_rule (VDict http_rule_read) (VDict db_rule) = Ok false
  /\ SecurityGroup._compare_rule (VDict ssh_rule_read) (VDict db_rule) = Ok false
  /\ fst out = Ok tt
  /\ trace (snd out) =
       [mkCall "neutron.list_security_groups" [kw [("name", VStr "db")]];
        mkCall "neutron.delete_security_group_rule" [VStr "rule-x"]].
Proof. repeat split; reflexivity. Qed.

Lemma two_elements : forall (a b : value) l,
  Permutation l [a; b] -> l = [a; b] \/ l = [b; a].
Proof.
  intros a b l H. apply Permutation_sym in H.
  now apply Permutation_length_2_inv in H.
Qed.

(** The matching leaves [X] and [Z]. *)
Lemma match_rules_leaves : forall (X Y' Y Z : dict) cur des,
  Permutation cur [VDict X; VDict Y'] ->
  Permutation des [VDict Y; VDict Z] ->
  SecurityGroup._compare_rule (VDict Y') (VDict Y) = Ok true ->
  SecurityGroup._compare_rule (VDict X) (VDict Y) = Ok false ->
  SecurityGroup._compare_rule (VDict X) (VDict Z) = Ok false ->
  SecurityGroup._compare_rule (VDict Y') (VDict Z) = Ok false ->
  wf_dict Y' = true -> wf_dict Y = true ->
  py_eq (VDict X) (VDict Y') = false ->
  py_eq (VDict Z) (VDict Y) = false ->
  SecurityGroup.match_rules cur des (cur, des) = Ok ([VDict X], [VDict Z]).
Proof.
  intros X Y' Y Z cur des Hc Hd HY HXY HXZ HYZ WY' WY NX NZ.
  pose proof (py_eq_refl (VDict Y') WY') as RY'.
  pose proof (py_eq_refl (VDict Y) WY) as RY.
  apply two_elements in Hc. apply two_elements in Hd.
  destruct Hc as [-> | ->]; destruct Hd as [-> | ->];
    cbn [SecurityGroup.match_rules SecurityGroup.match_rule fst snd list_remove];
    repeat (rewrite ?HY, ?HXY, ?HXZ, ?HYZ, ?RY', ?RY, ?NX, ?NZ;
            cbn [SecurityGroup.match_rules SecurityGroup.match_rule fst snd list_remove]);
    reflexivity.
Qed.

Lemma dict_has_set_other : forall d k v k',
  k' <> k -> dict_has (dict_set d k v) k' = dict_has d k'.
Proof. intros d k v k' H. unfold dict_has. now rewrite dict_get_set_other. Qed.

Lemma unmatched_rules_eq : forall changes cur des r w,
  item changes "rules" = Ok (VTuple [VList cur; VList des]) ->
  SecurityGroup.match_rules cur des (cur, des) = Ok r ->
  SecurityGroup.unmatched_rules changes w = (Ok r, w).
Proof.
  intros changes cur des r w Hitem Hm.
  unfold SecurityGroup.unmatched_rules, change_of, bind, lift. rewrite Hitem.
  change (at_ (VTuple [VList cur; VList des]) 0) with (Ok (VList cur)).
  change (at_ (VTuple [VList cur; VList des]) 1) with (Ok (VList des)).
  cbn [iterate]. now rewrite Hm.
Qed.

Lemma create_rule_eq : forall (Z : dict) group_id protocol w v,
  dict_has Z "remote_group" = false ->
  dict_get Z "protocol" = Some protocol ->
  adapter w (trace w)
    (mkCall "neutron.create_security_group_rule"
       [VDict [("security_group_rule", VDict (sent_rule Z group_id protocol))]]) = Ok v ->
  SecurityGroup.create_rule group_id (VDict Z) w =
    (Ok tt,
     mkWorld (store w)
       (trace w ++ [mkCall "neutron.create_security_group_rule"
                      [VDict [("security_group_rule",
                               VDict (sent_rule Z group_id protocol))]]])%list
       (adapter w)).
Proof.
  intros Z group_id protocol w v Hrg Hproto Hv.
  unfold SecurityGroup.create_rule.
  cbn [bind lift ret set_item has_key contains item subscript].
  rewrite dict_has_set_other by discriminate. rewrite Hrg.
  cbn [bind lift ret set_item has_key contains item subscript].
  rewrite !dict_get_set_other by discriminate. rewrite Hproto.
  cbn [bind lift ret set_item has_key contains item subscript].
  unfold sent_rule in *.
  destruct (py_eq protocol (VStr "all"));
    unfold bind, lift, ret, client_call; cbn [fst snd store trace adapter];
    now rewrite Hv.
Qed.

Lemma delete_rule_trace : forall (X : dict) id w,
  dict_get X "__id" = Some id ->
  trace (snd (SecurityGroup.delete_rule (VDict X) w)) =
    (trace w ++ [mkCall "neutron.delete_security_group_rule" [id]])%list.
Proof.
  intros X id w Hid. unfold SecurityGroup.delete_rule, catch.
  cbn [bind lift ret item subscript]. rewrite Hid.
  unfold bind, lift, ret, client_call.
  destruct (adapter w (trace w) (mkCall "neutron.delete_security_group_rule" [id]))
    as [v | e]; [reflexivity|].
  now destruct (is_NeutronNotFound e).
Qed.


(* ================================================================== *)
(** * Runs of the handler monad *)
(* ================================================================== *)

Lemma getattr_run : forall r field v w,
  fst (getattr r field w) = Ok v -> getattr r field w = (Ok v, w).
Proof.
  intros r field v w. unfold getattr.
  destruct (nth_error (store w) r) as [o|]; [|discriminate].
  destruct (dict_get (obj_attrs o) field); [|discriminate].
  simpl. now intros ->.
Qed.

Lemma bind_getattr_run : forall A r field v (k : value -> M A) w,
  fst (getattr r field w) = Ok v -> bind (getattr r field) k w = k v w.
Proof. intros A r field v k w H. unfold bind. now rewrite (getattr_run _ _ _ _ H). Qed.

Lemma bind_lift_ok : forall A B (x : A) (k : A -> M B) w,
  bind (lift (Ok x)) k w = k x w.
Proof. reflexivity. Qed.

Lemma bind_getattr_ok : forall A r field (k : value -> M A) w a,
  fst (bind (getattr r field) k w) = Ok a ->
  exists v, fst (getattr r field w) = Ok v /\ bind (getattr r field) k w = k v w.
Proof.
  intros A r field k w a. unfold bind.
  assert (Hs : snd (getattr r field w) = w).
  { unfold getattr. destruct (nth_error (store w) r) as [o|]; [|reflexivity].
    now destruct (dict_get (obj_attrs o) field). }
  destruct (getattr r field w) as [[v | e] w1]; simpl in Hs; subst w1.
  - intros _. now exists v.
  - discriminate.
Qed.

Lemma bind_assoc_run : forall A B C (c : M A) (f : A -> M B) (g : B -> M C) w,
  bind (bind c f) g w = bind c (fun x => bind (f x) g) w.
Proof.
  intros A B C c f g w. unfold bind. now destruct (c w) as [[x | e] w1].
Qed.

Lemma bind_ret_run : forall A B (a : A) (k : A -> M B) w, bind (ret a) k w = k a w.
Proof. reflexivity. Qed.


(* ================================================================== *)
(** * Further properties of the handlers *)
(* ================================================================== *)

(** ** Reading sends lookups only *)

Lemma only_lookups : forall w w',
  calls_within (lookups_and no_calls) w w' ->
  exists l, issued w w' l /\ Forall (fun c => is_lookup c = true) l.
Proof.
  intros w w' H. destruct (within_lookups_and _ _ _ H) as [l [E F]].
  exists l. split; [exact E|]. eapply Forall_impl; [|exact F].
  intros c [Hc | []]. exact Hc.
Qed.

(** X1.  The operations that read send lookups only: whatever the
    resource and the remote side, and whether they return or raise, every
    call of [check_resource], of [_diff], of [list_changes] of the security
    group handler and of [facts] is the call of a method that lists, finds
    or shows. *)
Theorem reading_sends_lookups_only : forall h strict current resource w,
  (exists l, issued w (snd (check_resource h strict resource w)) l
             /\ Forall (fun c => is_lookup c = true) l)
  /\ (exists l, issued w (snd (_diff h current resource w)) l
                /\ Forall (fun c => is_lookup c = true) l)
  /\ (exists l, issued w (snd (SecurityGroup.list_changes resource w)) l
                /\ Forall (fun c => is_lookup c = true) l)
  /\ (exists l, issued w (snd (facts h resource w)) l
                /\ Forall (fun c => is_lookup c = true) l).
Proof.
  intros h strict current resource w.
  split; [|split; [|split]].
  - apply only_lookups.
    apply (check_resource_respects (fun _ : world => True)
             (calls_within (lookups_and no_calls))
             (calls_within_refl _) (calls_within_trans _) (fun _ _ _ _ => I)
             (lookups_and no_calls) (calls_within_call _)
             (fun _ : ref => True) (calls_within_setattr _)
             (calls_within_clone _) (lookups_and_lookup no_calls)); exact I.
  - apply only_lookups.
    apply (diff_respects (fun _ : world => True)
             (calls_within (lookups_and no_calls))
             (calls_within_refl _) (calls_within_trans _) (fun _ _ _ _ => I)
             (lookups_and no_calls) (calls_within_call _)
             (lookups_and_lookup no_calls)); exact I.
  - apply only_lookups.
    apply (SG_list_changes_respects (fun _ : world => True)
             (calls_within (lookups_and no_calls))
             (calls_within_refl _) (calls_within_trans _) (fun _ _ _ _ => I)
             (lookups_and no_calls) (calls_within_call _)
             (fun _ : ref => True) (calls_within_setattr _)
             (calls_within_clone _) (lookups_and_lookup no_calls)); exact I.
  - apply only_lookups.
    apply (facts_respects (fun _ : world => True)
             (calls_within (lookups_and no_calls))
             (calls_within_refl _) (calls_within_trans _) (fun _ _ _ _ => I)
             (lookups_and no_calls) (calls_within_call _)
             (lookups_and_lookup no_calls)); exact I.
Qed.

(** ** The matching of rules *)

Lemma subseq_refl : forall A (l : list A), subseq l l.
Proof. induction l; constructor; assumption. Qed.

Lemma subseq_trans : forall A (a b c : list A), subseq a b -> subseq b c -> subseq a c.
Proof.
  intros A a b c Hab Hbc. revert a Hab.
  induction Hbc as [| x l l' H IH | x l l' H IH]; intros a Hab.
  - exact Hab.
  - constructor. now apply IH.
  - inversion Hab as [| y m m' Hm | y m m' Hm]; subst.
    + apply subseq_skip. now apply IH.
    + apply subseq_keep. now apply IH.
Qed.

Lemma subseq_In : forall A (l l' : list A) x, subseq l l' -> In x l -> In x l'.
Proof.
  intros A l l' x H. induction H as [| y l l' H IH | y l l' H IH]; simpl; intuition.
Qed.

(** [list.remove] takes one element out. *)
Lemma list_remove_subseq : forall l x r,
  list_remove l x = Ok r -> subseq r l /\ List.length l = S (List.length r).
Proof.
  induction l as [|y l IH]; simpl; intros x r H; [discriminate|].
  destruct (py_eq y x).
  - inversion H; subst. split; [apply subseq_skip; apply subseq_refl | reflexivity].
  - destruct (list_remove l x) as [r'|e] eqn:E; [|discriminate].
    inversion H; subst. destruct (IH x r' E) as [Hs Hl].
    split; [now apply subseq_keep | simpl; now rewrite Hl].
Qed.

(** What one desired rule may take out of the rules that remain: nothing,
    or one rule on each side. *)
Lemma match_rule_takes : forall olds new_rule remaining r,
  SecurityGroup.match_rule olds new_rule remaining = Ok r ->
  (r = remaining /\
   forall o, In o olds -> SecurityGroup._compare_rule o new_rule = Ok false)
  \/ (subseq (fst r) (fst remaining) /\ subseq (snd r) (snd remaining) /\
      List.length (fst remaining) = S (List.length (fst r)) /\
      List.length (snd remaining) = S (List.length (snd r)) /\
      exists o, In o olds /\ SecurityGroup._compare_rule o new_rule = Ok true).
Proof.
  induction olds as [|o olds IH]; simpl; intros new_rule remaining r H.
  - inversion H; subst. left. split; [reflexivity | intros o []].
  - destruct (SecurityGroup._compare_rule o new_rule) as [[|]|e] eqn:Ec; [| |discriminate].
    + right.
      destruct (list_remove (fst remaining) o) as [old_rules|e] eqn:Eo; [|discriminate].
      destruct (list_remove (snd remaining) new_rule) as [new_rules|e] eqn:En;
        [|discriminate].
      inversion H; subst; simpl.
      destruct (list_remove_subseq _ _ _ Eo) as [So Lo].
      destruct (list_remove_subseq _ _ _ En) as [Sn Ln].
      repeat (split; [assumption|]). exists o. split; [now left | exact Ec].
    + destruct (IH new_rule remaining r H) as [[-> Hall] | (S1 & S2 & L1 & L2 & o' & Ho' & Hc)].
      * left. split; [reflexivity|]. intros o' [<- | Ho']; [exact Ec | now apply Hall].
      * right. repeat (split; [assumption|]). exists o'. split; [now right | exact Hc].
Qed.

Lemma match_rules_takes : forall olds news remaining r,
  SecurityGroup.match_rules olds news remaining = Ok r ->
  subseq (fst r) (fst remaining) /\ subseq (snd r) (snd remaining) /\
  List.length (fst r) + List.length (snd remaining)
    = List.length (fst remaining) + List.length (snd r) /\
  ((forall o n, In o olds -> In n news -> SecurityGroup._compare_rule o n = Ok false) ->
   r = remaining).
Proof.
  intros olds news. induction news as [|n news IH]; simpl; intros remaining r H.
  - inversion H; subst. repeat split; try apply subseq_refl; auto.
  - destruct (SecurityGroup.match_rule olds n remaining) as [r1|e] eqn:E1; [|discriminate].
    destruct (IH r1 r H) as (S1 & S2 & L & Hnone).
    destruct (match_rule_takes _ _ _ _ E1)
      as [[-> Hall] | (T1 & T2 & L1 & L2 & o & Ho & Hc)].
    + repeat split; try assumption.
      intros Hno. apply Hnone. intros o n' Ho Hn'. apply Hno; [exact Ho | now right].
    + split; [eapply subseq_trans; eassumption|].
      split; [eapply subseq_trans; eassumption|].
      split; [lia|].
      intros Hno. rewrite (Hno o n Ho (or_introl eq_refl)) in Hc. discriminate.
Qed.

(** X2.  The matching of the rules of a changeset, when it returns: the
    rules left to delete are current rules, in their order, and the rules
    left to create are desired rules, in their order; as many rules have
    left one side as the other; and where no current rule matches a desired
    rule, every current rule is left to delete and every desired rule to
    create. *)
Theorem matching_takes_pairs : forall changes cur des old_rules new_rules w,
  item changes "rules" = Ok (VTuple [VList cur; VList des]) ->
  fst (SecurityGroup.unmatched_rules changes w) = Ok (old_rules, new_rules) ->
  subseq old_rules cur /\ subseq new_rules des
  /\ List.length old_rules + List.length des = List.length cur + List.length new_rules
  /\ ((forall o n, In o cur -> In n des -> SecurityGroup._compare_rule o n = Ok false) ->
      old_rules = cur /\ new_rules = des).
Proof.
  intros changes cur des old_rules new_rules w Hitem H.
  destruct (SecurityGroup.match_rules cur des (cur, des)) as [r|e] eqn:E.
  - rewrite (unmatched_rules_eq changes cur des r w Hitem E) in H.
    simpl in H. inversion H; subst.
    destruct (match_rules_takes _ _ _ _ E) as (S1 & S2 & L & Hnone). simpl in *.
    repeat (split; [assumption|]). intros Hno. specialize (Hnone Hno).
    now inversion Hnone.
  - exfalso. revert H.
    unfold SecurityGroup.unmatched_rules, change_of, bind, lift. rewrite Hitem.
    simpl. rewrite E. discriminate.
Qed.

Lemma matching_takes_pairs_on_web_rules :
  let changes := rules_changeset http_rule_read ssh_rule_read ssh_rule https_rule in
  let cur := [VDict http_rule_read; VDict ssh_rule_read] in
  let des := [VDict ssh_rule; VDict https_rule] in
  fst (SecurityGroup.unmatched_rules changes world_without_remote_group)
    = Ok ([VDict http_rule_read], [VDict https_rule])
  /\ subseq [VDict http_rule_read] cur /\ subseq [VDict https_rule] des
  /\ 1 + List.length des = List.length cur + 1
  /\ ((forall o n, In o cur -> In n des -> SecurityGroup._compare_rule o n = Ok false) ->
      [VDict http_rule_read] = cur /\ [VDict https_rule] = des).
Proof.
  split; [reflexivity|].
  apply (matching_takes_pairs
           (rules_changeset http_rule_read ssh_rule_read ssh_rule https_rule)
           [VDict http_rule_read; VDict ssh_rule_read]
           [VDict ssh_rule; VDict https_rule]
           [VDict http_rule_read] [VDict https_rule] world_without_remote_group);
    reflexivity.
Defined.

(** X3.  A current rule that two desired rules match, the same rule
    declared twice for one: the second match finds the current rule no
    longer in the list of the rules that remain, [list.remove] raises
    [ValueError], and [_update_rules] raises it before any call is sent. *)
Theorem rule_declared_twice : forall o n1 n2 changes group_id resource w,
  item changes "rules" = Ok (VTuple [VList [o]; VList [n1; n2]]) ->
  SecurityGroup._compare_rule o n1 = Ok true ->
  SecurityGroup._compare_rule o n2 = Ok true ->
  SecurityGroup._update_rules group_id resource changes w = (Raise ValueError, w).
Proof.
  intros o n1 n2 changes group_id resource w Hitem H1 H2.
  unfold SecurityGroup._update_rules, SecurityGroup.unmatched_rules, change_of, bind, lift.
  rewrite Hitem. cbn [item at_ subscript].
  change (index_value [VList [o]; VList [n1; n2]] 0) with (Ok (VList [o])).
  change (index_value [VList [o]; VList [n1; n2]] 1) with (Ok (VList [n1; n2])).
  cbn [iterate SecurityGroup.match_rules SecurityGroup.match_rule fst snd]. rewrite H1.
  cbn [list_remove].
  destruct (py_eq o o); [|reflexivity].
  destruct (py_eq n1 n1).
  - cbn [SecurityGroup.match_rule fst snd]. rewrite H2. reflexivity.
  - destruct (py_eq n2 n1); [|reflexivity].
    cbn [SecurityGroup.match_rule fst snd]. rewrite H2. reflexivity.
Qed.

Lemma rule_declared_twice_on_ssh_rule :
  let changes :=
    VDict [("rules", VTuple [VList [VDict ssh_rule_read];
                             VList [VDict ssh_rule; VDict ssh_rule]])] in
  SecurityGroup._compare_rule (VDict ssh_rule_read) (VDict ssh_rule) = Ok true
  /\ SecurityGroup._update_rules (VStr "sg-1") 0 changes world_without_remote_group
     = (Raise ValueError, world_without_remote_group).
Proof.
  split; [reflexivity|].
  apply (rule_declared_twice (VDict ssh_rule_read) (VDict ssh_rule) (VDict ssh_rule));
    reflexivity.
Defined.

(** ** A rule sent and read back *)

Lemma incl_set_eqb : forall a b, incl a b -> incl b a -> set_eqb a b = true.
Proof.
  intros a b Hab Hba. unfold set_eqb. apply andb_true_iff.
  split; apply forallb_forall; intros x Hx; apply mem_In; auto.
Qed.

Lemma public_key_get : forall Z keys k,
  set_eqb (SecurityGroup.public_keys Z) keys = true -> In k keys ->
  exists v, dict_get Z k = Some v.
Proof.
  intros Z keys k H Hk. apply set_eqb_incl in H as [_ H].
  apply H, public_keys_In in Hk as [Hk _].
  destruct (dict_get Z k) as [v|] eqn:E; [now exists v|].
  apply dict_get_None in E. contradiction.
Qed.

(** The call [create_rule] sends for a rule that names no remote group,
    whatever the remote side answers. *)
Lemma create_rule_trace : forall (Z : dict) group_id protocol w,
  dict_has Z "remote_group" = false ->
  dict_get Z "protocol" = Some protocol ->
  trace (snd (SecurityGroup.create_rule group_id (VDict Z) w)) =
    (trace w ++ [mkCall "neutron.create_security_group_rule"
                   [VDict [("security_group_rule",
                            VDict (sent_rule Z group_id protocol))]]])%list.
Proof.
  intros Z group_id protocol w Hrg Hproto.
  unfold SecurityGroup.create_rule.
  cbn [bind lift ret set_item has_key contains item subscript].
  rewrite dict_has_set_other by discriminate. rewrite Hrg.
  cbn [bind lift ret set_item has_key contains item subscript].
  rewrite !dict_get_set_other by discriminate. rewrite Hproto.
  cbn [bind lift ret set_item has_key contains item subscript].
  unfold sent_rule.
  destruct (py_eq protocol (VStr "all"));
    unfold bind, lift, ret, client_call; cbn [fst snd store trace adapter];
    match goal with
    | |- context [adapter w (trace w) ?c] => now destruct (adapter w (trace w) c)
    end.
Qed.

(** X4.  A declared rule on an address prefix that [create_rule] has sent
    and the remote side gives back, field for field, under an id, is read
    by [read_rule] as a rule that [_compare_rule] matches with the declared
    one, and that carries the id: the rule is not sent again, and the id is
    at hand to delete it. *)
Theorem rule_sent_reads_back : forall (Z : dict) group_id protocol prefix sent stored id w w',
  wf_dict Z = true ->
  set_eqb (SecurityGroup.public_keys Z) rule_keys = true ->
  dict_get Z "protocol" = Some protocol -> is_none protocol = false ->
  dict_get Z "remote_ip_prefix" = Some prefix -> is_none prefix = false ->
  trace (snd (SecurityGroup.create_rule group_id (VDict Z) w)) =
    (trace w ++ [mkCall "neutron.create_security_group_rule"
                   [VDict [("security_group_rule", VDict sent)]]])%list ->
  (forall k v, dict_get sent k = Some v -> item stored k = Ok v) ->
  item stored "id" = Ok id ->
  exists cur,
    SecurityGroup.read_rule stored w' = (Ok (VDict cur), w')
    /\ dict_get cur "__id" = Some id
    /\ SecurityGroup._compare_rule (VDict cur) (VDict Z) = Ok true.
Proof.
  intros Z group_id protocol prefix sent stored id w w'
    Hwf Hkeys Hproto Nproto Hprefix Nprefix Hsent Hecho Hid.
  assert (Hrg : dict_has Z "remote_group" = false).
  { unfold dict_has. destruct (dict_get Z "remote_group") as [v|] eqn:E; [|reflexivity].
    exfalso. apply set_eqb_incl in Hkeys as [Hk _].
    assert (Hin : In "remote_group" (SecurityGroup.public_keys Z)).
    { apply public_keys_In. split; [|reflexivity].
      apply dict_get_In in E. now apply (in_map fst) in E. }
    apply Hk in Hin. simpl in Hin. intuition discriminate. }
  rewrite (create_rule_trace Z group_id protocol w Hrg Hproto) in Hsent.
  apply app_inv_head in Hsent. injection Hsent as <-.
  destruct (public_key_get Z rule_keys "direction" Hkeys) as [direction Hd];
    [simpl; tauto|].
  destruct (public_key_get Z rule_keys "port_range_min" Hkeys) as [pmin Hmin];
    [simpl; tauto|].
  destruct (public_key_get Z rule_keys "port_range_max" Hkeys) as [pmax Hmax];
    [simpl; tauto|].
  assert (Esent : forall k, k <> "protocol" -> k <> "ethertype" -> k <> "security_group_id" ->
            dict_get (sent_rule Z group_id protocol) k = dict_get Z k).
  { intros k H1 H2 H3. unfold sent_rule.
    destruct (py_eq protocol (VStr "all"));
      now rewrite !dict_get_set_other by assumption. }
  assert (Eprefix : item stored "remote_ip_prefix" = Ok prefix).
  { apply Hecho. rewrite Esent by discriminate. exact Hprefix. }
  assert (Edir : item stored "direction" = Ok direction).
  { apply Hecho. rewrite Esent by discriminate. exact Hd. }
  assert (Emin : item stored "port_range_min" = Ok pmin).
  { apply Hecho. rewrite Esent by discriminate. exact Hmin. }
  assert (Emax : item stored "port_range_max" = Ok pmax).
  { apply Hecho. rewrite Esent by discriminate. exact Hmax. }
  assert (Eproto : item stored "protocol"
                   = Ok (if py_eq protocol (VStr "all") then VNone else protocol)).
  { apply Hecho. unfold sent_rule. destruct (py_eq protocol (VStr "all")).
    - apply dict_get_set_same.
    - rewrite !dict_get_set_other by discriminate. exact Hproto. }
  pose (read := if py_eq protocol (VStr "all") then VStr "all" else protocol).
  exists [("__id", id); ("protocol", read); ("remote_ip_prefix", prefix);
          ("direction", direction); ("port_range_min", pmin); ("port_range_max", pmax)].
  split; [|split].
  - unfold SecurityGroup.read_rule, bind, lift, ret.
    rewrite Hid, Eproto, Eprefix, Edir, Emin, Emax. unfold read.
    destruct (py_eq protocol (VStr "all")); simpl; rewrite ?Nproto, ?Nprefix; reflexivity.
  - reflexivity.
  - unfold SecurityGroup._compare_rule. cbv zeta.
    assert (Ek : set_eqb
                   (SecurityGroup.public_keys
                      [("__id", id); ("protocol", read); ("remote_ip_prefix", prefix);
                       ("direction", direction); ("port_range_min", pmin);
                       ("port_range_max", pmax)])
                   (SecurityGroup.public_keys Z) = true).
    { rewrite set_eqb_sym. exact Hkeys. }
    rewrite Ek. cbn [negb]. 
    change (SecurityGroup.public_keys
              [("__id", id); ("protocol", read); ("remote_ip_prefix", prefix);
               ("direction", direction); ("port_range_min", pmin);
               ("port_range_max", pmax)]) with rule_keys.
    unfold rule_keys. cbn [SecurityGroup.compare_keys dict_get String.eqb Ascii.eqb Bool.eqb].
    rewrite Hproto, Hprefix, Hd, Hmin, Hmax.
    assert (Wp : wf_value protocol = true) by (eapply wf_dict_values; eassumption).
    assert (E1 : py_eq read protocol = true).
    { unfold read. destruct (py_eq protocol (VStr "all")) eqn:E.
      - rewrite py_eq_sym; [exact E | reflexivity | exact Wp].
      - now apply py_eq_refl. }
    rewrite E1.
    rewrite (py_eq_refl prefix), (py_eq_refl direction), (py_eq_refl pmin),
      (py_eq_refl pmax) by (eapply wf_dict_values; eassumption).
    reflexivity.
Qed.

Lemma dict_get_app : forall (d more : dict) k v,
  dict_get d k = Some v -> dict_get (d ++ more)%list k = Some v.
Proof.
  induction d as [|[k0 v0] d IH]; simpl; intros more k v H; [discriminate|].
  destruct (String.eqb k0 k); [exact H | now apply IH].
Qed.

Lemma rule_sent_reads_back_on_https_rule :
  exists cur,
    SecurityGroup.read_rule https_rule_stored world_without_remote_group
      = (Ok (VDict cur), world_without_remote_group)
    /\ dict_get cur "__id" = Some (VStr "rule-z")
    /\ SecurityGroup._compare_rule (VDict cur) (VDict https_rule) = Ok true.
Proof.
  apply (rule_sent_reads_back https_rule (VStr "sg-1") (VStr "tcp") (VStr "0.0.0.0/0")
           (sent_rule https_rule (VStr "sg-1") (VStr "tcp"))
           https_rule_stored (VStr "rule-z")
           world_without_remote_group world_without_remote_group);
    try reflexivity.
  intros k v H. unfold item, subscript, https_rule_stored.
  now rewrite (dict_get_app _ _ k v H).
Defined.

(** ** The changeset *)

Lemma getattr_eq : forall r o name v w,
  nth_error (store w) r = Some o -> dict_get (obj_attrs o) name = Some v ->
  getattr r name w = (Ok v, w).
Proof. intros r o name v w Hr Hv. unfold getattr. now rewrite Hr, Hv. Qed.

Lemma diff_field_known : forall h current desired oc od w changes f cv dv,
  nth_error (store w) current = Some oc ->
  nth_error (store w) desired = Some od ->
  dict_get (obj_attrs oc) f = Some cv ->
  dict_get (obj_attrs od) f = Some dv ->
  is_none cv = false \/ is_none dv = true ->
  diff_field h current desired changes f w = (Ok (changed_field oc od changes f), w).
Proof.
  intros h current desired oc od w changes f cv dv Hc Hd Hcv Hdv Hn.
  unfold diff_field, bind.
  rewrite (getattr_eq current oc f cv w Hc Hcv), (getattr_eq desired od f dv w Hd Hdv).
  assert (E : negb (is_none dv) && is_none cv = false).
  { destruct Hn as [-> | ->]; [apply andb_false_r | reflexivity]. }
  rewrite E. unfold ret, changed_field. rewrite Hcv, Hdv. simpl.
  now destruct (py_eq cv dv).
Qed.

Lemma diff_fields_known : forall h current desired oc od w,
  nth_error (store w) current = Some oc ->
  nth_error (store w) desired = Some od ->
  forall fields changes,
  (forall f, In f fields -> exists cv dv,
     dict_get (obj_attrs oc) f = Some cv /\ dict_get (obj_attrs od) f = Some dv /\
     (is_none cv = false \/ is_none dv = true)) ->
  for_each fields changes (diff_field h current desired) w
    = (Ok (fold_left (changed_field oc od) fields changes), w).
Proof.
  intros h current desired oc od w Hc Hd fields.
  induction fields as [|f fields IH]; intros changes H; [reflexivity|].
  destruct (H f (or_introl eq_refl)) as (cv & dv & Hcv & Hdv & Hn).
  cbn [for_each fold_left]. unfold bind at 1.
  rewrite (diff_field_known h current desired oc od w changes f cv dv Hc Hd Hcv Hdv Hn).
  apply IH. intros f' Hf'. apply H. now right.
Qed.

Lemma changed_fields_get : forall oc od fields changes f cv dv,
  dict_get (obj_attrs oc) f = Some cv -> dict_get (obj_attrs od) f = Some dv ->
  dict_get (fold_left (changed_field oc od) fields changes) f =
    if mem f fields && negb (py_eq cv dv) then Some (VTuple [cv; dv])
    else dict_get changes f.
Proof.
  intros oc od fields. induction fields as [|x fields IH]; intros changes f cv dv Hcv Hdv.
  - reflexivity.
  - cbn [fold_left]. rewrite (IH _ f cv dv Hcv Hdv).
    unfold mem. cbn [existsb]. fold (mem f fields).
    destruct (mem f fields && negb (py_eq cv dv)) eqn:E.
    + apply andb_true_iff in E as [E1 E2]. rewrite E1, E2, orb_true_r. reflexivity.
    + destruct (String.eqb f x) eqn:Ex.
      * apply String.eqb_eq in Ex. subst x. unfold changed_field. rewrite Hcv, Hdv.
        destruct (py_eq cv dv); simpl; [reflexivity|].
        now rewrite dict_get_set_same.
      * assert (Hne : f <> x) by (intros ->; now rewrite String.eqb_refl in Ex).
        apply andb_false_iff in E.
        assert (E' : (false || mem f fields) && negb (py_eq cv dv) = false).
        { simpl. apply andb_false_iff. exact E. }
        rewrite E'. unfold changed_field.
        destruct (dict_get (obj_attrs oc) x) as [a|]; [|reflexivity].
        destruct (dict_get (obj_attrs od) x) as [b|]; [|reflexivity].
        destruct (py_eq a b); [reflexivity|].
        now rewrite dict_get_set_other.
Qed.

Lemma changed_fields_none : forall oc od fields,
  (forall f cv dv, In f fields -> dict_get (obj_attrs oc) f = Some cv ->
     dict_get (obj_attrs od) f = Some dv -> py_eq cv dv = true) ->
  fold_left (changed_field oc od) fields [] = [].
Proof.
  intros oc od fields. induction fields as [|x fields IH]; intros H; [reflexivity|].
  cbn [fold_left].
  assert (E : changed_field oc od [] x = []).
  { unfold changed_field.
    destruct (dict_get (obj_attrs oc) x) as [a|] eqn:Ea; [|reflexivity].
    destruct (dict_get (obj_attrs od) x) as [b|] eqn:Eb; [|reflexivity].
    now rewrite (H x a b (or_introl eq_refl) Ea Eb). }
  rewrite E. apply IH. intros f cv dv Hf. apply H. now right.
Qed.

(** X5.  Between two resources whose fields are all set, and none at
    [None] on the current side alone, [_diff] sends no call and returns the
    changeset of exactly the fields that differ, each with the pair of the
    current and the desired value; where no field differs the changeset is
    empty. *)
Theorem diff_of_known_values : forall h current desired oc od w,
  nth_error (store w) current = Some oc ->
  nth_error (store w) desired = Some od ->
  (forall f, In f (obj_fields od) -> exists cv dv,
     dict_get (obj_attrs oc) f = Some cv /\ dict_get (obj_attrs od) f = Some dv /\
     (is_none cv = false \/ is_none dv = true)) ->
  exists changes,
    _diff h current desired w = (Ok (VDict changes), w)
    /\ (forall f cv dv, In f (obj_fields od) ->
          dict_get (obj_attrs oc) f = Some cv -> dict_get (obj_attrs od) f = Some dv ->
          dict_get changes f = if py_eq cv dv then None else Some (VTuple [cv; dv]))
    /\ ((forall f cv dv, In f (obj_fields od) ->
           dict_get (obj_attrs oc) f = Some cv -> dict_get (obj_attrs od) f = Some dv ->
           py_eq cv dv = true) -> changes = []).
Proof.
  intros h current desired oc od w Hc Hd H.
  exists (fold_left (changed_field oc od) (obj_fields od) []).
  split; [|split].
  - unfold _diff, class_fields, bind. rewrite Hd. cbv beta iota.
    pose proof (diff_fields_known h current desired oc od w Hc Hd (obj_fields od) [] H)
      as E.
    match goal with
    | |- (let (r, s') := ?c in _) = _ =>
        replace c with (Ok (fold_left (changed_field oc od) (obj_fields od) []), w)
          by (symmetry; exact E)
    end.
    reflexivity.
  - intros f cv dv Hf Hcv Hdv.
    rewrite (changed_fields_get oc od (obj_fields od) [] f cv dv Hcv Hdv).
    apply mem_In in Hf. rewrite Hf. simpl. now destruct (py_eq cv dv).
  - apply changed_fields_none.
Qed.

Lemma diff_of_known_values_on_groups :
  fst (_diff SecurityGroupHandler 1 0 world_of_two_groups)
    = Ok (VDict [("description", VTuple [VStr "web"; VStr "web servers"]);
                 ("rules", VTuple [VList []; VList [VDict ssh_rule]])])
  /\ exists changes,
       _diff SecurityGroupHandler 1 0 world_of_two_groups
         = (Ok (VDict changes), world_of_two_groups)
       /\ (forall f cv dv, In f (obj_fields group_resource) ->
             dict_get (obj_attrs group_found) f = Some cv ->
             dict_get (obj_attrs group_resource) f = Some dv ->
             dict_get changes f = if py_eq cv dv then None else Some (VTuple [cv; dv]))
       /\ ((forall f cv dv, In f (obj_fields group_resource) ->
              dict_get (obj_attrs group_found) f = Some cv ->
              dict_get (obj_attrs group_resource) f = Some dv ->
              py_eq cv dv = true) -> changes = []).
Proof.
  split; [reflexivity|].
  apply (diff_of_known_values SecurityGroupHandler 1 0 group_found group_resource
           world_of_two_groups eq_refl eq_refl).
  intros f Hf. simpl in Hf.
  repeat (destruct Hf as [<- | Hf];
          [eexists; eexists; split; [reflexivity | split; [reflexivity | now left]]|]).
  contradiction.
Defined.

Lemma yields_bind_with : forall A B (P : A -> Prop) (Q : B -> Prop) (c : M A) (k : A -> M B),
  yields P c -> (forall a, P a -> yields Q (k a)) -> yields Q (bind c k).
Proof.
  intros A B P Q c k Hc Hk w b. unfold bind.
  destruct (c w) as [[a | e] w1] eqn:E; [|discriminate].
  apply Hk. apply (Hc w). now rewrite E.
Qed.

Lemma yields_for_each : forall X A (P : A -> Prop) (l : list X) (body : A -> X -> M A) acc,
  P acc -> (forall acc x, In x l -> P acc -> yields P (body acc x)) ->
  yields P (for_each l acc body).
Proof.
  intros X A P l body. induction l as [|x l IH]; intros acc Hacc H.
  - now apply yields_ret.
  - cbn [for_each]. apply yields_bind_with with (P := P).
    + apply H; [now left | exact Hacc].
    + intros acc' Hacc'. apply IH; [exact Hacc'|].
      intros a y Hy. apply H. now right.
Qed.

(** X6.  Whatever the resources and the remote side, a changeset that
    [_diff] returns is a dictionary whose keys are fields of the class of
    the desired resource and whose values are pairs of two values that
    differ. *)
Theorem diff_entries_differ : forall h current desired w changes,
  fst (_diff h current desired w) = Ok changes ->
  exists d fields,
    changes = VDict d
    /\ fst (class_fields desired w) = Ok fields
    /\ forall f e, dict_get d f = Some e ->
         In f fields /\ exists a b, e = VTuple [a; b] /\ py_eq a b = false.
Proof.
  intros h current desired w changes H.
  unfold _diff in H. unfold bind at 1 in H.
  destruct (class_fields desired w) as [[fields | e] w1] eqn:Ef; [|discriminate].
  pose (P := fun d : dict => forall f e, dict_get d f = Some e ->
               In f fields /\ exists a b, e = VTuple [a; b] /\ py_eq a b = false).
  assert (Hy : yields P (for_each fields [] (diff_field h current desired))).
  { apply yields_for_each.
    - intros f e Hf. discriminate.
    - intros acc x Hx Hacc. unfold diff_field.
      apply yields_bind; intros cv. apply yields_bind; intros dv.
      apply yields_bind; intros cd.
      destruct (py_eq (fst cd) (snd cd)) eqn:E; simpl; apply yields_ret; [exact Hacc|].
      intros f e Hf. destruct (String.eqb f x) eqn:Ex.
      + apply String.eqb_eq in Ex. subst x. rewrite dict_get_set_same in Hf.
        inversion Hf; subst. split; [exact Hx|]. now exists (fst cd), (snd cd).
      + rewrite dict_get_set_other in Hf; [now apply Hacc|].
        intros ->. now rewrite String.eqb_refl in Ex. }
  unfold bind in H.
  destruct (for_each fields [] (diff_field h current desired) w1) as [[d | e] w2] eqn:Ed;
    [|discriminate].
  simpl in H. inversion H; subst. exists d, fields. split; [reflexivity|].
  split; [reflexivity|]. apply (Hy w1). now rewrite Ed.
Qed.

Lemma diff_entries_differ_on_groups :
  fst (_diff SecurityGroupHandler 1 0 world_of_two_groups)
    = Ok (VDict [("description", VTuple [VStr "web"; VStr "web servers"]);
                 ("rules", VTuple [VList []; VList [VDict ssh_rule]])])
  /\ exists d fields,
       VDict [("description", VTuple [VStr "web"; VStr "web servers"]);
              ("rules", VTuple [VList []; VList [VDict ssh_rule]])] = VDict d
       /\ fst (class_fields 0 world_of_two_groups) = Ok fields
       /\ forall f e, dict_get d f = Some e ->
            In f fields /\ exists a b, e = VTuple [a; b] /\ py_eq a b = false.
Proof.
  split; [reflexivity|].
  apply (diff_entries_differ SecurityGroupHandler 1 0 world_of_two_groups). reflexivity.
Defined.

(* ================================================================== *)
(** * Further properties of the dependency managers *)
(* ================================================================== *)

Lemma extends_refl : forall m, extends m m.
Proof.
  intros m. split; [reflexivity|]. intros i e e' H H'.
  rewrite H in H'. inversion H'; subst. split; [apply incl_refl | auto].
Qed.

Lemma extends_trans : forall m1 m2 m3, extends m1 m2 -> extends m2 m3 -> extends m1 m3.
Proof.
  intros m1 m2 m3 [E1 H1] [E2 H2]. split; [congruence|].
  intros i e e'' He He''.
  destruct (nth_error m2 i) as [e'|] eqn:He'.
  - destruct (H1 i e e' He He') as [I1 N1]. destruct (H2 i e' e'' He' He'') as [I2 N2].
    split; [eapply incl_tran; eassumption | auto].
  - exfalso. apply nth_error_None in He'. apply nth_error_lt in He.
    rewrite <- (length_map res m2), E1, length_map in He'. lia.
Qed.

Lemma extends_edge : forall m m' i j, extends m m' -> edge m i j -> edge m' i j.
Proof.
  intros m m' i j [E H] [e [He Hj]].
  destruct (nth_error m' i) as [e'|] eqn:He'.
  - exists e'. split; [exact He'|]. now apply (H i e e' He He').
  - exfalso. apply nth_error_None in He'. apply nth_error_lt in He.
    rewrite <- (length_map res m'), E, length_map in He'. lia.
Qed.

Lemma extending_ret : forall A (a : A), extending (ret a).
Proof. intros A a m. apply extends_refl. Qed.

Lemma extending_raise : forall A e, extending (@raise model A e).
Proof. intros A e m. apply extends_refl. Qed.

Lemma extending_bind : forall A B (c : ST model A) (k : A -> ST model B),
  extending c -> (forall a, extending (k a)) -> extending (bind c k).
Proof.
  intros A B c k Hc Hk m. unfold bind.
  specialize (Hc m). destruct (c m) as [[a | e] m1]; simpl in *.
  - eapply extends_trans; [exact Hc | apply Hk].
  - exact Hc.
Qed.

Lemma extending_for_ : forall X (l : list X) (body : X -> ST model unit),
  (forall x, extending (body x)) -> extending (for_ l body).
Proof.
  intros X l body H. unfold for_. generalize tt.
  induction l as [|x l IH]; simpl; intros u.
  - apply extending_ret.
  - apply extending_bind; [apply H | intros a; apply IH].
Qed.

Lemma set_add_NoDup : forall j l, NoDup l -> NoDup (set_add j l).
Proof.
  intros j l H. unfold set_add. destruct (existsb (Nat.eqb j) l) eqn:E; [exact H|].
  apply (Permutation_NoDup (Permutation_cons_append l j)).
  constructor; [|exact H]. intros Hin.
  assert (Ex : existsb (Nat.eqb j) l = true).
  { apply existsb_exists. exists j. split; [exact Hin | apply Nat.eqb_refl]. }
  congruence.
Qed.

Lemma extending_add_requires : forall i j, extending (add_requires i j).
Proof.
  intros i j m. unfold add_requires. simpl. split; [apply map_res_update|].
  intros k e e' He He'. rewrite nth_error_update_nth in He'.
  destruct (Nat.eqb k i).
  - rewrite He in He'. simpl in He'. inversion He'; subst. simpl. split.
    + intros x Hx. apply set_add_In. now right.
    + apply set_add_NoDup.
  - rewrite He in He'. inversion He'; subst. split; [apply incl_refl | auto].
Qed.

Lemma extending_table_find : forall t k, extending (@table_find model t k).
Proof.
  intros t k. unfold table_find.
  destruct (table_get t k); [apply extending_ret | apply extending_raise].
Qed.

Ltac ext :=
  repeat first
    [ apply extending_ret
    | apply extending_raise
    | apply extending_add_requires
    | apply extending_table_find
    | apply extending_bind; [| intros ?]
    | apply extending_for_; intros ?
    | match goal with
      | |- extending (if ?b then _ else _) => destruct b
      | |- extending (match ?x with _ => _ end) => destruct x
      end ].

Lemma extending_network_requires : forall t o, extending (network_requires t o).
Proof. intros t o. unfold network_requires. ext. Qed.

Lemma extending_router_requires : forall t o, extending (router_requires t o).
Proof. intros t o. unfold router_requires. ext. Qed.

Lemma extending_subnet_requires : forall t o, extending (subnet_requires t o).
Proof. intros t o. unfold subnet_requires. ext. Qed.

Lemma extending_vm_requires : forall t o, extending (vm_requires t o).
Proof. intros t o. unfold vm_requires. ext. Qed.

Lemma extending_port_requires : forall t o, extending (port_requires t o).
Proof. intros t o. unfold port_requires. ext. Qed.

Lemma extending_fip_requires : forall t o, extending (fip_requires t o).
Proof. intros t o. unfold fip_requires. ext. Qed.

Lemma extending_role_requires : forall P U o, extending (role_requires P U o).
Proof. intros P U o. unfold role_requires. ext. Qed.

Lemma extends_openstack_dependencies : forall m,
  extends m (snd (openstack_dependencies m)).
Proof.
  intros m. unfold openstack_dependencies.
  match goal with
  | |- extends _ (snd (?c m)) => assert (H : extending c); [| exact (H m)]
  end.
  repeat (apply extending_bind; [| intros _]);
    apply extending_for_; intros o;
    first [ apply extending_network_requires | apply extending_router_requires
          | apply extending_subnet_requires | apply extending_vm_requires
          | apply extending_port_requires | apply extending_fip_requires ].
Qed.

Lemma extends_keystone_dependencies : forall m,
  extends m (snd (keystone_dependencies m)).
Proof.
  intros m. destruct (keystone_dependencies_unfold m) as (P & U & -> & _).
  apply extending_for_. intros o. apply extending_role_requires.
Qed.

(** X7.  The dependency managers only add: whether they return or raise,
    every object requires what it required before, and a set of
    requirements stays without duplicates. *)
Theorem managers_only_add : forall m i j,
  let m1 := snd (openstack_dependencies m) in
  let m2 := snd (keystone_dependencies m) in
  (edge m i j -> edge m1 i j /\ edge m2 i j)
  /\ (forall e e1 e2, nth_error m i = Some e -> NoDup (requires e) ->
        nth_error m1 i = Some e1 -> nth_error m2 i = Some e2 ->
        NoDup (requires e1) /\ NoDup (requires e2)).
Proof.
  intros m i j m1 m2.
  pose proof (extends_openstack_dependencies m) as H1.
  pose proof (extends_keystone_dependencies m) as H2.
  split.
  - intros He. split; eapply extends_edge; eassumption.
  - intros e e1 e2 He Hn He1 He2. split.
    + now apply (proj2 H1 i e e1 He He1).
    + now apply (proj2 H2 i e e2 He He2).
Qed.

(** ** What a loop of a manager has done when it returns *)

Lemma for_reaches : forall X (body : X -> ST model unit) l x m m',
  (forall y, extending (body y)) -> In x l ->
  for_ l body m = (Ok tt, m') ->
  exists m1 m2, extends m m1 /\ body x m1 = (Ok tt, m2) /\ extends m2 m'.
Proof.
  intros X body l x m m' Hb. unfold for_. revert m.
  induction l as [|y l IH]; intros m Hin H; [contradiction|].
  cbn [for_each] in H. unfold bind in H.
  destruct (body y m) as [[[] | e] ma] eqn:Ey; [|discriminate].
  destruct Hin as [-> | Hin].
  - exists m, ma. split; [apply extends_refl|]. split; [exact Ey|].
    pose proof (extending_for_ X l body Hb ma) as Hl. unfold for_ in Hl.
    now rewrite H in Hl.
  - destruct (IH ma Hin H) as (m1 & m2 & E1 & E2 & E3).
    exists m1, m2. split; [|auto].
    eapply extends_trans; [|exact E1]. pose proof (Hb y m) as Hy. now rewrite Ey in Hy.
Qed.

Lemma edge_add_requires : forall m i j,
  i < List.length m -> edge (snd (add_requires i j m)) i j.
Proof.
  intros m i j Hi. unfold add_requires, edge. simpl.
  destruct (nth_error m i) as [e|] eqn:He; [|apply nth_error_None in He; lia].
  exists (mkEntry (res e) (set_add j (requires e))). split.
  - rewrite nth_error_update_nth, Nat.eqb_refl, He. reflexivity.
  - simpl. apply set_add_In. now left.
Qed.

Lemma nth_objects : forall m i r,
  nth_error (map res m) i = Some r -> In (i, r) (objects m).
Proof.
  intros m i r. unfold objects. rewrite <- (length_map res m).
  generalize (map res m) as l. intros l.
  assert (G : forall n i, nth_error l i = Some r ->
                          In (n + i, r) (combine (seq n (List.length l)) l)).
  { induction l as [|x l IH]; intros n k H; [now destruct k|].
    destruct k as [|k]; simpl in *.
    - inversion H; subst. left. now rewrite Nat.add_0_r.
    - right. replace (n + S k) with (S n + k) by lia. now apply IH. }
  intros H. exact (G 0 i H).
Qed.

Lemma table_get_values : forall t k v, table_get t k = Some v -> In v (table_values t).
Proof.
  intros t k v H. apply table_get_In in H. unfold table_values.
  now apply (in_map snd) in H.
Qed.

(** The dictionary of the subnets holds, under a name, the subnet of that
    name when there is one only. *)
Lemma subnets_keep_key : forall l t s,
  table_get (subnets t) s <> None ->
  table_get (subnets (fold_left classify l t)) s <> None.
Proof.
  induction l as [|[i r] l IH]; intros t s H; [exact H|].
  cbn [fold_left]. apply IH.
  destruct r; simpl; try exact H.
  rewrite table_get_set. now destruct (String.eqb name s).
Qed.

Lemma subnets_hold : forall l t i s p n,
  In (i, Subnet s p n) l -> table_get (subnets (fold_left classify l t)) s <> None.
Proof.
  induction l as [|o l IH]; intros t i s p n H; [contradiction|].
  cbn [fold_left]. destruct H as [-> | H].
  - apply subnets_keep_key. simpl. rewrite table_get_set, String.eqb_refl. discriminate.
  - now apply (IH _ i s p n).
Qed.

Lemma subnet_in_table : forall m i s p n,
  nth_error (map res m) i = Some (Subnet s p n) ->
  (forall i' p' n', nth_error (map res m) i' = Some (Subnet s p' n') -> i' = i) ->
  table_get (subnets (fold_left classify (objects m) no_tables)) s
    = Some (i, Subnet s p n).
Proof.
  intros m i s p n Hi Huniq.
  pose proof (subnets_hold (objects m) no_tables i s p n (nth_objects m i _ Hi)) as Hne.
  destruct (table_get (subnets (fold_left classify (objects m) no_tables)) s)
    as [[i' r']|] eqn:E; [|congruence].
  destruct (tables_of_model m) as (_ & _ & _ & Hs & _).
  destruct (Hs s i' r' (table_get_In _ _ _ E)) as [Hn Hk].
  red in Hk. destruct Hk as (p' & n' & ->).
  pose proof (Huniq i' p' n' Hn) as ->. rewrite Hi in Hn. now inversion Hn.
Qed.

Lemma extends_length : forall m m', extends m m' -> List.length m' = List.length m.
Proof.
  intros m m' [E _]. now rewrite <- (length_map res m'), E, length_map.
Qed.

Lemma subnet_edges : forall m m' i s p n,
  openstack_dependencies m = (Ok tt, m') ->
  nth_error (map res m) i = Some (Subnet s p n) ->
  (forall i' p' n', nth_error (map res m) i' = Some (Subnet s p' n') -> i' = i) ->
  exists jp jn np,
    nth_error (map res m) jp = Some (Project p)
    /\ nth_error (map res m) jn = Some (Network n np)
    /\ edge m' i jp /\ edge m' i jn.
Proof.
  intros m m' i s p n H Hi Huniq.
  pose proof (subnet_in_table m i s p n Hi Huniq) as Ht.
  pose proof (tables_of_model m) as (Tp & Tn & _).
  unfold openstack_dependencies in H. cbv zeta in H.
  set (t := fold_left classify (objects m) no_tables) in *.
  unfold bind at 1 in H.
  destruct (for_ (table_values (networks t)) (network_requires t) m)
    as [[[] | e] m1] eqn:E1; [|discriminate].
  unfold bind at 1 in H.
  destruct (for_ (table_values (routers t)) (router_requires t) m1)
    as [[[] | e] m2] eqn:E2; [|discriminate].
  unfold bind at 1 in H.
  destruct (for_ (table_values (subnets t)) (subnet_requires t) m2)
    as [[[] | e] m3] eqn:E3; [|discriminate].
  unfold bind at 1 in H.
  destruct (for_ (table_values (vms t)) (vm_requires t) m3)
    as [[[] | e] m4] eqn:E4; [|discriminate].
  unfold bind at 1 in H.
  destruct (for_ (table_values (ports t)) (port_requires t) m4)
    as [[[] | e] m5] eqn:E5; [|discriminate].
  assert (X1 : extends m m1).
  { pose proof (extending_for_ _ (table_values (networks t)) _ (extending_network_requires t) m) as X.
    now rewrite E1 in X. }
  assert (X2 : extends m1 m2).
  { pose proof (extending_for_ _ (table_values (routers t)) _ (extending_router_requires t) m1) as X.
    now rewrite E2 in X. }
  assert (X4 : extends m3 m4).
  { pose proof (extending_for_ _ (table_values (vms t)) _ (extending_vm_requires t) m3) as X.
    now rewrite E4 in X. }
  assert (X5 : extends m4 m5).
  { pose proof (extending_for_ _ (table_values (ports t)) _ (extending_port_requires t) m4) as X.
    now rewrite E5 in X. }
  assert (X6 : extends m5 m').
  { pose proof (extending_for_ _ (table_values (fips t)) _ (extending_fip_requires t) m5) as X.
    now rewrite H in X. }
  destruct (for_reaches _ (subnet_requires t) _ (i, Subnet s p n) m2 m3
              (extending_subnet_requires t) (table_get_values _ _ _ Ht) E3)
    as (ma & mb & Xa & Eb & Xb).
  assert (Hlen : i < List.length ma).
  { rewrite (extends_length _ _ Xa), (extends_length _ _ X2), (extends_length _ _ X1).
    apply nth_error_lt in Hi. now rewrite length_map in Hi. }
  unfold subnet_requires, table_find, bind in Eb.
  destruct (table_get (projects t) p) as [[jp rp]|] eqn:Gp; [|discriminate].
  destruct (table_get (networks t) n) as [[jn rn]|] eqn:Gn; [|discriminate].
  simpl in Eb. inversion Eb as [Emb]. clear Eb.
  destruct (Tp p jp rp (table_get_In _ _ _ Gp)) as [Hjp Kp]. red in Kp. subst rp.
  destruct (Tn n jn rn (table_get_In _ _ _ Gn)) as [Hjn Kn]. red in Kn.
  destruct Kn as [np ->].
  exists jp, jn, np. split; [exact Hjp|]. split; [exact Hjn|].
  assert (Xend : extends mb m').
  { eapply extends_trans; [exact Xb|]. eapply extends_trans; [exact X4|].
    eapply extends_trans; [exact X5 | exact X6]. }
  pose proof (edge_add_requires ma i jp Hlen) as Ep.
  set (mp := snd (add_requires i jp ma)) in *.
  assert (Hlen' : i < List.length mp).
  { unfold mp. rewrite (extends_length _ _ (extending_add_requires i jp ma)). exact Hlen. }
  pose proof (edge_add_requires mp i jn Hlen') as En.
  pose proof (extends_edge _ _ i jp (extending_add_requires i jn mp) Ep) as Ep'.
  assert (Emb' : snd (add_requires i jn mp) = mb) by exact Emb.
  rewrite Emb' in En, Ep'.
  split; eapply extends_edge; eassumption.
Qed.

(** X8.  When [openstack_dependencies] returns, a subnet, the only one of
    its name, requires a project of the name of its project and a network
    of the name of its network, both objects of the model. *)
Theorem subnet_requires_project_and_network : forall m m' i s p n,
  openstack_dependencies m = (Ok tt, m') ->
  nth_error (map res m) i = Some (Subnet s p n) ->
  (forall i' p' n', nth_error (map res m) i' = Some (Subnet s p' n') -> i' = i) ->
  exists jp jn np,
    nth_error (map res m) jp = Some (Project p)
    /\ nth_error (map res m) jn = Some (Network n np)
    /\ edge m' i jp /\ edge m' i jn.
Proof. exact subnet_edges. Qed.

Lemma subnet_requires_project_and_network_on_scenario :
  let m := scenario_model "p1" "n1" "s1" [] [] [] in
  exists jp jn np,
    nth_error (map res m) jp = Some (Project "p1")
    /\ nth_error (map res m) jn = Some (Network "n1" np)
    /\ edge (snd (openstack_dependencies m)) 2 jp
    /\ edge (snd (openstack_dependencies m)) 2 jn.
Proof.
  apply (subnet_requires_project_and_network
           (scenario_model "p1" "n1" "s1" [] [] [])
           (snd (openstack_dependencies (scenario_model "p1" "n1" "s1" [] [] [])))
           2 "s1" "p1" "n1"); try reflexivity.
  intros i' p' n' H.
  destruct i' as [|[|[|i']]]; simpl in H; try discriminate; try reflexivity.
  now destruct i'.
Defined.

(** ** The exceptions of [openstack_dependencies] *)

Lemma raising_ret : forall A P (a : A), raising P (ret a).
Proof. intros A P a m e H. discriminate. Qed.

Lemma raising_bind : forall A B P (c : ST model A) (k : A -> ST model B),
  raising P c -> (forall a, raising P (k a)) -> raising P (bind c k).
Proof.
  intros A B P c k Hc Hk m e. unfold bind.
  specialize (Hc m). destruct (c m) as [[a | e'] m1]; simpl in *.
  - apply Hk.
  - intros H. apply Hc. now inversion H.
Qed.

Lemma raising_for_ : forall X P (l : list X) (body : X -> ST model unit),
  (forall x, raising P (body x)) -> raising P (for_ l body).
Proof.
  intros X P l body H. unfold for_. generalize tt.
  induction l as [|x l IH]; simpl; intros u.
  - apply raising_ret.
  - apply raising_bind; [apply H | intros a; apply IH].
Qed.

Lemma raising_add_requires : forall P i j, raising P (add_requires i j).
Proof. intros P i j m e H. discriminate. Qed.

Lemma raising_table_find : forall t k, raising is_KeyError (@table_find model t k).
Proof.
  intros t k m e. unfold table_find.
  destruct (table_get t k); simpl; intros H; [discriminate|].
  inversion H. now exists k.
Qed.

Ltac only_key_errors :=
  repeat first
    [ apply raising_ret
    | apply raising_add_requires
    | apply raising_table_find
    | apply raising_bind; [| intros ?]
    | apply raising_for_; intros ?
    | match goal with
      | |- raising _ (if ?b then _ else _) => destruct b
      | |- raising _ (match ?x with _ => _ end) => destruct x
      end ].

Lemma openstack_dependencies_raising : forall m e,
  fst (openstack_dependencies m) = Raise e -> is_KeyError e.
Proof.
  intros m. unfold openstack_dependencies.
  match goal with
  | |- forall e, fst (?c m) = Raise e -> _ =>
      assert (H : raising is_KeyError c); [| exact (H m)]
  end.
  repeat (apply raising_bind; [| intros _]); apply raising_for_; intros o;
    unfold network_requires, router_requires, subnet_requires, vm_requires,
      port_requires, fip_requires; only_key_errors.
Qed.

(** X9.  The only exception of [openstack_dependencies] is [KeyError], and
    a subnet, the only one of its name, whose project or whose network is
    not declared makes it raise one. *)
Theorem undeclared_reference_of_subnet : forall m i s p n,
  nth_error (map res m) i = Some (Subnet s p n) ->
  (forall i' p' n', nth_error (map res m) i' = Some (Subnet s p' n') -> i' = i) ->
  ~ In (Project p) (map res m) \/ (forall np, ~ In (Network n np) (map res m)) ->
  (forall e, fst (openstack_dependencies m) = Raise e -> is_KeyError e)
  /\ exists k, fst (openstack_dependencies m) = Raise (KeyError k).
Proof.
  intros m i s p n Hi Huniq Hmiss. split; [apply openstack_dependencies_raising|].
  destruct (openstack_dependencies m) as [[[] | e] m'] eqn:E.
  - exfalso.
    destruct (subnet_edges m m' i s p n E Hi Huniq) as (jp & jn & np & Hp & Hn & _).
    destruct Hmiss as [Hmiss | Hmiss].
    + apply Hmiss. eapply nth_error_In; eassumption.
    + apply (Hmiss np). eapply nth_error_In; eassumption.
  - pose proof (openstack_dependencies_raising m e) as H. rewrite E in H.
    destruct (H eq_refl) as [k ->]. now exists k.
Qed.

Lemma undeclared_reference_of_lone_subnet :
  (forall e, fst (openstack_dependencies lone_subnet) = Raise e -> is_KeyError e)
  /\ exists k, fst (openstack_dependencies lone_subnet) = Raise (KeyError k).
Proof.
  apply (undeclared_reference_of_subnet lone_subnet 0 "s1" "p1" "n1").
  - reflexivity.
  - intros i' p' n' H. destruct i' as [|i']; [reflexivity|].
    simpl in H. now destruct i'.
  - left. simpl. intros [H | []]. discriminate.
Defined.

(** ** The roles *)

Lemma role_requires_ok : forall P U i rid p u m,
  table_has P p = true -> table_has U u = true ->
  exists jp rp ju ru,
    table_get P p = Some (jp, rp) /\ table_get U u = Some (ju, ru)
    /\ role_requires P U (i, Role rid p u) m
       = (Ok tt, snd (add_requires i ju (snd (add_requires i jp m)))).
Proof.
  intros P U i rid p u m HP HU. unfold role_requires. rewrite HP, HU. simpl.
  unfold table_has in HP, HU. unfold table_find, bind.
  destruct (table_get P p) as [[jp rp]|]; [|discriminate].
  destruct (table_get U u) as [[ju ru]|]; [|discriminate].
  exists jp, rp, ju, ru. auto.
Qed.

(** X10.  When the project and the user of every role are declared,
    [keystone_dependencies] returns, and every role then requires a
    project of the name of its project and a user of the name of its
    user. *)
Theorem roles_require_project_and_user : forall m,
  (forall rid p u, In (Role rid p u) (map res m) ->
     In (Project p) (map res m) /\ In (User u) (map res m)) ->
  exists m',
    keystone_dependencies m = (Ok tt, m')
    /\ forall i rid p u, nth_error (map res m) i = Some (Role rid p u) ->
         exists jp ju,
           nth_error (map res m) jp = Some (Project p)
           /\ nth_error (map res m) ju = Some (User u)
           /\ edge m' i jp /\ edge m' i ju.
Proof.
  intros m Hdecl.
  destruct (keystone_dependencies_unfold m) as (P & U & E & HP & HU & TP & TU).
  rewrite E.
  assert (Hrole : forall i rid p u, In (i, Role rid p u) (objects m) ->
            table_has P p = true /\ table_has U u = true).
  { intros i rid p u Hin. apply objects_In in Hin. apply nth_error_In in Hin.
    destruct (Hdecl rid p u Hin) as [Hp Hu]. split.
    - apply HP. now apply In_objects.
    - apply HU. now apply In_objects. }
  assert (Hok : fst (for_ (filter is_role (objects m)) (role_requires P U) m) = Ok tt).
  { apply for_ok. intros [i r] s Hx. apply filter_In in Hx as [Hin Hr].
    destruct r; try discriminate Hr.
    destruct (Hrole _ _ _ _ Hin) as [Hp Hu].
    destruct (role_requires_ok P U i role_id project user s Hp Hu)
      as (jp & rp & ju & ru & _ & _ & ->). reflexivity. }
  destruct (for_ (filter is_role (objects m)) (role_requires P U) m) as [r m'] eqn:El.
  simpl in Hok. subst r. exists m'. split; [reflexivity|].
  intros i rid p u Hi.
  assert (Hin : In (i, Role rid p u) (filter is_role (objects m))).
  { apply filter_In. split; [now apply nth_objects | reflexivity]. }
  destruct (for_reaches _ (role_requires P U) _ _ m m' (extending_role_requires P U) Hin El)
    as (ma & mb & Xa & Eb & Xb).
  destruct (Hrole i rid p u (nth_objects m i _ Hi)) as [Hp Hu].
  destruct (role_requires_ok P U i rid p u ma Hp Hu)
    as (jp & rp & ju & ru & Gp & Gu & Er).
  rewrite Er in Eb. inversion Eb as [Emb]. clear Eb.
  destruct (TP p jp rp (table_get_In _ _ _ Gp)) as [Hjp Kp]. red in Kp. subst rp.
  destruct (TU u ju ru (table_get_In _ _ _ Gu)) as [Hju Ku]. red in Ku. subst ru.
  exists jp, ju. split; [exact Hjp|]. split; [exact Hju|].
  assert (Hlen : i < List.length ma).
  { rewrite (extends_length _ _ Xa). apply nth_error_lt in Hi.
    now rewrite length_map in Hi. }
  pose proof (edge_add_requires ma i jp Hlen) as Ep.
  set (mp := snd (add_requires i jp ma)) in *.
  assert (Hlen' : i < List.length mp).
  { unfold mp. rewrite (extends_length _ _ (extending_add_requires i jp ma)). exact Hlen. }
  pose proof (edge_add_requires mp i ju Hlen') as Eu.
  pose proof (extends_edge _ _ i jp (extending_add_requires i ju mp) Ep) as Ep'.
  assert (Emb' : snd (add_requires i ju mp) = mb) by exact Emb.
  rewrite Emb' in Eu, Ep'.
  split; eapply extends_edge; eassumption.
Qed.

Lemma roles_require_project_and_user_on_role_model :
  exists m',
    keystone_dependencies role_model = (Ok tt, m')
    /\ forall i rid p u, nth_error (map res role_model) i = Some (Role rid p u) ->
         exists jp ju,
           nth_error (map res role_model) jp = Some (Project p)
           /\ nth_error (map res role_model) ju = Some (User u)
           /\ edge m' i jp /\ edge m' i ju.
Proof.
  apply (roles_require_project_and_user role_model).
  intros rid p u H. simpl in H.
  destruct H as [H | [H | [H | []]]]; try discriminate.
  inversion H; subst. simpl. auto.
Defined.

(* ================================================================== *)
(** * Further properties of [do_changes] *)
(* ================================================================== *)

Lemma lookups_and_extra : forall extra name,
  In name extra -> lookups_and extra name = true.
Proof.
  intros extra name H. unfold lookups_and. apply mem_In in H. rewrite H.
  apply orb_true_r.
Qed.

(** X11.  Whatever the changeset, the resource and the remote side, and
    whether it returns or raises, [do_changes] of a handler sends, besides
    lookups, only the calls that change its own kind of resource: the
    router port handler creates a port and attaches it and never updates
    or deletes one, the subnet handler sends calls on subnets only, and so
    on for each handler. *)
Theorem changes_stay_with_the_handler : forall h strict resource changes w,
  exists l, issued w (snd (do_changes h strict resource changes w)) l
            /\ Forall (fun c => is_lookup c = true \/ In (meth c) (own_calls h)) l.
Proof.
  intros h strict resource changes w. apply within_lookups_and.
  apply (do_changes_respects (fun _ : world => True)
           (calls_within (lookups_and (own_calls h)))
           (calls_within_refl _) (calls_within_trans _) (fun _ _ _ _ => I)
           (lookups_and (own_calls h)) (calls_within_call _)
           (lookups_and_lookup (own_calls h))
           h strict resource changes (lookups_and_extra (own_calls h)) w I).
Qed.

(** X12.  [do_changes] of the security group handler returns for a
    changeset with the key ["purged"] only, and then returns [True]: on
    any other changeset the variable [changed] is not bound when it is
    returned, and the operation, whatever it has sent, ends in an
    exception. *)
Theorem group_changes_return : forall resource changes w v,
  fst (SecurityGroup.do_changes resource changes w) = Ok v ->
  has_key "purged" changes = Ok true /\ v = VBool true.
Proof.
  intros resource changes w v. unfold SecurityGroup.do_changes.
  unfold bind at 1, lift at 1.
  destruct (has_key "purged" changes) as [[|] | e]; [| |discriminate]; cbv beta iota.
  - intros H. split; [reflexivity|]. revert H.
    match goal with
    | |- fst (?c w) = Ok v -> _ =>
        assert (Hy : yields (fun v => v = VBool true) c); [| exact (Hy w v)]
    end.
    apply yields_bind_with with (P := fun st : option bool * value => fst st = Some true).
    + yrun.
    + intros [changed sg_id] Hst. simpl in Hst. subst changed. yrun.
  - intros H. exfalso. revert H.
    match goal with
    | |- fst (?c w) = Ok v -> _ =>
        assert (Hy : yields (fun _ : value => False) c); [| exact (Hy w v)]
    end.
    apply yields_bind_with with (P := fun st : option bool * value => fst st = None).
    + yrun.
    + intros [changed sg_id] Hst. simpl in Hst. subst changed. yrun.
Qed.

Lemma group_changes_return_on_creation :
  fst (SecurityGroup.do_changes 0 create_group_with_rule world_without_group)
    = Ok (VBool true)
  /\ has_key "purged" create_group_with_rule = Ok true /\ VBool true = VBool true.
Proof.
  split; [reflexivity|].
  apply (group_changes_return 0 create_group_with_rule world_without_group (VBool true)).
  reflexivity.
Defined.

(* ================================================================== *)
(** * What the operations return *)
(* ================================================================== *)

Section Hoare.

Variable Inv : world -> Prop.
Hypothesis Inv_store : forall w w', store w' = store w -> Inv w -> Inv w'.

Lemma hoare_ret : forall A (Q : A -> Prop) a, Q a -> hoare Inv (ret a) Q.
Proof. intros A Q a H w Hw. split; [exact Hw|]. intros a' E. inversion E. now subst. Qed.

Lemma hoare_raise : forall A (Q : A -> Prop) e, hoare Inv (@raise world A e) Q.
Proof. intros A Q e w Hw. split; [exact Hw | discriminate]. Qed.

Lemma hoare_lift : forall A (Q : A -> Prop) (r : result A),
  (forall a, r = Ok a -> Q a) -> hoare Inv (lift r) Q.
Proof. intros A Q r H w Hw. split; [exact Hw|]. intros a E. now apply H. Qed.

Lemma hoare_bind : forall A B (P : A -> Prop) (Q : B -> Prop) (c : M A) (k : A -> M B),
  hoare Inv c P -> (forall a, P a -> hoare Inv (k a) Q) -> hoare Inv (bind c k) Q.
Proof.
  intros A B P Q c k Hc Hk w Hw. unfold bind.
  destruct (Hc w Hw) as [Hi Hq]. destruct (c w) as [[a | e] w1]; simpl in *.
  - apply Hk; [now apply Hq | exact Hi].
  - split; [exact Hi | discriminate].
Qed.

Lemma hoare_any : forall A (c : M A),
  (forall w, store (snd (c w)) = store w) -> hoare Inv c (fun _ => True).
Proof.
  intros A c H w Hw. split; [|auto]. eapply Inv_store; [apply H | exact Hw].
Qed.

Lemma hoare_call : forall name arguments,
  hoare Inv (client_call name arguments) (fun _ => True).
Proof. intros. apply hoare_any. reflexivity. Qed.

Lemma hoare_getattr_any : forall r field,
  hoare Inv (getattr r field) (fun _ => True).
Proof.
  intros r field. apply hoare_any. intros w. unfold getattr.
  destruct (nth_error (store w) r) as [o|]; [|reflexivity].
  now destruct (dict_get (obj_attrs o) field).
Qed.

Lemma hoare_for_each : forall X A (P : A -> Prop) (l : list X) (body : A -> X -> M A) acc,
  P acc -> (forall acc x, In x l -> P acc -> hoare Inv (body acc x) P) ->
  hoare Inv (for_each l acc body) P.
Proof.
  intros X A P l body. induction l as [|x l IH]; intros acc Hacc H.
  - now apply hoare_ret.
  - cbn [for_each]. apply hoare_bind with (P := P).
    + apply H; [now left | exact Hacc].
    + intros acc' Hacc'. apply IH; [exact Hacc'|].
      intros a y Hy. apply H. now right.
Qed.

Lemma hoare_weaken : forall A (P Q : A -> Prop) (c : M A),
  hoare Inv c P -> (forall a, P a -> Q a) -> hoare Inv c Q.
Proof.
  intros A P Q c H HPQ w Hw. destruct (H w Hw) as [Hi Hq]. split; [exact Hi|].
  intros a E. apply HPQ. now apply Hq.
Qed.

End Hoare.

(** The attribute [field] of [r] reads [v]. *)
Lemma reads_store : forall r field v w w',
  store w' = store w ->
  fst (getattr r field w) = Ok v -> fst (getattr r field w') = Ok v.
Proof. intros r field v w w' E H. now rewrite (getattr_same_store r field w w' E). Qed.

Lemma hoare_getattr : forall r field v,
  hoare (fun w => fst (getattr r field w) = Ok v) (getattr r field) (fun x => x = v).
Proof.
  intros r field v w Hw.
  assert (E : getattr r field w = (fst (getattr r field w), w)).
  { unfold getattr. destruct (nth_error (store w) r) as [o|]; [|reflexivity].
    now destruct (dict_get (obj_attrs o) field). }
  rewrite E. simpl. split; [exact Hw|]. intros a Ha. congruence.
Qed.

Lemma named_facts_named : forall method key resource name,
  hoare (fun w => fst (getattr resource "name" w) = Ok name)
    (named_facts method key resource)
    (fun v => v = VDict [] \/ exists n, item v "name" = Ok n /\ py_eq n name = true).
Proof.
  intros method key resource name.
  set (Inv := fun w : world => fst (getattr resource "name" w) = Ok name).
  assert (HI : forall w w', store w' = store w -> Inv w -> Inv w').
  { intros w w' E H. unfold Inv in *. now apply (reads_store _ _ _ w w'). }
  unfold named_facts.
  apply (hoare_bind Inv) with (P := fun _ => True); [now apply hoare_getattr_any|].
  intros name0 _.
  apply (hoare_bind Inv) with (P := fun _ => True); [now apply hoare_call|].
  intros listed _.
  apply (hoare_bind Inv) with (P := fun _ => True); [now apply hoare_lift|].
  intros present _. destruct (negb present); [apply hoare_ret; now left|].
  apply (hoare_bind Inv) with (P := fun _ => True); [now apply hoare_lift|]. intros all _.
  apply (hoare_bind Inv) with (P := fun _ => True); [now apply hoare_lift|]. intros l _.
  apply (hoare_bind Inv)
    with (P := Forall (fun x => exists n, item x "name" = Ok n /\ py_eq n name = true)).
  - apply hoare_for_each; [constructor|]. intros acc x _ Hacc.
    apply (hoare_bind Inv) with (P := fun n => item x "name" = Ok n);
      [now apply hoare_lift|].
    intros n Hn.
    apply (hoare_bind Inv) with (P := fun v => v = name); [apply hoare_getattr|].
    intros ? ->. destruct (py_eq n name) eqn:E; apply hoare_ret; [|exact Hacc].
    apply Forall_app. split; [exact Hacc|]. constructor; [|constructor]. now exists n.
  - intros filtered Hf.
    destruct (Nat.eqb (List.length filtered) 0); [apply hoare_ret; now left|].
    destruct (Nat.ltb 1 (List.length filtered)); [apply hoare_ret; now left|].
    apply hoare_lift. intros a Ha. right.
    destruct filtered as [|x rest]; [discriminate|].
    inversion Ha; subst. now inversion Hf.
Qed.

(** X13.  What [facts] of the router, subnet, router port and host port
    handlers returns is the empty mapping or an object the remote side has
    listed under the name of the resource: never an object of another
    name. *)
Theorem facts_have_the_name : forall h resource w v name,
  h = RouterHandler \/ h = SubnetHandler \/ h = RouterPortHandler \/ h = HostPortHandler ->
  fst (getattr resource "name" w) = Ok name ->
  fst (facts h resource w) = Ok v ->
  v = VDict [] \/ exists n, item v "name" = Ok n /\ py_eq n name = true.
Proof.
  intros h resource w v name Hh Hname.
  destruct Hh as [-> | [-> | [-> | ->]]]; unfold facts, Router.facts, Subnet.facts,
    RouterPort.facts, HostPort.facts;
    apply (named_facts_named _ _ resource name w Hname).
Qed.

Lemma facts_have_the_name_on_router :
  let v := VDict [("id", VStr "rt-1"); ("name", VStr "r1")] in
  fst (facts RouterHandler 0 world_with_router) = Ok v
  /\ (v = VDict [] \/ exists n, item v "name" = Ok n /\ py_eq n (VStr "r1") = true).
Proof.
  split; [reflexivity|].
  apply (facts_have_the_name RouterHandler 0 world_with_router
           (VDict [("id", VStr "rt-1"); ("name", VStr "r1")]) (VStr "r1"));
    [now left | reflexivity | reflexivity].
Defined.

(** ** Failures that are taken for an answer *)

(** X14.  [facts] of the host handler never raises: it returns a mapping,
    the empty one when anything fails on the way. *)
Theorem host_facts_return_a_mapping : forall resource w,
  exists d, fst (VM.facts resource w) = Ok (VDict d).
Proof.
  intros resource w. unfold VM.facts, catch.
  match goal with
  | |- context [match ?c w with _ => _ end] =>
      assert (Hy : yields (fun v => exists d, v = VDict d) c);
        [| destruct (c w) as [[v | e] w1] eqn:E]
  end.
  - repeat (apply yields_bind; intros ?). apply yields_ret. eauto.
  - simpl. destruct (Hy w v) as [d ->]; [now rewrite E | now exists d].
  - simpl. now exists [].
Qed.

(** X15.  The id of a project other than the tenant of the administrator
    is looked up in keystone by one call, and no failure of that call
    reaches the caller: whatever it raises, [get_project_id] returns
    [None]. *)
Theorem project_lookup_failure_is_none : forall resource name tenant w,
  fst (getattr resource "admin_tenant" w) = Ok tenant ->
  py_eq tenant name = false ->
  let c := mkCall "keystone.tenants.find" [kw [("name", name)]] in
  let out := get_project_id resource name w in
  trace (snd out) = (trace w ++ [c])%list
  /\ (exists v, fst out = Ok v)
  /\ (forall e, adapter w (trace w) c = Raise e -> fst out = Ok VNone).
Proof.
  intros resource name tenant w Ht Hne c out. unfold out.
  assert (E : getattr resource "admin_tenant" w = (Ok tenant, w)).
  { revert Ht. unfold getattr. destruct (nth_error (store w) resource) as [o|];
      [|discriminate]. destruct (dict_get (obj_attrs o) "admin_tenant"); [|discriminate].
    simpl. now intros ->. }
  set (w1 := mkWorld (store w) (trace w ++ [c])%list (adapter w)).
  assert (Eo : get_project_id resource name w =
               match adapter w (trace w) c with
               | Ok t => match attr t "id" with
                         | Ok a => (Ok a, w1)
                         | Raise _ => (Ok VNone, w1)
                         end
               | Raise _ => (Ok VNone, w1)
               end).
  { unfold get_project_id. unfold bind at 1. rewrite E, Hne.
    unfold catch, bind, client_call, lift, ret. fold c.
    destruct (adapter w (trace w) c) as [t | e]; [|reflexivity].
    now destruct (attr t "id"). }
  unfold get_project_id in Eo |- *. rewrite Eo.
  destruct (adapter w (trace w) c) as [t | e].
  - destruct (attr t "id"); simpl; (split; [reflexivity|]); split; eauto; discriminate.
  - simpl. split; [reflexivity|]. split; eauto.
Qed.

Lemma project_lookup_failure_is_none_on_router_port :
  fst (get_project_id 0 (VStr "p1") world_keystone_down) = Ok VNone.
Proof.
  apply (proj2 (proj2 (project_lookup_failure_is_none 0 (VStr "p1") (VStr "admin")
                         world_keystone_down eq_refl eq_refl)) KeystoneNotFound).
  reflexivity.
Defined.

(** ** The network interfaces of a host *)

Lemma yields_lift : forall A (Q : A -> Prop) (r : result A),
  (forall a, r = Ok a -> Q a) -> yields Q (lift r).
Proof. intros A Q r H w a E. now apply H. Qed.

Lemma insert_by_key_length : forall x l r,
  insert_by_key x l = Ok r -> List.length r = S (List.length l).
Proof.
  intros x l. induction l as [|y l IH]; simpl; intros r H.
  - now inversion H.
  - destruct (py_lt (fst y) (fst x)) as [[|]|e]; [| |discriminate].
    + destruct (insert_by_key x l) as [r'|e]; [|discriminate].
      inversion H; subst. simpl. now rewrite (IH r' eq_refl).
    + now inversion H.
Qed.

Lemma sorted_pairs_length : forall l r,
  sorted_pairs l = Ok r -> List.length r = List.length l.
Proof.
  intros l r. unfold sorted_pairs.
  destruct (sort_by_key l) as [s|e] eqn:E; [|discriminate].
  intros H. inversion H; subst. rewrite length_map. clear H. revert s E.
  induction l as [|x l IH]; simpl; intros s E.
  - now inversion E.
  - destruct (sort_by_key l) as [s'|e]; [|discriminate].
    rewrite (insert_by_key_length _ _ _ E). now rewrite (IH s' eq_refl).
Qed.

Lemma with_keys_length : forall l key r,
  VM.with_keys l key = Ok r -> List.length r = List.length l.
Proof.
  induction l as [|p l IH]; simpl; intros key r H.
  - now inversion H.
  - destruct (item p key); [|discriminate].
    destruct (VM.with_keys l key) as [r'|e] eqn:E; [|discriminate].
    inversion H; subst. simpl. now rewrite (IH key r' E).
Qed.

Lemma select_ports_filter : forall (f : Z -> bool) test l,
  (forall z, test (VInt z) = Ok (f z)) ->
  Forall (fun p => exists z, item p "index" = Ok (VInt z)) l ->
  VM.select_ports l test = Ok (filter (fun p => f (port_index p)) l).
Proof.
  intros f test l Ht H. induction H as [|p l [z Hz] _ IH]; [reflexivity|].
  simpl. unfold port_index at 1. rewrite Hz, Ht, IH. reflexivity.
Qed.

Lemma sorted_ports_length : forall (f : Z -> bool) test key l r,
  (forall z, test (VInt z) = Ok (f z)) ->
  Forall (fun p => exists z, item p "index" = Ok (VInt z)) l ->
  VM.sorted_ports l test key = Ok r ->
  List.length r = List.length (filter (fun p => f (port_index p)) l).
Proof.
  intros f test key l r Ht Hl. unfold VM.sorted_ports.
  rewrite (select_ports_filter f test l Ht Hl).
  destruct (VM.with_keys _ key) as [keyed|e] eqn:E; [|discriminate].
  intros H. rewrite (sorted_pairs_length _ _ H). now apply with_keys_length in E.
Qed.

(** *** The sort *)

Lemma py_lt_asym : forall a b, py_lt a b = Ok true -> py_lt b a = Ok false.
Proof.
  assert (HZ : forall x y : Z, (x <? y)%Z = true -> (y <? x)%Z = false).
  { intros x y H. apply Z.ltb_ge. apply Z.ltb_lt in H. lia. }
  intros a b. destruct a, b; simpl; try discriminate; intros H; inversion H as [H1];
    f_equal; try (now apply HZ).
  unfold String.ltb in *. rewrite String.compare_antisym.
  now destruct (String.compare s s0).
Qed.

Lemma insert_by_key_head : forall y x l r,
  insert_by_key x l = Ok r ->
  by_key y x -> HdRel by_key y l -> HdRel by_key y r.
Proof.
  intros y x l r H Hx Hl. destruct l as [|z l]; simpl in H.
  - inversion H. now constructor.
  - destruct (py_lt (fst z) (fst x)) as [[|]|e]; [| |discriminate].
    + destruct (insert_by_key x l) as [r'|e]; [|discriminate].
      inversion H. constructor. now inversion Hl.
    + inversion H. now constructor.
Qed.

Lemma insert_by_key_sorted : forall x l r,
  insert_by_key x l = Ok r -> Sorted by_key l ->
  Sorted by_key r /\ Permutation r (x :: l).
Proof.
  intros x l. induction l as [|y l IH]; simpl; intros r H Hs.
  - inversion H. split; [repeat constructor | apply Permutation_refl].
  - destruct (py_lt (fst y) (fst x)) as [[|]|e] eqn:E; [| |discriminate].
    + destruct (insert_by_key x l) as [r'|e] eqn:Ei; [|discriminate].
      inversion H. subst r. clear H. inversion Hs as [|? ? Hs' Hh]. subst.
      destruct (IH r' eq_refl Hs') as [S' P']. split.
      * constructor; [exact S'|].
        apply (insert_by_key_head y x l r' Ei); [|exact Hh].
        now apply py_lt_asym.
      * rewrite P'. apply perm_swap.
    + inversion H. subst r. split; [|apply Permutation_refl].
      constructor; [exact Hs|]. now constructor.
Qed.

Lemma sort_by_key_sorted : forall l r,
  sort_by_key l = Ok r -> Sorted by_key r /\ Permutation r l.
Proof.
  induction l as [|x l IH]; simpl; intros r H.
  - inversion H. split; constructor.
  - destruct (sort_by_key l) as [r'|e]; [|discriminate].
    destruct (IH r' eq_refl) as [S' P'].
    destruct (insert_by_key_sorted x r' r H S') as [S P]. split; [exact S|].
    rewrite P. now constructor.
Qed.

Lemma with_keys_spec : forall l key r,
  VM.with_keys l key = Ok r ->
  map snd r = l /\ Forall (fun kp => item (snd kp) key = Ok (fst kp)) r.
Proof.
  induction l as [|p l IH]; simpl; intros key r H.
  - inversion H. split; constructor.
  - destruct (item p key) as [k|e] eqn:Ek; [|discriminate].
    destruct (VM.with_keys l key) as [r'|e] eqn:E; [|discriminate].
    inversion H. subst r. destruct (IH key r' E) as [M F]. split.
    + simpl. now rewrite M.
    + now constructor.
Qed.

Lemma sorted_map_snd : forall key (r : list (value * value)),
  Forall (fun kp => item (snd kp) key = Ok (fst kp)) r ->
  Sorted by_key r -> Sorted (in_key_order key) (map snd r).
Proof.
  intros key r F S. induction S as [|a r S IH Hh]; simpl; [constructor|].
  inversion F as [|? ? Fa Fr]. subst. constructor; [now apply IH|].
  destruct Hh as [|b r' Hab]; simpl; constructor.
  inversion Fr as [|? ? Fb _]. subst. now exists (fst a), (fst b).
Qed.

(** What [sorted_ports] returns: the ports selected, each once, in the
    order of their keys. *)
Lemma sorted_ports_spec : forall (f : Z -> bool) test key l r,
  (forall z, test (VInt z) = Ok (f z)) ->
  Forall (fun p => exists z, item p "index" = Ok (VInt z)) l ->
  VM.sorted_ports l test key = Ok r ->
  Permutation r (filter (fun p => f (port_index p)) l)
  /\ Sorted (in_key_order key) r.
Proof.
  intros f test key l r Ht Hl. unfold VM.sorted_ports.
  rewrite (select_ports_filter f test l Ht Hl).
  destruct (VM.with_keys _ key) as [keyed|e] eqn:E; [|discriminate].
  unfold sorted_pairs. destruct (sort_by_key keyed) as [s|e] eqn:Es; [|discriminate].
  intros H. inversion H. subst r. clear H.
  destruct (with_keys_spec _ _ _ E) as [M F].
  destruct (sort_by_key_sorted _ _ Es) as [S P]. split.
  - rewrite <- M. now apply Permutation_map.
  - apply sorted_map_snd; [|exact S].
    rewrite Forall_forall in *. intros kp Hin. apply F.
    now apply (Permutation_in _ P).
Qed.

(** [sorted] keeps elements of equal keys in their order. *)
Lemma equal_keys_unordered : forall a b k,
  py_eq a k = true -> py_eq b k = true -> py_lt a b <> Ok true.
Proof.
  assert (HS : forall s, String.ltb s s = false).
  { intros s. unfold String.ltb.
    pose proof (String.compare_antisym s s) as C.
    now destruct (String.compare s s). }
  intros a b k Ha Hb.
  destruct a as [|x|x|x|x|x|x], b as [|y|y|y|y|y|y]; cbn [py_lt]; try discriminate;
    destruct k as [|z|z|z|z|z|z]; cbn [py_eq] in Ha, Hb; try discriminate;
    try (apply Z.eqb_eq in Ha); try (apply Z.eqb_eq in Hb);
    try (apply String.eqb_eq in Ha); try (apply String.eqb_eq in Hb);
    try (apply Bool.eqb_prop in Ha); try (apply Bool.eqb_prop in Hb);
    subst; intros H; inversion H as [H1];
    try (apply Z.ltb_lt in H1; lia);
    try (rewrite HS in H1; discriminate).
Qed.

Lemma insert_by_key_stable : forall k x l r,
  insert_by_key x l = Ok r ->
  filter (fun kp => py_eq (fst kp) k) r = filter (fun kp => py_eq (fst kp) k) (x :: l).
Proof.
  intros k x l. induction l as [|y l IH]; simpl; intros r H.
  - now inversion H.
  - destruct (py_lt (fst y) (fst x)) as [[|]|e] eqn:E; [| |discriminate].
    + destruct (insert_by_key x l) as [r'|e]; [|discriminate].
      inversion H. subst r. clear H. simpl. rewrite (IH r' eq_refl). simpl.
      destruct (py_eq (fst y) k) eqn:Ey; [|reflexivity].
      destruct (py_eq (fst x) k) eqn:Ex; [|reflexivity].
      now destruct (equal_keys_unordered _ _ _ Ey Ex).
    + now inversion H.
Qed.

Lemma sort_by_key_stable : forall k l r,
  sort_by_key l = Ok r ->
  filter (fun kp => py_eq (fst kp) k) r = filter (fun kp => py_eq (fst kp) k) l.
Proof.
  intros k. induction l as [|x l IH]; simpl; intros r H.
  - now inversion H.
  - destruct (sort_by_key l) as [r'|e]; [|discriminate].
    rewrite (insert_by_key_stable k x r' r H). simpl. now rewrite (IH r' eq_refl).
Qed.

Lemma filter_keyed : forall key k (r : list (value * value)),
  Forall (fun kp => item (snd kp) key = Ok (fst kp)) r ->
  filter (keyed_as key k) (map snd r)
  = map snd (filter (fun kp => py_eq (fst kp) k) r).
Proof.
  intros key k r F. induction F as [|kp r Hkp _ IH]; [reflexivity|].
  simpl. unfold keyed_as at 1. rewrite Hkp.
  destruct (py_eq (fst kp) k); simpl; now rewrite IH.
Qed.

Lemma sorted_ports_stable : forall (f : Z -> bool) test key l r k,
  (forall z, test (VInt z) = Ok (f z)) ->
  Forall (fun p => exists z, item p "index" = Ok (VInt z)) l ->
  VM.sorted_ports l test key = Ok r ->
  filter (keyed_as key k) r
  = filter (keyed_as key k) (filter (fun p => f (port_index p)) l).
Proof.
  intros f test key l r k Ht Hl. unfold VM.sorted_ports.
  rewrite (select_ports_filter f test l Ht Hl).
  destruct (VM.with_keys _ key) as [keyed|e] eqn:E; [|discriminate].
  unfold sorted_pairs. destruct (sort_by_key keyed) as [s|e] eqn:Es; [|discriminate].
  intros H. inversion H. subst r. clear H.
  destruct (with_keys_spec _ _ _ E) as [M F].
  destruct (sort_by_key_sorted _ _ Es) as [_ P].
  rewrite <- M. rewrite !filter_keyed.
  - now rewrite (sort_by_key_stable k _ _ Es).
  - exact F.
  - rewrite Forall_forall in *. intros kp Hin. apply F.
    now apply (Permutation_in _ P).
Qed.

Lemma in_index_order : forall l,
  Forall (fun p => exists z, item p "index" = Ok (VInt z)) l ->
  Sorted (in_key_order "index") l ->
  Sorted (fun p q => (port_index p <= port_index q)%Z) l.
Proof.
  intros l F S. induction S as [|a r S IH Hh]; [constructor|].
  inversion F as [|? ? [za Ha] Fr]. subst. constructor; [now apply IH|].
  destruct Hh as [|b r' (x & y & Hx & Hy & Hlt)]; constructor.
  inversion Fr as [|? ? [zb Hb] _]. subst.
  unfold port_index. rewrite Ha, Hb. rewrite Ha in Hx. rewrite Hb in Hy.
  inversion Hx. inversion Hy. subst x y. simpl in Hlt. inversion Hlt as [H1].
  apply Z.ltb_ge in H1. exact H1.
Qed.

(** *** The interfaces *)

(** The remote side stays the one it is through the lookups of an
    interface. *)
Lemma create_nic_config_adapter : forall p w,
  adapter (snd (VM._create_nic_config p w)) = adapter w.
Proof.
  intros p w.
  apply (VM_create_nic_config_respects (fun _ => True)
           (fun w w' => adapter w' = adapter w)
           (fun _ => eq_refl) (fun a b c H1 H2 => eq_trans H2 H1) (fun _ _ _ _ => I)
           (fun _ => true) (fun _ _ _ _ _ => eq_refl) (fun _ _ => eq_refl) p w I).
Qed.

(** A loop that appends, for each port it visits, the interface of the
    port. *)
Lemma nics_appended : forall l acc w r,
  fst (for_each l acc (fun nics p =>
         nic <- VM._create_nic_config p ;; ret (nics ++ [nic])%list) w) = Ok r ->
  adapter (snd (for_each l acc (fun nics p =>
             nic <- VM._create_nic_config p ;; ret (nics ++ [nic])%list) w))
  = adapter w
  /\ exists nics, r = (acc ++ nics)%list /\ Forall2 (nic_of_port w) l nics.
Proof.
  induction l as [|p l IH]; intros acc w r; cbn [for_each].
  - unfold ret. cbn [fst snd]. intros H. inversion H. split; [reflexivity|].
    exists []. rewrite app_nil_r. split; [reflexivity | constructor].
  - match goal with |- fst ?t = _ -> _ => remember t as out eqn:Eo end.
    rewrite bind_assoc_run in Eo. unfold bind at 1 in Eo.
    pose proof (create_nic_config_adapter p w) as Ha.
    destruct (VM._create_nic_config p w) as [[nic | e] w1] eqn:Ec;
      [|subst out; discriminate].
    cbn [snd] in Ha. rewrite bind_ret_run in Eo. subst out. intros H.
    destruct (IH _ _ _ H) as [Ha' (nics & -> & F)]. split; [congruence|].
    exists (nic :: nics). split; [now rewrite <- app_assoc|].
    constructor.
    + exists w. split; [reflexivity | now rewrite Ec].
    + clear - F Ha. induction F as [|q n l' ns (w2 & A2 & C2) _ IHF]; constructor.
      * exists w2. split; [congruence | exact C2].
      * exact IHF.
Qed.

(** X16.  The interfaces [_build_nic_list] gives a host, when it returns:
    first one for each port of index above 0, by ascending index, then
    one for each port of index 0, in the order of their networks; ports of
    the same index, or of the same network, keep the order they are given
    in; each interface is the one [_create_nic_config] returns for its
    port.  A port of a negative index gets none. *)
Theorem nics_of_ports : forall l w v,
  Forall (fun p => exists z, item p "index" = Ok (VInt z)) l ->
  fst (VM._build_nic_list (VList l) w) = Ok v ->
  exists sort no_sort nics,
    v = VList nics
    /\ Forall2 (nic_of_port w) (sort ++ no_sort) nics
    /\ Permutation sort (filter (fun p => (0 <? port_index p)%Z) l)
    /\ Sorted (fun p q => (port_index p <= port_index q)%Z) sort
    /\ Permutation no_sort (filter (fun p => (port_index p =? 0)%Z) l)
    /\ Sorted (in_key_order "network") no_sort
    /\ (forall k, filter (keyed_as "index" k) sort
                  = filter (keyed_as "index" k)
                      (filter (fun p => (0 <? port_index p)%Z) l))
    /\ (forall k, filter (keyed_as "network" k) no_sort
                  = filter (keyed_as "network" k)
                      (filter (fun p => (port_index p =? 0)%Z) l)).
Proof.
  intros l w v Hl H. unfold VM._build_nic_list in H.
  cbn [iterate] in H. rewrite bind_lift_ok in H.
  destruct (VM.sorted_ports l (fun i => Ok (py_eq i (VInt 0))) "network")
    as [no_sort | e] eqn:En; [|discriminate].
  rewrite bind_lift_ok in H.
  destruct (VM.sorted_ports l (fun i => py_gt i (VInt 0)) "index")
    as [sort | e] eqn:Es; [|discriminate].
  rewrite bind_lift_ok in H.
  destruct (sorted_ports_spec (fun z => (z =? 0)%Z) _ _ _ _ (fun z => eq_refl) Hl En)
    as [Pn Sn].
  destruct (sorted_ports_spec (fun z => (0 <? z)%Z) _ _ _ _ (fun z => eq_refl) Hl Es)
    as [Ps Ss].
  unfold bind at 1 in H.
  match type of H with context [for_each sort [] ?body ?w0] =>
    pose proof (nics_appended sort [] w0) as N1;
    destruct (for_each sort [] body w0) as [[first | e] w1] eqn:E1; [|discriminate]
  end.
  destruct (N1 first eq_refl) as [A1 (nics1 & -> & F1)]. clear N1. cbn [snd] in A1.
  unfold bind at 1 in H.
  match type of H with context [for_each no_sort [] ?body ?w0] =>
    pose proof (nics_appended no_sort [] w0) as N2;
    destruct (for_each no_sort [] body w0) as [[second | e] w2] eqn:E2; [|discriminate]
  end.
  destruct (N2 second eq_refl) as [A2 (nics2 & -> & F2)]. clear N2.
  unfold ret in H. cbn [fst] in H. inversion H. clear H. cbn [app].
  exists sort, no_sort, (nics1 ++ nics2)%list.
  split; [reflexivity|].
  split; [|split; [exact Ps | split; [|split; [exact Pn | split; [exact Sn | split]]]]].
  - apply Forall2_app; [exact F1|].
    clear - F2 A1. induction F2 as [|q n l' ns (w3 & A3 & C3) _ IHF]; constructor.
    + exists w3. split; [congruence | exact C3].
    + exact IHF.
  - apply in_index_order; [|exact Ss].
    rewrite Forall_forall in *. intros p Hp. apply Hl.
    apply (Permutation_in _ Ps) in Hp. now apply filter_In in Hp.
  - intros k.
    exact (sorted_ports_stable (fun z => (0 <? z)%Z) _ _ _ _ k (fun z => eq_refl) Hl Es).
  - intros k.
    exact (sorted_ports_stable (fun z => (z =? 0)%Z) _ _ _ _ k (fun z => eq_refl) Hl En).
Qed.

Lemma nics_of_three_ports :
  let v := VList [VDict [("net-id", VStr "net-1")]; VDict [("net-id", VStr "net-1")]] in
  fst (VM._build_nic_list (VList three_ports) world_with_subnet) = Ok v
  /\ exists sort no_sort nics,
       v = VList nics
       /\ Forall2 (nic_of_port world_with_subnet) (sort ++ no_sort) nics
       /\ Permutation sort [host_port "eth1" 1]
       /\ Sorted (fun p q => (port_index p <= port_index q)%Z) sort
       /\ Permutation no_sort [host_port "eth0" 0]
       /\ Sorted (in_key_order "network") no_sort
       /\ (forall k, filter (keyed_as "index" k) sort
                     = filter (keyed_as "index" k) [host_port "eth1" 1])
       /\ (forall k, filter (keyed_as "network" k) no_sort
                     = filter (keyed_as "network" k) [host_port "eth0" 0]).
Proof.
  split; [reflexivity|].
  apply (nics_of_ports three_ports world_with_subnet).
  - repeat constructor; eexists; reflexivity.
  - reflexivity.
Defined.

(* ================================================================== *)
(** * The handlers on the context of the agent *)
(* ================================================================== *)

(** ** Networks *)

Lemma network_read_context : forall ctx resource network,
  yields (fun ctx1 => exists id tenant,
            item network "id" = Ok id /\ item network "tenant_id" = Ok tenant
            /\ dict_get (ctx_values ctx1) "network_id" = Some id
            /\ dict_get (ctx_values ctx1) "project_id" = Some tenant)
    (n <- lift (py_len network) ;;
     if Nat.ltb 0 n then
       setattr resource "purged" (VBool false) ;;;
       external <- lift (item network "router:external") ;;
       setattr resource "external" external ;;;
       physical_network <- getattr resource "physical_network" ;;
       (if negb (py_eq physical_network (VStr "")) then
          v <- lift (item network "provider:physical_network") ;;
          setattr resource "physical_network" v
        else ret tt) ;;;
       network_type <- getattr resource "network_type" ;;
       (if negb (py_eq network_type (VStr "")) then
          v <- lift (item network "provider:network_type") ;;
          setattr resource "network_type" v
        else ret tt) ;;;
       segmentation_id <- getattr resource "segmentation_id" ;;
       segmented <- lift (py_gt segmentation_id (VInt 0)) ;;
       (if (segmented : bool) then
          v <- lift (item network "provider:segmentation_id") ;;
          setattr resource "segmentation_id" v
        else ret tt) ;;;
       id <- lift (item network "id") ;;
       let ctx := ctx_set ctx "network_id" id in
       tenant_id <- lift (item network "tenant_id") ;;
       let ctx := ctx_set ctx "project_id" tenant_id in
       ret ctx
     else raise ResourcePurged).
Proof.
  intros ctx resource network.
  apply yields_bind; intros n. destruct (Nat.ltb 0 n); [|apply yields_raise].
  do 10 (apply yields_bind; intros ?).
  apply yields_bind_with with (P := fun id => item network "id" = Ok id);
    [now apply yields_lift|].
  intros id Hid.
  apply yields_bind_with with (P := fun t => item network "tenant_id" = Ok t);
    [now apply yields_lift|].
  intros tenant Ht. apply yields_ret. exists id, tenant.
  split; [exact Hid|]. split; [exact Ht|]. simpl. split.
  - rewrite dict_get_set_other by discriminate. apply dict_get_set_same.
  - apply dict_get_set_same.
Qed.

(** X17.  When [read_resource] of the network handler returns, [facts]
    has found a network, and the context holds its id and its tenant: the
    [delete_resource] that follows deletes the network of that id, and the
    [update_resource] sends it the name and the [external] of the
    resource. *)
Theorem network_read_then_change : forall ctx resource changes w ctx1 w1,
  NetworkHandler.read_resource ctx resource w = (Ok ctx1, w1) ->
  exists network id tenant,
    fst (NetworkHandler.facts resource w) = Ok network
    /\ item network "id" = Ok id /\ item network "tenant_id" = Ok tenant
    /\ dict_get (ctx_values ctx1) "project_id" = Some tenant
    /\ (forall w2,
          trace (snd (NetworkHandler.delete_resource ctx1 resource w2))
          = (trace w2 ++ [mkCall "neutron.delete_network" [id]])%list)
    /\ (forall w2 name external,
          fst (getattr resource "name" w2) = Ok name ->
          fst (getattr resource "external" w2) = Ok external ->
          trace (snd (NetworkHandler.update_resource ctx1 changes resource w2))
          = (trace w2 ++ [mkCall "neutron.update_network"
                            [id; VDict [("network",
                                         VDict [("name", name);
                                                ("router:external", external)])]]])%list).
Proof.
  intros ctx resource changes w ctx1 w1 H.
  unfold NetworkHandler.read_resource in H. unfold bind at 1 in H.
  destruct (NetworkHandler.facts resource w) as [[network | e] w0] eqn:Ef; [|discriminate].
  destruct (network_read_context ctx resource network w0 ctx1)
    as (id & tenant & Hid & Ht & Gid & Gt); [exact (f_equal fst H)|].
  exists network, id, tenant. repeat (split; [assumption || reflexivity|]). split.
  - intros w2. unfold NetworkHandler.delete_resource, ctx_get. rewrite Gid.
    unfold bind, ret, client_call. simpl.
    now destruct (adapter w2 (trace w2) (mkCall "neutron.delete_network" [id])).
  - intros w2 name external Hn He.
    unfold NetworkHandler.update_resource, ctx_get. rewrite Gid.
    unfold bind at 1. unfold ret at 1. unfold bind at 1. rewrite (getattr_run _ _ _ _ Hn).
    unfold bind at 1. rewrite (getattr_run _ _ _ _ He).
    unfold bind, ret, client_call. simpl.
    match goal with
    | |- context [adapter w2 (trace w2) ?c] => now destruct (adapter w2 (trace w2) c)
    end.
Qed.

Lemma network_read_then_change_on_network :
  let ctx1 := fst (NetworkHandler.read_resource new_context 0 world_with_network) in
  ctx1 = Ok (mkContext [("network_id", VStr "net-1"); ("project_id", VStr "proj-1")]
               change_none [])
  /\ exists network id tenant,
       fst (NetworkHandler.facts 0 world_with_network) = Ok network
       /\ item network "id" = Ok id /\ item network "tenant_id" = Ok tenant
       /\ id = VStr "net-1" /\ tenant = VStr "proj-1".
Proof.
  split; [reflexivity|].
  destruct (network_read_then_change new_context 0 (VDict []) world_with_network
              (mkContext [("network_id", VStr "net-1"); ("project_id", VStr "proj-1")]
                 change_none [])
              (snd (NetworkHandler.read_resource new_context 0 world_with_network))
              eq_refl)
    as (network & id & tenant & Hf & Hid & Ht & _).
  exists network, id, tenant. repeat (split; [assumption|]).
  inversion Hf; subst network. inversion Hid. inversion Ht. split; reflexivity.
Defined.

(** X18.  A network that the remote side does not list under its name, or
    lists more than once, or whose lookup ends in [NotFound], has no
    [facts], and [read_resource] reports it purged: with two networks of
    the name on the remote side, the network is taken as absent. *)
Theorem network_not_listed_once : forall ctx resource w name,
  fst (getattr resource "name" w) = Ok name ->
  let c := mkCall "neutron.list_networks" [kw [("name", name)]] in
  adapter w (trace w) c = Raise KeystoneNotFound
  \/ (exists listed networks n,
        adapter w (trace w) c = Ok listed /\ item listed "networks" = Ok networks
        /\ py_len networks = Ok n /\ n <> 1) ->
  fst (NetworkHandler.facts resource w) = Ok (VDict [])
  /\ fst (NetworkHandler.read_resource ctx resource w) = Raise ResourcePurged.
Proof.
  intros ctx resource w name Hname c H.
  assert (Ef : exists w1, NetworkHandler.facts resource w = (Ok (VDict []), w1)).
  { unfold NetworkHandler.facts. unfold bind at 1. unfold catch. unfold bind at 1.
    rewrite (getattr_run _ _ _ _ Hname). unfold bind at 1. unfold client_call. fold c.
    destruct H as [H | (listed & networks & n & H & Hi & Hl & Hn)]; rewrite H.
    - simpl. unfold ret. eauto.
    - unfold bind, lift, ret. rewrite Hi. simpl. rewrite Hl.
      destruct n as [|[|n]]; simpl; eauto. congruence. }
  destruct Ef as [w1 Ef]. split; [now rewrite Ef|].
  unfold NetworkHandler.read_resource. unfold bind at 1. rewrite Ef. reflexivity.
Qed.

Lemma network_not_listed_once_on_two_networks :
  fst (NetworkHandler.facts 0 world_with_two_networks) = Ok (VDict [])
  /\ fst (NetworkHandler.read_resource new_context 0 world_with_two_networks)
     = Raise ResourcePurged.
Proof.
  apply (network_not_listed_once new_context 0 world_with_two_networks (VStr "n1") eq_refl).
  right. eexists. eexists. exists 2. repeat split; try reflexivity. discriminate.
Defined.

(** X19.  The dictionary [_create_dict] builds for a new network, from
    the attributes of the resource: the name, the tenant and
    [admin_state_up] at [True]; then the physical network where the
    resource has one other than the empty string, the type of network
    likewise, and the segment where it is above 0, each with the value the
    resource has; and no other key, ["router:external"] among them:
    whether a network is external is sent by [update_resource] only. *)
Theorem network_creation_body : forall resource project_id w v,
  fst (NetworkHandler._create_dict resource project_id w) = Ok v ->
  exists name physical type segment segmented,
    fst (getattr resource "name" w) = Ok name
    /\ fst (getattr resource "physical_network" w) = Ok physical
    /\ fst (getattr resource "network_type" w) = Ok type
    /\ fst (getattr resource "segmentation_id" w) = Ok segment
    /\ py_gt segment (VInt 0) = Ok segmented
    /\ v = VDict ([("name", name); ("tenant_id", project_id);
                   ("admin_state_up", VBool true)]
                  ++ (if py_eq physical (VStr "") then []
                      else [("provider:physical_network", physical)])
                  ++ (if py_eq type (VStr "") then []
                      else [("provider:network_type", type)])
                  ++ (if segmented then [("provider:segmentation_id", segment)]
                      else []))%list
    /\ forall net, v = VDict net -> dict_has net "router:external" = false.
Proof.
  intros resource project_id w v H. unfold NetworkHandler._create_dict in H.
  destruct (bind_getattr_ok _ _ _ _ _ _ H) as (name & Hn & E). rewrite E in H. clear E.
  destruct (bind_getattr_ok _ _ _ _ _ _ H) as (physical & Hp & E). rewrite E in H. clear E.
  assert (E1 : forall (k : dict -> M value),
            bind (if negb (py_eq physical (VStr ""))
                  then v0 <- getattr resource "physical_network" ;;
                       ret (dict_set [("name", name); ("tenant_id", project_id);
                                      ("admin_state_up", VBool true)]
                              "provider:physical_network" v0)
                  else ret [("name", name); ("tenant_id", project_id);
                            ("admin_state_up", VBool true)]) k w
            = k ([("name", name); ("tenant_id", project_id);
                  ("admin_state_up", VBool true)]
                 ++ (if py_eq physical (VStr "") then []
                     else [("provider:physical_network", physical)]))%list w).
  { intros k. destruct (py_eq physical (VStr "")); cbn [negb]; [reflexivity|].
    now rewrite bind_assoc_run, (bind_getattr_run _ _ _ _ _ _ Hp). }
  rewrite E1 in H. clear E1.
  set (net1 := ([("name", name); ("tenant_id", project_id);
                 ("admin_state_up", VBool true)]
                ++ (if py_eq physical (VStr "") then []
                    else [("provider:physical_network", physical)]))%list) in *.
  destruct (bind_getattr_ok _ _ _ _ _ _ H) as (type & Ht & E). rewrite E in H. clear E.
  assert (E2 : forall (k : dict -> M value),
            bind (if negb (py_eq type (VStr ""))
                  then v0 <- getattr resource "network_type" ;;
                       ret (dict_set net1 "provider:network_type" v0)
                  else ret net1) k w
            = k (net1 ++ (if py_eq type (VStr "") then []
                          else [("provider:network_type", type)]))%list w).
  { intros k. destruct (py_eq type (VStr "")); cbn [negb].
    - now rewrite app_nil_r.
    - rewrite bind_assoc_run, (bind_getattr_run _ _ _ _ _ _ Ht), bind_ret_run.
      unfold net1. now destruct (py_eq physical (VStr "")). }
  rewrite E2 in H. clear E2.
  set (net2 := (net1 ++ (if py_eq type (VStr "") then []
                         else [("provider:network_type", type)]))%list) in *.
  destruct (bind_getattr_ok _ _ _ _ _ _ H) as (segment & Hs & E). rewrite E in H. clear E.
  destruct (py_gt segment (VInt 0)) as [segmented | e] eqn:Eg; [|discriminate].
  rewrite bind_lift_ok in H.
  assert (E3 : forall (k : dict -> M value),
            bind (if segmented
                  then v0 <- getattr resource "segmentation_id" ;;
                       ret (dict_set net2 "provider:segmentation_id" v0)
                  else ret net2) k w
            = k (net2 ++ (if segmented then [("provider:segmentation_id", segment)]
                          else []))%list w).
  { intros k. destruct segmented.
    - rewrite bind_assoc_run, (bind_getattr_run _ _ _ _ _ _ Hs), bind_ret_run.
      unfold net2, net1.
      now destruct (py_eq physical (VStr "")), (py_eq type (VStr "")).
    - now rewrite app_nil_r. }
  rewrite E3 in H. clear E3. unfold ret in H. cbn [fst] in H. inversion H. clear H.
  exists name, physical, type, segment, segmented.
  repeat (split; [assumption|]). unfold net2, net1. split.
  - now rewrite <- !app_assoc.
  - intros net Hnet. inversion Hnet. subst net. clear Hnet.
    now destruct (py_eq physical (VStr "")), (py_eq type (VStr "")), segmented.
Qed.

Lemma network_creation_body_on_provider_network :
  let v := VDict [("name", VStr "n2"); ("tenant_id", VStr "proj-1");
                  ("admin_state_up", VBool true);
                  ("provider:physical_network", VStr "physnet1");
                  ("provider:segmentation_id", VInt 100)] in
  fst (NetworkHandler._create_dict 0 (VStr "proj-1") world_with_provider_network) = Ok v
  /\ exists name physical type segment segmented,
       fst (getattr 0 "name" world_with_provider_network) = Ok name
       /\ fst (getattr 0 "physical_network" world_with_provider_network) = Ok physical
       /\ fst (getattr 0 "network_type" world_with_provider_network) = Ok type
       /\ fst (getattr 0 "segmentation_id" world_with_provider_network) = Ok segment
       /\ py_gt segment (VInt 0) = Ok segmented
       /\ v = VDict ([("name", name); ("tenant_id", VStr "proj-1");
                      ("admin_state_up", VBool true)]
                     ++ (if py_eq physical (VStr "") then []
                         else [("provider:physical_network", physical)])
                     ++ (if py_eq type (VStr "") then []
                         else [("provider:network_type", type)])
                     ++ (if segmented then [("provider:segmentation_id", segment)]
                         else []))%list
       /\ forall net, v = VDict net -> dict_has net "router:external" = false.
Proof.
  split; [reflexivity|].
  apply (network_creation_body 0 (VStr "proj-1") world_with_provider_network).
  reflexivity.
Defined.

(** ** Projects *)

(** X20.  When [read_resource] of the project handler returns, keystone
    has found a project of the name of the resource, the context holds
    it, and the [delete_resource] that follows deletes that project.  A
    lookup that ends in [NotFound] gives [ResourcePurged]; any other
    failure of the lookup reaches the caller as it is. *)
Theorem project_read_then_delete : forall ctx resource w name,
  fst (getattr resource "name" w) = Ok name ->
  let c := mkCall "keystone.projects.find" [kw [("name", name)]] in
  let out := ProjectHandler.read_resource ctx resource w in
  (forall ctx1, fst out = Ok ctx1 ->
     exists project,
       adapter w (trace w) c = Ok project
       /\ dict_get (ctx_values ctx1) "project" = Some project
       /\ forall w2,
            trace (snd (ProjectHandler.delete_resource ctx1 resource w2))
            = (trace w2 ++ [mkCall "project.delete" [project]])%list)
  /\ (adapter w (trace w) c = Raise KeystoneNotFound -> fst out = Raise ResourcePurged)
  /\ (forall e, adapter w (trace w) c = Raise e -> is_KeystoneNotFound e = false ->
        fst out = Raise e).
Proof.
  intros ctx resource w name Hname c out. unfold out. clear out.
  set (w1 := mkWorld (store w) (trace w ++ [c])%list (adapter w)).
  assert (Estart : forall rest : value -> M context,
            (name <- getattr resource "name" ;;
             project <- client_call "keystone.projects.find" [kw [("name", name)]] ;;
             rest project) w
            = match adapter w (trace w) c with
              | Ok project => rest project w1
              | Raise e => (Raise e, w1)
              end).
  { intros rest. unfold bind at 1. rewrite (getattr_run _ _ _ _ Hname).
    unfold bind at 1. unfold client_call at 1. fold c. fold w1.
    now destruct (adapter w (trace w) c). }
  unfold ProjectHandler.read_resource, catch. rewrite Estart.
  destruct (adapter w (trace w) c) as [project | e] eqn:Ea.
  - split; [|split; [discriminate | discriminate]].
    intros ctx1.
    match goal with
    | |- fst (let (r, s') := ?body w1 in _) = Ok ctx1 -> _ =>
        assert (Hy : yields (fun ctx1 =>
                      dict_get (ctx_values ctx1) "project" = Some project
                      /\ exists d, project = VDict d) body);
          [| destruct (body w1) as [[ctx' | e] w2] eqn:Eb]
    end.
    + apply yields_bind; intros _.
      apply yields_bind_with with (P := fun _ : value => exists d, project = VDict d).
      { apply yields_lift. intros a Ha. destruct project; try discriminate. eauto. }
      intros enabled Hd. do 3 (apply yields_bind; intros ?).
      apply yields_ret. split; [apply dict_get_set_same | exact Hd].
    + simpl. intros H. inversion H; subst ctx'.
      destruct (Hy w1 ctx1) as [Hg [d ->]]; [now rewrite Eb|].
      exists (VDict d). split; [reflexivity|]. split; [exact Hg|].
      intros w3. unfold ProjectHandler.delete_resource, ctx_get. rewrite Hg.
      unfold bind, ret, method_call, client_call. simpl.
      now destruct (adapter w3 (trace w3) (mkCall "project.delete" [VDict d])).
    + simpl. destruct (is_KeystoneNotFound e); discriminate.
  - split; [|split].
    + intros ctx1. simpl. destruct (is_KeystoneNotFound e); discriminate.
    + intros H. inversion H; subst e. reflexivity.
    + intros e' H Hn. inversion H; subst e'. simpl. now rewrite Hn.
Qed.

Lemma project_read_then_delete_on_project :
  exists ctx1,
    fst (ProjectHandler.read_resource new_context 0 world_with_project) = Ok ctx1
    /\ dict_get (ctx_values ctx1) "project" = Some project_found
    /\ forall w2,
         trace (snd (ProjectHandler.delete_resource ctx1 0 w2))
         = (trace w2 ++ [mkCall "project.delete" [project_found]])%list.
Proof.
  exists (ctx_set new_context "project" project_found).
  split; [reflexivity|].
  destruct (proj1 (project_read_then_delete new_context 0 world_with_project (VStr "p1")
                     eq_refl)
              (ctx_set new_context "project" project_found) eq_refl)
    as (project & Ha & Hg & Hd).
  inversion Ha; subst project. split; [exact Hg | exact Hd].
Defined.

(** ** Roles *)

(** X21.  [read_resource] of the role handler looks the role up only
    after it has found a user of the name [bartvb].  Where keystone has no
    such user the context holds [None] for the role, whatever roles
    exist, and the [create_resource] that follows creates a role of the
    name before it grants it. *)
Theorem role_read_without_that_user : forall ctx resource w ctx1,
  adapter w (trace w) (mkCall "keystone.users.find" [kw [("name", VStr "bartvb")]])
    = Raise KeystoneNotFound ->
  fst (RoleHandler.read_resource ctx resource w) = Ok ctx1 ->
  dict_get (ctx_values ctx1) "role" = Some VNone
  /\ forall w2 name,
       fst (getattr resource "role" w2) = Ok name ->
       exists rest,
         trace (snd (RoleHandler.create_resource ctx1 resource w2))
         = (trace w2 ++ mkCall "keystone.roles.create" [name] :: rest)%list.
Proof.
  intros ctx resource w ctx1 Ha.
  unfold RoleHandler.read_resource. unfold bind at 1. unfold catch at 1.
  unfold bind at 1. unfold client_call at 1. rewrite Ha.
  cbn [is_KeystoneNotFound ret].
  match goal with
  | |- fst (?c ?w1) = Ok ctx1 -> _ =>
      assert (Hy : yields (fun ctx1 =>
                    dict_get (ctx_values ctx1) "role" = Some VNone
                    /\ (exists user, dict_get (ctx_values ctx1) "user" = Some user)
                    /\ (exists project, dict_get (ctx_values ctx1) "project" = Some project))
                    c);
        [| intros H; destruct (Hy w1 ctx1 H) as (Hr & [user Hu] & [project Hp])]
  end.
  - apply yields_bind; intros [user project]. apply yields_bind; intros _.
    apply yields_ret. simpl. split; [|split].
    + rewrite !dict_get_set_other by discriminate. apply dict_get_set_same.
    + exists user. rewrite dict_get_set_other by discriminate. apply dict_get_set_same.
    + exists project. apply dict_get_set_same.
  - split; [exact Hr|]. intros w2 name Hn.
    unfold RoleHandler.create_resource, ctx_get. rewrite Hu, Hp, Hr.
    unfold bind at 1. unfold ret at 1. unfold bind at 1. unfold ret at 1.
    unfold bind at 1. unfold ret at 1. cbn [is_none]. unfold bind at 1. unfold bind at 1.
    rewrite (getattr_run _ _ _ _ Hn). unfold client_call at 1.
    destruct (adapter w2 (trace w2) (mkCall "keystone.roles.create" [name]))
      as [role | e].
    + unfold bind, ret, client_call. simpl.
      match goal with
      | |- context [match ?x with Ok _ => _ | Raise _ => _ end] => destruct x
      end; simpl; rewrite <- app_assoc; eexists; reflexivity.
    + simpl. exists []. reflexivity.
Qed.

Lemma role_read_without_that_user_on_role :
  let ctx1 := ctx_set (ctx_set (ctx_set new_context "role" VNone) "user" user_found)
                "project" project_found in
  fst (RoleHandler.read_resource new_context 0 world_without_that_user) = Ok ctx1
  /\ dict_get (ctx_values ctx1) "role" = Some VNone
  /\ forall w2 name,
       fst (getattr 0 "role" w2) = Ok name ->
       exists rest,
         trace (snd (RoleHandler.create_resource ctx1 0 w2))
         = (trace w2 ++ mkCall "keystone.roles.create" [name] :: rest)%list.
Proof.
  split; [reflexivity|].
  apply (role_read_without_that_user new_context 0 world_without_that_user); reflexivity.
Defined.

(** ** Endpoints *)

(** X22.  After a [read_resource] of the endpoint handler the context
    holds the endpoints found as a dictionary, by interface, and
    [delete_resource] goes through its keys, the names of the interfaces:
    it sends no call; with no endpoint found it returns, and with any
    endpoint found it raises [AttributeError], a name having no
    [delete]. *)
Theorem endpoints_are_not_deleted : forall ctx resource w ctx1,
  fst (EndpointHandler.read_resource ctx resource w) = Ok ctx1 ->
  exists d,
    dict_get (ctx_values ctx1) "endpoints" = Some (VDict d)
    /\ forall w2,
         EndpointHandler.delete_resource ctx1 resource w2
         = match d with
           | [] => (Ok (set_change ctx1 change_purged), w2)
           | _ :: _ => (Raise AttributeError, w2)
           end.
Proof.
  intros ctx resource w ctx1 H.
  assert (Hy : yields (fun ctx1 => exists d,
                  dict_get (ctx_values ctx1) "endpoints" = Some (VDict d))
                (EndpointHandler.read_resource ctx resource)).
  { unfold EndpointHandler.read_resource.
    do 3 (apply yields_bind; intros ?).
    destruct (is_none _); [apply yields_raise|].
    apply yields_bind; intros endpoints. apply yields_ret.
    exists endpoints. simpl. apply dict_get_set_same. }
  destruct (Hy w ctx1 H) as [d Hd]. exists d. split; [exact Hd|].
  intros w2. unfold EndpointHandler.delete_resource, ctx_get. rewrite Hd.
  unfold bind at 1. unfold ret at 1. unfold bind at 1. unfold lift at 1.
  cbn [iterate]. destruct d as [|[k e] d]; reflexivity.
Qed.

Lemma endpoints_are_not_deleted_on_nova :
  let ctx1 := ctx_set (ctx_set new_context "service" service_found) "endpoints"
                (VDict [("public", public_endpoint)]) in
  fst (EndpointHandler.read_resource new_context 0 world_with_endpoint) = Ok ctx1
  /\ forall w2, EndpointHandler.delete_resource ctx1 0 w2 = (Raise AttributeError, w2).
Proof.
  split; [reflexivity|].
  destruct (endpoints_are_not_deleted new_context 0 world_with_endpoint
              (ctx_set (ctx_set new_context "service" service_found) "endpoints"
                 (VDict [("public", public_endpoint)])) eq_refl)
    as (d & Hd & H).
  inversion Hd; subst d. exact H.
Defined.

(* ================================================================== *)
(** * The changes of a security group *)
(* ================================================================== *)

Lemma dict_set_keys : forall d k v,
  map fst (dict_set d k v) = if dict_has d k then map fst d else (map fst d ++ [k])%list.
Proof.
  induction d as [|[k0 v0] d IH]; intros k v; [reflexivity|].
  unfold dict_has in *. simpl. destruct (String.eqb k0 k) eqn:E; simpl; [reflexivity|].
  rewrite IH. now destruct (dict_get d k).
Qed.

Lemma dict_set_nodup : forall d k v,
  NoDup (map fst d) -> NoDup (map fst (dict_set d k v)).
Proof.
  intros d k v H. rewrite dict_set_keys. unfold dict_has.
  destruct (dict_get d k) eqn:E; [exact H|].
  apply (Permutation_NoDup (Permutation_cons_append (map fst d) k)).
  constructor; [|exact H]. now apply dict_get_None.
Qed.

Lemma dict_del_get : forall d k,
  NoDup (map fst d) -> dict_get (dict_del d k) k = None.
Proof.
  induction d as [|[k0 v0] d IH]; intros k H; [reflexivity|].
  inversion H as [|? ? Hn Hd]; subst. simpl.
  destruct (String.eqb k0 k) eqn:E.
  - apply String.eqb_eq in E. subst k0. now apply dict_get_None.
  - simpl. rewrite E. now apply IH.
Qed.

Lemma diff_keys_nodup : forall h current desired,
  yields (fun v => exists d, v = VDict d /\ NoDup (map fst d)) (_diff h current desired).
Proof.
  intros h current desired. unfold _diff. apply yields_bind; intros fields.
  apply yields_bind_with with (P := fun d : dict => NoDup (map fst d)).
  - apply yields_for_each; [constructor|]. intros acc x _ Hacc. unfold diff_field.
    do 3 (apply yields_bind; intros ?).
    destruct (negb _); apply yields_ret; [now apply dict_set_nodup | exact Hacc].
  - intros d Hd. apply yields_ret. now exists d.
Qed.

Lemma unmatched_rules_pure : forall changes,
  exists r, forall w, SecurityGroup.unmatched_rules changes w = (r, w).
Proof.
  intros changes. unfold SecurityGroup.unmatched_rules, change_of, bind, lift.
  destruct (item changes "rules") as [p|e]; [|eexists; reflexivity].
  destruct (at_ p 0) as [a|e]; [|eexists; reflexivity].
  destruct (iterate a) as [o|e]; [|eexists; reflexivity].
  destruct (at_ p 1) as [b|e]; [|eexists; reflexivity].
  destruct (iterate b) as [n|e]; eexists; reflexivity.
Qed.

(** X23.  A changeset that [list_changes] of the security group handler
    returns has the key ["rules"] only where the matching leaves a rule to
    delete or a rule to create: rules that differ by their ids or their
    order alone are no change. *)
Theorem rules_listed_when_some_differ : forall resource w changes,
  fst (SecurityGroup.list_changes resource w) = Ok changes ->
  has_key "rules" changes = Ok true ->
  exists old_rules new_rules,
    (forall w', fst (SecurityGroup.unmatched_rules changes w')
                = Ok (old_rules, new_rules))
    /\ (old_rules <> [] \/ new_rules <> []).
Proof.
  intros resource.
  change (yields (fun c => has_key "rules" c = Ok true ->
            exists o n,
              (forall w', fst (SecurityGroup.unmatched_rules c w') = Ok (o, n))
              /\ (o <> [] \/ n <> []))
            (SecurityGroup.list_changes resource)).
  unfold SecurityGroup.list_changes.
  apply yields_bind; intros current.
  apply yields_bind_with with (P := fun v => exists d, v = VDict d /\ NoDup (map fst d));
    [apply diff_keys_nodup|].
  intros changes (d & -> & Hnd).
  apply yields_bind_with with (P := fun b => has_key "rules" (VDict d) = Ok b);
    [now apply yields_lift|].
  intros b Hb. destruct b.
  - destruct (unmatched_rules_pure (VDict d)) as [r Hr].
    apply yields_bind_with with (P := fun x => r = Ok x).
    { intros w' x Hx. rewrite Hr in Hx. exact Hx. }
    intros [o n] Hon.
    destruct (Nat.eqb (List.length o) 0 && Nat.eqb (List.length n) 0) eqn:E.
    + apply yields_lift. intros c' Hc' Hk. exfalso. unfold del_item in Hc'.
      destruct (dict_has d "rules"); inversion Hc'; subst.
      unfold has_key, contains, dict_has in Hk. now rewrite dict_del_get in Hk.
    + apply yields_ret. intros _. exists o, n. split.
      * intros w'. now rewrite Hr.
      * apply andb_false_iff in E. destruct E as [E | E]; [left | right];
          intros ->; discriminate.
  - apply yields_ret. intros Hk. rewrite Hb in Hk. discriminate.
Qed.

Lemma rules_listed_when_some_differ_on_group :
  let changes :=
    VDict [("rules", VTuple [VList [VDict http_rule_read]; VList [VDict ssh_rule]])] in
  fst (SecurityGroup.list_changes 0 world_with_group) = Ok changes
  /\ exists old_rules new_rules,
       (forall w', fst (SecurityGroup.unmatched_rules changes w')
                   = Ok (old_rules, new_rules))
       /\ (old_rules <> [] \/ new_rules <> []).
Proof.
  split; [reflexivity|].
  apply (rules_listed_when_some_differ 0 world_with_group); reflexivity.
Defined.

(* ================================================================== *)
(** * The rules of a declared group *)
(* ================================================================== *)

Lemma yields_catch : forall A (Q : A -> Prop) handles (m : M A) (h : exn -> M A),
  yields Q m -> (forall e, yields Q (h e)) -> yields Q (catch handles m h).
Proof.
  intros A Q handles m h Hm Hh w a. unfold catch.
  specialize (Hm w). destruct (m w) as [[x | e] w1]; simpl in *.
  - apply Hm.
  - destruct (handles e); [apply Hh | discriminate].
Qed.

Lemma dict_has_set : forall d k v k',
  dict_has (dict_set d k v) k' = (String.eqb k k' || dict_has d k')%bool.
Proof.
  intros d k v k'. destruct (String.eqb k k') eqn:E.
  - apply String.eqb_eq in E. subst k'. unfold dict_has. now rewrite dict_get_set_same.
  - simpl. apply dict_has_set_other. intros ->. now rewrite String.eqb_refl in E.
Qed.

Lemma item_get : forall d k v, item (VDict d) k = Ok v -> dict_get d k = Some v.
Proof.
  intros d k v. unfold item, subscript. destruct (dict_get d k); [|discriminate].
  now intros H; inversion H.
Qed.

Lemma dict_has_In : forall d k, dict_has d k = true <-> In k (map fst d).
Proof.
  intros d k. unfold dict_has. destruct (dict_get d k) eqn:E.
  - split; [|reflexivity]. intros _. apply dict_get_In in E. now apply (in_map fst) in E.
  - split; [discriminate|]. intros H. now apply dict_get_None in E.
Qed.

Lemma get_rule_declared : forall rule, yields declared_rule (get_rule rule).
Proof.
  intros rule. unfold get_rule.
  apply yields_bind; intros protocol. apply yields_bind; intros direction.
  apply yields_bind; intros port. apply yields_bind; intros positive.
  pose (lo := ["protocol"; "direction"; "port_range_min"; "port_range_max"]).
  pose (hi := ["protocol"; "direction"; "port_range_min"; "port_range_max";
               "remote_ip_prefix"; "remote_group"]).
  pose (K := fun d : dict =>
               (forall k, In k lo -> dict_has d k = true)
               /\ (forall k, dict_has d k = true -> In k hi)).
  assert (Kset : forall d k v, K d -> In k hi -> K (dict_set d k v)).
  { intros d k v [H1 H2] Hk. split.
    - intros k' Hk'. rewrite dict_has_set. rewrite (H1 k' Hk'). apply orb_true_r.
    - intros k' Hk'. rewrite dict_has_set in Hk'. apply orb_true_iff in Hk' as [E | E].
      + apply String.eqb_eq in E. now subst k'.
      + now apply H2. }
  assert (KA : forall p1 p2,
            K (dict_set (dict_set [("protocol", protocol); ("direction", direction)]
                           "port_range_min" p1) "port_range_max" p2)).
  { intros p1 p2. split.
    - intros k Hk. simpl in Hk.
      destruct Hk as [<- | [<- | [<- | [<- | []]]]]; reflexivity.
    - intros k Hk. rewrite !dict_has_set in Hk. unfold dict_has in Hk.
      cbn [dict_get] in Hk.
      destruct (String.eqb "port_range_max" k) eqn:E1;
        [apply String.eqb_eq in E1; subst; simpl; tauto|].
      destruct (String.eqb "port_range_min" k) eqn:E2;
        [apply String.eqb_eq in E2; subst; simpl; tauto|].
      destruct (String.eqb "protocol" k) eqn:E3;
        [apply String.eqb_eq in E3; subst; simpl; tauto|].
      destruct (String.eqb "direction" k) eqn:E4;
        [apply String.eqb_eq in E4; subst; simpl; tauto|].
      discriminate. }
  apply yields_bind_with with (P := K).
  { destruct positive; apply yields_bind; intros p1; apply yields_bind; intros p2;
      apply yields_ret; apply KA. }
  intros d1 K1.
  pose (Nz := fun (key : string) (d : dict) =>
                forall z, dict_get d key = Some (VInt z) -> z <> 0%Z).
  apply yields_bind_with with (P := fun v => dict_get d1 "port_range_min" = Some v).
  { apply yields_lift. intros v Hv. now apply item_get. }
  intros pmin Hmin.
  apply yields_bind_with with (P := fun d => K d /\ Nz "port_range_min" d).
  { destruct (py_eq pmin (VInt 0)) eqn:E; apply yields_ret.
    - split; [apply Kset; [exact K1 | simpl; tauto]|].
      intros z Hz. rewrite dict_get_set_same in Hz. discriminate.
    - split; [exact K1|]. intros z Hz. rewrite Hmin in Hz. inversion Hz; subst pmin.
      simpl in E. intros ->. discriminate. }
  intros d2 [K2 N2].
  apply yields_bind_with with (P := fun v => dict_get d2 "port_range_max" = Some v).
  { apply yields_lift. intros v Hv. now apply item_get. }
  intros pmax Hmax.
  apply yields_bind_with
    with (P := fun d => K d /\ Nz "port_range_min" d /\ Nz "port_range_max" d).
  { destruct (py_eq pmax (VInt 0)) eqn:E; apply yields_ret.
    - split; [apply Kset; [exact K2 | simpl; tauto]|]. split.
      + intros z Hz. rewrite dict_get_set_other in Hz by discriminate. now apply N2.
      + intros z Hz. rewrite dict_get_set_same in Hz. discriminate.
    - split; [exact K2|]. split; [exact N2|].
      intros z Hz. rewrite Hmax in Hz. inversion Hz; subst pmax.
      simpl in E. intros ->. discriminate. }
  intros d3 (K3 & N3 & M3).
  assert (Step : forall d key v, key = "remote_ip_prefix" \/ key = "remote_group" ->
            K d /\ Nz "port_range_min" d /\ Nz "port_range_max" d ->
            K (dict_set d key v) /\ Nz "port_range_min" (dict_set d key v)
            /\ Nz "port_range_max" (dict_set d key v)).
  { intros d key v Hkey (Kd & Nd & Md). split; [|split].
    - apply Kset; [exact Kd|]. destruct Hkey as [-> | ->]; simpl; tauto.
    - intros z Hz. rewrite dict_get_set_other in Hz; [now apply Nd|].
      destruct Hkey as [-> | ->]; discriminate.
    - intros z Hz. rewrite dict_get_set_other in Hz; [now apply Md|].
      destruct Hkey as [-> | ->]; discriminate. }
  apply yields_bind_with
    with (P := fun d => K d /\ Nz "port_range_min" d /\ Nz "port_range_max" d).
  { apply yields_catch.
    - apply yields_bind; intros prefix. apply yields_ret. apply Step; auto.
    - intros _. now apply yields_ret. }
  intros d4 H4.
  apply yields_bind_with
    with (P := fun d => K d /\ Nz "port_range_min" d /\ Nz "port_range_max" d).
  { apply yields_catch.
    - apply yields_bind; intros group. apply yields_bind; intros name.
      apply yields_ret. apply Step; auto.
    - intros _. now apply yields_ret. }
  intros d5 ([K5a K5b] & N5 & M5). apply yields_ret. exists d5.
  split; [reflexivity|]. split; [exact K5a|]. split; [exact K5b|]. split; assumption.
Qed.

(** A declared rule on a prefix has the keys of a rule read from the
    remote side. *)
Lemma declared_rule_keys : forall d,
  declared_rule (VDict d) ->
  dict_has d "remote_ip_prefix" = true -> dict_has d "remote_group" = false ->
  set_eqb (SecurityGroup.public_keys d) rule_keys = true.
Proof.
  intros d (d' & E & Hlo & Hhi & _) Hp Hg. inversion E; subst d'.
  apply incl_set_eqb.
  - intros k Hk. apply public_keys_In in Hk as [Hk _]. apply dict_has_In in Hk.
    pose proof (Hhi k Hk) as Hin. simpl in Hin. unfold rule_keys. simpl.
    destruct Hin as [<- | [<- | [<- | [<- | [<- | [<- | []]]]]]]; try tauto.
    congruence.
  - intros k Hk. apply public_keys_In. unfold rule_keys in Hk. simpl in Hk.
    destruct Hk as [<- | [<- | [<- | [<- | [<- | []]]]]];
      (split; [apply dict_has_In; first [exact Hp | apply Hlo; simpl; tauto]
              | reflexivity]).
Qed.

(** X24.  The rules [get_rules] builds for a declared group, when it
    returns: each holds the protocol, the direction and the two ends of
    the range of ports, [None] where the port is 0, and no key besides
    them but the prefix and the remote group.  A rule on a prefix, with no
    remote group, has exactly the keys with which [check_resource] reads a
    rule back from the remote side. *)
Theorem declared_rules_shape : forall group w rules,
  fst (get_rules group w) = Ok rules ->
  exists l,
    rules = VList l
    /\ Forall declared_rule l
    /\ forall d, In (VDict d) l ->
         dict_has d "remote_ip_prefix" = true -> dict_has d "remote_group" = false ->
         set_eqb (SecurityGroup.public_keys d) rule_keys = true.
Proof.
  intros group w rules H.
  assert (Hy : yields (fun v => exists l, v = VList l /\ Forall declared_rule l)
                 (get_rules group)).
  { unfold get_rules. apply yields_bind; intros group_rules.
    apply yields_bind; intros l.
    apply yields_bind_with with (P := Forall declared_rule).
    - apply yields_for_each; [constructor|]. intros acc rule _ Hacc.
      apply yields_bind_with with (P := declared_rule); [apply get_rule_declared|].
      intros j Hj. apply yields_ret. apply Forall_app. split; [exact Hacc|].
      now constructor.
    - intros r Hr. apply yields_ret. now exists r. }
  destruct (Hy w rules H) as (l & -> & Hl). exists l.
  split; [reflexivity|]. split; [exact Hl|].
  intros d Hd. apply declared_rule_keys. rewrite Forall_forall in Hl. now apply Hl.
Qed.

Lemma declared_rules_shape_on_group :
  let rules :=
    VList [VDict [("protocol", VStr "tcp"); ("direction", VStr "ingress");
                  ("port_range_min", VInt 22); ("port_range_max", VInt 22);
                  ("remote_ip_prefix", VStr "0.0.0.0/0")];
           VDict [("protocol", VStr "all"); ("direction", VStr "ingress");
                  ("port_range_min", VNone); ("port_range_max", VNone);
                  ("remote_group", VStr "web")]] in
  fst (get_rules declared_group world_without_group) = Ok rules
  /\ exists l,
       rules = VList l
       /\ Forall declared_rule l
       /\ forall d, In (VDict d) l ->
            dict_has d "remote_ip_prefix" = true -> dict_has d "remote_group" = false ->
            set_eqb (SecurityGroup.public_keys d) rule_keys = true.
Proof.
  split; [reflexivity|].
  apply (declared_rules_shape declared_group world_without_group). reflexivity.
Defined.

(* ================================================================== *)
(** * The endpoints of a service *)
(* ================================================================== *)

Lemma getattr_snd : forall r field w, snd (getattr r field w) = w.
Proof.
  intros r field w. unfold getattr.
  destruct (nth_error (store w) r) as [o|]; [|reflexivity].
  now destruct (dict_get (obj_attrs o) field).
Qed.

Lemma bind_getattr_inv : forall A r field (k : value -> M A) w a,
  fst (bind (getattr r field) k w) = Ok a ->
  exists v, bind (getattr r field) k w = k v w.
Proof.
  intros A r field k w a. unfold bind.
  pose proof (getattr_snd r field w) as Hs.
  destruct (getattr r field w) as [[v | e] w1]; simpl in Hs; subst w1.
  - intros _. now exists v.
  - discriminate.
Qed.

(** One turn of the loop of [update_resource], for the interface [k] and
    the field [v] of its url. *)
Lemma endpoint_update_turn : forall service (e : dict) changes resource c k v w c',
  let turn :=
    (present <- lift (contains (VStr k) (VDict e)) ;;
     if negb present then
       url <- getattr resource v ;;
       region <- getattr resource "region" ;;
       client_call "keystone.endpoints.create"
         [service; kw [("url", url); ("region", region); ("interface", VStr k)]] ;;;
       ret (set_change c change_created)
     else
       changed <- lift (contains (VStr v) changes) ;;
       if (changed : bool) then
         endpoint <- lift (item (VDict e) k) ;;
         url <- getattr resource v ;;
         client_call "keystone.endpoints.update" [endpoint; kw [("url", url)]] ;;;
         ret (set_change c change_updated)
       else ret c) in
  fst (turn w) = Ok c' ->
  exists calls,
    trace (snd (turn w)) = (trace w ++ calls)%list
    /\ store (snd (turn w)) = store w
    /\ adapter (snd (turn w)) = adapter w
    /\ ((dict_has e k = false
         /\ (exists a, calls = [mkCall "keystone.endpoints.create" a])
         /\ c' = set_change c change_created)
        \/ (dict_has e k = true /\ contains (VStr v) changes = Ok true
            /\ (exists a, calls = [mkCall "keystone.endpoints.update" a])
            /\ c' = set_change c change_updated)
        \/ (dict_has e k = true /\ contains (VStr v) changes = Ok false
            /\ calls = [] /\ c' = c)).
Proof.
  intros service e changes resource c k v w c' turn. unfold turn. clear turn.
  cbn [contains]. rewrite bind_lift_ok.
  destruct (dict_has e k) eqn:Hk; cbn [negb].
  - destruct (contains (VStr v) changes) as [[|] | err] eqn:Hc.
    + rewrite bind_lift_ok.
      destruct (item (VDict e) k) as [endpoint | err]; [|discriminate].
      rewrite bind_lift_ok. intros H.
      destruct (bind_getattr_inv _ _ _ _ _ _ H) as [url E]. rewrite E in H |- *.
      unfold bind, client_call, ret in H |- *. cbn [fst snd] in H |- *.
      destruct (adapter w (trace w) _) eqn:Ea; [|discriminate].
      cbn [fst snd trace store adapter] in H |- *. inversion H; subst c'.
      eexists. split; [reflexivity|]. split; [reflexivity|]. split; [reflexivity|].
      right. left. repeat split; eauto.
    + rewrite bind_lift_ok. unfold ret. cbn [fst snd]. intros H. inversion H; subst c'.
      exists []. rewrite app_nil_r. split; [reflexivity|]. split; [reflexivity|].
      split; [reflexivity|]. right. right. repeat split; auto.
    + discriminate.
  - intros H.
    destruct (bind_getattr_inv _ _ _ _ _ _ H) as [url E]. rewrite E in H |- *.
    destruct (bind_getattr_inv _ _ _ _ _ _ H) as [region E2]. rewrite E2 in H |- *.
    unfold bind, client_call, ret in H |- *. cbn [fst snd] in H |- *.
    destruct (adapter w (trace w) _) eqn:Ea; [|discriminate].
    cbn [fst snd trace store adapter] in H |- *. inversion H; subst c'.
    eexists. split; [reflexivity|]. split; [reflexivity|]. split; [reflexivity|].
    left. repeat split; eauto.
Qed.

(** X25.  [update_resource] of the endpoint handler, when it returns, has
    gone through the three interfaces and sent, for each, one call at
    most: the creation of an endpoint where the context holds none for the
    interface, an update where it holds one and the changeset has the
    field of its url, nothing otherwise.  With nothing to send the context
    comes back as it was; otherwise the change it records is a creation or
    an update. *)
Theorem endpoint_update_by_interface : forall ctx changes resource w ctx' e,
  dict_get (ctx_values ctx) "endpoints" = Some (VDict e) ->
  fst (EndpointHandler.update_resource ctx changes resource w) = Ok ctx' ->
  exists calls,
    trace (snd (EndpointHandler.update_resource ctx changes resource w))
    = (trace w ++ calls)%list
    /\ map meth calls = endpoint_calls e changes
    /\ (calls = [] -> ctx' = ctx)
    /\ (calls <> [] ->
        ctx' = set_change ctx change_created \/ ctx' = set_change ctx change_updated).
Proof.
  intros ctx changes resource w ctx' e He.
  unfold EndpointHandler.update_resource, ctx_get. rewrite He.
  destruct (dict_get (ctx_values ctx) "service") as [service|]; [|discriminate].
  match goal with |- fst ?t = _ -> _ => remember t as r eqn:Er end.
  unfold bind at 1 in Er. unfold ret at 1 in Er.
  unfold bind at 1 in Er. unfold ret at 1 in Er.
  cbn beta iota in Er. unfold endpoint_calls, EndpointHandler.types in *.
  cbn [for_each flat_map fst snd] in Er |- *.
  assert (Hset : forall c a b, set_change (set_change c a) b = set_change c b)
    by reflexivity.
  unfold bind at 1 in Er.
  match type of Er with context [let (_, _) := ?t w in _] => set (t1 := t) in * end.
  destruct (t1 w) as [[c1 | err] w1] eqn:E1; [|subst r; discriminate].
  pose proof (endpoint_update_turn service e changes resource ctx "admin" "admin_url"
                w c1) as T1.
  cbv zeta in T1. fold t1 in T1. rewrite E1 in T1.
  destruct (T1 eq_refl) as (l1 & Tr1 & St1 & Ad1 & C1). clear T1.
  cbn [fst snd] in Tr1, St1, Ad1.
  unfold bind at 1 in Er.
  match type of Er with context [let (_, _) := ?t w1 in _] => set (t2 := t) in * end.
  destruct (t2 w1) as [[c2 | err] w2] eqn:E2; [|subst r; discriminate].
  pose proof (endpoint_update_turn service e changes resource c1 "internal"
                "internal_url" w1 c2) as T2.
  cbv zeta in T2. fold t2 in T2. rewrite E2 in T2.
  destruct (T2 eq_refl) as (l2 & Tr2 & St2 & Ad2 & C2). clear T2.
  cbn [fst snd] in Tr2, St2, Ad2.
  unfold bind at 1 in Er.
  match type of Er with context [let (_, _) := ?t w2 in _] => set (t3 := t) in * end.
  destruct (t3 w2) as [[c3 | err] w3] eqn:E3; [|subst r; discriminate].
  pose proof (endpoint_update_turn service e changes resource c2 "public"
                "public_url" w2 c3) as T3.
  cbv zeta in T3. fold t3 in T3. rewrite E3 in T3.
  destruct (T3 eq_refl) as (l3 & Tr3 & St3 & Ad3 & C3). clear T3.
  cbn [fst snd] in Tr3, St3, Ad3.
  unfold ret in Er. subst r. cbn [fst snd]. intros H. inversion H; subst ctx'.
  exists (l1 ++ l2 ++ l3)%list.
  split; [rewrite Tr3, Tr2, Tr1; now rewrite <- !app_assoc|].
  rewrite !map_app.
  destruct C1 as [(K1 & [a1 ->] & ->) | [(K1 & V1 & [a1 ->] & ->) | (K1 & V1 & -> & ->)]];
  destruct C2 as [(K2 & [a2 ->] & ->) | [(K2 & V2 & [a2 ->] & ->) | (K2 & V2 & -> & ->)]];
  destruct C3 as [(K3 & [a3 ->] & ->) | [(K3 & V3 & [a3 ->] & ->) | (K3 & V3 & -> & ->)]];
  rewrite K1, K2, K3; try rewrite V1; try rewrite V2; try rewrite V3;
  rewrite ?Hset; cbn [map meth app];
  (split; [reflexivity|]); (split; [intros Hn; first [discriminate | reflexivity]|]);
  intros Hn; first [now left | now right | now elim Hn].
Qed.

Lemma endpoint_update_by_interface_on_nova :
  let changes := VDict [("admin_url", VTuple [VStr "http://old:8774";
                                              VStr "http://nova:8774"])] in
  let out := EndpointHandler.update_resource context_of_three_endpoints changes 0
               world_with_endpoint in
  fst out = Ok (set_change context_of_three_endpoints change_updated)
  /\ exists calls,
       trace (snd out) = ([] ++ calls)%list
       /\ map meth calls = ["keystone.endpoints.update"]
       /\ (calls = [] ->
           set_change context_of_three_endpoints change_updated
           = context_of_three_endpoints)
       /\ (calls <> [] ->
           set_change context_of_three_endpoints change_updated
           = set_change context_of_three_endpoints change_created
           \/ set_change context_of_three_endpoints change_updated
              = set_change context_of_three_endpoints change_updated).
Proof.
  split; [reflexivity|].
  apply (endpoint_update_by_interface context_of_three_endpoints
           (VDict [("admin_url", VTuple [VStr "http://old:8774";
                                         VStr "http://nova:8774"])])
           0 world_with_endpoint
           (set_change context_of_three_endpoints change_updated)
           [("public", public_endpoint);
            ("admin", VDict [("id", VStr "ep-2"); ("interface", VStr "admin");
                             ("url", VStr "http://old:8774")]);
            ("internal", VDict [("id", VStr "ep-3"); ("interface", VStr "internal");
                                ("url", VStr "http://nova:8774")])]);
    reflexivity.
Defined.

Lemma after_raise : forall A (Q : A -> world -> Prop) e, after (raise e) Q.
Proof. intros A Q e w a H. discriminate. Qed.

Lemma after_bind : forall A B (Q : B -> world -> Prop) (c : M A) (k : A -> M B),
  (forall x, after (k x) Q) -> after (bind c k) Q.
Proof.
  intros A B Q c k Hk w b. unfold bind.
  destruct (c w) as [[x | e] w1]; [apply Hk | discriminate].
Qed.

Lemma after_bind_with : forall A B (P : A -> Prop) (Q : B -> world -> Prop)
    (c : M A) (k : A -> M B),
  yields P c -> (forall x, P x -> after (k x) Q) -> after (bind c k) Q.
Proof.
  intros A B P Q c k Hc Hk w b. unfold bind. specialize (Hc w).
  destruct (c w) as [[x | e] w1]; [|discriminate].
  apply Hk. now apply Hc.
Qed.

Lemma after_then_ret : forall A B (Q : B -> world -> Prop) (c : M A) (f : A -> B),
  after c (fun x w => Q (f x) w) -> after (bind c (fun x => ret (f x))) Q.
Proof.
  intros A B Q c f Hc w b. unfold bind, ret. specialize (Hc w).
  destruct (c w) as [[x | e] w1]; [|discriminate].
  simpl in *. intros H. inversion H; subst b. now apply Hc.
Qed.

Lemma after_catch : forall A (Q : A -> world -> Prop) handles (m : M A) (h : exn -> M A),
  after m Q -> (forall e, after (h e) Q) -> after (catch handles m h) Q.
Proof.
  intros A Q handles m h Hm Hh w a. unfold catch. specialize (Hm w).
  destruct (m w) as [[x | e] w1]; simpl in *.
  - apply Hm.
  - destruct (handles e); [apply Hh | discriminate].
Qed.

(** What [getattr] reads after a [setattr] on the same resource. *)
Lemma getattr_setattr : forall r name v field w,
  fst (setattr r name v w) = Ok tt ->
  fst (getattr r field (snd (setattr r name v w)))
  = if String.eqb name field then Ok v else fst (getattr r field w).
Proof.
  intros r name v field w. unfold setattr, getattr.
  destruct (nth_error (store w) r) as [o|] eqn:E; [|discriminate].
  intros _. simpl. rewrite nth_error_update_nth, Nat.eqb_refl, E. simpl.
  destruct (String.eqb name field) eqn:En.
  - apply String.eqb_eq in En. subst field. now rewrite dict_get_set_same.
  - rewrite dict_get_set_other; [now destruct (dict_get (obj_attrs o) field)|].
    intros ->. now rewrite String.eqb_refl in En.
Qed.

Lemma setattr_then : forall A r name v (k : M A) w a,
  fst ((setattr r name v ;;; k) w) = Ok a ->
  fst (setattr r name v w) = Ok tt
  /\ (setattr r name v ;;; k) w = k (snd (setattr r name v w)).
Proof.
  intros A r name v k w a. unfold bind.
  destruct (setattr r name v w) as [[[] | e] w1]; [now split | discriminate].
Qed.

(** X26.  When [read_resource] of the endpoint handler returns, the
    context holds the service, which is not [None], and the endpoints
    found, each under the name of its interface; and the three fields of
    the resource for the urls hold, each, the endpoint of its interface as
    keystone returned it, or [None] where there is none: an object, never
    the text of a url. *)
Theorem endpoint_urls_read_as_objects : forall ctx resource w ctx',
  fst (EndpointHandler.read_resource ctx resource w) = Ok ctx' ->
  let w' := snd (EndpointHandler.read_resource ctx resource w) in
  exists service endpoints,
    dict_get (ctx_values ctx') "service" = Some service
    /\ is_none service = false
    /\ dict_get (ctx_values ctx') "endpoints" = Some (VDict endpoints)
    /\ (forall k e, dict_get endpoints k = Some e -> attr e "interface" = Ok (VStr k))
    /\ (forall k v, In (k, v) EndpointHandler.types ->
          fst (getattr resource v w')
          = Ok (match dict_get endpoints k with Some e => e | None => VNone end))
    /\ (forall k v url, In (k, v) EndpointHandler.types ->
          fst (getattr resource v w') <> Ok (VStr url)).
Proof.
  intros ctx resource w ctx' H w'. unfold w'. clear w'.
  pose (Q := fun (ctx' : context) (w' : world) =>
    exists service endpoints,
      dict_get (ctx_values ctx') "service" = Some service
      /\ is_none service = false
      /\ dict_get (ctx_values ctx') "endpoints" = Some (VDict endpoints)
      /\ (forall k e, dict_get endpoints k = Some e -> attr e "interface" = Ok (VStr k))
      /\ (forall k v, In (k, v) EndpointHandler.types ->
            fst (getattr resource v w')
            = Ok (match dict_get endpoints k with Some e => e | None => VNone end))).
  assert (Ha : after (EndpointHandler.read_resource ctx resource) Q).
  { unfold EndpointHandler.read_resource.
    do 3 (apply after_bind; intros ?).
    rename x1 into service.
    destruct (is_none service) eqn:Hs; [apply after_raise|].
    apply after_then_ret with
      (f := fun endpoints =>
              ctx_set (ctx_set ctx "service" service) "endpoints" (VDict endpoints)).
    assert (Hq : forall endpoints w1,
              (forall k e, dict_get endpoints k = Some e ->
                           attr e "interface" = Ok (VStr k)) ->
              (forall k v, In (k, v) EndpointHandler.types ->
                 fst (getattr resource v w1)
                 = Ok (match dict_get endpoints k with Some e => e | None => VNone end)) ->
              Q (ctx_set (ctx_set ctx "service" service) "endpoints" (VDict endpoints))
                w1).
    { intros endpoints w1 Hi Hu. exists service, endpoints.
      split; [|split; [exact Hs | split; [|split; assumption]]].
      - unfold ctx_set. simpl. rewrite dict_get_set_other by discriminate.
        apply dict_get_set_same.
      - unfold ctx_set. simpl. apply dict_get_set_same. }
    apply after_catch.
    - apply after_bind; intros region. apply after_bind; intros listed.
      apply after_bind; intros l.
      apply after_bind_with
        with (P := fun endpoints : dict =>
                     forall k e, dict_get endpoints k = Some e ->
                                 attr e "interface" = Ok (VStr k)).
      { apply yields_for_each; [discriminate|].
        intros acc e _ Hacc.
        apply yields_bind_with with (P := fun i => attr e "interface" = Ok i).
        { apply yields_lift. auto. }
        intros i Hi.
        apply yields_bind_with with (P := fun k => i = VStr k).
        { apply yields_lift. intros k Hk. destruct i; try discriminate.
          now inversion Hk. }
        intros k ->. apply yields_ret. intros k' e' Hg.
        destruct (String.eqb k k') eqn:Ek.
        - apply String.eqb_eq in Ek. subst k'. rewrite dict_get_set_same in Hg.
          now inversion Hg; subst e'.
        - rewrite dict_get_set_other in Hg; [now apply Hacc|].
          intros ->. now rewrite String.eqb_refl in Ek. }
      intros endpoints Hi w1 a Hrun.
      set (x1 := match dict_get endpoints "admin" with Some e => e | None => VNone end).
      set (x2 := match dict_get endpoints "internal" with Some e => e | None => VNone end).
      set (x3 := match dict_get endpoints "public" with Some e => e | None => VNone end).
      match type of Hrun with fst (?c w1) = _ =>
        assert (Ec : c w1
                     = (setattr resource "admin_url" x1 ;;;
                        setattr resource "internal_url" x2 ;;;
                        setattr resource "public_url" x3 ;;;
                        setattr resource "purged" (VBool false) ;;;
                        ret endpoints) w1)
      end.
      { unfold x1, x2, x3, for_, EndpointHandler.types. cbn [for_each fst snd].
        destruct (dict_get endpoints "admin"), (dict_get endpoints "internal"),
          (dict_get endpoints "public"); unfold bind, ret;
          repeat match goal with
                 | |- context [setattr ?r ?n ?v ?w] =>
                     destruct (setattr r n v w) as [[[] | ?] ?]; cbn beta iota
                 end; reflexivity. }
      rewrite Ec in Hrun |- *. unfold dict in *.
      destruct (setattr_then _ _ _ _ _ _ _ Hrun) as [S1 E1]. rewrite E1 in Hrun |- *.
      destruct (setattr_then _ _ _ _ _ _ _ Hrun) as [S2 E2]. rewrite E2 in Hrun |- *.
      destruct (setattr_then _ _ _ _ _ _ _ Hrun) as [S3 E3]. rewrite E3 in Hrun |- *.
      destruct (setattr_then _ _ _ _ _ _ _ Hrun) as [S4 E4]. rewrite E4 in Hrun |- *.
      unfold ret in Hrun |- *. simpl in Hrun. inversion Hrun; subst a. simpl snd.
      apply Hq; [exact Hi|].
      intros k v Hkv. unfold EndpointHandler.types in Hkv. simpl in Hkv.
      rewrite (getattr_setattr _ _ _ _ _ S4), (getattr_setattr _ _ _ _ _ S3),
        (getattr_setattr _ _ _ _ _ S2), (getattr_setattr _ _ _ _ _ S1).
      destruct Hkv as [Hkv | [Hkv | [Hkv | []]]]; inversion Hkv; subst k v;
        reflexivity.
    - intros _ w1 a Hrun. unfold dict in *.
      destruct (setattr_then _ _ _ _ _ _ _ Hrun) as [S1 E1]. rewrite E1 in Hrun |- *.
      destruct (setattr_then _ _ _ _ _ _ _ Hrun) as [S2 E2]. rewrite E2 in Hrun |- *.
      destruct (setattr_then _ _ _ _ _ _ _ Hrun) as [S3 E3]. rewrite E3 in Hrun |- *.
      destruct (setattr_then _ _ _ _ _ _ _ Hrun) as [S4 E4]. rewrite E4 in Hrun |- *.
      destruct (setattr_then _ _ _ _ _ _ _ Hrun) as [S5 E5]. rewrite E5 in Hrun |- *.
      unfold ret in Hrun |- *. simpl in Hrun. inversion Hrun; subst a. simpl snd.
      apply Hq; [discriminate|].
      intros k v Hkv. unfold EndpointHandler.types in Hkv. simpl in Hkv.
      rewrite (getattr_setattr _ _ _ _ _ S5), (getattr_setattr _ _ _ _ _ S4),
        (getattr_setattr _ _ _ _ _ S3).
      destruct Hkv as [Hkv | [Hkv | [Hkv | []]]]; inversion Hkv; subst k v;
        reflexivity. }
  destruct (Ha w ctx' H) as (service & endpoints & H1 & H2 & H3 & H4 & H5).
  exists service, endpoints. repeat (split; [assumption|]).
  intros k v url Hkv. rewrite (H5 k v Hkv).
  destruct (dict_get endpoints k) as [e|] eqn:Ee; [|discriminate].
  apply H4 in Ee. destruct e; discriminate.
Qed.

Lemma endpoint_urls_read_as_objects_on_nova :
  let out := EndpointHandler.read_resource new_context 0 world_with_endpoint in
  fst out
  = Ok (ctx_set (ctx_set new_context "service" service_found) "endpoints"
          (VDict [("public", public_endpoint)]))
  /\ fst (getattr 0 "public_url" (snd out)) = Ok public_endpoint
  /\ fst (getattr 0 "admin_url" (snd out)) = Ok VNone
  /\ exists service endpoints,
       dict_get [("service", service_found);
                 ("endpoints", VDict [("public", public_endpoint)])] "service"
       = Some service
       /\ is_none service = false
       /\ dict_get [("service", service_found);
                    ("endpoints", VDict [("public", public_endpoint)])] "endpoints"
          = Some (VDict endpoints)
       /\ (forall k e, dict_get endpoints k = Some e -> attr e "interface" = Ok (VStr k))
       /\ (forall k v, In (k, v) EndpointHandler.types ->
             fst (getattr 0 v (snd out))
             = Ok (match dict_get endpoints k with Some e => e | None => VNone end))
       /\ (forall k v url, In (k, v) EndpointHandler.types ->
             fst (getattr 0 v (snd out)) <> Ok (VStr url)).
Proof.
  split; [reflexivity|]. split; [reflexivity|]. split; [reflexivity|].
  apply (endpoint_urls_read_as_objects new_context 0 world_with_endpoint
           (ctx_set (ctx_set new_context "service" service_found) "endpoints"
              (VDict [("public", public_endpoint)]))).
  reflexivity.
Defined.

(** ** Users *)

Lemma setattr_ok : forall r name v field x w,
  fst (getattr r field w) = Ok x -> fst (setattr r name v w) = Ok tt.
Proof.
  intros r name v field x w. unfold getattr, setattr.
  destruct (nth_error (store w) r); [reflexivity | discriminate].
Qed.

Lemma setattr_run : forall A r name v (k : unit -> M A) w,
  fst (setattr r name v w) = Ok tt ->
  bind (setattr r name v) k w = k tt (snd (setattr r name v w)).
Proof.
  intros A r name v k w. unfold bind.
  destruct (setattr r name v w) as [[[] | e] w1]; [reflexivity | discriminate].
Qed.

Lemma setattr_trace : forall r name v w,
  trace (snd (setattr r name v w)) = trace w.
Proof.
  intros r name v w. unfold setattr. now destruct (nth_error (store w) r).
Qed.

Lemma catch_ok : forall A handles (m : M A) h w a,
  fst (m w) = Ok a -> catch handles m h w = m w.
Proof.
  intros A handles m h w a. unfold catch.
  destruct (m w) as [[x | e] w1]; [reflexivity | discriminate].
Qed.

Lemma store_bind : forall A B (c : M A) (k : A -> M B),
  (forall w, store (snd (c w)) = store w) ->
  (forall x w, store (snd (k x w)) = store w) ->
  forall w, store (snd (bind c k w)) = store w.
Proof.
  intros A B c k Hc Hk w. unfold bind. specialize (Hc w).
  destruct (c w) as [[x | e] w1]; simpl in *; [|exact Hc].
  now rewrite Hk.
Qed.

Lemma store_getattr : forall r field w, store (snd (getattr r field w)) = store w.
Proof.
  intros r field w. unfold getattr.
  destruct (nth_error (store w) r) as [o|]; [|reflexivity].
  now destruct (dict_get (obj_attrs o) field).
Qed.

Lemma store_call : forall name arguments w,
  store (snd (client_call name arguments w)) = store w.
Proof. reflexivity. Qed.

(** An attempt whose failure, whatever it is, sets an attribute. *)
Lemma guarded_setattr : forall (m : M unit) r name v w x,
  store (snd (m w)) = store w ->
  fst (getattr r name w) = Ok x ->
  let out := catch any_exception m (fun _ => setattr r name v) w in
  fst out = Ok tt
  /\ (fst (getattr r name (snd out)) = Ok x \/ fst (getattr r name (snd out)) = Ok v).
Proof.
  intros m r name v w x Hs Hx. unfold catch.
  destruct (m w) as [[[] | e] w1]; simpl in *.
  - split; [reflexivity|]. left. now apply reads_store with w.
  - assert (H1 : fst (getattr r name w1) = Ok x) by now apply reads_store with w.
    pose proof (setattr_ok r name v name x w1 H1) as S.
    split; [exact S|]. right. rewrite (getattr_setattr _ _ _ _ _ S).
    now rewrite String.eqb_refl.
Qed.

(** X27.  [read_resource] of the user handler, for a user that keystone
    has: it returns, with the user in the context, whether the check of
    the declared password passes, fails or cannot be made; the password of
    the resource is then the declared one or ["***"]; and with no password
    declared the lookup of the user is the only call. *)
Theorem user_read_survives_authentication :
  forall ctx resource w name password user enabled email,
  fst (getattr resource "name" w) = Ok name ->
  fst (getattr resource "password" w) = Ok password ->
  let c := mkCall "keystone.users.find" [kw [("name", name)]] in
  adapter w (trace w) c = Ok user ->
  attr user "enabled" = Ok enabled ->
  attr user "email" = Ok email ->
  let out := UserHandler.read_resource ctx resource w in
  fst out = Ok (ctx_set ctx "user" user)
  /\ (fst (getattr resource "password" (snd out)) = Ok password
      \/ fst (getattr resource "password" (snd out)) = Ok (VStr "***"))
  /\ (py_eq password (VStr "") = true -> trace (snd out) = (trace w ++ [c])%list).
Proof.
  intros ctx resource w name password user enabled email Hname Hpw c Hfind He Hm out.
  unfold out, UserHandler.read_resource. clear out.
  match goal with |- context [catch is_KeystoneNotFound ?B _] => set (body := B) end.
  assert (Hb : fst (body w) = Ok (ctx_set ctx "user" user)
    /\ (fst (getattr resource "password" (snd (body w))) = Ok password
        \/ fst (getattr resource "password" (snd (body w))) = Ok (VStr "***"))
    /\ (py_eq password (VStr "") = true -> trace (snd (body w)) = (trace w ++ [c])%list)).
  { unfold body.
    match goal with |- fst ?t = _ /\ _ => remember t as r eqn:Er end.
    rewrite (bind_getattr_run _ _ _ _ _ _ Hname) in Er.
    unfold bind at 1 in Er. unfold client_call at 1 in Er. fold c in Er.
    rewrite Hfind in Er.
    set (w1 := mkWorld (store w) (trace w ++ [c])%list (adapter w)) in Er.
    assert (N1 : fst (getattr resource "password" w1) = Ok password)
      by now apply reads_store with w.
    pose proof (setattr_ok resource "purged" (VBool false) _ _ _ N1) as S1.
    rewrite (setattr_run _ _ _ _ _ _ S1) in Er.
    set (w2 := snd (setattr resource "purged" (VBool false) w1)) in Er.
    assert (N2 : fst (getattr resource "password" w2) = Ok password).
    { unfold w2. rewrite (getattr_setattr _ _ _ _ _ S1). exact N1. }
    rewrite He, bind_lift_ok in Er.
    pose proof (setattr_ok resource "enabled" enabled _ _ _ N2) as S2.
    rewrite (setattr_run _ _ _ _ _ _ S2) in Er.
    set (w3 := snd (setattr resource "enabled" enabled w2)) in Er.
    assert (N3 : fst (getattr resource "password" w3) = Ok password).
    { unfold w3. rewrite (getattr_setattr _ _ _ _ _ S2). exact N2. }
    rewrite Hm, bind_lift_ok in Er.
    pose proof (setattr_ok resource "email" email _ _ _ N3) as S3.
    rewrite (setattr_run _ _ _ _ _ _ S3) in Er.
    set (w4 := snd (setattr resource "email" email w3)) in Er.
    assert (N4 : fst (getattr resource "password" w4) = Ok password).
    { unfold w4. rewrite (getattr_setattr _ _ _ _ _ S3). exact N3. }
    assert (T4 : trace w4 = (trace w ++ [c])%list).
    { unfold w4, w3, w2. now rewrite !setattr_trace. }
    rewrite (bind_getattr_run _ _ _ _ _ _ N4) in Er.
    destruct (py_eq password (VStr "")) eqn:Ep; cbn [negb] in Er.
    - subst r. split; [reflexivity|]. split; [left; exact N4|]. intros _. exact T4.
    - match type of Er with context [catch any_exception ?m ?h] =>
        assert (Hs : store (snd (m w4)) = store w4);
          [| destruct (guarded_setattr m resource "password" (VStr "***") w4
                         password Hs N4) as [G1 G2];
             unfold bind at 1 in Er;
             destruct (catch any_exception m h w4) as [[[] | e] w5] eqn:Ec;
             simpl in G1, G2; [|discriminate] ]
      end.
      + generalize w4.
        repeat (apply store_bind;
                [first [apply store_getattr | apply store_call] | intros ?]).
        reflexivity.
      + subst r. split; [reflexivity|]. split; [exact G2|]. discriminate. }
  destruct Hb as (B1 & B2 & B3). rewrite (catch_ok _ _ _ _ _ _ B1). auto.
Qed.

Lemma user_read_survives_authentication_on_refusal :
  let out := UserHandler.read_resource new_context 0 world_refusing_password in
  fst (getattr 0 "password" (snd out)) = Ok (VStr "***")
  /\ fst out = Ok (ctx_set new_context "user" user_found)
  /\ (fst (getattr 0 "password" (snd out)) = Ok (VStr "secret")
      \/ fst (getattr 0 "password" (snd out)) = Ok (VStr "***"))
  /\ (py_eq (VStr "secret") (VStr "") = true ->
      trace (snd out)
      = [mkCall "keystone.users.find" [kw [("name", VStr "u1")]]]).
Proof.
  split; [reflexivity|].
  apply (user_read_survives_authentication new_context 0 world_refusing_password
           (VStr "u1") (VStr "secret") user_found (VBool true)
           (VStr "u1@example.com")); reflexivity.
Defined.

(** ** Services *)

(** X28.  [read_resource] of the service handler, for a service that
    keystone does not have: it returns, where the handlers of projects and
    of users raise [ResourcePurged]; the resource is then purged and has
    lost its name, its type and its description, and the context holds
    [None] for the service, on which a [delete_resource] raises
    [AttributeError] and sends nothing. *)
Theorem missing_service_is_read_as_none : forall ctx resource w name type,
  fst (getattr resource "name" w) = Ok name ->
  fst (getattr resource "type" w) = Ok type ->
  let c := mkCall "keystone.services.find" [kw [("name", name); ("type", type)]] in
  adapter w (trace w) c = Raise KeystoneNotFound ->
  let out := ServiceHandler.read_resource ctx resource w in
  fst out = Ok (ctx_set ctx "service" VNone)
  /\ trace (snd out) = (trace w ++ [c])%list
  /\ fst (getattr resource "purged" (snd out)) = Ok (VBool true)
  /\ fst (getattr resource "name" (snd out)) = Ok VNone
  /\ fst (getattr resource "type" (snd out)) = Ok VNone
  /\ fst (getattr resource "description" (snd out)) = Ok VNone
  /\ forall w2,
       ServiceHandler.delete_resource (ctx_set ctx "service" VNone) resource w2
       = (Raise AttributeError, w2).
Proof.
  intros ctx resource w name type Hname Htype c Hfind out.
  unfold out, ServiceHandler.read_resource. clear out.
  match goal with |- fst ?t = _ /\ _ => remember t as r eqn:Er end.
  unfold bind at 1 in Er. unfold catch at 1 in Er.
  rewrite (bind_getattr_run _ _ _ _ _ _ Hname) in Er.
  rewrite (bind_getattr_run _ _ _ _ _ _ Htype) in Er.
  unfold bind at 1 in Er. unfold client_call at 1 in Er. fold c in Er.
  rewrite Hfind in Er. cbn [is_KeystoneNotFound] in Er.
  set (w1 := mkWorld (store w) (trace w ++ [c])%list (adapter w)) in Er.
  assert (N1 : fst (getattr resource "name" w1) = Ok name)
    by now apply reads_store with w.
  pose proof (setattr_ok resource "purged" (VBool true) _ _ _ N1) as S1.
  rewrite (setattr_run _ _ _ _ _ _ S1) in Er.
  set (w2 := snd (setattr resource "purged" (VBool true) w1)) in Er.
  assert (N2 : fst (getattr resource "name" w2) = Ok name).
  { unfold w2. rewrite (getattr_setattr _ _ _ _ _ S1). exact N1. }
  pose proof (setattr_ok resource "description" VNone _ _ _ N2) as S2.
  rewrite (setattr_run _ _ _ _ _ _ S2) in Er.
  set (w3 := snd (setattr resource "description" VNone w2)) in Er.
  assert (N3 : fst (getattr resource "name" w3) = Ok name).
  { unfold w3. rewrite (getattr_setattr _ _ _ _ _ S2). exact N2. }
  pose proof (setattr_ok resource "name" VNone _ _ _ N3) as S3.
  rewrite (setattr_run _ _ _ _ _ _ S3) in Er.
  set (w4 := snd (setattr resource "name" VNone w3)) in Er.
  assert (N4 : fst (getattr resource "name" w4) = Ok VNone).
  { unfold w4. now rewrite (getattr_setattr _ _ _ _ _ S3). }
  pose proof (setattr_ok resource "type" VNone _ _ _ N4) as S4.
  rewrite (setattr_run _ _ _ _ _ _ S4) in Er.
  set (w5 := snd (setattr resource "type" VNone w4)) in Er.
  unfold ret in Er. subst r. cbn [fst snd].
  split; [reflexivity|]. split.
  { unfold w5, w4, w3, w2. now rewrite !setattr_trace. }
  assert (G : forall field,
            fst (getattr resource field w5)
            = if String.eqb "type" field then Ok VNone
              else if String.eqb "name" field then Ok VNone
              else if String.eqb "description" field then Ok VNone
              else if String.eqb "purged" field then Ok (VBool true)
              else fst (getattr resource field w1)).
  { intros field. unfold w5, w4, w3, w2.
    now rewrite (getattr_setattr _ _ _ _ _ S4), (getattr_setattr _ _ _ _ _ S3),
      (getattr_setattr _ _ _ _ _ S2), (getattr_setattr _ _ _ _ _ S1). }
  rewrite !G. repeat (split; [reflexivity|]).
  intros w6. unfold ServiceHandler.delete_resource, ctx_get, ctx_set. cbn [ctx_values].
  now rewrite dict_get_set_same.
Qed.

Lemma missing_service_is_read_as_none_on_nova :
  let out := ServiceHandler.read_resource new_context 0 world_without_service in
  fst out = Ok (ctx_set new_context "service" VNone)
  /\ trace (snd out)
     = ([] ++ [mkCall "keystone.services.find"
                 [kw [("name", VStr "nova"); ("type", VStr "compute")]]])%list
  /\ fst (getattr 0 "purged" (snd out)) = Ok (VBool true)
  /\ fst (getattr 0 "name" (snd out)) = Ok VNone
  /\ fst (getattr 0 "type" (snd out)) = Ok VNone
  /\ fst (getattr 0 "description" (snd out)) = Ok VNone
  /\ forall w2,
       ServiceHandler.delete_resource (ctx_set new_context "service" VNone) 0 w2
       = (Raise AttributeError, w2).
Proof.
  apply (missing_service_is_read_as_none new_context 0 world_without_service
           (VStr "nova") (VStr "compute")); reflexivity.
Defined.

(* ================================================================== *)
(** * [do_changes] on an empty changeset *)
(* ================================================================== *)

(** The dictionary of the key pairs that nova lists, by name: the loop
    sends nothing, and the name of every key pair met is in the result. *)
Lemma keys_by_name : forall l acc w,
  let loop : M dict :=
    for_each l acc (fun keys k =>
      n <- lift (attr k "name") ;;
      s <- lift (as_key n) ;;
      ret (dict_set keys s k)) in
  snd (loop w) = w
  /\ forall keys, fst (loop w) = Ok keys ->
       (forall s, dict_has acc s = true -> dict_has keys s = true)
       /\ (forall k s, In k l -> attr k "name" = Ok (VStr s) -> dict_has keys s = true).
Proof.
  induction l as [|k l IH]; intros acc w; cbv zeta; cbn [for_each].
  - split; [reflexivity|]. intros keys H. inversion H; subst keys.
    split; [auto | intros k s []].
  - match goal with |- snd ?t = _ /\ _ => remember t as r eqn:Er end.
    unfold bind at 1 in Er.
    assert (Estep : (n <- lift (attr k "name") ;;
                     s <- lift (as_key n) ;; ret (dict_set acc s k)) w
                    = match attr k "name" with
                      | Ok n => match as_key n with
                                | Ok s => (Ok (dict_set acc s k), w)
                                | Raise e => (Raise e, w)
                                end
                      | Raise e => (Raise e, w)
                      end).
    { unfold bind, lift, ret. destruct (attr k "name") as [n|]; [|reflexivity].
      now destruct (as_key n). }
    rewrite Estep in Er. clear Estep.
    destruct (attr k "name") as [n | e] eqn:En;
      [| subst r; split; [reflexivity | discriminate]].
    destruct (as_key n) as [s | e] eqn:Es;
      [| subst r; split; [reflexivity | discriminate]].
    destruct (IH (dict_set acc s k) w) as [Hw Hk]. cbv zeta in Hw, Hk.
    subst r. split; [exact Hw|]. intros keys H. destruct (Hk keys H) as [H1 H2]. split.
    + intros s0 Hs0. apply H1. rewrite dict_has_set, Hs0. apply orb_true_r.
    + intros k0 s0 [<- | Hin] Hn.
      * rewrite En in Hn. inversion Hn; subst n. cbn in Es. inversion Es; subst s.
        apply H1. rewrite dict_has_set, String.eqb_refl. reflexivity.
      * now apply (H2 k0).
Qed.

(** C4, as the code has it.  On an empty changeset [do_changes] of the
    handlers on neutron sends no call that changes the remote state.  That
    of the host handler sends none but, possibly, the creation of the key
    pair, which comes before the changeset is looked at; and where nova
    lists a key pair of the name of the key of the host, it sends the
    listing of the key pairs and nothing else. *)
Theorem empty_changeset_calls : forall h strict resource w,
  (exists l, issued w (snd (do_changes h strict resource (VDict []) w)) l /\
     Forall (fun c => is_mutation c = false \/
                      (h = VMHandler /\ meth c = "nova.keypairs.create")) l)
  /\ (forall listed ks k s,
        adapter w (trace w) (mkCall "nova.keypairs.list" []) = Ok listed ->
        iterate listed = Ok ks ->
        In k ks -> attr k "name" = Ok (VStr s) ->
        fst (getattr resource "key_name" w) = Ok (VStr s) ->
        trace (snd (do_changes VMHandler strict resource (VDict []) w))
        = (trace w ++ [mkCall "nova.keypairs.list" []])%list).
Proof.
  intros h strict resource w. split.
  - assert (H : exists l, issued w (snd (do_changes h strict resource (VDict []) w)) l /\
              Forall (fun c => is_lookup c = true \/
                        In (meth c) (match h with
                                     | VMHandler => ["nova.keypairs.create"]
                                     | _ => []
                                     end)) l).
    { destruct h; unfold do_changes.
      - within ["nova.keypairs.create"] VM_do_changes_empty.
      - within no_calls Router_do_changes_empty.
      - within no_calls Subnet_do_changes_empty.
      - within no_calls RouterPort_do_changes_empty.
      - within no_calls HostPort_do_changes_empty.
      - within no_calls SG_do_changes_empty.
      - within no_calls FIP_do_changes_empty. }
    destruct H as [l [E F]]. exists l. split; [exact E|].
    eapply Forall_impl; [|exact F]. intros c [Hc | Hc].
    + left. now apply lookup_is_no_mutation.
    + destruct h; simpl in Hc; try contradiction.
      destruct Hc as [Hc | []]. right. now split.
  - intros listed ks k s Hlist Hit Hin Hname Hkey.
    unfold do_changes, VM.do_changes.
    match goal with |- trace (snd ?t) = _ => remember t as r eqn:Er end.
    unfold bind at 1 in Er. unfold client_call at 1 in Er. rewrite Hlist in Er.
    set (w1 := mkWorld (store w) (trace w ++ [mkCall "nova.keypairs.list" []])%list
                 (adapter w)) in Er.
    rewrite Hit, bind_lift_ok in Er.
    unfold bind at 1 in Er.
    destruct (keys_by_name ks [] w1) as [Hw Hk]. cbv zeta in Hw, Hk.
    match type of Hw with snd (?loop w1) = _ =>
      assert (El : loop w1 = (fst (loop w1), w1))
        by (rewrite <- Hw at 3; apply surjective_pairing);
      change (for_each ks [] _ w1) with (loop w1) in Er; rewrite El in Er;
      destruct (fst (loop w1)) as [keys | e] eqn:Ef
    end; [|now subst r].
    destruct (Hk keys eq_refl) as [_ Hhas].
    assert (N1 : fst (getattr resource "key_name" w1) = Ok (VStr s))
      by now apply reads_store with w.
    rewrite (bind_getattr_run _ _ _ _ _ _ N1) in Er.
    cbn [contains] in Er. rewrite (Hhas k s Hin Hname), bind_lift_ok in Er.
    cbn [negb] in Er. subst r. reflexivity.
Qed.

Lemma empty_changeset_calls_on_listed_key :
  fst (do_changes VMHandler true 0 (VDict []) world_with_key) = Ok (VBool true)
  /\ trace (snd (do_changes VMHandler true 0 (VDict []) world_with_key))
     = ([] ++ [mkCall "nova.keypairs.list" []])%list.
Proof.
  split; [reflexivity|].
  apply (proj2 (empty_changeset_calls VMHandler true 0 world_with_key)
           (VList [VDict [("id", VStr "key-1"); ("name", VStr "mykey")]])
           [VDict [("id", VStr "key-1"); ("name", VStr "mykey")]]
           (VDict [("id", VStr "key-1"); ("name", VStr "mykey")]) "mykey");
    solve [reflexivity | now left].
Defined.

(* ================================================================== *)
(** * [do_changes] on a changeset with the key ["purged"] *)
(* ================================================================== *)

Lemma calls_within_mono : forall (ok ok' : string -> bool) w w',
  (forall name, ok name = true -> ok' name = true) ->
  calls_within ok w w' -> calls_within ok' w w'.
Proof.
  intros ok ok' w w' H [l [E F]]. exists l. split; [exact E|].
  eapply Forall_impl; [|exact F]. intros c. apply H.
Qed.

Lemma lookups_and_more : forall extra name,
  lookups_and no_calls name = true -> lookups_and extra name = true.
Proof.
  intros extra name. unfold lookups_and, no_calls. simpl.
  rewrite orb_false_r. now intros ->.
Qed.

(** Lookups, then calls of one of two kinds. *)
Lemma lookups_then_either : forall A B (c : M A) (k : A -> M B) extra extra',
  (forall w, calls_within (lookups_and no_calls) w (snd (c w))) ->
  (forall a w, calls_within (lookups_and extra) w (snd (k a w))
               \/ calls_within (lookups_and extra') w (snd (k a w))) ->
  forall w, calls_within (lookups_and extra) w (snd (bind c k w))
            \/ calls_within (lookups_and extra') w (snd (bind c k w)).
Proof.
  intros A B c k extra extra' Hc Hk w. unfold bind. specialize (Hc w).
  destruct (c w) as [[a | e] w1]; cbn [snd] in *.
  - destruct (Hk a w1) as [H | H]; [left | right];
      (eapply calls_within_trans; [|exact H]);
      (eapply calls_within_mono; [|exact Hc]); apply lookups_and_more.
  - left. eapply calls_within_mono; [|exact Hc]. apply lookups_and_more.
Qed.

(** The relation on calls, for the lemmas on the operations that read. *)
Ltac reads lemma :=
  intros;
  first
    [ apply (lemma (fun _ : world => True) (calls_within (lookups_and no_calls))
               (calls_within_refl _) (calls_within_trans _) (fun _ _ _ _ => I)
               (lookups_and no_calls) (calls_within_call _)
               (lookups_and_lookup no_calls))
    | apply (lemma (fun _ : world => True) (calls_within (lookups_and no_calls))
               (calls_within_refl _) (calls_within_trans _) (fun _ _ _ _ => I))
    | apply (lemma (fun _ : world => True) (calls_within (lookups_and no_calls))
               (calls_within_refl _)) ];
  try reflexivity; try assumption; try exact I.

Lemma stops : forall extra extra' (w : world),
  calls_within (lookups_and extra) w w \/ calls_within (lookups_and extra') w w.
Proof. intros. left. apply calls_within_refl. Qed.

(** The calls of [HostPortHandler.do_changes] on such a changeset: the
    creation of a port and its attachment, or the edits of a port, never
    both. *)
Lemma HostPort_do_changes_purged : forall resource changes w,
  has_key "purged" changes = Ok true ->
  calls_within (lookups_and ["neutron.create_port"; "server.interface_attach"])
    w (snd (HostPort.do_changes resource changes w))
  \/ calls_within (lookups_and ["neutron.update_port"])
       w (snd (HostPort.do_changes resource changes w)).
Proof.
  intros resource changes w Hp. revert w. unfold HostPort.do_changes.
  apply lookups_then_either; [reads respects_getattr | intros project].
  apply lookups_then_either; [reads get_project_id_respects | intros project_id].
  destruct (is_none project_id); [intros w; apply stops|].
  apply lookups_then_either; [reads respects_getattr | intros subnet].
  apply lookups_then_either; [reads get_subnet_id_respects | intros subnet_id].
  destruct (is_none subnet_id); [intros w; apply stops|].
  apply lookups_then_either; [reads respects_getattr | intros network].
  apply lookups_then_either; [reads get_network_id_respects | intros network_id].
  destruct (is_none network_id); [intros w; apply stops|].
  apply lookups_then_either; [reads respects_getattr | intros host].
  apply lookups_then_either; [reads get_host_respects | intros vm].
  destruct (is_none vm); [intros w; apply stops|].
  apply lookups_then_either; [reads respects_lift | intros vm_id].
  apply lookups_then_either; [reads HostPort_get_port_respects | intros port].
  intros w. destruct (is_none port) eqn:Ep.
  - destruct port; try discriminate. left.
    apply (HostPort_create_respects (fun _ : world => True)
             (calls_within (lookups_and ["neutron.create_port"; "server.interface_attach"]))
             (calls_within_refl _) (calls_within_trans _) (fun _ _ _ _ => I)
             (lookups_and ["neutron.create_port"; "server.interface_attach"])
             (calls_within_call _));
      solve [assumption | reflexivity | exact I].
  - right.
    apply (HostPort_edit_respects (fun _ : world => True)
             (calls_within (lookups_and ["neutron.update_port"]))
             (calls_within_refl _) (calls_within_trans _) (fun _ _ _ _ => I)
             (lookups_and ["neutron.update_port"])
             (calls_within_call _) (lookups_and_lookup _));
      solve [assumption | reflexivity | exact I].
Qed.

Lemma get_project_id_store : forall resource name w,
  store (snd (get_project_id resource name w)) = store w.
Proof.
  intros resource name w.
  apply (get_project_id_respects (fun _ => True) (fun w w' => store w' = store w)
           (fun _ => eq_refl) (fun a b c H1 H2 => eq_trans H2 H1) (fun _ _ _ _ => I)
           (fun _ => true) (fun _ _ _ _ _ => eq_refl) (fun _ _ => eq_refl)
           resource name w I).
Qed.

(** C1, as the code has it.  On a changeset with the key ["purged"] the
    host, router, subnet, router port and floating ip handlers send,
    besides lookups, only the calls of the existence transition of their
    resource, whatever else the changeset holds; the security group
    handler sends the calls that create or delete the group and the calls
    that create and delete its rules, and never the update of the group;
    the host port handler sends the creation of a port and its attachment
    or the updates of a port, never both.  The router handler, on the
    creation of a router whose project keystone has, sends the creation of
    the router as its last call: it ends there, in the [TypeError] of
    [self.facts(resource)] or in the failure of the creation. *)
Theorem purged_changeset_calls : forall h strict resource changes w,
  has_key "purged" changes = Ok true ->
  (h = RouterHandler -> strict = true) ->
  let out := do_changes h strict resource changes w in
  (h <> HostPortHandler ->
   exists l, issued w (snd out) l /\
     Forall (fun c => is_lookup c = true \/ In (meth c) (transition_calls h)) l)
  /\ (h = HostPortHandler ->
      exists l, issued w (snd out) l /\
        (Forall (fun c => is_lookup c = true \/
                   In (meth c) ["neutron.create_port"; "server.interface_attach"]) l
         \/ Forall (fun c => is_lookup c = true \/
                      In (meth c) ["neutron.update_port"]) l))
  /\ (h = RouterHandler ->
      forall project pid name was to,
        fst (getattr resource "project" w) = Ok project ->
        fst (get_project_id resource project w) = Ok pid ->
        is_none pid = false ->
        item changes "purged" = Ok (VTuple [was; to]) ->
        truthy to = false ->
        fst (getattr resource "name" w) = Ok name ->
        let w1 := snd (get_project_id resource project w) in
        let c := mkCall "neutron.create_router"
                   [VDict [("router", VDict [("name", name); ("tenant_id", pid)])]] in
        trace (snd out) = (trace w1 ++ [c])%list
        /\ fst out = match adapter w1 (trace w1) c with
                     | Ok _ => Raise TypeError
                     | Raise e => Raise e
                     end).
Proof.
  intros h strict resource changes w Hp Hs out. unfold out. clear out.
  split; [|split].
  - intros Hh. destruct h; try congruence; unfold do_changes, transition_calls.
    + within ["nova.keypairs.create"; "nova.servers.create"; "server.delete"]
        VM_do_changes_purged.
    + rewrite (Hs eq_refl).
      within ["neutron.create_router"; "neutron.delete_router"] Router_do_changes_purged.
    + within ["neutron.create_subnet"; "neutron.delete_subnet"] Subnet_do_changes_purged.
    + within ["neutron.create_port"; "neutron.add_interface_router"]
        RouterPort_do_changes_purged.
    + within ["neutron.create_security_group"; "neutron.delete_security_group";
              "neutron.create_security_group_rule"; "neutron.delete_security_group_rule"]
        SG_do_changes_purged.
    + within ["neutron.update_floatingip"; "neutron.create_floatingip";
              "neutron.delete_floatingip"] FIP_do_changes_purged.
  - intros ->. unfold do_changes.
    destruct (HostPort_do_changes_purged resource changes w Hp) as [H | H];
      destruct (within_lookups_and _ _ _ H) as [l [E F]]; exists l; auto.
  - intros -> project pid name was to Hproj Hpid Hnone Hitem Hto Hname.
    set (w1 := snd (get_project_id resource project w)).
    set (c := mkCall "neutron.create_router"
                [VDict [("router", VDict [("name", name); ("tenant_id", pid)])]]).
    rewrite (Hs eq_refl). unfold do_changes, Router.do_changes.
    match goal with |- trace (snd ?t) = _ /\ _ => remember t as r eqn:Er end.
    rewrite (bind_getattr_run _ _ _ _ _ _ Hproj) in Er.
    unfold bind at 1 in Er.
    assert (Eg : get_project_id resource project w = (Ok pid, w1)).
    { unfold w1. rewrite <- Hpid. apply surjective_pairing. }
    rewrite Eg, Hnone, Hp, bind_lift_ok in Er.
    cbv beta iota in Er.
    rewrite bind_assoc_run in Er. unfold change_of at 1 in Er.
    rewrite bind_assoc_run, Hitem, bind_lift_ok in Er.
    change (at_ (VTuple [was; to]) 1) with (Ok to) in Er.
    rewrite bind_lift_ok, Hto in Er. cbn [negb] in Er.
    assert (N1 : fst (getattr resource "name" w1) = Ok name).
    { apply reads_store with w; [apply get_project_id_store | exact Hname]. }
    rewrite bind_assoc_run, (bind_getattr_run _ _ _ _ _ _ N1) in Er.
    rewrite bind_assoc_run in Er. unfold bind at 1 in Er.
    unfold client_call at 1 in Er. fold c in Er.
    destruct (adapter w1 (trace w1) c) as [created | e]; subst r; split; reflexivity.
Qed.

Lemma purged_changeset_calls_on_router :
  let out := do_changes RouterHandler true 0 create_router_with_subnet world_with_tenant in
  trace (snd out)
  = [mkCall "keystone.tenants.find" [kw [("name", VStr "p1")]];
     mkCall "neutron.create_router"
       [VDict [("router", VDict [("name", VStr "r1"); ("tenant_id", VStr "proj-1")])]]]
  /\ fst out = Raise TypeError.
Proof.
  apply (proj2 (proj2 (purged_changeset_calls RouterHandler true 0
                         create_router_with_subnet world_with_tenant eq_refl
                         (fun _ => eq_refl)))
           eq_refl (VStr "p1") (VStr "proj-1") (VStr "r1") (VBool true) (VBool false));
    reflexivity.
Defined.

(* ================================================================== *)
(** * The rules of a security group, one by one *)
(* ================================================================== *)

Lemma dict_get_del_other : forall d k k',
  k' <> k -> dict_get (dict_del d k) k' = dict_get d k'.
Proof.
  induction d as [|[k0 v0] d IH]; intros k k' H; [reflexivity|]. simpl.
  destruct (String.eqb k0 k) eqn:E.
  - apply String.eqb_eq in E. subst k0.
    destruct (String.eqb k k') eqn:E'; [|reflexivity].
    apply String.eqb_eq in E'. congruence.
  - simpl. destruct (String.eqb k0 k'); [reflexivity | now apply IH].
Qed.

(** The rule names a remote group that the remote side lists: the group
    is looked up, and the rule is sent with its id. *)
Lemma create_rule_of_group_eq :
  forall (Z : dict) group_id protocol g listed first rest gid w v,
  dict_get Z "remote_group" = Some g -> is_none g = false ->
  dict_get Z "protocol" = Some protocol ->
  adapter w (trace w) (mkCall "neutron.list_security_groups" [kw [("name", g)]])
    = Ok listed ->
  item listed "security_groups" = Ok (VList (first :: rest)) ->
  item first "id" = Ok gid ->
  adapter w (trace w ++ [mkCall "neutron.list_security_groups" [kw [("name", g)]]])%list
    (mkCall "neutron.create_security_group_rule"
       [VDict [("security_group_rule",
                VDict (sent_rule_of_group Z group_id protocol gid))]]) = Ok v ->
  SecurityGroup.create_rule group_id (VDict Z) w =
    (Ok tt,
     mkWorld (store w)
       (trace w ++ [mkCall "neutron.list_security_groups" [kw [("name", g)]];
                    mkCall "neutron.create_security_group_rule"
                      [VDict [("security_group_rule",
                               VDict (sent_rule_of_group Z group_id protocol gid))]]])%list
       (adapter w)).
Proof.
  intros Z group_id protocol g listed first rest gid w v Hg Hn Hproto Hl Hgroups Hid Hv.
  assert (Hhas : dict_has (dict_set Z "ethertype" (VStr "IPv4")) "remote_group" = true).
  { unfold dict_has. rewrite dict_get_set_other by discriminate. now rewrite Hg. }
  unfold SecurityGroup.create_rule.
  cbn [bind lift ret set_item has_key contains item subscript].
  rewrite Hhas. cbn [bind lift ret set_item has_key contains item subscript].
  rewrite dict_get_set_other by discriminate. rewrite Hg.
  rewrite bind_assoc_run, bind_lift_ok, Hn. cbn [negb].
  rewrite bind_assoc_run, bind_lift_ok.
  rewrite bind_assoc_run. unfold bind at 1. unfold client_call at 1. rewrite Hl.
  rewrite bind_assoc_run, Hgroups, bind_lift_ok.
  rewrite bind_assoc_run. cbn [py_len List.length]. rewrite bind_lift_ok. cbn [Nat.eqb].
  rewrite bind_assoc_run. cbn [del_item]. rewrite Hhas, bind_lift_ok.
  rewrite bind_assoc_run.
  change (at_ (VList (first :: rest)) 0) with (Ok first).
  rewrite bind_lift_ok.
  rewrite bind_assoc_run, Hid, bind_lift_ok.
  rewrite bind_assoc_run. cbn [set_item]. rewrite bind_lift_ok, bind_ret_run.
  cbn [set_item]. rewrite bind_lift_ok. cbn [item subscript].
  rewrite !dict_get_set_other by discriminate.
  rewrite dict_get_del_other by discriminate.
  rewrite dict_get_set_other by discriminate. rewrite Hproto, bind_lift_ok.
  unfold sent_rule_of_group in *.
  destruct (py_eq protocol (VStr "all"));
    cbn [set_item]; unfold bind, lift, client_call, ret;
    cbn [fst snd store trace adapter]; rewrite Hv; now rewrite <- app_assoc.
Qed.

(** The rule names a remote group that the remote side does not list: the
    group is looked up, and the rule is not sent. *)
Lemma create_rule_skipped_eq : forall (Z : dict) group_id g listed groups w,
  dict_get Z "remote_group" = Some g -> is_none g = false ->
  adapter w (trace w) (mkCall "neutron.list_security_groups" [kw [("name", g)]])
    = Ok listed ->
  item listed "security_groups" = Ok groups ->
  py_len groups = Ok 0 ->
  SecurityGroup.create_rule group_id (VDict Z) w =
    (Ok tt,
     mkWorld (store w)
       (trace w ++ [mkCall "neutron.list_security_groups" [kw [("name", g)]]])%list
       (adapter w)).
Proof.
  intros Z group_id g listed groups w Hg Hn Hl Hgroups Hlen.
  assert (Hhas : dict_has (dict_set Z "ethertype" (VStr "IPv4")) "remote_group" = true).
  { unfold dict_has. rewrite dict_get_set_other by discriminate. now rewrite Hg. }
  unfold SecurityGroup.create_rule.
  cbn [bind lift ret set_item has_key contains item subscript].
  rewrite Hhas. cbn [bind lift ret set_item has_key contains item subscript].
  rewrite dict_get_set_other by discriminate. rewrite Hg.
  rewrite bind_assoc_run, bind_lift_ok, Hn. cbn [negb].
  rewrite bind_assoc_run, bind_lift_ok.
  rewrite bind_assoc_run. unfold bind at 1. unfold client_call at 1. rewrite Hl.
  rewrite bind_assoc_run, Hgroups, bind_lift_ok.
  rewrite bind_assoc_run, Hlen, bind_lift_ok. reflexivity.
Qed.

(** C5, as the code has it.  Of current rules [{X, Y'}] and desired rules
    [{Y, Z}], in any order, where [Y'] matches [Y] and neither [X] nor [Z]
    is matched, [_update_rules] sends no call for [Y] and deletes [X] by
    its id, after the calls for [Z].  Where [Z] names no remote group, the
    one call for [Z] is its creation, as a rule of the group.  Where [Z]
    names a remote group that the remote side lists, the group is looked
    up and [Z] is created with the id of the first group listed in the
    place of the name.  Where the remote side lists no such group, the
    lookup is the only call for [Z]: the rule is not created.  The
    creations are those the remote side accepts. *)
Theorem rules_diff_calls :
  forall (X Y' Y Z : dict) cur des group_id resource changes w id,
  Permutation cur [VDict X; VDict Y'] ->
  Permutation des [VDict Y; VDict Z] ->
  item changes "rules" = Ok (VTuple [VList cur; VList des]) ->
  SecurityGroup._compare_rule (VDict Y') (VDict Y) = Ok true ->
  SecurityGroup._compare_rule (VDict X) (VDict Y) = Ok false ->
  SecurityGroup._compare_rule (VDict X) (VDict Z) = Ok false ->
  SecurityGroup._compare_rule (VDict Y') (VDict Z) = Ok false ->
  wf_dict Y' = true -> wf_dict Y = true ->
  py_eq (VDict X) (VDict Y') = false ->
  py_eq (VDict Z) (VDict Y) = false ->
  dict_get X "__id" = Some id ->
  let w' := snd (SecurityGroup._update_rules group_id resource changes w) in
  let delete := mkCall "neutron.delete_security_group_rule" [id] in
  let create rule :=
    mkCall "neutron.create_security_group_rule"
      [VDict [("security_group_rule", VDict rule)]] in
  let find g := mkCall "neutron.list_security_groups" [kw [("name", g)]] in
  (forall protocol,
     dict_has Z "remote_group" = false ->
     dict_get Z "protocol" = Some protocol ->
     (forall t c, meth c = "neutron.create_security_group_rule" ->
                  exists v, adapter w t c = Ok v) ->
     issued w w' [create (sent_rule Z group_id protocol); delete])
  /\ (forall protocol g listed first rest gid,
        dict_get Z "remote_group" = Some g -> is_none g = false ->
        dict_get Z "protocol" = Some protocol ->
        adapter w (trace w) (find g) = Ok listed ->
        item listed "security_groups" = Ok (VList (first :: rest)) ->
        item first "id" = Ok gid ->
        (forall t c, meth c = "neutron.create_security_group_rule" ->
                     exists v, adapter w t c = Ok v) ->
        issued w w'
          [find g; create (sent_rule_of_group Z group_id protocol gid); delete])
  /\ (forall g listed groups,
        dict_get Z "remote_group" = Some g -> is_none g = false ->
        adapter w (trace w) (find g) = Ok listed ->
        item listed "security_groups" = Ok groups ->
        py_len groups = Ok 0 ->
        issued w w' [find g; delete]).
Proof.
  intros X Y' Y Z cur des group_id resource changes w id
    Hc Hd Hitem HY HXY HXZ HYZ WY' WY NX NZ Hid w' delete create find.
  pose proof (match_rules_leaves X Y' Y Z cur des Hc Hd HY HXY HXZ HYZ WY' WY NX NZ) as Hm.
  assert (Hrun : forall w1,
            SecurityGroup.create_rule group_id (VDict Z) w = (Ok tt, w1) ->
            trace w' = (trace w1 ++ [delete])%list).
  { intros w1 Hw1. unfold w', SecurityGroup._update_rules. unfold bind at 1.
    rewrite (unmatched_rules_eq changes cur des _ w Hitem Hm).
    unfold for_. cbn [for_each]. unfold bind at 1. unfold bind at 1.
    rewrite Hw1. cbn [ret]. unfold bind at 1.
    pose proof (delete_rule_trace X id w1 Hid) as Ht.
    destruct (SecurityGroup.delete_rule (VDict X) w1) as [[[] | e] w2];
      simpl in Ht |- *; exact Ht. }
  split; [|split].
  - intros protocol Hrg Hproto Hcreate.
    destruct (Hcreate (trace w) (create (sent_rule Z group_id protocol)) eq_refl)
      as [v Hv].
    unfold issued. rewrite (Hrun _ (create_rule_eq Z group_id protocol w v Hrg Hproto Hv)).
    cbn [trace]. now rewrite <- app_assoc.
  - intros protocol g listed first rest gid Hg Hn Hproto Hl Hgroups Hgid Hcreate.
    destruct (Hcreate (trace w ++ [find g])%list
                (create (sent_rule_of_group Z group_id protocol gid)) eq_refl)
      as [v Hv].
    unfold issued.
    rewrite (Hrun _ (create_rule_of_group_eq Z group_id protocol g listed first rest gid
                       w v Hg Hn Hproto Hl Hgroups Hgid Hv)).
    cbn [trace]. now rewrite <- app_assoc.
  - intros g listed groups Hg Hn Hl Hgroups Hlen.
    unfold issued.
    rewrite (Hrun _ (create_rule_skipped_eq Z group_id g listed groups w
                       Hg Hn Hl Hgroups Hlen)).
    cbn [trace]. now rewrite <- app_assoc.
Qed.

Lemma rules_diff_calls_on_db_rule :
  let changes := rules_changeset http_rule_read ssh_rule_read ssh_rule db_rule in
  issued world_with_remote_group
    (snd (SecurityGroup._update_rules (VStr "sg-1") 0 changes world_with_remote_group))
    [mkCall "neutron.list_security_groups" [kw [("name", VStr "db")]];
     mkCall "neutron.create_security_group_rule"
       [VDict [("security_group_rule",
                VDict [("protocol", VStr "tcp"); ("direction", VStr "ingress");
                       ("port_range_min", VInt 5432); ("port_range_max", VInt 5432);
                       ("ethertype", VStr "IPv4"); ("remote_group_id", VStr "sg-db");
                       ("security_group_id", VStr "sg-1")])]];
     mkCall "neutron.delete_security_group_rule" [VStr "rule-x"]].
Proof.
  apply (proj1 (proj2 (rules_diff_calls http_rule_read ssh_rule_read ssh_rule db_rule
                         [VDict http_rule_read; VDict ssh_rule_read]
                         [VDict ssh_rule; VDict db_rule]
                         (VStr "sg-1") 0
                         (rules_changeset http_rule_read ssh_rule_read ssh_rule db_rule)
                         world_with_remote_group (VStr "rule-x")
                         (Permutation_refl _) (Permutation_refl _) eq_refl eq_refl
                         eq_refl eq_refl eq_refl eq_refl eq_refl eq_refl eq_refl eq_refl))
           (VStr "tcp") (VStr "db")
           (VDict [("security_groups",
                    VList [VDict [("id", VStr "sg-db"); ("name", VStr "db")]])])
           (VDict [("id", VStr "sg-db"); ("name", VStr "db")]) [] (VStr "sg-db"));
    try reflexivity.
  intros t c Hc. unfold world_with_remote_group, answering.
  cbn [adapter find fst snd]. rewrite Hc. eexists. reflexivity.
Defined.

(* ================================================================== *)
(** * What [check_resource] returns *)
(* ================================================================== *)

Lemma bind_ok : forall A B (m : M A) (k : A -> M B) w b,
  fst (bind m k w) = Ok b ->
  exists a, fst (m w) = Ok a /\ bind m k w = k a (snd (m w)).
Proof.
  intros A B m k w b. unfold bind.
  destruct (m w) as [[a | e] w1]; [|discriminate].
  intros _. exists a. split; reflexivity.
Qed.

(** One step of a run that returns. *)
Tactic Notation "next" hyp(H) hyp(Eo) "as" ident(x) ident(Hx) :=
  let H1 := fresh "H" in
  let E := fresh "E" in
  pose proof H as H1; rewrite Eo in H1;
  first [ destruct (bind_getattr_ok _ _ _ _ _ _ H1) as (x & Hx & E)
        | destruct (bind_ok _ _ _ _ _ _ H1) as (x & Hx & E) ];
  rewrite E in Eo; clear E H1.

Lemma setattr_adapter : forall r name v w,
  adapter (snd (setattr r name v w)) = adapter w.
Proof. intros r name v w. unfold setattr. now destruct (nth_error (store w) r). Qed.

Lemma setattr_store_length : forall r name v w,
  List.length (store (snd (setattr r name v w))) = List.length (store w).
Proof.
  intros r name v w. unfold setattr. destruct (nth_error (store w) r); [|reflexivity].
  simpl. apply length_update_nth.
Qed.

Lemma clone_adapter : forall r w,
  adapter (snd (clone r w)) = adapter w /\ trace (snd (clone r w)) = trace w.
Proof. intros r w. unfold clone. now destruct (nth_error (store w) r). Qed.

(** The relations "same store" and "same remote side", for the lemmas on
    the lookups. *)
Ltac same_store lemma :=
  intros;
  apply (lemma (fun _ : world => True) (fun w w' : world => store w' = store w)
           (fun _ => eq_refl) (fun a b c H1 H2 => eq_trans H2 H1) (fun _ _ _ _ => I)
           (fun _ : string => true) (fun _ _ _ _ _ => eq_refl) (fun _ _ => eq_refl));
  exact I.

Ltac same_adapter lemma :=
  intros;
  apply (lemma (fun _ : world => True) (fun w w' : world => adapter w' = adapter w)
           (fun _ => eq_refl) (fun a b c H1 H2 => eq_trans H2 H1) (fun _ _ _ _ => I)
           (fun _ : string => true) (fun _ _ _ _ _ => eq_refl) (fun _ _ => eq_refl));
  exact I.

Lemma get_vm_store : forall name w, store (snd (VM.get_vm name w)) = store w.
Proof. same_store VM_get_vm_respects. Qed.

Lemma get_vm_adapter : forall name w, adapter (snd (VM.get_vm name w)) = adapter w.
Proof. same_adapter VM_get_vm_respects. Qed.

(** The names of the security groups of a server: the loop sends nothing. *)
Lemma names_of_groups : forall l acc w,
  let loop : M (list value) :=
    for_each l acc (fun names sg =>
      n <- lift (attr sg "name") ;; ret (names ++ [n])%list) in
  snd (loop w) = w
  /\ forall r, fst (loop w) = Ok r ->
       exists names, r = (acc ++ names)%list
                     /\ Forall2 (fun sg n => attr sg "name" = Ok n) l names.
Proof.
  induction l as [|sg l IH]; intros acc w; cbv zeta; cbn [for_each].
  - split; [reflexivity|]. intros r H. inversion H. exists [].
    rewrite app_nil_r. split; [reflexivity | constructor].
  - match goal with |- snd ?t = _ /\ _ => remember t as out eqn:Eo end.
    rewrite bind_assoc_run in Eo.
    destruct (attr sg "name") as [n | e] eqn:En;
      [rewrite bind_lift_ok, bind_ret_run in Eo
      | subst out; split; [reflexivity | discriminate]].
    destruct (IH (acc ++ [n])%list w) as [Hw Hr]. cbv zeta in Hw, Hr. subst out.
    split; [exact Hw|]. intros r H. destruct (Hr r H) as (names & -> & F).
    exists (n :: names). split; [now rewrite <- app_assoc | now constructor].
Qed.

(** The read of a host: the clone is purged where nova lists no server of
    the name, and has the security groups of the server where it lists
    one. *)
Lemma VM_read : forall resource w c,
  fst (VM.check_resource resource w) = Ok c ->
  let w0 := snd (clone resource w) in
  let w' := snd (VM.check_resource resource w) in
  exists name server,
    fst (getattr resource "name" w0) = Ok name
    /\ fst (VM.get_vm name w0) = Ok server
    /\ fst (getattr c "purged" w') = Ok (VBool (is_none server))
    /\ (is_none server = false ->
        exists groups l names,
          adapter w (trace (snd (VM.get_vm name w0)))
            (mkCall "server.list_security_group" [server]) = Ok groups
          /\ iterate groups = Ok l
          /\ Forall2 (fun sg n => attr sg "name" = Ok n) l names
          /\ fst (getattr c "security_groups" w') = Ok (VList names)).
Proof.
  intros resource w c H w0 w'. subst w'.
  remember (VM.check_resource resource w) as out eqn:Eo.
  unfold VM.check_resource in Eo.
  next H Eo as c0 Hc0. fold w0 in Eo.
  next H Eo as name Hname.
  next H Eo as server Hserver.
  set (w1 := snd (VM.get_vm name w0)) in *.
  exists name, server. split; [exact Hname|]. split; [exact Hserver|].
  destruct (is_none server) eqn:Es.
  - next H Eo as u Hset. destruct u. unfold ret in Eo. subst out.
    cbn [fst snd] in H |- *. inversion H. subst c0. split; [|discriminate].
    now rewrite (getattr_setattr _ _ _ _ _ Hset).
  - next H Eo as u Hset. destruct u.
    set (w2 := snd (setattr c0 "purged" (VBool false) w1)) in *.
    next H Eo as groups Hgroups.
    set (w3 := snd (client_call "server.list_security_group" [server] w2)) in *.
    next H Eo as l Hl. cbn [lift fst snd] in Hl, Eo.
    destruct (names_of_groups l [] w3) as [Hw Hr]. cbv zeta in Hw, Hr.
    next H Eo as names0 Hnames. rewrite Hw in Eo.
    destruct (Hr names0 Hnames) as (names & -> & F). cbn [app] in Eo.
    next H Eo as u Hset2. destruct u. unfold ret in Eo. subst out.
    cbn [fst snd] in H |- *. inversion H. subst c0.
    assert (P2 : fst (getattr c "purged" w2) = Ok (VBool false)).
    { unfold w2. now rewrite (getattr_setattr _ _ _ _ _ Hset). }
    split.
    + rewrite (getattr_setattr _ _ _ _ _ Hset2). cbn [String.eqb Ascii.eqb Bool.eqb].
      now apply reads_store with w2.
    + intros _. exists groups, l, names. split; [|split; [exact Hl | split; [exact F|]]].
      * unfold client_call in Hgroups. cbn [fst] in Hgroups.
        unfold w2 in Hgroups. rewrite setattr_adapter, setattr_trace in Hgroups.
        unfold w1 in Hgroups at 1. rewrite get_vm_adapter in Hgroups.
        unfold w0 in Hgroups at 1. now rewrite (proj1 (clone_adapter _ _)) in Hgroups.
      * rewrite (getattr_setattr _ _ _ _ _ Hset2). now rewrite String.eqb_refl.
Qed.

(** The read of a floating ip: the clone is purged where the port has no
    floating ip, and not purged where it has one. *)
Lemma FIP_read : forall resource w c,
  fst (FloatingIP.check_resource resource w) = Ok c ->
  let w0 := snd (clone resource w) in
  let w' := snd (FloatingIP.check_resource resource w) in
  exists port port_id fip,
    fst (getattr resource "port" w0) = Ok port
    /\ fst (FloatingIP.get_port_id port w0) = Ok port_id
    /\ fst (FloatingIP.get_floating_ip port_id (snd (FloatingIP.get_port_id port w0)))
       = Ok fip
    /\ fst (getattr c "purged" w') = Ok (VBool (is_none fip)).
Proof.
  intros resource w c H w0 w'. subst w'.
  remember (FloatingIP.check_resource resource w) as out eqn:Eo.
  unfold FloatingIP.check_resource in Eo.
  next H Eo as c0 Hc0. fold w0 in Eo.
  next H Eo as port Hport.
  next H Eo as port_id Hid.
  next H Eo as fip Hfip.
  exists port, port_id, fip. repeat (split; [assumption|]).
  destruct (is_none fip); next H Eo as u Hset; destruct u; unfold ret in Eo; subst out;
    cbn [fst snd] in H |- *; inversion H; subst c0;
    now rewrite (getattr_setattr _ _ _ _ _ Hset).
Qed.

Lemma read_rule_store : forall rule w,
  store (snd (SecurityGroup.read_rule rule w)) = store w.
Proof. same_store SG_read_rule_respects. Qed.

Lemma read_rule_adapter : forall rule w,
  adapter (snd (SecurityGroup.read_rule rule w)) = adapter w.
Proof. same_adapter SG_read_rule_respects. Qed.

(** The loop over the rules of the remote group: the rules of ethertype
    IPv4 are read, in their order, and appended to the rules of the clone;
    the other attributes of the clone stay. *)
Lemma rules_read : forall current l w acc,
  fst (getattr current "rules" w) = Ok (VList acc) ->
  let loop :=
    for_ l (fun rule =>
      ethertype <- lift (item rule "ethertype") ;;
      if negb (py_eq ethertype (VStr "IPv4")) then ret tt
      else
        current_rule <- SecurityGroup.read_rule rule ;;
        SecurityGroup.append_rule current current_rule) in
  fst (loop w) = Ok tt ->
  exists rules,
    fst (getattr current "rules" (snd (loop w))) = Ok (VList (acc ++ rules)%list)
    /\ Forall2 (read_of_rule w) (filter is_ipv4 l) rules
    /\ (forall field, field <> "rules" ->
          fst (getattr current field (snd (loop w))) = fst (getattr current field w)).
Proof.
  intros current l. induction l as [|rule l IH]; intros w acc Hacc; cbv zeta;
    unfold for_; cbn [for_each filter].
  - intros _. exists []. rewrite app_nil_r. cbn [ret snd].
    split; [exact Hacc|]. split; [constructor | reflexivity].
  - intros H.
    match type of H with fst ?t = _ => remember t as out eqn:Eo end.
    rewrite bind_assoc_run in Eo.
    next H Eo as ethertype He. cbn [lift fst snd] in He, Eo.
    assert (Hv : is_ipv4 rule = py_eq ethertype (VStr "IPv4")).
    { unfold is_ipv4. now rewrite He. }
    rewrite Hv. destruct (py_eq ethertype (VStr "IPv4")); cbn [negb] in Eo.
    + rewrite bind_assoc_run in Eo.
      next H Eo as r Hr. set (w1 := snd (SecurityGroup.read_rule rule w)) in *.
      assert (S1 : store w1 = store w) by apply read_rule_store.
      assert (A1 : adapter w1 = adapter w) by apply read_rule_adapter.
      assert (N1 : fst (getattr current "rules" w1) = Ok (VList acc))
        by now apply reads_store with w.
      unfold SecurityGroup.append_rule in Eo.
      rewrite bind_assoc_run, (bind_getattr_run _ _ _ _ _ _ N1) in Eo.
      next H Eo as u Hset. destruct u.
      set (w2 := snd (setattr current "rules" (VList (acc ++ [r])%list) w1)) in *.
      assert (N2 : fst (getattr current "rules" w2) = Ok (VList (acc ++ [r])%list)).
      { unfold w2. now rewrite (getattr_setattr _ _ _ _ _ Hset). }
      subst out. destruct (IH w2 _ N2 H) as (rules & Hrules & F & Hother).
      exists (r :: rules). split; [now rewrite <- app_assoc in Hrules|]. split.
      * constructor; [exists w; split; [reflexivity | exact Hr]|].
        assert (A2 : adapter w2 = adapter w).
        { unfold w2. now rewrite setattr_adapter. }
        clear - F A2. induction F as [|x y l1 l2 (w3 & A3 & R3) _ IHF]; constructor.
        -- exists w3. split; [congruence | exact R3].
        -- exact IHF.
      * intros field Hf. etransitivity; [exact (Hother field Hf)|]. unfold w2.
        rewrite (getattr_setattr _ _ _ _ _ Hset).
        destruct (String.eqb "rules" field) eqn:Ef.
        -- apply String.eqb_eq in Ef. congruence.
        -- now apply getattr_same_store.
    + rewrite bind_ret_run in Eo. subst out. now apply IH.
Qed.

Lemma SG_get_security_group_store : forall name id w,
  store (snd (SecurityGroup.get_security_group name id w)) = store w.
Proof. same_store SG_get_security_group_respects. Qed.

(** What [clone] copies. *)
Lemma clone_reads : forall r w c field,
  fst (clone r w) = Ok c ->
  c = List.length (store w)
  /\ fst (getattr c field (snd (clone r w))) = fst (getattr r field w)
  /\ fst (getattr r field (snd (clone r w))) = fst (getattr r field w).
Proof.
  intros r w c field. unfold clone, getattr.
  destruct (nth_error (store w) r) as [o|] eqn:E; [|discriminate].
  cbn [fst snd store]. intros H. inversion H. split; [reflexivity|]. split.
  - rewrite nth_error_app2 by lia. rewrite Nat.sub_diag. cbn [nth_error].
    now destruct (dict_get (obj_attrs o) field).
  - rewrite nth_error_app1 by (apply nth_error_Some; congruence). rewrite E.
    now destruct (dict_get (obj_attrs o) field).
Qed.

(** The read of a security group: the clone is purged and without rules
    where the remote side lists no group of the name; where it lists one,
    the clone has its description and the reads of its rules of ethertype
    IPv4, and is purged or not as the resource declares. *)
Lemma SG_read : forall resource w c,
  fst (SecurityGroup.check_resource resource w) = Ok c ->
  let w0 := snd (clone resource w) in
  let w' := snd (SecurityGroup.check_resource resource w) in
  exists name sg,
    fst (getattr resource "name" w0) = Ok name
    /\ fst (SecurityGroup.get_security_group name VNone w0) = Ok sg
    /\ (is_none sg = true ->
        fst (getattr c "purged" w') = Ok (VBool true)
        /\ fst (getattr c "rules" w') = Ok (VList []))
    /\ (is_none sg = false ->
        exists description listed l rules,
          item sg "description" = Ok description
          /\ item sg "security_group_rules" = Ok listed
          /\ iterate listed = Ok l
          /\ fst (getattr c "description" w') = Ok description
          /\ fst (getattr c "rules" w') = Ok (VList rules)
          /\ Forall2 (read_of_rule w) (filter is_ipv4 l) rules
          /\ fst (getattr c "purged" w') = fst (getattr resource "purged" w)).
Proof.
  intros resource w c H w0 w'. subst w'.
  remember (SecurityGroup.check_resource resource w) as out eqn:Eo.
  unfold SecurityGroup.check_resource in Eo.
  next H Eo as c0 Hc0. fold w0 in Eo.
  next H Eo as name Hname.
  next H Eo as sg Hsg.
  set (w1 := snd (SecurityGroup.get_security_group name VNone w0)) in *.
  exists name, sg. split; [exact Hname|]. split; [exact Hsg|].
  destruct (is_none sg) eqn:Es.
  - next H Eo as u Hset. destruct u. next H Eo as u Hset2. destruct u.
    unfold ret in Eo. subst out. cbn [fst snd] in H |- *. inversion H. subst c0.
    split; [|discriminate]. intros _. split.
    + rewrite (getattr_setattr _ _ _ _ _ Hset2). cbn [String.eqb Ascii.eqb Bool.eqb].
      now rewrite (getattr_setattr _ _ _ _ _ Hset).
    + now rewrite (getattr_setattr _ _ _ _ _ Hset2).
  - split; [discriminate|]. intros _.
    next H Eo as description Hd. cbn [lift fst snd] in Hd, Eo.
    next H Eo as u Hset. destruct u.
    set (w2 := snd (setattr c0 "description" description w1)) in *.
    next H Eo as u Hset2. destruct u.
    set (w3 := snd (setattr c0 "rules" (VList []) w2)) in *.
    next H Eo as listed Hlisted. cbn [lift fst snd] in Hlisted, Eo.
    next H Eo as l Hl. cbn [lift fst snd] in Hl, Eo.
    assert (N3 : fst (getattr c0 "rules" w3) = Ok (VList [])).
    { unfold w3. now rewrite (getattr_setattr _ _ _ _ _ Hset2). }
    next H Eo as u Hloop. destruct u.
    destruct (rules_read c0 l w3 [] N3 Hloop) as (rules & Hrules & F & Hother).
    unfold ret in Eo. subst out. cbn [fst snd] in H |- *. inversion H. subst c0.
    exists description, listed, l, rules.
    repeat (split; [assumption|]).
    assert (A3 : adapter w3 = adapter w).
    { unfold w3, w2. rewrite !setattr_adapter. unfold w1.
      assert (A1 : forall n i w, adapter (snd (SecurityGroup.get_security_group n i w))
                                 = adapter w)
        by same_adapter SG_get_security_group_respects.
      rewrite A1. unfold w0. apply clone_adapter. }
    split; [|split; [exact Hrules | split]].
    + etransitivity; [exact (Hother "description" ltac:(discriminate))|]. unfold w3.
      rewrite (getattr_setattr _ _ _ _ _ Hset2). cbn [String.eqb Ascii.eqb Bool.eqb].
      unfold w2. now rewrite (getattr_setattr _ _ _ _ _ Hset).
    + clear - F A3. induction F as [|x y l1 l2 (w4 & A4 & R4) _ IHF]; constructor.
      * exists w4. split; [congruence | exact R4].
      * exact IHF.
    + etransitivity; [exact (Hother "purged" ltac:(discriminate))|]. unfold w3.
      rewrite (getattr_setattr _ _ _ _ _ Hset2). cbn [String.eqb Ascii.eqb Bool.eqb].
      unfold w2. rewrite (getattr_setattr _ _ _ _ _ Hset).
      cbn [String.eqb Ascii.eqb Bool.eqb].
      rewrite (getattr_same_store c "purged" w0 w1)
        by apply SG_get_security_group_store.
      unfold w0. apply (clone_reads resource w c "purged" Hc0).
Qed.

Lemma get_network_id_store : forall project_id name w,
  store (snd (get_network_id project_id name w)) = store w.
Proof. same_store get_network_id_respects. Qed.

Lemma get_host_store : forall project_id name w,
  store (snd (get_host project_id name w)) = store w.
Proof. same_store get_host_respects. Qed.

(** The attributes of a clone whose port the remote side does not have. *)
Lemma HostPort_absent : forall c0 w c,
  fst ((setattr c0 "id" (VInt 0) ;;;
        setattr c0 "purged" (VBool true) ;;;
        setattr c0 "address" (VStr "") ;;;
        ret c0) w) = Ok c ->
  let w' := snd ((setattr c0 "id" (VInt 0) ;;;
                  setattr c0 "purged" (VBool true) ;;;
                  setattr c0 "address" (VStr "") ;;;
                  ret c0) w) in
  c = c0
  /\ fst (getattr c "id" w') = Ok (VInt 0)
  /\ fst (getattr c "purged" w') = Ok (VBool true)
  /\ fst (getattr c "address" w') = Ok (VStr "").
Proof.
  intros c0 w c H w'. subst w'.
  match type of H with fst ?t = _ => remember t as out eqn:Eo end.
  next H Eo as u S1. destruct u. next H Eo as u S2. destruct u.
  next H Eo as u S3. destruct u. unfold ret in Eo. subst out.
  cbn [fst snd] in H |- *. inversion H. subst c0. split; [reflexivity|].
  rewrite !(getattr_setattr _ _ _ _ _ S3). cbn [String.eqb Ascii.eqb Bool.eqb].
  rewrite !(getattr_setattr _ _ _ _ _ S2). cbn [String.eqb Ascii.eqb Bool.eqb].
  rewrite (getattr_setattr _ _ _ _ _ S1). cbn [String.eqb Ascii.eqb Bool.eqb].
  repeat split; reflexivity.
Qed.

(** The read of a port of a host: the lookups of the project, the
    network, the host and the port of the host on the network; the clone
    is purged, with the id 0 and no address, where there is no such port,
    and has the name, the port security and, without dhcp, the first
    address of the port where there is one. *)
Lemma HostPort_read : forall resource w c,
  fst (HostPort.check_resource resource w) = Ok c ->
  let w0 := snd (clone resource w) in
  let w' := snd (HostPort.check_resource resource w) in
  exists project project_id network network_id host vm port,
    let w1 := snd (get_project_id resource project w0) in
    let w2 := snd (get_network_id project_id network w1) in
    let w3 := snd (get_host project_id host w2) in
    fst (getattr resource "project" w0) = Ok project
    /\ fst (get_project_id resource project w0) = Ok project_id
    /\ fst (getattr resource "network" w0) = Ok network
    /\ fst (get_network_id project_id network w1) = Ok network_id
    /\ fst (getattr resource "host" w0) = Ok host
    /\ fst (get_host project_id host w2) = Ok vm
    /\ ((is_none vm = true /\ port = VNone)
        \/ (is_none vm = false
            /\ exists vm_id, attr vm "id" = Ok vm_id
                 /\ fst (HostPort.get_port network_id vm_id w3) = Ok port))
    /\ (is_none port = true ->
        fst (getattr c "id" w') = Ok (VInt 0)
        /\ fst (getattr c "purged" w') = Ok (VBool true)
        /\ fst (getattr c "address" w') = Ok (VStr ""))
    /\ (is_none port = false ->
        exists enabled name dhcp,
          item port "port_security_enabled" = Ok enabled
          /\ fst (getattr c "portsecurity" w') = Ok enabled
          /\ item port "name" = Ok name
          /\ fst (getattr c "name" w') = Ok name
          /\ fst (getattr resource "dhcp" w0) = Ok dhcp
          /\ (truthy dhcp = false ->
              exists ips first address,
                item port "fixed_ips" = Ok ips /\ at_ ips 0 = Ok first
                /\ item first "ip_address" = Ok address
                /\ fst (getattr c "address" w') = Ok address)).
Proof.
  intros resource w c H w0 w'. subst w'.
  remember (HostPort.check_resource resource w) as out eqn:Eo.
  unfold HostPort.check_resource in Eo.
  next H Eo as c0 Hc0. fold w0 in Eo.
  next H Eo as project Hproject.
  next H Eo as project_id Hpid.
  set (w1 := snd (get_project_id resource project w0)) in *.
  assert (S1 : store w1 = store w0) by apply get_project_id_store.
  next H Eo as network Hnet.
  next H Eo as network_id Hnid.
  set (w2 := snd (get_network_id project_id network w1)) in *.
  assert (S2 : store w2 = store w0).
  { unfold w2. now rewrite get_network_id_store. }
  next H Eo as host Hhost.
  next H Eo as vm Hvm.
  set (w3 := snd (get_host project_id host w2)) in *.
  assert (S3 : store w3 = store w0).
  { unfold w3. now rewrite get_host_store. }
  assert (Hnet0 : fst (getattr resource "network" w0) = Ok network)
    by now apply reads_store with w1.
  assert (Hhost0 : fst (getattr resource "host" w0) = Ok host)
    by now apply reads_store with w2.
  assert (Tail : forall port wx,
            store wx = store w0 ->
            out = (if negb (is_none port)
                   then
                     dhcp <- getattr resource "dhcp" ;;
                     (if negb (truthy dhcp)
                      then
                        fixed_ips <- lift (item port "fixed_ips") ;;
                        first <- lift (at_ fixed_ips 0) ;;
                        address <- lift (item first "ip_address") ;;
                        setattr c0 "address" address
                      else ret tt) ;;;
                     enabled <- lift (item port "port_security_enabled") ;;
                     setattr c0 "portsecurity" enabled ;;;
                     name <- lift (item port "name") ;;
                     setattr c0 "name" name ;;; ret c0
                   else
                     setattr c0 "id" (VInt 0) ;;;
                     setattr c0 "purged" (VBool true) ;;;
                     setattr c0 "address" (VStr "") ;;; ret c0) wx ->
            (is_none port = true ->
             fst (getattr c "id" (snd out)) = Ok (VInt 0)
             /\ fst (getattr c "purged" (snd out)) = Ok (VBool true)
             /\ fst (getattr c "address" (snd out)) = Ok (VStr ""))
            /\ (is_none port = false ->
                exists enabled name dhcp,
                  item port "port_security_enabled" = Ok enabled
                  /\ fst (getattr c "portsecurity" (snd out)) = Ok enabled
                  /\ item port "name" = Ok name
                  /\ fst (getattr c "name" (snd out)) = Ok name
                  /\ fst (getattr resource "dhcp" w0) = Ok dhcp
                  /\ (truthy dhcp = false ->
                      exists ips first address,
                        item port "fixed_ips" = Ok ips /\ at_ ips 0 = Ok first
                        /\ item first "ip_address" = Ok address
                        /\ fst (getattr c "address" (snd out)) = Ok address))).
  { clear Eo. intros port wx Sx Eo. destruct (is_none port) eqn:Ep; cbn [negb] in Eo.
    - split; [|discriminate]. intros _.
      assert (Ha : fst ((setattr c0 "id" (VInt 0) ;;;
                         setattr c0 "purged" (VBool true) ;;;
                         setattr c0 "address" (VStr "") ;;; ret c0) wx) = Ok c)
        by (rewrite <- Eo; exact H).
      destruct (HostPort_absent c0 wx c Ha) as (_ & A1 & A2 & A3).
      rewrite Eo. auto.
    - split; [discriminate|]. intros _.
      next H Eo as dhcp Hdhcp.
      assert (Hdhcp0 : fst (getattr resource "dhcp" w0) = Ok dhcp)
        by now apply reads_store with wx.
      destruct (truthy dhcp) eqn:Et; cbn [negb] in Eo.
      + rewrite bind_ret_run in Eo.
        next H Eo as enabled He. cbn [lift fst snd] in He, Eo.
        next H Eo as u T1. destruct u.
        next H Eo as name Hn. cbn [lift fst snd] in Hn, Eo.
        next H Eo as u T2. destruct u.
        unfold ret in Eo. subst out. cbn [fst snd] in H |- *. inversion H. subst c0.
        exists enabled, name, dhcp.
        split; [exact He|]. split; [|split; [exact Hn | split; [|split; [exact Hdhcp0|]]]].
        * rewrite (getattr_setattr _ _ _ _ _ T2). cbn [String.eqb Ascii.eqb Bool.eqb].
          now rewrite (getattr_setattr _ _ _ _ _ T1).
        * now rewrite (getattr_setattr _ _ _ _ _ T2).
        * intros Hf. congruence.
      + rewrite !bind_assoc_run in Eo.
        next H Eo as ips Hips. cbn [lift fst snd] in Hips, Eo.
        rewrite !bind_assoc_run in Eo.
        next H Eo as first Hfirst. cbn [lift fst snd] in Hfirst, Eo.
        rewrite !bind_assoc_run in Eo.
        next H Eo as address Haddr. cbn [lift fst snd] in Haddr, Eo.
        next H Eo as u T0. destruct u.
        next H Eo as enabled He. cbn [lift fst snd] in He, Eo.
        next H Eo as u T1. destruct u.
        next H Eo as name Hn. cbn [lift fst snd] in Hn, Eo.
        next H Eo as u T2. destruct u.
        unfold ret in Eo. subst out. cbn [fst snd] in H |- *. inversion H. subst c0.
        exists enabled, name, dhcp.
        split; [exact He|]. split; [|split; [exact Hn | split; [|split; [exact Hdhcp0|]]]].
        * rewrite (getattr_setattr _ _ _ _ _ T2). cbn [String.eqb Ascii.eqb Bool.eqb].
          now rewrite (getattr_setattr _ _ _ _ _ T1).
        * now rewrite (getattr_setattr _ _ _ _ _ T2).
        * intros _. exists ips, first, address. repeat (split; [assumption|]).
          rewrite (getattr_setattr _ _ _ _ _ T2). cbn [String.eqb Ascii.eqb Bool.eqb].
          rewrite (getattr_setattr _ _ _ _ _ T1). cbn [String.eqb Ascii.eqb Bool.eqb].
          now rewrite (getattr_setattr _ _ _ _ _ T0). }
  destruct (is_none vm) eqn:Ev; cbn [negb] in Eo.
  - rewrite bind_ret_run in Eo.
    exists project, project_id, network, network_id, host, vm, VNone. cbv zeta.
    repeat (split; [assumption|]).
    split; [left; now split|]. apply (Tail VNone w3 S3 Eo).
  - rewrite bind_assoc_run in Eo.
    next H Eo as vm_id Hvid. cbn [lift fst snd] in Hvid, Eo.
    next H Eo as port Hport.
    exists project, project_id, network, network_id, host, vm, port. cbv zeta.
    repeat (split; [assumption|]).
    split; [right; split; [exact Ev|]; exists vm_id; now split|].
    apply (Tail port _ ltac:(
      assert (Sp : forall n d w, store (snd (HostPort.get_port n d w)) = store w)
        by same_store HostPort_get_port_respects;
      rewrite Sp; exact S3) Eo).
Qed.

(** ** When the reads return *)

Lemma bind_run : forall A B (m : M A) (k : A -> M B) w a,
  fst (m w) = Ok a -> bind m k w = k a (snd (m w)).
Proof.
  intros A B m k w a. unfold bind.
  destruct (m w) as [[x | e] w1]; cbn [fst snd]; [|discriminate].
  now intros [= ->].
Qed.

Lemma clone_returns : forall r w o,
  nth_error (store w) r = Some o ->
  fst (clone r w) = Ok (List.length (store w))
  /\ List.length (store (snd (clone r w))) = S (List.length (store w)).
Proof.
  intros r w o H. unfold clone. rewrite H. cbn [fst snd store].
  split; [reflexivity|]. rewrite length_app. cbn [List.length]. lia.
Qed.

Lemma setattr_in : forall r name v w,
  r < List.length (store w) -> fst (setattr r name v w) = Ok tt.
Proof.
  intros r name v w H. unfold setattr.
  destruct (nth_error (store w) r) eqn:E; [reflexivity|].
  apply nth_error_None in E. lia.
Qed.

Lemma client_call_run : forall A name arguments (k : value -> M A) w v,
  adapter w (trace w) (mkCall name arguments) = Ok v ->
  bind (client_call name arguments) k w
  = k v (snd (client_call name arguments w)).
Proof. intros A name arguments k w v H. apply bind_run. exact H. Qed.

(** One step of a run, forwards. *)
Ltac step_set Eo :=
  rewrite setattr_run in Eo by (apply setattr_in; rewrite ?setattr_store_length; lia).

Lemma names_of_groups_returns : forall l names (acc : list value) (w : world),
  Forall2 (fun sg n => attr sg "name" = Ok n) l names ->
  for_each l acc (fun names sg =>
    n <- lift (attr sg "name") ;; ret (names ++ [n])%list) w
  = (Ok (acc ++ names)%list, w).
Proof.
  intros l names acc w F. revert acc. induction F as [|sg n l names Hn _ IH]; intros acc.
  - cbn [for_each ret]. now rewrite app_nil_r.
  - cbn [for_each]. rewrite bind_assoc_run, Hn, bind_lift_ok, bind_ret_run, IH.
    now rewrite <- app_assoc.
Qed.

Lemma VM_returns : forall resource w o name server,
  nth_error (store w) resource = Some o ->
  let w0 := snd (clone resource w) in
  fst (getattr resource "name" w0) = Ok name ->
  fst (VM.get_vm name w0) = Ok server ->
  (is_none server = false ->
   exists groups l names,
     adapter w (trace (snd (VM.get_vm name w0)))
       (mkCall "server.list_security_group" [server]) = Ok groups
     /\ iterate groups = Ok l
     /\ Forall2 (fun sg n => attr sg "name" = Ok n) l names) ->
  fst (VM.check_resource resource w) = Ok (List.length (store w)).
Proof.
  intros resource w o name server Ho w0 Hname Hserver Hgroups.
  destruct (clone_returns resource w o Ho) as [Hc L0]. fold w0 in L0.
  remember (VM.check_resource resource w) as out eqn:Eo.
  unfold VM.check_resource in Eo.
  rewrite (bind_run _ _ _ _ _ _ Hc) in Eo. fold w0 in Eo.
  rewrite (bind_getattr_run _ _ _ _ _ _ Hname) in Eo.
  rewrite (bind_run _ _ _ _ _ _ Hserver) in Eo.
  set (w1 := snd (VM.get_vm name w0)) in *.
  assert (L1 : List.length (store w1) = S (List.length (store w))).
  { unfold w1. now rewrite get_vm_store. }
  destruct (is_none server) eqn:Es.
  - step_set Eo. now subst out.
  - step_set Eo.
    set (w2 := snd (setattr (List.length (store w)) "purged" (VBool false) w1)) in *.
    destruct (Hgroups eq_refl) as (groups & l & names & Hg & Hl & F).
    assert (G : adapter w2 (trace w2) (mkCall "server.list_security_group" [server])
                = Ok groups).
    { unfold w2. rewrite setattr_adapter, setattr_trace. unfold w1 at 1.
      rewrite get_vm_adapter. unfold w0 at 1.
      now rewrite (proj1 (clone_adapter _ _)). }
    rewrite (client_call_run _ _ _ _ _ _ G) in Eo.
    rewrite Hl, bind_lift_ok in Eo.
    rewrite (bind_run _ _ _ _ _ (([] ++ names)%list)) in Eo
      by now rewrite (names_of_groups_returns l names).
    rewrite (names_of_groups_returns l names [] _ F) in Eo. cbn [snd app] in Eo.
    rewrite setattr_run in Eo
      by (apply setattr_in; cbn [client_call snd store]; unfold w2;
          rewrite setattr_store_length; lia).
    now subst out.
Qed.

Lemma FIP_get_port_id_store : forall name w,
  store (snd (FloatingIP.get_port_id name w)) = store w.
Proof. same_store FIP_get_port_id_respects. Qed.

Lemma FIP_get_floating_ip_store : forall port_id w,
  store (snd (FloatingIP.get_floating_ip port_id w)) = store w.
Proof. same_store FIP_get_floating_ip_respects. Qed.

Lemma FIP_returns : forall resource w o port port_id fip,
  nth_error (store w) resource = Some o ->
  let w0 := snd (clone resource w) in
  fst (getattr resource "port" w0) = Ok port ->
  fst (FloatingIP.get_port_id port w0) = Ok port_id ->
  fst (FloatingIP.get_floating_ip port_id (snd (FloatingIP.get_port_id port w0)))
  = Ok fip ->
  fst (FloatingIP.check_resource resource w) = Ok (List.length (store w)).
Proof.
  intros resource w o port port_id fip Ho w0 Hport Hid Hfip.
  destruct (clone_returns resource w o Ho) as [Hc L0]. fold w0 in L0.
  remember (FloatingIP.check_resource resource w) as out eqn:Eo.
  unfold FloatingIP.check_resource in Eo.
  rewrite (bind_run _ _ _ _ _ _ Hc) in Eo. fold w0 in Eo.
  rewrite (bind_getattr_run _ _ _ _ _ _ Hport) in Eo.
  rewrite (bind_run _ _ _ _ _ _ Hid) in Eo.
  rewrite (bind_run _ _ _ _ _ _ Hfip) in Eo.
  destruct (is_none fip);
    rewrite setattr_run in Eo
      by (apply setattr_in;
          rewrite FIP_get_floating_ip_store, FIP_get_port_id_store; lia);
    now subst out.
Qed.

(** The loop over the rules of the remote group returns when the read of
    each of its rules of ethertype IPv4 does. *)
Lemma rules_read_returns : forall current l wa w acc,
  adapter w = adapter wa ->
  fst (getattr current "rules" w) = Ok (VList acc) ->
  Forall (fun rule =>
            exists ethertype,
              item rule "ethertype" = Ok ethertype
              /\ (py_eq ethertype (VStr "IPv4") = true ->
                  forall w1, adapter w1 = adapter wa ->
                    exists r, fst (SecurityGroup.read_rule rule w1) = Ok r)) l ->
  fst (for_ l (fun rule =>
         ethertype <- lift (item rule "ethertype") ;;
         if negb (py_eq ethertype (VStr "IPv4")) then ret tt
         else
           current_rule <- SecurityGroup.read_rule rule ;;
           SecurityGroup.append_rule current current_rule) w) = Ok tt.
Proof.
  intros current l wa. induction l as [|rule l IH]; intros w acc A Hacc F;
    unfold for_; cbn [for_each].
  - reflexivity.
  - inversion F as [|x l0 (ethertype & He & Hread) F']. subst x l0.
    match goal with |- fst ?t = _ => remember t as out eqn:Eo end.
    rewrite bind_assoc_run, He, bind_lift_ok in Eo.
    destruct (py_eq ethertype (VStr "IPv4")) eqn:E4; cbn [negb] in Eo.
    + destruct (Hread eq_refl w A) as (r & Hr).
      rewrite bind_assoc_run, (bind_run _ _ _ _ _ _ Hr) in Eo.
      set (w1 := snd (SecurityGroup.read_rule rule w)) in *.
      assert (S1 : store w1 = store w) by apply read_rule_store.
      assert (N1 : fst (getattr current "rules" w1) = Ok (VList acc))
        by now apply reads_store with w.
      unfold SecurityGroup.append_rule in Eo.
      rewrite bind_assoc_run, (bind_getattr_run _ _ _ _ _ _ N1) in Eo.
      assert (Hset : fst (setattr current "rules" (VList (acc ++ [r])%list) w1) = Ok tt)
        by exact (setattr_ok _ _ _ _ _ _ N1).
      rewrite (setattr_run _ _ _ _ _ _ Hset) in Eo. subst out.
      apply (IH _ (acc ++ [r])%list).
      * rewrite setattr_adapter. unfold w1. now rewrite read_rule_adapter.
      * now rewrite (getattr_setattr _ _ _ _ _ Hset).
      * exact F'.
    + rewrite bind_ret_run in Eo. subst out. now apply (IH w acc).
Qed.

Lemma SG_returns : forall resource w o name sg,
  nth_error (store w) resource = Some o ->
  let w0 := snd (clone resource w) in
  fst (getattr resource "name" w0) = Ok name ->
  fst (SecurityGroup.get_security_group name VNone w0) = Ok sg ->
  (is_none sg = false ->
   exists description listed l,
     item sg "description" = Ok description
     /\ item sg "security_group_rules" = Ok listed
     /\ iterate listed = Ok l
     /\ Forall (fun rule =>
                  exists ethertype,
                    item rule "ethertype" = Ok ethertype
                    /\ (py_eq ethertype (VStr "IPv4") = true ->
                        forall w1, adapter w1 = adapter w ->
                          exists r, fst (SecurityGroup.read_rule rule w1) = Ok r)) l) ->
  fst (SecurityGroup.check_resource resource w) = Ok (List.length (store w)).
Proof.
  intros resource w o name sg Ho w0 Hname Hsg Hrules.
  destruct (clone_returns resource w o Ho) as [Hc L0]. fold w0 in L0.
  remember (SecurityGroup.check_resource resource w) as out eqn:Eo.
  unfold SecurityGroup.check_resource in Eo.
  rewrite (bind_run _ _ _ _ _ _ Hc) in Eo. fold w0 in Eo.
  rewrite (bind_getattr_run _ _ _ _ _ _ Hname) in Eo.
  rewrite (bind_run _ _ _ _ _ _ Hsg) in Eo.
  set (w1 := snd (SecurityGroup.get_security_group name VNone w0)) in *.
  assert (L1 : List.length (store w1) = S (List.length (store w))).
  { unfold w1. now rewrite SG_get_security_group_store. }
  destruct (is_none sg) eqn:Es.
  - do 2 step_set Eo. now subst out.
  - destruct (Hrules eq_refl) as (description & listed & l & Hd & Hlisted & Hl & F).
    rewrite Hd, bind_lift_ok in Eo. do 2 step_set Eo.
    rewrite Hlisted, bind_lift_ok, Hl, bind_lift_ok in Eo.
    set (c := List.length (store w)) in *.
    set (w2 := snd (setattr c "description" description w1)) in *.
    assert (Hset : fst (setattr c "rules" (VList []) w2) = Ok tt).
    { apply setattr_in. unfold w2. rewrite setattr_store_length. lia. }
    set (w3 := snd (setattr c "rules" (VList []) w2)) in *.
    assert (Hloop : fst (for_ l (fun rule =>
               ethertype <- lift (item rule "ethertype") ;;
               if negb (py_eq ethertype (VStr "IPv4")) then ret tt
               else
                 current_rule <- SecurityGroup.read_rule rule ;;
                 SecurityGroup.append_rule c current_rule) w3) = Ok tt).
    2: { rewrite (bind_run _ _ _ _ _ _ Hloop) in Eo. now subst out. }
    apply (rules_read_returns c l w w3 []); [| |exact F].
    + unfold w3, w2. rewrite !setattr_adapter. unfold w1.
      assert (A1 : forall n i w, adapter (snd (SecurityGroup.get_security_group n i w))
                                 = adapter w)
        by same_adapter SG_get_security_group_respects.
      rewrite A1. unfold w0. apply clone_adapter.
    + unfold w3. now rewrite (getattr_setattr _ _ _ _ _ Hset).
Qed.

Lemma HostPort_get_port_store : forall network_id device_id w,
  store (snd (HostPort.get_port network_id device_id w)) = store w.
Proof. same_store HostPort_get_port_respects. Qed.

Lemma HostPort_returns :
  forall resource w o project project_id network network_id host vm port,
  nth_error (store w) resource = Some o ->
  let w0 := snd (clone resource w) in
  let w1 := snd (get_project_id resource project w0) in
  let w2 := snd (get_network_id project_id network w1) in
  let w3 := snd (get_host project_id host w2) in
  fst (getattr resource "project" w0) = Ok project ->
  fst (get_project_id resource project w0) = Ok project_id ->
  fst (getattr resource "network" w0) = Ok network ->
  fst (get_network_id project_id network w1) = Ok network_id ->
  fst (getattr resource "host" w0) = Ok host ->
  fst (get_host project_id host w2) = Ok vm ->
  (is_none vm = true /\ port = VNone)
  \/ (is_none vm = false
      /\ exists vm_id, attr vm "id" = Ok vm_id
           /\ fst (HostPort.get_port network_id vm_id w3) = Ok port) ->
  (is_none port = false ->
   exists enabled name dhcp,
     item port "port_security_enabled" = Ok enabled
     /\ item port "name" = Ok name
     /\ fst (getattr resource "dhcp" w0) = Ok dhcp
     /\ (truthy dhcp = false ->
         exists ips first address,
           item port "fixed_ips" = Ok ips /\ at_ ips 0 = Ok first
           /\ item first "ip_address" = Ok address)) ->
  fst (HostPort.check_resource resource w) = Ok (List.length (store w)).
Proof.
  intros resource w o project project_id network network_id host vm port Ho
    w0 w1 w2 w3 Hproject Hpid Hnet Hnid Hhost Hvm Hport Hthere.
  destruct (clone_returns resource w o Ho) as [Hc L0]. fold w0 in L0.
  assert (S1 : store w1 = store w0) by apply get_project_id_store.
  assert (S2 : store w2 = store w0).
  { unfold w2. now rewrite get_network_id_store. }
  assert (S3 : store w3 = store w0).
  { unfold w3. now rewrite get_host_store. }
  assert (Hnet1 : fst (getattr resource "network" w1) = Ok network)
    by now apply reads_store with w0.
  assert (Hhost2 : fst (getattr resource "host" w2) = Ok host)
    by now apply reads_store with w0.
  remember (HostPort.check_resource resource w) as out eqn:Eo.
  unfold HostPort.check_resource in Eo.
  rewrite (bind_run _ _ _ _ _ _ Hc) in Eo. fold w0 in Eo.
  rewrite (bind_getattr_run _ _ _ _ _ _ Hproject) in Eo.
  rewrite (bind_run _ _ _ _ _ _ Hpid) in Eo. fold w1 in Eo.
  rewrite (bind_getattr_run _ _ _ _ _ _ Hnet1) in Eo.
  rewrite (bind_run _ _ _ _ _ _ Hnid) in Eo. fold w2 in Eo.
  rewrite (bind_getattr_run _ _ _ _ _ _ Hhost2) in Eo.
  rewrite (bind_run _ _ _ _ _ _ Hvm) in Eo. fold w3 in Eo.
  set (c := List.length (store w)) in *.
  assert (Tail : forall wx,
            store wx = store w0 ->
            fst ((if negb (is_none port)
                  then
                    dhcp <- getattr resource "dhcp" ;;
                    (if negb (truthy dhcp) then
                       fixed_ips <- lift (item port "fixed_ips") ;;
                       first <- lift (at_ fixed_ips 0) ;;
                       address <- lift (item first "ip_address") ;;
                       setattr c "address" address
                     else ret tt) ;;;
                    enabled <- lift (item port "port_security_enabled") ;;
                    setattr c "portsecurity" enabled ;;;
                    name <- lift (item port "name") ;;
                    setattr c "name" name ;;;
                    ret c
                  else
                    setattr c "id" (VInt 0) ;;;
                    setattr c "purged" (VBool true) ;;;
                    setattr c "address" (VStr "") ;;;
                    ret c) wx) = Ok c).
  { intros wx Sx.
    assert (Lx : c < List.length (store wx)) by (rewrite Sx; lia).
    match goal with |- fst ?t = _ => remember t as r eqn:Er end.
    destruct (is_none port) eqn:Ep; cbn [negb] in Er.
    - do 3 step_set Er. now subst r.
    - destruct (Hthere eq_refl) as (enabled & name & dhcp & He & Hn & Hd & Ha).
      assert (Hdx : fst (getattr resource "dhcp" wx) = Ok dhcp)
        by now apply reads_store with w0.
      rewrite (bind_getattr_run _ _ _ _ _ _ Hdx) in Er.
      destruct (truthy dhcp) eqn:Et; cbn [negb] in Er.
      + rewrite bind_ret_run, He, bind_lift_ok in Er. step_set Er.
        rewrite Hn, bind_lift_ok in Er. step_set Er. now subst r.
      + destruct (Ha eq_refl) as (ips & first & address & Hi & Hf & Had).
        rewrite bind_assoc_run, Hi, bind_lift_ok in Er.
        rewrite bind_assoc_run, Hf, bind_lift_ok in Er.
        rewrite bind_assoc_run, Had, bind_lift_ok in Er.
        step_set Er. rewrite He, bind_lift_ok in Er. step_set Er.
        rewrite Hn, bind_lift_ok in Er. step_set Er. now subst r. }
  destruct Hport as [[Ev ->] | (Ev & vm_id & Hid & Hp)]; rewrite Ev in Eo;
    cbn [negb] in Eo.
  - rewrite bind_ret_run in Eo. subst out. now apply Tail.
  - rewrite bind_assoc_run, Hid, bind_lift_ok in Eo.
    rewrite (bind_run _ _ _ _ _ _ Hp) in Eo. subst out. apply Tail.
    now rewrite HostPort_get_port_store.
Qed.
(** The reads that call [self.facts(resource)], one argument short: the
    call raises before anything is read. *)
Lemma read_raises_TypeError : forall h resource w o,
  h = RouterHandler \/ h = SubnetHandler \/ h = RouterPortHandler ->
  nth_error (store w) resource = Some o ->
  fst (check_resource h true resource w) = Raise TypeError.
Proof.
  intros h resource w o [-> | [-> | ->]] Ho;
    unfold check_resource, Router.check_resource, Subnet.check_resource,
      RouterPort.check_resource, bind, clone, self_facts, raise;
    rewrite Ho; reflexivity.
Qed.

Lemma read_never_returns : forall h resource w c,
  h = RouterHandler \/ h = SubnetHandler \/ h = RouterPortHandler ->
  fst (check_resource h true resource w) <> Ok c.
Proof.
  intros h resource w c Hh.
  destruct (nth_error (store w) resource) as [o|] eqn:Ho.
  - now rewrite (read_raises_TypeError h resource w o Hh Ho).
  - destruct Hh as [-> | [-> | ->]];
      unfold check_resource, Router.check_resource, Subnet.check_resource,
        RouterPort.check_resource, bind, clone;
      rewrite Ho; discriminate.
Qed.

(** C10 at its failing inputs, and where it holds.  [check_resource] of
    the router, subnet and router port handlers calls
    [self.facts(resource)], which Python rejects: on every resource it
    raises, a [TypeError] when the resource exists, and returns no clone.
    [check_resource] of every handler leaves the attributes of the desired
    resource as they were, and what it returns is a new object.  The
    clones that the host, security group, floating ip and host port
    handlers return hold what the lookups have found: whether the resource
    is there, and for a host its security groups, for a security group its
    description and its rules, for a port of a host its name, its port
    security and its address.  These four return the clone whenever the
    resource exists, their lookups return and what the lookups found has
    the items that are read. *)
Theorem check_resource_as_shipped : forall resource w,
  let w0 := snd (clone resource w) in
  (forall h, h = RouterHandler \/ h = SubnetHandler \/ h = RouterPortHandler ->
     (forall c, fst (check_resource h true resource w) <> Ok c)
     /\ (forall o, nth_error (store w) resource = Some o ->
           fst (check_resource h true resource w) = Raise TypeError))
  /\ (forall h strict,
        let out := check_resource h strict resource w in
        (forall field,
           fst (getattr resource field (snd out)) = fst (getattr resource field w))
        /\ (forall c, fst out = Ok c -> c = List.length (store w) /\ c <> resource))
  /\ (forall c,
        let out := check_resource VMHandler true resource w in
        fst out = Ok c ->
        exists name server,
          fst (getattr resource "name" w0) = Ok name
          /\ fst (VM.get_vm name w0) = Ok server
          /\ fst (getattr c "purged" (snd out)) = Ok (VBool (is_none server))
          /\ (is_none server = false ->
              exists groups l names,
                adapter w (trace (snd (VM.get_vm name w0)))
                  (mkCall "server.list_security_group" [server]) = Ok groups
                /\ iterate groups = Ok l
                /\ Forall2 (fun sg n => attr sg "name" = Ok n) l names
                /\ fst (getattr c "security_groups" (snd out)) = Ok (VList names)))
  /\ (forall c,
        let out := check_resource SecurityGroupHandler true resource w in
        fst out = Ok c ->
        exists name sg,
          fst (getattr resource "name" w0) = Ok name
          /\ fst (SecurityGroup.get_security_group name VNone w0) = Ok sg
          /\ (is_none sg = true ->
              fst (getattr c "purged" (snd out)) = Ok (VBool true)
              /\ fst (getattr c "rules" (snd out)) = Ok (VList []))
          /\ (is_none sg = false ->
              exists description listed l rules,
                item sg "description" = Ok description
                /\ item sg "security_group_rules" = Ok listed
                /\ iterate listed = Ok l
                /\ fst (getattr c "description" (snd out)) = Ok description
                /\ fst (getattr c "rules" (snd out)) = Ok (VList rules)
                /\ Forall2 (read_of_rule w) (filter is_ipv4 l) rules
                /\ fst (getattr c "purged" (snd out))
                   = fst (getattr resource "purged" w)))
  /\ (forall c,
        let out := check_resource FloatingIPHandler true resource w in
        fst out = Ok c ->
        exists port port_id fip,
          fst (getattr resource "port" w0) = Ok port
          /\ fst (FloatingIP.get_port_id port w0) = Ok port_id
          /\ fst (FloatingIP.get_floating_ip port_id
                    (snd (FloatingIP.get_port_id port w0))) = Ok fip
          /\ fst (getattr c "purged" (snd out)) = Ok (VBool (is_none fip)))
  /\ (forall c,
        let out := check_resource HostPortHandler true resource w in
        fst out = Ok c ->
        exists project project_id network network_id host vm port,
          let w1 := snd (get_project_id resource project w0) in
          let w2 := snd (get_network_id project_id network w1) in
          let w3 := snd (get_host project_id host w2) in
          fst (getattr resource "project" w0) = Ok project
          /\ fst (get_project_id resource project w0) = Ok project_id
          /\ fst (getattr resource "network" w0) = Ok network
          /\ fst (get_network_id project_id network w1) = Ok network_id
          /\ fst (getattr resource "host" w0) = Ok host
          /\ fst (get_host project_id host w2) = Ok vm
          /\ ((is_none vm = true /\ port = VNone)
              \/ (is_none vm = false
                  /\ exists vm_id, attr vm "id" = Ok vm_id
                       /\ fst (HostPort.get_port network_id vm_id w3) = Ok port))
          /\ (is_none port = true ->
              fst (getattr c "id" (snd out)) = Ok (VInt 0)
              /\ fst (getattr c "purged" (snd out)) = Ok (VBool true)
              /\ fst (getattr c "address" (snd out)) = Ok (VStr ""))
          /\ (is_none port = false ->
              exists enabled name dhcp,
                item port "port_security_enabled" = Ok enabled
                /\ fst (getattr c "portsecurity" (snd out)) = Ok enabled
                /\ item port "name" = Ok name
                /\ fst (getattr c "name" (snd out)) = Ok name
                /\ fst (getattr resource "dhcp" w0) = Ok dhcp
                /\ (truthy dhcp = false ->
                    exists ips first address,
                      item port "fixed_ips" = Ok ips /\ at_ ips 0 = Ok first
                      /\ item first "ip_address" = Ok address
                      /\ fst (getattr c "address" (snd out)) = Ok address)))
  /\ (forall o name server,
        nth_error (store w) resource = Some o ->
        fst (getattr resource "name" w0) = Ok name ->
        fst (VM.get_vm name w0) = Ok server ->
        (is_none server = false ->
         exists groups l names,
           adapter w (trace (snd (VM.get_vm name w0)))
             (mkCall "server.list_security_group" [server]) = Ok groups
           /\ iterate groups = Ok l
           /\ Forall2 (fun sg n => attr sg "name" = Ok n) l names) ->
        fst (check_resource VMHandler true resource w) = Ok (List.length (store w)))
  /\ (forall o name sg,
        nth_error (store w) resource = Some o ->
        fst (getattr resource "name" w0) = Ok name ->
        fst (SecurityGroup.get_security_group name VNone w0) = Ok sg ->
        (is_none sg = false ->
         exists description listed l,
           item sg "description" = Ok description
           /\ item sg "security_group_rules" = Ok listed
           /\ iterate listed = Ok l
           /\ Forall (fun rule =>
                        exists ethertype,
                          item rule "ethertype" = Ok ethertype
                          /\ (py_eq ethertype (VStr "IPv4") = true ->
                              forall w1, adapter w1 = adapter w ->
                                exists r,
                                  fst (SecurityGroup.read_rule rule w1) = Ok r)) l) ->
        fst (check_resource SecurityGroupHandler true resource w)
        = Ok (List.length (store w)))
  /\ (forall o port port_id fip,
        nth_error (store w) resource = Some o ->
        fst (getattr resource "port" w0) = Ok port ->
        fst (FloatingIP.get_port_id port w0) = Ok port_id ->
        fst (FloatingIP.get_floating_ip port_id
               (snd (FloatingIP.get_port_id port w0))) = Ok fip ->
        fst (check_resource FloatingIPHandler true resource w)
        = Ok (List.length (store w)))
  /\ (forall o project project_id network network_id host vm port,
        let w1 := snd (get_project_id resource project w0) in
        let w2 := snd (get_network_id project_id network w1) in
        let w3 := snd (get_host project_id host w2) in
        nth_error (store w) resource = Some o ->
        fst (getattr resource "project" w0) = Ok project ->
        fst (get_project_id resource project w0) = Ok project_id ->
        fst (getattr resource "network" w0) = Ok network ->
        fst (get_network_id project_id network w1) = Ok network_id ->
        fst (getattr resource "host" w0) = Ok host ->
        fst (get_host project_id host w2) = Ok vm ->
        (is_none vm = true /\ port = VNone)
        \/ (is_none vm = false
            /\ exists vm_id, attr vm "id" = Ok vm_id
                 /\ fst (HostPort.get_port network_id vm_id w3) = Ok port) ->
        (is_none port = false ->
         exists enabled name dhcp,
           item port "port_security_enabled" = Ok enabled
           /\ item port "name" = Ok name
           /\ fst (getattr resource "dhcp" w0) = Ok dhcp
           /\ (truthy dhcp = false ->
               exists ips first address,
                 item port "fixed_ips" = Ok ips /\ at_ ips 0 = Ok first
                 /\ item first "ip_address" = Ok address)) ->
        fst (check_resource HostPortHandler true resource w)
        = Ok (List.length (store w))).
Proof.
  intros resource w w0.
  split; [|split; [|split; [|split; [|split; [|split; [|split; [|split; [|split]]]]]]]];
    [| | | | | | exact (VM_returns resource w) | exact (SG_returns resource w)
     | exact (FIP_returns resource w)
     | intros o project project_id network network_id host vm port w1 w2 w3 Ho;
       exact (HostPort_returns resource w o project project_id network network_id
                host vm port Ho)].
  - intros h Hh. split.
    + intros c. now apply read_never_returns.
    + intros o Ho. now apply (read_raises_TypeError h resource w o).
  - intros h strict out.
    destruct (check_resource_frame h strict resource w) as (_ & F & N).
    split; [exact F|]. intros c Hc. destruct (N c Hc) as (N1 & _ & N3). now split.
  - intros c out Hc. exact (VM_read resource w c Hc).
  - intros c out Hc. exact (SG_read resource w c Hc).
  - intros c out Hc. exact (FIP_read resource w c Hc).
  - intros c out Hc. exact (HostPort_read resource w c Hc).
Qed.

Lemma check_resource_as_shipped_on_router_and_group :
  fst (check_resource RouterHandler true 0 world_with_router) = Raise TypeError
  /\ let out := check_resource SecurityGroupHandler true 0 world_with_group in
     let w0 := snd (clone 0 world_with_group) in
     fst out = Ok 1
     /\ fst (getattr 1 "rules" (snd out))
        = Ok (VList [VDict [("__id", VStr "rule-x"); ("protocol", VStr "tcp");
                            ("remote_ip_prefix", VStr "0.0.0.0/0");
                            ("direction", VStr "ingress");
                            ("port_range_min", VInt 80);
                            ("port_range_max", VInt 80)]])
     /\ exists name sg,
          fst (getattr 0 "name" w0) = Ok name
          /\ fst (SecurityGroup.get_security_group name VNone w0) = Ok sg
          /\ (is_none sg = true ->
              fst (getattr 1 "purged" (snd out)) = Ok (VBool true)
              /\ fst (getattr 1 "rules" (snd out)) = Ok (VList []))
          /\ (is_none sg = false ->
              exists description listed l rules,
                item sg "description" = Ok description
                /\ item sg "security_group_rules" = Ok listed
                /\ iterate listed = Ok l
                /\ fst (getattr 1 "description" (snd out)) = Ok description
                /\ fst (getattr 1 "rules" (snd out)) = Ok (VList rules)
                /\ Forall2 (read_of_rule world_with_group) (filter is_ipv4 l) rules
                /\ fst (getattr 1 "purged" (snd out))
                   = fst (getattr 0 "purged" world_with_group)).
Proof.
  split.
  - apply (proj2 (proj1 (check_resource_as_shipped 0 world_with_router)
                    RouterHandler (or_introl eq_refl)) router_resource).
    reflexivity.
  - split; [reflexivity|]. split; [reflexivity|].
    apply (proj1 (proj2 (proj2 (proj2 (check_resource_as_shipped 0 world_with_group))))
             1).
    reflexivity.
Defined.
